(* ===== verification/_CoqProject ===== *)
-Q . S2P
Prelude.v
Text.v
Protocol.v
GenQueue.v
GenDlist.v
HashMap.v
HashUtils.v
FreeMcQueue.v
Index.v
GroupMng.v
UserMng.v
ServerNet.v
NetSpec.v
ServerMng.v
ServerMain.v
ServerExact.v
ClientNet.v
ClientGroups.v
ClientMng.v
System.v
Ui.v
Script.v
Program.v
World.v
Interleave.v
ChatTools.v
Chat.v
MockServer.v
ServerTypes.v
TestProtocol.v
