(* ===== verification/Prelude.v ===== *)
(** * ChatProject: a verification development

    ChatProject is a group chat for a local network, in C.  A server keeps
    users, sessions and groups, and assigns every group a multicast address; a
    client talks to it over TCP with small type-length-value messages, and
    opens two windows per group, programs of their own, that send and receive
    the chat itself over UDP multicast.  This development models the server,
    the client, the windows and everything they share as executable functions,
    and proves what each part promises and that the parts fit together.

    ** Parts, and the files that model them

    Shared ([src/shared/]):
    - [Prelude]: this file.  Pointers, buffers, machine integers, C strings;
      undefined behaviour as [None]; the monad [M] of code that allocates; the
      tactics and general lemmas of the whole development.
    - [Text]: the functions of the standard library on characters that the
      program uses ([printf]'s conversions, [snprintf], [fgets], [atoi]).
    - [Protocol]: [protocol.h], [protocol.c]; opcodes, status codes, encoders
      and decoders.
    - [GenQueue]: [adt/genqueue.c], a circular buffer.
    - [GenDlist]: [adt/gen_dlist.c], a doubly linked list with a sentinel; the
      nodes of a list are a store of their own and every [->] is checked.
    - [HashMap]: [adt/HashMap.c], separate chaining over those lists.

    Server ([src/server/]):
    - [HashUtils]: [hash_utils.c], the hash and equality of string keys.
    - [FreeMcQueue]: [free_mc_queue.c], the pool of addresses, over [GenQueue].
    - [Index]: no code; what it means that a hash map indexes a heap by name.
    - [GroupMng]: [group_mng.c], groups, over [HashMap] and [FreeMcQueue].
    - [UserMng]: [user_mng.c], users and sessions, over [HashMap] and [GenDlist].
    - [ServerNet]: [server_net.c], the listening socket, the slot table, the
      select loop and the reassembly of messages.
    - [NetSpec]: no code; the specification of the slot table and of the events
      (message, hang-up) a run of the select loop consists of.
    - [ServerMng]: [server_mng.c], the three managers and one handler per request.
    - [ServerTypes]: no code; the types and sizes of the values the server keeps.
    - [ServerMain]: [server_main.c], the signal handler and the program.
    - [ServerExact]: no code; what the whole server program does.

    Client ([src/client/]):
    - [ClientNet]: [client_net.c], exact sends and receives.
    - [ClientGroups]: [client_groups_mng.c], [child_msg.h], the windows of the
      joined groups, over [GenDlist].
    - [ClientMng]: [client_mng.c], the login state and one function per request,
      over [Protocol], [ClientNet] and [ClientGroups].
    - [System]: no code of its own; the client's calls against the server's
      receive buffer and handlers as the other end of its connection.
    - [Ui]: [ui.c], [client_main.c], the text interface and the program.
    - [Script]: no code of its own; what to type for a sequence of requests.
    - [Program]: no code of its own; the client program with that server at the
      other end.
    - [World]: no code of its own; any number of clients of one server, one call
      after the other.
    - [Interleave]: no code of its own; their calls in flight at the same time.
    - [ChatTools]: [chat_sender.c], [chat_receiver.c], the two windows.
    - [Chat]: no code of its own; the windows of many clients on one network.

    Tests ([src/tests/]):
    - [MockServer]: [mock_server.c], the server the client was first tested with.
    - [TestProtocol]: [test_protocol.c], the tests of the codec.

    ** How the model corresponds to the code

    A definition has the name of the function it models; a loop of a function
    [f] is a fixpoint [f_loop] or is named after what it does.  Out-parameters
    and modified objects are passed and returned.  An object with one owner is
    its contents and a nullable pointer to it an option ([ptr]); objects that
    several pointers share (nodes, users, groups) live in a store [gmap loc _]
    that is threaded through the operations.  [uint8_t], [uint16_t] and [size_t]
    arithmetic is in [Z] with its wrap-around written out ([u8], [u16],
    [size_t]).  An access out of bounds, through [NULL] or to a freed object, a
    [char] array that is not terminated, a descriptor outside an [fd_set]: all
    of these are [None], so that a theorem which says that a function returns
    [Some _] says that it has no undefined behaviour.  Every allocation may
    fail: a run is given the outcomes in order ([plan]), and [live] counts the
    blocks that have not been freed, so that leaks and their absence can be
    stated.

    What the kernel and other programs do is an argument: what [socket],
    [bind], [listen], [select], [accept], [recv], [send], [connect], [system],
    [msgrcv] and the like answer, the bytes of the standard input, and for the
    client the other end of its connection.  What the program does to the world
    (messages, closed descriptors, commands, signals, printed text) is a log.
    A call that never returns (a [recv] or [msgrcv] for what never comes, a [send]
    that raises [SIGPIPE]) is recorded in the state: a connection is [halted], a
    system [stuck].  The functions of a component compute on as if the call had
    failed; what comes of a whole program ([server_process], [client_process]) and
    of its interface ([ui_process]) leaves out all that follows such a call.

    The parts meet at interfaces, each a class with its instances: [HashKey]
    (the hash map and its keys; [string_HashKey]), [Handlers] (the network layer
    and the layer above; [server_Handlers]), [Peer] (a program and the other end
    of its connection; [server_Peer] and [mock_Peer] for a client, [recorder_Peer]
    for the mock server).  The theorems of a client of an
    interface hold for every instance.  Each component has a representation
    predicate that relates its state to an abstract one: [queue_rep], [dl_rep],
    [hm_rep], [pool_rep], [gm_rep], [um_rep], [sv_rep], [net_inv], [cg_rep],
    [cm_rep], [world_rep].

    ** What is proved

    - Containers: every sequence of calls on the queue, the list and the hash
      map behaves as on a bounded FIFO, a sequence and a finite map
      ([queue_refines_fifo], [dlist_refines_sequence], [hashmap_refines_gmap]);
      traversal and destruction meet every element once and free everything
      ([queue_destroy_foreach], [dlist_destroy_foreach],
      [hashmap_destroy_foreach]); an insertion that runs out of memory undoes
      itself ([hashmap_insert_failure]); capacities are the least primes
      up to the largest of 32 bits ([next_prime_correct]).
    - Protocol: encoders write exactly the frame, decoders never leave the
      buffer, accept exactly the byte strings whose declared fields lie within the
      bytes received (more than the encoders write: [user_pass_accepts_loose]), and
      decoding inverts encoding ([user_pass_encoder_exact], [request_decoders_safe],
      [user_pass_accepts_iff], [user_pass_roundtrip], [groupname_roundtrip],
      [group_reply_roundtrip]).
    - Managers of the server: the result and effect of every operation on every
      branch, failing allocations included ([user_register_outcomes],
      [user_login_exact], [user_logout_leaves_all], [user_join_leave],
      [group_create_outcomes], [group_leave_reclaims], [pool_hands_out];
      also [group_leave_undoes_join], [pool_take_return]).
    - Server: a message, and any sequence of messages and disconnects, refines
      the specified step of the abstract server [spec_request]
      ([handle_message_refines], [server_run_refines],
      [unauthenticated_rejected]).  When memory runs out a request may lose addresses
      that should return to the pool, or be answered with an error and have no
      other effect ([effect]); the theorems about the server cover such runs, and
      those about client and server together assume that memory lasts.
      Addresses are never shared or made up, nor lost while memory lasts
      ([addresses_conserved]); every value kept has its C type and fits its array
      ([server_values_fit]); the reassembly delivers exactly the frames of the
      stream however it is cut ([stream_framing]).  The one undefined behaviour of
      the select loop and of the whole program, for every kernel that keeps to its
      documented interface, is a descriptor at or above [FD_SETSIZE]; as long as
      none arrives they are safe, and when the program ends everything is freed
      ([server_loop_safe], [main_safe]).  A send that raises [SIGPIPE] ends the
      process where it stands ([main_safe]).  The loop performs exactly the events
      its specification gives for the kernel's answers ([select_loop_exact]), and
      so the whole program does, for any number of clients and any interleaving
      of their bytes, exactly what the abstract server does on the frames in the
      order in which they become complete ([server_program_exact]).  Both hold at
      every moment: a run ends only when [SIGINT] has been handled or [select] has
      failed, and a run that has not ended is described as well.
    - Client: the transport hands over and takes exactly one frame
      ([client_transport_exact]); each call, and each whole session, does what it
      means against any other end ([client_call_exact], [client_session_safe]);
      the windows of groups whose two commands succeeded are tracked, and killed
      exactly once ([client_windows_tracked]; the sender window of a join that
      fails half-way is not, [orphan_window]).
    - Client and server together ([client_server_agree]): every call returns
      what the specification of the server answers, and both sides agree
      afterwards on the session and its groups.  For the whole client program on
      any input ([program_meets_server]): every request it makes is answered, the
      server is in the specified state, the program ends unless a window never
      reports, for which it then waits, and nothing of the client is left when it
      has closed the connection; and typing any sequence of requests the screens
      allow has exactly the specified effect
      ([program_does_what_is_typed]).
    - Many clients ([World]): any calls and exits of any clients in any order
      refine the specification, and every client stays in agreement with the
      server whatever the others do ([world_refines]); two windows, of whatever
      clients, are on the same multicast address and port exactly if they are of
      the same group ([windows_share_address]).  There a call and its reply are one
      step.  With the bytes of all connections on the way at the same time, arriving
      in pieces in any order, every call still takes effect at one moment between
      its start and its return, and the run is one of those ([calls_linearize]).
    - The chat itself ([group_chat]): after any such run, what is typed in a
      sender window is sent whole and in order; every datagram a receiver window
      gets, through a network that may lose, repeat and reorder them, is printed
      whole and is something said in its group, under the name of the one who said
      it; and if nothing is lost or reordered it prints exactly what was said
      there.
    - Tests: the mock server does what its header says ([mock_main_exact]) and, for
      registrations and for logins up to the first that succeeds, cannot be told
      from the real server ([mock_agrees_with_server]); the tests of the codec
      pass on the model ([protocol_tests_pass]).
    - Interface and windows: what a line of input is, that the interface ends
      on every input unless a request of its never comes back, which requests it
      makes, and that it makes those that are typed ([ui_asks_what_is_typed]); the safety of the whole
      client program, and that what is typed in one window is what another
      prints ([read_line_exact], [ui_run_requests], [client_main_safe],
      [chat_windows_start], [chat_lines_delivered]).

    ** Fuel

    A loop without a structural measure takes fuel, and running out of it is
    [None], so every theorem that a function returns a result also says that
    the fuel was enough.  It is the number of nodes for a loop over a list,
    the number of slots or buckets for a loop over an array, the pending bytes
    for [ProcessBuffer] (a message has at least two), the bytes still to
    transfer for the loops of the transport (each turn moves at least one), the
    bytes of the stream for the serving loop of the mock server, the
    bytes of the input for the loops of the interface and the sender (each turn
    reads at least one).  Trial division and the search for the next prime are run
    for up to 2^64 turns ([run_turns]), more than their 64-bit counters allow;
    the theorems say that they return.  The loops that
    only the environment ends ([select], the receiver) recurse on the list of
    its answers.

    ** What is not modelled

    - Text on the standard error, and the logs the servers and the tests print.
    - What the server's [send] has transferred: a message it sends is logged
      whole, also when [send] has failed or was cut short, which the code does not
      look at.
    - Signals other than [SIGINT] and [SIGPIPE], and [SIGINT] before its handler is
      installed.
    - Time: the server waits in [select] where the list of answers ends.
    - The shell, the terminal and the network between the windows: they are
      arguments, of which [group_chat] uses only what is documented ([Opens]).
    - [HashMap_Rehash] and [HashMap_GetStatistics], which are declared and have
      no definition; the Makefile, the stress test script and the documents. *)

From stdpp Require Export gmap list.

(** ** Notations and numbers of the C subset *)

Declare Scope c_scope.
Delimit Scope c_scope with C.

Open Scope Z_scope.

(** A nullable pointer to an object that has one owner: [None] is [NULL] and
    [Some x] a pointer to an object whose present contents are [x]. *)
Abbreviation ptr := option (only parsing).
Abbreviation NULL := None (only parsing).

(** An address of an object that is shared by several pointers; such objects
    live in a store [gmap loc _] that is threaded through the operations. *)
Abbreviation loc := positive (only parsing).

(** Byte buffers ([uint8_t*], [char[N]]): lists of byte values. *)
Abbreviation bytes := (list Z) (only parsing).

(** The characters of a NUL-terminated string, without the NUL. *)
Abbreviation cstring := (list Z) (only parsing).

(** Wrap-around of the unsigned types. *)
Definition u8 (z : Z) : Z := z mod 2 ^ 8.
Definition u16 (z : Z) : Z := z mod 2 ^ 16.
Definition size_t (z : Z) : Z := z mod 2 ^ 64.

Definition is_u8 (z : Z) : Prop := 0 <= z < 256.
Definition is_u16 (z : Z) : Prop := 0 <= z < 65536.
Definition is_byte_list (b : bytes) : Prop := Forall is_u8 b.

(** A legal C string content: bytes none of which is the terminator. *)
Definition is_cstring (s : cstring) : Prop := Forall (fun c => 1 <= c < 256) s.

(** [strlen] *)
Definition strlen (s : cstring) : Z := Z.of_nat (length s).

(** Length of a buffer as a C integer. *)
Definition blen (b : bytes) : Z := Z.of_nat (length b).

(** ** Undefined behaviour

    Pure code that may have undefined behaviour is in the option monad: [None]
    is undefined behaviour (an out-of-bounds access, a use of a freed object)
    or, for a loop, a run longer than its fuel.  A theorem that a function
    returns [Some _] states that neither happens. *)

(** [b[i]] *)
Definition buf_get (b : bytes) (i : Z) : option Z :=
  if 0 <=? i then b !! Z.to_nat i else None.

(** [b[i] = v] for a [uint8_t] element: the value is converted. *)
Definition buf_set (b : bytes) (i v : Z) : option bytes :=
  if (0 <=? i) && (i <? blen b) then Some (<[Z.to_nat i := u8 v]> b) else None.

(** The [n] bytes at [&b[i]]: the source of a [memcpy] or [memmove]. *)
Definition buf_slice (b : bytes) (i n : Z) : option bytes :=
  if (0 <=? i) && (0 <=? n) && (i + n <=? blen b)
  then Some (take (Z.to_nat n) (drop (Z.to_nat i) b)) else None.

(** [memcpy(&b[i], src, length src)] *)
Definition buf_write (b : bytes) (i : Z) (src : bytes) : option bytes :=
  if (0 <=? i) && (i + blen src <=? blen b)
  then Some (take (Z.to_nat i) b ++ src ++ drop (Z.to_nat i + length src) b)
  else None.

(** Reading a [char] buffer as a C string: the bytes before the first NUL; a
    buffer without NUL is read past its end. *)
Fixpoint c_str (b : bytes) : option cstring :=
  match b with
  | [] => None
  | c :: b' => if c =? 0 then Some [] else (c ::.) <$> c_str b'
  end.

(** The bytes before the first NUL, if there is one. *)
Fixpoint c_prefix (b : bytes) : cstring :=
  match b with
  | [] => []
  | c :: b => if c =? 0 then [] else c :: c_prefix b
  end.

(** [strcpy(dst, s)] into a [char dst[cap]]: the string read back. *)
Definition strcpy (cap : Z) (s : cstring) : option cstring :=
  if strlen s <? cap then Some s else None.

(** [strncpy(dst, s, n); dst[n] = 0] into a [char dst[n + 1]]: the string read
    back is the first [n] characters of [s]. *)
Definition strncpy (n : Z) (s : cstring) : cstring := take (Z.to_nat n) s.

(** [0 == strcmp(s, t)] *)
Definition str_eqb (s t : cstring) : bool := bool_decide (s = t).

(** ** Allocation

    [malloc] may fail.  A run is given the outcomes of its allocations in
    order, [true] for success; when the list is exhausted every further
    allocation succeeds, so [[]] is the run in which memory never runs out.
    [live] counts the blocks that are allocated and not freed yet. *)
Record mem := Mem { plan : list bool; live : Z }.

(** The state monad of allocating code: [None] is undefined behaviour. *)
Definition M (A : Type) : Type := mem -> option (A * mem).

#[export] Instance M_ret : MRet M := fun A x m => Some (x, m).
#[export] Instance M_bind : MBind M := fun A B f c m =>
  match c m with Some (x, m') => f x m' | None => None end.

(** Undefined behaviour, and code that does not allocate. *)
Definition fault {A} : M A := fun _ => None.
Definition lift {A} (o : option A) : M A := fun m =>
  match o with Some x => Some (x, m) | None => None end.

(** [malloc]/[calloc] of one block: [true] when it returned memory. *)
Definition malloc : M bool := fun m =>
  match plan m with
  | [] => Some (true, Mem [] (live m + 1))
  | b :: p => Some (b, Mem p (if b then live m + 1 else live m))
  end.

(** [free] of one live block. *)
Definition free : M unit := fun m => Some (tt, Mem (plan m) (live m - 1)).

(** Memory never runs out. *)
Definition alloc_ok (m : mem) : Prop := Forall (fun b => b = true) (plan m).

(** ** Long loops

    A loop of at most [2 ^ n] turns.  A turn goes on in a new state or ends with
    a result; the whole gives the state after the last turn or the result. *)
Fixpoint turns {S R} (n : nat) (turn : S -> option (S + R)) (s : S) : option (S + R) :=
  match n with
  | O => turn s
  | Datatypes.S n =>
      x ← turns n turn s;
      match x with inl s => turns n turn s | inr r => Some (inr r) end
  end.

Definition run_turns {S R} (n : nat) (turn : S -> option (S + R)) (s : S) : option R :=
  x ← turns n turn s;
  match x with inl _ => None | inr r => Some r end.

(** ** Automation *)

Create HintDb chat.

(** Case analysis on the boolean test of an [if] or [match] in the goal. *)
Ltac case_if :=
  match goal with
  | |- context [if ?b then _ else _] =>
      lazymatch type of b with
      | bool => destruct b eqn:?
      | _ => destruct b
      end
  end.

(** Turn boolean comparisons of the context into propositions. *)
Ltac bprop :=
  repeat match goal with
  | H : (_ && _)%bool = true |- _ => apply andb_true_iff in H; destruct H
  | H : (_ || _)%bool = false |- _ => apply orb_false_iff in H; destruct H
  | H : (_ && _)%bool = false |- _ => apply andb_false_iff in H
  | H : (_ || _)%bool = true |- _ => apply orb_true_iff in H
  | H : negb _ = true |- _ => apply negb_true_iff in H
  | H : negb _ = false |- _ => apply negb_false_iff in H
  | H : (_ <? _) = true |- _ => apply Z.ltb_lt in H
  | H : (_ <? _) = false |- _ => apply Z.ltb_ge in H
  | H : (_ <=? _) = true |- _ => apply Z.leb_le in H
  | H : (_ <=? _) = false |- _ => apply Z.leb_gt in H
  | H : (_ =? _) = true |- _ => apply Z.eqb_eq in H
  | H : (_ =? _) = false |- _ => apply Z.eqb_neq in H
  | H : bool_decide _ = true |- _ => apply bool_decide_eq_true in H
  | H : bool_decide _ = false |- _ => apply bool_decide_eq_false in H
  end.

(** A loop with an invariant and a variant ends with its result. *)
Lemma turns_spec {S R} (P : S -> Prop) (v : S -> Z) (Q : R -> Prop) turn n s :
  (forall s, P s -> exists x, turn s = Some x /\ match x with inl s' => P s' /\ 0 <= v s' < v s | inr r => Q r end) ->
  P s ->
  exists x, turns n turn s = Some x /\ match x with inl s' => P s' /\ 0 <= v s' <= v s - 2 ^ Z.of_nat n | inr r => Q r end.
Proof.
  intros H. revert s. induction n as [|n IH]; intros s Hs; cbn [turns].
  - destruct (H s Hs) as (x & E & Hx). exists x. split; [done|]. destruct x; [|done]. split; [apply Hx|lia].
  - destruct (IH s Hs) as ([s1|r] & -> & H1); cbn [mbind option_bind]; [|by exists (inr r)].
    destruct (IH s1 (proj1 H1)) as (x & E & H2). exists x. split; [done|]. destruct x; [|done].
    split; [apply H2|]. rewrite Nat2Z.inj_succ, Z.pow_succ_r by lia. lia.
Qed.

Lemma run_turns_spec {S R} (P : S -> Prop) (v : S -> Z) (Q : R -> Prop) turn n s :
  (forall s, P s -> exists x, turn s = Some x /\ match x with inl s' => P s' /\ 0 <= v s' < v s | inr r => Q r end) ->
  P s -> v s < 2 ^ Z.of_nat n -> exists r, run_turns n turn s = Some r /\ Q r.
Proof.
  intros H Hs Hv. destruct (turns_spec P v Q turn n s H Hs) as ([s1|r] & E & Hx); [lia|].
  exists r. unfold run_turns. by rewrite E.
Qed.

(** ** Byte buffers *)

Lemma blen_nonneg b : 0 <= blen b.
Proof. unfold blen; lia. Qed.

Lemma blen_app b1 b2 : blen (b1 ++ b2) = blen b1 + blen b2.
Proof. unfold blen; rewrite length_app; lia. Qed.

Lemma blen_cons x b : blen (x :: b) = 1 + blen b.
Proof. unfold blen; simpl; lia. Qed.

Lemma u8_id z : is_u8 z -> u8 z = z.
Proof. unfold is_u8, u8. intros. rewrite Z.mod_small; lia. Qed.

Lemma is_u8_u8 z : is_u8 (u8 z).
Proof. unfold is_u8, u8. pose proof (Z.mod_pos_bound z (2 ^ 8)). lia. Qed.

Lemma is_cstring_bytes s : is_cstring s -> is_byte_list s.
Proof. intros H. eapply Forall_impl; [exact H|]. unfold is_u8. lia. Qed.

Lemma buf_get_Some b i : 0 <= i < blen b -> exists x, buf_get b i = Some x.
Proof.
  intros Hi. unfold buf_get. rewrite (proj2 (Z.leb_le 0 i)) by lia.
  apply lookup_lt_is_Some. unfold blen in *. lia.
Qed.

Lemma buf_get_u8 b i x : is_byte_list b -> buf_get b i = Some x -> is_u8 x.
Proof.
  unfold buf_get. destruct (0 <=? i); [|done].
  intros Hb Hx. by eapply Forall_lookup_1 in Hb.
Qed.

(** Reading at the boundary between two halves of a buffer. *)
Lemma buf_get_mid pre x rest i :
  i = blen pre -> buf_get (pre ++ x :: rest) i = Some x.
Proof.
  intros ->. unfold buf_get, blen. rewrite (proj2 (Z.leb_le _ _)) by lia.
  rewrite Nat2Z.id. by apply list_lookup_middle.
Qed.

Lemma buf_slice_mid pre s rest i n :
  i = blen pre -> n = blen s -> buf_slice (pre ++ s ++ rest) i n = Some s.
Proof.
  intros -> ->. unfold buf_slice. rewrite !blen_app.
  pose proof (blen_nonneg pre); pose proof (blen_nonneg s); pose proof (blen_nonneg rest).
  rewrite !(proj2 (Z.leb_le _ _)) by lia. cbn [andb]. unfold blen. rewrite !Nat2Z.id.
  by rewrite drop_app_length, take_app_length.
Qed.

Lemma buf_slice_Some b i n :
  0 <= i -> 0 <= n -> i + n <= blen b ->
  buf_slice b i n = Some (take (Z.to_nat n) (drop (Z.to_nat i) b)).
Proof. intros. unfold buf_slice. by rewrite !(proj2 (Z.leb_le _ _)) by lia. Qed.

(** Writing a buffer from left to right: what is written so far is [pre], and
    the rest of the buffer still has its old contents. *)
Lemma buf_set_next (b pre : bytes) i v :
  i = blen pre -> blen pre < blen b ->
  buf_set (pre ++ drop (length pre) b) i v
  = Some ((pre ++ [u8 v]) ++ drop (length (pre ++ [u8 v])) b).
Proof.
  intros -> Hlt. unfold buf_set. rewrite blen_app. unfold blen in *.
  rewrite length_drop. rewrite (proj2 (Z.leb_le _ _)) by lia.
  rewrite (proj2 (Z.ltb_lt _ _)) by lia. cbn [andb]. f_equal.
  rewrite Nat2Z.id.
  destruct (drop (length pre) b) as [|y r] eqn:E.
  { apply (f_equal length) in E. rewrite length_drop in E. simpl in E. lia. }
  rewrite insert_app_r_alt by lia. rewrite Nat.sub_diag. simpl.
  rewrite <-app_assoc. simpl. do 2 f_equal.
  rewrite length_app. cbn [length]. rewrite <-drop_drop, E. done.
Qed.

Lemma buf_write_next (b pre s : bytes) i :
  i = blen pre -> blen pre + blen s <= blen b ->
  buf_write (pre ++ drop (length pre) b) i s
  = Some ((pre ++ s) ++ drop (length (pre ++ s)) b).
Proof.
  intros -> Hle. unfold buf_write. rewrite blen_app. unfold blen in *.
  rewrite length_drop, !(proj2 (Z.leb_le _ _)) by lia. cbn [andb]. f_equal.
  rewrite Nat2Z.id, take_app_length, <-app_assoc. do 2 f_equal.
  rewrite drop_app_add, drop_drop, length_app. done.
Qed.

(** ** C strings *)

Lemma c_str_app s rest : is_cstring s -> c_str (s ++ 0 :: rest) = Some s.
Proof.
  induction 1 as [|c s Hc _ IH]; [done|].
  cbn. rewrite (proj2 (Z.eqb_neq c 0)) by lia. by rewrite IH.
Qed.

Lemma c_str_prefix b s : c_str b = Some s -> exists rest, b = s ++ 0 :: rest.
Proof.
  revert s. induction b as [|c b IH]; intros s; [done|]. cbn.
  destruct (c =? 0) eqn:E; bprop.
  - intros [= <-]. subst. by exists b.
  - destruct (c_str b) as [t|]; [|done]. intros [= <-].
    destruct (IH t eq_refl) as [rest ->]. by exists rest.
Qed.

Lemma c_str_is_cstring b s : is_byte_list b -> c_str b = Some s -> is_cstring s.
Proof.
  revert s. induction b as [|c b IH]; intros s Hb; [done|]. cbn.
  apply Forall_cons_1 in Hb as [Hc Hb]. unfold is_u8 in Hc.
  destruct (c =? 0) eqn:E; bprop.
  - intros [= <-]. constructor.
  - destruct (c_str b) as [t|] eqn:Et; [|done]. intros [= <-].
    constructor; [lia|]. by apply IH.
Qed.

(** A buffer with a NUL somewhere can be read as a string. *)
Lemma c_str_total pre rest : exists s, c_str (pre ++ 0 :: rest) = Some s /\ (length s <= length pre)%nat.
Proof.
  induction pre as [|c pre [s [IH IHl]]]; cbn.
  - by exists [].
  - destruct (c =? 0).
    + exists []. split; [done|simpl; lia].
    + rewrite IH. exists (c :: s). split; [done|simpl; lia].
Qed.

(** ** Sums over lists *)

Definition zsum {A} (f : A -> Z) (l : list A) : Z := foldr (fun x a => f x + a) 0 l.

Lemma zsum_cons {A} (f : A -> Z) x l : zsum f (x :: l) = f x + zsum f l.
Proof. done. Qed.

Lemma zsum_app {A} (f : A -> Z) l1 l2 : zsum f (l1 ++ l2) = zsum f l1 + zsum f l2.
Proof. induction l1 as [|x l1 IH]; [done|]. cbn [app]. rewrite !zsum_cons, IH. lia. Qed.

#[export] Instance zsum_Permutation {A} (f : A -> Z) : Proper ((≡ₚ) ==> (=)) (zsum f).
Proof. induction 1; rewrite ?zsum_cons in *; lia. Qed.

Lemma zsum_const {A} (n : Z) (l : list A) : zsum (fun _ => n) l = n * Z.of_nat (length l).
Proof. induction l as [|x l IH]; [cbn; lia|]. rewrite zsum_cons, IH. cbn [length]. lia. Qed.

Lemma zsum_insert {A} (f : A -> Z) l i x y : l !! i = Some x ->
  zsum f (<[i := y]> l) = zsum f l - f x + f y.
Proof.
  intros Hi. pose proof (take_drop_middle l i x Hi) as E.
  rewrite insert_take_drop by (by eapply lookup_lt_Some).
  rewrite <-E at 3. rewrite !zsum_app, !zsum_cons. lia.
Qed.

Lemma zsum_fmap {A B} (f : B -> Z) (g : A -> B) l : zsum f (g <$> l) = zsum (f ∘ g) l.
Proof. induction l as [|x l IH]; [done|]. rewrite fmap_cons, !zsum_cons. by rewrite IH. Qed.

(** Sums over the entries of a finite map. *)
Definition msum {K A} `{Countable K} (f : K -> A -> Z) (g : gmap K A) : Z :=
  zsum (fun x => f x.1 x.2) (map_to_list g).

Section msum.
Context {K A : Type} `{Countable K}.
Implicit Types (f : K -> A -> Z) (g : gmap K A).

Lemma msum_empty f : msum f ∅ = 0.
Proof. unfold msum. by rewrite map_to_list_empty. Qed.

Lemma msum_insert f g k x : g !! k = None -> msum f (<[k := x]> g) = f k x + msum f g.
Proof. intros Hk. unfold msum. by rewrite map_to_list_insert. Qed.

Lemma msum_delete f g k x : g !! k = Some x -> msum f g = f k x + msum f (delete k g).
Proof. intros Hk. unfold msum. by rewrite <-(map_to_list_delete g k x Hk). Qed.

Lemma msum_update f g k x y : g !! k = Some x ->
  msum f (<[k := y]> g) = msum f g - f k x + f k y.
Proof.
  intros Hk. rewrite (msum_delete f g k x Hk).
  rewrite (msum_delete f (<[k := y]> g) k y) by apply lookup_insert_eq.
  rewrite delete_insert_eq. lia.
Qed.

Lemma msum_ext f f' g : (forall k x, g !! k = Some x -> f k x = f' k x) -> msum f g = msum f' g.
Proof.
  induction g as [|k x g Hk IH] using map_ind; intros E; [by rewrite !msum_empty|].
  rewrite !msum_insert by done. rewrite E by apply lookup_insert_eq. f_equal. apply IH.
  intros k' x' Hk'. apply E. rewrite lookup_insert_ne; [done|]. congruence.
Qed.

Lemma msum_nonneg f g : (forall k x, g !! k = Some x -> 0 <= f k x) -> 0 <= msum f g.
Proof.
  induction g as [|k x g Hk IH] using map_ind; intros E; [by rewrite msum_empty|].
  rewrite msum_insert by done.
  assert (0 <= f k x) by (apply E, lookup_insert_eq).
  assert (0 <= msum f g); [|lia]. apply IH. intros k' x' Hk'. apply E.
  rewrite lookup_insert_ne; [done|]. congruence.
Qed.

End msum.

(** A sum that only looks at the keys depends on the domain alone. *)
Lemma msum_dom {K A B} `{Countable K} (f : K -> Z) (g1 : gmap K A) (g2 : gmap K B) :
  (forall k, is_Some (g1 !! k) <-> is_Some (g2 !! k)) -> msum (fun k _ => f k) g1 = msum (fun k _ => f k) g2.
Proof.
  intros E. unfold msum.
  trans (zsum f (map_to_list g1).*1); [by rewrite zsum_fmap|].
  trans (zsum f (map_to_list g2).*1); [|by rewrite zsum_fmap].
  assert ((map_to_list g1).*1 ≡ₚ (map_to_list g2).*1) as P.
  { apply NoDup_Permutation; [apply NoDup_fst_map_to_list..|]. intros k.
    rewrite !list_elem_of_fmap. specialize (E k). split.
    - intros ([k' x] & -> & Hx%elem_of_map_to_list). cbn in *.
      destruct (proj1 E) as [y Hy]; [by exists x|]. exists (k', y). split; [done|].
      by apply elem_of_map_to_list.
    - intros ([k' x] & -> & Hx%elem_of_map_to_list). cbn in *.
      destruct (proj2 E) as [y Hy]; [by exists x|]. exists (k', y). split; [done|].
      by apply elem_of_map_to_list. }
  by rewrite P.
Qed.

Lemma submseteq_NoDup {A} (l k : list A) : l ⊆+ k -> NoDup k -> NoDup l.
Proof. intros [l' ->]%submseteq_Permutation N. by apply NoDup_app in N as [N _]. Qed.

(** ** Strings in buffers *)

Lemma strncpy_fits n s : strlen s <= n -> strncpy n s = s.
Proof. intros H. unfold strncpy, strlen in *. apply take_ge. lia. Qed.

Lemma c_prefix_cstring s : is_cstring s -> c_prefix s = s.
Proof.
  induction 1 as [|c s Hc Hs IH]; [done|]. cbn [c_prefix]. rewrite (proj2 (Z.eqb_neq c 0)) by lia. by rewrite IH.
Qed.

Lemma c_prefix_id s : 0 ∉ s -> c_prefix s = s.
Proof.
  induction s as [|c s IH]; [done|]. intros [Hc Hs]%not_elem_of_cons. cbn [c_prefix].
  rewrite (proj2 (Z.eqb_neq c 0)) by congruence. by rewrite IH.
Qed.

Lemma c_prefix_app s t : c_prefix (s ++ t) = if decide (0 ∈ s) then c_prefix s else s ++ c_prefix t.
Proof.
  induction s as [|c s IH]; [by rewrite decide_False by apply not_elem_of_nil|].
  cbn [app c_prefix]. destruct (c =? 0) eqn:E; bprop.
  - subst. rewrite decide_True; [done|]. apply elem_of_cons. by left.
  - rewrite IH. case_decide as D.
    + rewrite decide_True; [done|]. apply elem_of_cons. by right.
    + rewrite decide_False; [done|]. apply not_elem_of_cons. split; [congruence|done].
Qed.

Lemma c_prefix_elem c b : c ∈ c_prefix b -> c ∈ b /\ c <> 0.
Proof.
  induction b as [|x b IH]; [by intros ?%elem_of_nil|]. cbn [c_prefix]. destruct (x =? 0) eqn:E; bprop;
    [by intros ?%elem_of_nil|]. rewrite !elem_of_cons. intros [->|H]; [tauto|]. destruct (IH H). tauto.
Qed.

Lemma c_str_zero b r : c_str (b ++ 0 :: r) = Some (c_prefix b).
Proof.
  induction b as [|c b IH]; [done|]. cbn [app c_str c_prefix]. destruct (c =? 0); [done|]. by rewrite IH.
Qed.

(** A string in a buffer is there up to its terminator. *)
Lemma c_str_inv b s : c_str b = Some s -> exists r, b = s ++ 0 :: r.
Proof.
  revert s. induction b as [|c b IH]; intros s; cbn [c_str]; [done|]. destruct (c =? 0) eqn:E; bprop.
  - intros [= <-]. subst. by exists b.
  - destruct (c_str b) as [s'|]; [|done]. intros [= <-]. destruct (IH s' eq_refl) as [r ->]. by exists r.
Qed.

(** ** The allocating monad *)

Lemma malloc_inv m : exists b m', malloc m = Some (b, m') /\
  live m' = (if b then live m + 1 else live m) /\
  (alloc_ok m -> b = true /\ alloc_ok m').
Proof.
  destruct m as [[|b p] n]; unfold malloc, alloc_ok; simpl.
  - do 2 eexists. split; [done|]. split; [done|]. split; done.
  - do 2 eexists. split; [done|]. split; [done|].
    intros [-> Hp]%Forall_cons_1. done.
Qed.

(** Run the first command of a sequence whose result is known. *)
Lemma M_bind_Some {A B} (c : M A) (f : A -> M B) m x m' :
  c m = Some (x, m') -> (c ≫= f) m = f x m'.
Proof. intros E. unfold mbind, M_bind. by rewrite E. Qed.

Lemma M_bind_inv {A B} (c : M A) (f : A -> M B) m r :
  (c ≫= f) m = Some r -> exists x m', c m = Some (x, m') /\ f x m' = Some r.
Proof. unfold mbind, M_bind. destruct (c m) as [[x m']|]; [|done]. by exists x, m'. Qed.

Lemma M_bind_None {A B} (c : M A) (f : A -> M B) m : c m = None -> (c ≫= f) m = None.
Proof. intros E. unfold mbind, M_bind. by rewrite E. Qed.

Lemma M_bind_assoc {A B C} (c : M A) (f : A -> M B) (g : B -> M C) m :
  ((c ≫= f) ≫= g) m = (c ≫= (fun x => f x ≫= g)) m.
Proof. unfold mbind, M_bind. by destruct (c m) as [[x m']|]. Qed.

Lemma M_ret_eq {A} (x : A) m : (mret x : M A) m = Some (x, m).
Proof. done. Qed.

Lemma free_eq m : free m = Some (tt, Mem (plan m) (live m - 1)).
Proof. done. Qed.

Lemma alloc_ok_free m : alloc_ok m -> alloc_ok (Mem (plan m) (live m - 1)).
Proof. done. Qed.

#[export] Hint Resolve alloc_ok_free : chat.

Lemma lift_Some {A} (x : A) m : lift (Some x) m = Some (x, m).
Proof. done. Qed.

(** [mrun E] rewrites with the known result of the first command; [mfree] runs
    a [free] and [mret] a return that is bound. *)
Ltac mrun E := rewrite (M_bind_Some _ _ _ _ _ E).
Ltac mfree := rewrite (M_bind_Some _ _ _ _ _ (free_eq _)).
Ltac mlift := rewrite (M_bind_Some _ _ _ _ _ (lift_Some _ _)).
Ltac mstep_ret := rewrite (M_bind_Some _ _ _ _ _ (M_ret_eq _ _)).
