(* ===== verification/Text.v ===== *)
(** * Text: the standard library functions on characters the program uses

    String literals as character lists, the conversions of [printf] that
    occur ([%d], [%u], [%s]) with the truncation of [snprintf], [atoi], which
    reads back what [%d] has printed, and [fgets] and [getchar] on the bytes of
    the standard input. *)

From Stdlib Require Import String Ascii.
From S2P Require Import Prelude.

(** The characters of a literal. *)
Definition char (c : ascii) : Z := Z.of_nat (nat_of_ascii c).
Definition chars (s : string) : cstring := char <$> list_ascii_of_string s.

(** [%u]: decimal digits; the fuel bounds their number. *)
Fixpoint print_nat (fuel : nat) (n : Z) : cstring :=
  match fuel with
  | O => []
  | S fuel => (if n <? 10 then [] else print_nat fuel (n / 10)) ++ [48 + n mod 10]
  end.

(** [%d] of a 32-bit integer: at most ten digits. *)
Definition print_int (n : Z) : cstring :=
  if n <? 0 then 45 :: print_nat 10 (- n) else print_nat 10 n.

(** [atoi]: white space, a sign, decimal digits; a value that is not an [int]
    is undefined behaviour. *)
Definition is_space (c : Z) : bool := (c =? 32) || ((9 <=? c) && (c <=? 13)).
Definition is_digit (c : Z) : bool := (48 <=? c) && (c <=? 57).

Fixpoint skip_space (s : cstring) : cstring :=
  match s with
  | c :: s' => if is_space c then skip_space s' else s
  | [] => []
  end.

Fixpoint digits (acc : Z) (s : cstring) : Z :=
  match s with
  | c :: s => if is_digit c then digits (10 * acc + (c - 48)) s else acc
  | [] => acc
  end.

Definition atoi (s : cstring) : option Z :=
  let n := match skip_space s with
           | c :: s' => if c =? 45 then - digits 0 s' else if c =? 43 then digits 0 s' else digits 0 (c :: s')
           | [] => 0
           end in
  if (- 2 ^ 31 <=? n) && (n <? 2 ^ 31) then Some n else None.

(** [snprintf] into a buffer of [cap] characters: the string read back. *)
Definition snprintf (cap : Z) (s : cstring) : cstring := take (Z.to_nat (cap - 1)) s.

(** [fgets(buf, cap, stdin)] with [n] = [cap] - 1: a line or a part of one,
    with its newline, and the rest of the input. *)
Fixpoint fgets_loop (n : nat) (input : bytes) : bytes * bytes :=
  match n, input with
  | S n, c :: input =>
      if c =? 10 then ([c], input)
      else let '(l, rest) := fgets_loop n input in (c :: l, rest)
  | _, _ => ([], input)
  end.

(** [None] at the end of the input. *)
Definition fgets (cap : Z) (input : bytes) : option (bytes * bytes) :=
  match input with
  | [] => None
  | _ => Some (fgets_loop (Z.to_nat (cap - 1)) input)
  end.

(** ** Numbers as text *)

Lemma digits_app acc s t : forallb is_digit s = true -> digits acc (s ++ t) = digits (digits acc s) t.
Proof.
  revert acc. induction s as [|c s IH]; intros acc; [done|]. cbn [forallb app digits].
  intros [-> Hs]%andb_true_iff. by apply IH.
Qed.

Lemma print_nat_all fuel n : 0 <= n -> forallb is_digit (print_nat fuel n) = true.
Proof.
  revert n. induction fuel as [|fuel IH]; intros n Hn; [done|]. cbn [print_nat]. rewrite forallb_app. apply andb_true_iff.
  split; [destruct (n <? 10); [done|apply IH, Z.div_pos; lia]|]. cbn [forallb]. unfold is_digit.
  pose proof (Z.mod_pos_bound n 10). by rewrite !(proj2 (Z.leb_le _ _)) by lia.
Qed.

(** What is printed is read back. *)
Lemma digits_print fuel n : 0 <= n < 10 ^ Z.of_nat fuel -> digits 0 (print_nat fuel n) = n.
Proof.
  revert n. induction fuel as [|fuel IH]; intros n Hn; [cbn in *; lia|]. cbn [print_nat].
  pose proof (Z.mod_pos_bound n 10). pose proof (Z.div_mod n 10).
  assert (forall acc, digits acc [48 + n mod 10] = 10 * acc + n mod 10) as Hd.
  { intros acc. cbn [digits]. unfold is_digit. rewrite !(proj2 (Z.leb_le _ _)) by lia. cbn [andb]. lia. }
  destruct (n <? 10) eqn:E; bprop.
  - cbn [app]. rewrite Hd, Z.mod_small by lia. lia.
  - rewrite digits_app by (apply print_nat_all, Z.div_pos; lia). rewrite Hd, IH; [lia|].
    rewrite Nat2Z.inj_succ, Z.pow_succ_r in Hn by lia. split; [apply Z.div_pos; lia|]. apply Z.div_lt_upper_bound; lia.
Qed.

Lemma print_nat_first fuel n : (0 < fuel)%nat -> 0 <= n -> exists c s, print_nat fuel n = c :: s /\ is_digit c = true.
Proof.
  intros Hf Hn. pose proof (print_nat_all fuel n Hn) as H. destruct fuel as [|fuel]; [lia|].
  destruct (print_nat (S fuel) n) as [|c s] eqn:E.
  - cbn [print_nat] in E. by apply app_eq_nil in E as [_ ?].
  - exists c, s. split; [done|]. cbn [forallb] in H. by apply andb_true_iff in H as [? _].
Qed.

Lemma atoi_print_nat n : 0 <= n < 2 ^ 31 -> atoi (print_nat 10 n) = Some n.
Proof.
  intros Hn. unfold atoi. pose proof (digits_print 10 n ltac:(lia)) as Hd.
  destruct (print_nat_first 10 n ltac:(lia) ltac:(lia)) as (c & s & E & Hc). rewrite E in *. cbn [skip_space].
  assert (48 <= c <= 57) as Hr by (unfold is_digit in Hc; bprop; lia).
  assert (is_space c = false) as ->.
  { unfold is_space. rewrite (proj2 (Z.eqb_neq c 32)) by lia. rewrite (proj2 (Z.leb_gt c 13)) by lia. by rewrite andb_false_r. }
  rewrite (proj2 (Z.eqb_neq c 45)), (proj2 (Z.eqb_neq c 43)), Hd by lia.
  by rewrite (proj2 (Z.leb_le _ _)), (proj2 (Z.ltb_lt _ _)) by lia.
Qed.

Lemma atoi_print_int n : 0 <= n < 2 ^ 31 -> atoi (print_int n) = Some n.
Proof. intros H. unfold print_int. rewrite (proj2 (Z.ltb_ge _ _)) by lia. by apply atoi_print_nat. Qed.

(** ** Lengths *)

Lemma print_nat_length fuel n : (length (print_nat fuel n) <= fuel)%nat.
Proof.
  revert n. induction fuel as [|fuel IH]; intros n; [done|]. cbn [print_nat].
  rewrite length_app. cbn [length]. destruct (n <? 10); [cbn [length]; lia|]. specialize (IH (n / 10)). lia.
Qed.

Lemma print_int_length n : strlen (print_int n) <= 11.
Proof.
  unfold print_int, strlen. destruct (n <? 0); [cbn [length]|];
    match goal with |- context [print_nat 10 ?x] => pose proof (print_nat_length 10 x) end; lia.
Qed.

(** A number of at most [k] digits is printed with at most [k] digits. *)
Lemma print_nat_digits k fuel n : 0 <= n < 10 ^ Z.of_nat k -> (0 < k)%nat ->
  (length (print_nat fuel n) <= k)%nat.
Proof.
  revert k n. induction fuel as [|fuel IH]; intros k n Hn Hk; cbn [print_nat]; [cbn; lia|].
  rewrite length_app. cbn [length]. destruct (n <? 10) eqn:E; bprop; [cbn [length]; lia|].
  destruct k as [|[|k]]; [lia|cbn in Hn; lia|].
  specialize (IH (S k) (n / 10)). rewrite (Nat2Z.inj_succ (S k)), Z.pow_succ_r in Hn by lia.
  enough (length (print_nat fuel (n / 10)) <= S k)%nat by lia. apply IH; [|lia].
  split; [apply Z.div_pos; lia|]. apply Z.div_lt_upper_bound; lia.
Qed.

Lemma strlen_app s t : strlen (s ++ t) = strlen s + strlen t.
Proof. unfold strlen. rewrite length_app. lia. Qed.

(** What fits is not truncated. *)
Lemma snprintf_fits cap s : strlen s < cap -> snprintf cap s = s.
Proof. intros H. unfold snprintf, strlen in *. apply take_ge. lia. Qed.

(** ** Lines *)

Lemma fgets_loop_app n input : fst (fgets_loop n input) ++ snd (fgets_loop n input) = input.
Proof.
  revert input. induction n as [|n IH]; intros [|c input]; cbn [fgets_loop]; [done..|].
  destruct (c =? 10); [done|]. specialize (IH input). destruct (fgets_loop n input). cbn in *. by rewrite IH.
Qed.

(** [fgets] makes progress. *)
Lemma fgets_shorter cap input l rest : 2 <= cap -> fgets cap input = Some (l, rest) ->
  (length rest < length input)%nat /\ l <> [].
Proof.
  intros Hc. destruct input as [|c input]; [done|]. cbn [fgets].
  replace (Z.to_nat (cap - 1)) with (S (Z.to_nat (cap - 2))) by lia. cbn [fgets_loop].
  pose proof (fgets_loop_app (Z.to_nat (cap - 2)) input) as H.
  destruct (c =? 10); [intros [= <- <-]; split; [cbn; lia|done]|].
  destruct (fgets_loop _ input) as [l' r']. cbn in H. intros [= <- <-]. subst input.
  split; [|done]. cbn [length]. rewrite length_app. lia.
Qed.

(** A line that ends in a newline, read in one call if it fits. *)
Lemma fgets_loop_line n line rest : 10 ∉ line ->
  fgets_loop n (line ++ 10 :: rest)
  = if (n <=? length line)%nat then (take n line, drop n line ++ 10 :: rest) else (line ++ [10], rest).
Proof.
  revert n. induction line as [|c line IH]; intros n Hl.
  - destruct n; [done|]. done.
  - apply not_elem_of_cons in Hl as [Hc Hl]. destruct n as [|n]; [done|]. cbn [app fgets_loop].
    rewrite (proj2 (Z.eqb_neq _ _)) by congruence. rewrite IH by done. cbn [length].
    change (S n <=? S (length line))%nat with (n <=? length line)%nat.
    by destruct (n <=? length line)%nat.
Qed.

(** The last line, without a newline. *)
Lemma fgets_loop_last n line : 10 ∉ line -> fgets_loop n line = (take n line, drop n line).
Proof.
  revert n. induction line as [|c line IH]; intros n Hl; [by destruct n|].
  apply not_elem_of_cons in Hl as [Hc Hl]. destruct n as [|n]; [done|]. cbn [fgets_loop].
  rewrite (proj2 (Z.eqb_neq _ _)) by congruence. by rewrite IH.
Qed.

(** What one call returns: a line with its newline, or as much as fits, or the
    end of the input. *)
Lemma fgets_loop_piece n input : let '(l, rest) := fgets_loop n input in (length l <= n)%nat /\
  ((exists l', l = l' ++ [10] /\ 10 ∉ l') \/ (10 ∉ l) /\ (length l = n \/ rest = [])).
Proof.
  revert input. induction n as [|n IH]; intros input; [split; [done|right]; split; [apply not_elem_of_nil|by left]|].
  destruct input as [|c input]; cbn [fgets_loop]; [split; [cbn; lia|right]; split; [apply not_elem_of_nil|by right]|].
  destruct (c =? 10) eqn:E; bprop; [subst; split; [cbn; lia|left; exists []; split; [done|apply not_elem_of_nil]]|].
  specialize (IH input). destruct (fgets_loop n input) as [l rest]. destruct IH as [Hl IH]. split; [cbn [length]; lia|].
  destruct IH as [(l' & -> & H)|[H IH]]; [left; exists (c :: l')|right].
  - split; [done|]. apply not_elem_of_cons. split; congruence.
  - split; [apply not_elem_of_cons; split; congruence|]. cbn [length]. destruct IH; [left; lia|by right].
Qed.

Lemma fgets_inv cap input l rest : 2 <= cap -> fgets cap input = Some (l, rest) ->
  input = l ++ rest /\ (length rest < length input)%nat /\ l <> [] /\ blen l < cap /\
  ((exists l', l = l' ++ [10] /\ 10 ∉ l') \/ (10 ∉ l) /\ (blen l = cap - 1 \/ rest = [])).
Proof.
  intros Hc E. destruct (fgets_shorter cap input l rest Hc E) as [Hs Hne].
  assert (fgets_loop (Z.to_nat (cap - 1)) input = (l, rest)) as E2.
  { unfold fgets in E. destruct input; [done|]. congruence. }
  pose proof (fgets_loop_app (Z.to_nat (cap - 1)) input) as Ei. pose proof (fgets_loop_piece (Z.to_nat (cap - 1)) input) as G.
  rewrite E2 in Ei, G. cbn [fst snd] in Ei. split; [done|]. split; [done|]. split; [done|]. unfold blen. destruct G as [Hl G].
  split; [lia|]. destruct G as [G|[G [G2|G2]]]; [by left|right; split; [done|left; lia]|right; split; [done|by right]].
Qed.
