(* ===== verification/Protocol.v ===== *)
(** * The TLV codec: [shared/protocol.h], [shared/protocol.c]

    Opcodes and status codes, the encoders and the decoders of the control
    protocol.  A buffer is a list of bytes and every access is checked: an
    access outside it is undefined behaviour ([None]).  Out-parameters are
    passed and returned.  The file proves the round trips, the exact bytes
    each encoder produces, that no decoder reads past [buf_len] or writes past
    its out-buffers, and which frames the decoders accept. *)

From S2P Require Import Prelude.

(** ** Constants and enumerations *)

Definition CHAT_TCP_PORT : Z := 5000.
Definition CHAT_MAX_PAYLOAD : Z := 255.
Definition CHAT_MAX_MSG_SIZE : Z := 2 + CHAT_MAX_PAYLOAD.
Definition CHAT_MAX_USERNAME_LEN : Z := 32.
Definition CHAT_MAX_PASSWORD_LEN : Z := 32.
Definition CHAT_MAX_GROUPNAME_LEN : Z := 32.
Definition CHAT_MAX_IP_STR_LEN : Z := 16.
Definition CHAT_MCAST_BASE_PORT : Z := 6000.

Inductive ChatOpcode :=
| OP_REG_REQ | OP_REG_REP
| OP_LOGIN_REQ | OP_LOGIN_REP
| OP_LOGOUT_REQ | OP_LOGOUT_REP
| OP_CREATE_GROUP_REQ | OP_CREATE_GROUP_REP
| OP_JOIN_GROUP_REQ | OP_JOIN_GROUP_REP
| OP_LEAVE_GROUP_REQ | OP_LEAVE_GROUP_REP.

Definition opcode (op : ChatOpcode) : Z :=
  match op with
  | OP_REG_REQ => 1 | OP_REG_REP => 2
  | OP_LOGIN_REQ => 3 | OP_LOGIN_REP => 4
  | OP_LOGOUT_REQ => 5 | OP_LOGOUT_REP => 6
  | OP_CREATE_GROUP_REQ => 7 | OP_CREATE_GROUP_REP => 8
  | OP_JOIN_GROUP_REQ => 9 | OP_JOIN_GROUP_REP => 10
  | OP_LEAVE_GROUP_REQ => 11 | OP_LEAVE_GROUP_REP => 12
  end.

Inductive ChatStatus :=
| ST_OK
| ST_ERR_USER_EXISTS
| ST_ERR_USER_NOT_FOUND
| ST_ERR_BAD_PASSWORD
| ST_ERR_ALREADY_LOGGED_IN
| ST_ERR_NOT_LOGGED_IN
| ST_ERR_GROUP_EXISTS
| ST_ERR_GROUP_NOT_FOUND
| ST_ERR_ALREADY_IN_GROUP
| ST_ERR_NOT_IN_GROUP
| ST_ERR_SERVER_FULL
| ST_ERR_PROTOCOL.

Definition status_code (st : ChatStatus) : Z :=
  match st with
  | ST_OK => 0
  | ST_ERR_USER_EXISTS => 1
  | ST_ERR_USER_NOT_FOUND => 2
  | ST_ERR_BAD_PASSWORD => 3
  | ST_ERR_ALREADY_LOGGED_IN => 4
  | ST_ERR_NOT_LOGGED_IN => 5
  | ST_ERR_GROUP_EXISTS => 6
  | ST_ERR_GROUP_NOT_FOUND => 7
  | ST_ERR_ALREADY_IN_GROUP => 8
  | ST_ERR_NOT_IN_GROUP => 9
  | ST_ERR_SERVER_FULL => 10
  | ST_ERR_PROTOCOL => 255
  end.

#[export] Instance ChatOpcode_eq_dec : EqDecision ChatOpcode.
Proof. solve_decision. Defined.
#[export] Instance ChatStatus_eq_dec : EqDecision ChatStatus.
Proof. solve_decision. Defined.

(** ** Header *)

Definition chat_peek_header (buf : ptr bytes) (buf_len : Z) (out_type out_len : ptr Z)
  : option (Z * ptr Z * ptr Z) :=
  match buf, out_type, out_len with
  | Some b, Some _, Some _ =>
      if buf_len <? 2 then Some (-1, out_type, out_len) else
      t ← buf_get b 0;
      l ← buf_get b 1;
      Some (0, Some t, Some l)
  | _, _, _ => Some (-1, out_type, out_len)
  end.

(** ** Encoders *)

Definition chat_encode_user_pass_req (buf : ptr bytes) (op : ChatOpcode)
    (user pass : ptr cstring) : option (Z * ptr bytes) :=
  match buf, user, pass with
  | Some b, Some u, Some p =>
      let ulen := strlen u in
      let plen := strlen p in
      if (ulen >? CHAT_MAX_USERNAME_LEN) || (plen >? CHAT_MAX_PASSWORD_LEN)
      then Some (-1, buf) else
      let payload := 1 + ulen + 1 + plen in
      if payload >? CHAT_MAX_PAYLOAD then Some (-1, buf) else
      b ← buf_set b 0 (opcode op);
      b ← buf_set b 1 payload;
      b ← buf_set b 2 ulen;
      b ← buf_write b 3 u;
      b ← buf_set b (3 + ulen) plen;
      b ← buf_write b (4 + ulen) p;
      Some (2 + payload, Some b)
  | _, _, _ => Some (-1, buf)
  end.

Definition chat_encode_status_rep (buf : ptr bytes) (op : ChatOpcode) (status : ChatStatus)
  : option (Z * ptr bytes) :=
  match buf with
  | Some b =>
      b ← buf_set b 0 (opcode op);
      b ← buf_set b 1 1;
      b ← buf_set b 2 (status_code status);
      Some (3, Some b)
  | None => Some (-1, buf)
  end.

Definition chat_encode_groupname_req (buf : ptr bytes) (op : ChatOpcode) (group : ptr cstring)
  : option (Z * ptr bytes) :=
  match buf, group with
  | Some b, Some g =>
      let glen := strlen g in
      if glen >? CHAT_MAX_GROUPNAME_LEN then Some (-1, buf) else
      let payload := 1 + glen in
      if payload >? CHAT_MAX_PAYLOAD then Some (-1, buf) else
      b ← buf_set b 0 (opcode op);
      b ← buf_set b 1 payload;
      b ← buf_set b 2 glen;
      b ← buf_write b 3 g;
      Some (2 + payload, Some b)
  | _, _ => Some (-1, buf)
  end.

Definition chat_encode_logout_req (buf : ptr bytes) : option (Z * ptr bytes) :=
  match buf with
  | Some b =>
      b ← buf_set b 0 (opcode OP_LOGOUT_REQ);
      b ← buf_set b 1 0;
      Some (2, Some b)
  | None => Some (-1, buf)
  end.

Definition chat_encode_group_rep_ok (buf : ptr bytes) (op : ChatOpcode)
    (mcast_ip : ptr cstring) (mcast_port : Z) : option (Z * ptr bytes) :=
  match buf, mcast_ip with
  | Some b, Some ip =>
      let iplen := strlen ip in
      if iplen >=? CHAT_MAX_IP_STR_LEN then Some (-1, buf) else
      let payload := 1 + (1 + iplen) + (1 + 2) in
      if payload >? CHAT_MAX_PAYLOAD then Some (-1, buf) else
      b ← buf_set b 0 (opcode op);
      b ← buf_set b 1 payload;
      b ← buf_set b 2 (status_code ST_OK);
      b ← buf_set b 3 iplen;
      b ← buf_write b 4 ip;
      b ← buf_set b (4 + iplen) 2;
      b ← buf_set b (5 + iplen) (Z.shiftr mcast_port 8);
      b ← buf_set b (6 + iplen) (Z.land mcast_port 255);
      Some (2 + payload, Some b)
  | _, _ => Some (-1, buf)
  end.

(** ** Decoders

    [out_user], [out_pass], ... are the caller's [char] buffers; a failing
    decoder may already have written the first of them. *)

Definition chat_decode_user_pass (buf : ptr bytes) (buf_len : Z) (out_user out_pass : ptr bytes)
  : option (Z * ptr bytes * ptr bytes) :=
  match buf, out_user, out_pass with
  | Some b, Some ou, Some op =>
      if buf_len <? 2 then Some (-1, out_user, out_pass) else
      payload ← buf_get b 1;
      if 2 + payload >? buf_len then Some (-1, out_user, out_pass) else
      let pos := 2 in
      if pos >=? buf_len then Some (-1, out_user, out_pass) else
      ulen ← buf_get b pos;
      let pos := pos + 1 in
      if (ulen >? CHAT_MAX_USERNAME_LEN) || (pos + ulen >? buf_len)
      then Some (-1, out_user, out_pass) else
      src ← buf_slice b pos ulen;
      ou ← buf_write ou 0 src;
      ou ← buf_set ou ulen 0;
      let pos := pos + ulen in
      if pos >=? buf_len then Some (-1, Some ou, out_pass) else
      plen ← buf_get b pos;
      let pos := pos + 1 in
      if (plen >? CHAT_MAX_PASSWORD_LEN) || (pos + plen >? buf_len)
      then Some (-1, Some ou, out_pass) else
      src ← buf_slice b pos plen;
      op ← buf_write op 0 src;
      op ← buf_set op plen 0;
      Some (0, Some ou, Some op)
  | _, _, _ => Some (-1, out_user, out_pass)
  end.

Definition chat_decode_status_rep (buf : ptr bytes) (buf_len : Z) (out_status : ptr Z)
  : option (Z * ptr Z) :=
  match buf, out_status with
  | Some b, Some _ =>
      if buf_len <? 3 then Some (-1, out_status) else
      l ← buf_get b 1;
      if negb (l =? 1) then Some (-1, out_status) else
      st ← buf_get b 2;
      Some (0, Some st)
  | _, _ => Some (-1, out_status)
  end.

Definition chat_decode_groupname (buf : ptr bytes) (buf_len : Z) (out_group : ptr bytes)
  : option (Z * ptr bytes) :=
  match buf, out_group with
  | Some b, Some og =>
      if buf_len <? 2 then Some (-1, out_group) else
      payload ← buf_get b 1;
      if 2 + payload >? buf_len then Some (-1, out_group) else
      if payload <? 1 then Some (-1, out_group) else
      glen ← buf_get b 2;
      if (glen >? CHAT_MAX_GROUPNAME_LEN) || (3 + glen >? buf_len)
      then Some (-1, out_group) else
      src ← buf_slice b 3 glen;
      og ← buf_write og 0 src;
      og ← buf_set og glen 0;
      Some (0, Some og)
  | _, _ => Some (-1, out_group)
  end.

Definition chat_decode_group_rep_ok (buf : ptr bytes) (buf_len : Z) (out_status : ptr Z)
    (out_mcast_ip : ptr bytes) (out_mcast_port : ptr Z)
  : option (Z * ptr Z * ptr bytes * ptr Z) :=
  match buf, out_status, out_mcast_ip, out_mcast_port with
  | Some b, Some _, Some oip, Some _ =>
      if buf_len <? 3 then Some (-1, out_status, out_mcast_ip, out_mcast_port) else
      payload ← buf_get b 1;
      if (2 + payload >? buf_len) || (payload <? 1)
      then Some (-1, out_status, out_mcast_ip, out_mcast_port) else
      st ← buf_get b 2;
      if negb (st =? status_code ST_OK) || (payload =? 1) then
        oip ← buf_set oip 0 0;
        Some (0, Some st, Some oip, Some 0)
      else
      let pos := 3 in
      if pos >=? buf_len then Some (-1, Some st, out_mcast_ip, out_mcast_port) else
      iplen ← buf_get b pos;
      let pos := pos + 1 in
      if (iplen >=? CHAT_MAX_IP_STR_LEN) || (pos + iplen >? buf_len)
      then Some (-1, Some st, out_mcast_ip, out_mcast_port) else
      src ← buf_slice b pos iplen;
      oip ← buf_write oip 0 src;
      oip ← buf_set oip iplen 0;
      let pos := pos + iplen in
      if pos >=? buf_len then Some (-1, Some st, Some oip, out_mcast_port) else
      portlen ← buf_get b pos;
      let pos := pos + 1 in
      if negb (portlen =? 2) || (pos + 2 >? buf_len)
      then Some (-1, Some st, Some oip, out_mcast_port) else
      hi ← buf_get b pos;
      lo ← buf_get b (pos + 1);
      Some (0, Some st, Some oip, Some (u16 (Z.lor (Z.shiftl hi 8) lo)))
  | _, _, _, _ => Some (-1, out_status, out_mcast_ip, out_mcast_port)
  end.

(** ** The frames as byte lists *)

(** Sub-field [[L][V]]. *)
Definition field (v : bytes) : bytes := blen v :: v.

(** Frame [[T][L][payload]]. *)
Definition frame (op : ChatOpcode) (payload : bytes) : bytes :=
  opcode op :: blen payload :: payload.

Definition user_pass_frame op (u p : cstring) : bytes := frame op (field u ++ field p).
Definition groupname_frame op (g : cstring) : bytes := frame op (field g).
Definition status_frame op (st : ChatStatus) : bytes := frame op [status_code st].
Definition logout_frame : bytes := frame OP_LOGOUT_REQ [].
Definition group_ok_frame op (ip : cstring) (port : Z) : bytes :=
  frame op (status_code ST_OK :: field ip ++ field [port / 256; port mod 256]).

(** ** Reference parsers

    What the decoders accept, on the received bytes alone. *)

(** [[L][V]] with [L] at most [max] and all of [V] present. *)
Definition parse_field (max : Z) (b : bytes) : option (bytes * bytes) :=
  match b with
  | [] => None
  | l :: r =>
      if (l <=? max) && (l <=? blen r)
      then Some (take (Z.to_nat l) r, drop (Z.to_nat l) r) else None
  end.

(** The body of a frame whose length byte does not exceed what was received. *)
Definition parse_frame (fr : bytes) : option (Z * Z * bytes) :=
  match fr with
  | t :: l :: body => if l <=? blen body then Some (t, l, body) else None
  | _ => None
  end.

Definition parse_groupname (fr : bytes) : option bytes :=
  '(_, l, body) ← parse_frame fr;
  if l <? 1 then None else
  '(g, _) ← parse_field CHAT_MAX_GROUPNAME_LEN body;
  Some g.

(** A [char] buffer after a string was stored at its start. *)
Definition stored (s b : bytes) : bytes := s ++ 0 :: drop (S (length s)) b.

(** The results of the decoders, in terms of the reference parsers: a decoder
    that rejects its input may already have stored a first field. *)
Definition user_pass_outcome (fr ou op : bytes) : Z * ptr bytes * ptr bytes :=
  match parse_frame fr with
  | None => (-1, Some ou, Some op)
  | Some (_, _, body) =>
      match parse_field CHAT_MAX_USERNAME_LEN body with
      | None => (-1, Some ou, Some op)
      | Some (u, r) =>
          match parse_field CHAT_MAX_PASSWORD_LEN r with
          | None => (-1, Some (stored u ou), Some op)
          | Some (p, _) => (0, Some (stored u ou), Some (stored p op))
          end
      end
  end.

Definition groupname_outcome (fr og : bytes) : Z * ptr bytes :=
  match parse_groupname fr with
  | None => (-1, Some og)
  | Some g => (0, Some (stored g og))
  end.

Definition group_rep_outcome (fr : bytes) (st : Z) (oip : bytes) (port : Z)
  : Z * ptr Z * ptr bytes * ptr Z :=
  match parse_frame fr with
  | Some (_, l, s :: r) =>
      if l <? 1 then (-1, Some st, Some oip, Some port) else
      if negb (s =? status_code ST_OK) || (l =? 1)
      then (0, Some s, Some (stored [] oip), Some 0) else
      match parse_field (CHAT_MAX_IP_STR_LEN - 1) r with
      | None => (-1, Some s, Some oip, Some port)
      | Some (ip, pl :: hi :: lo :: _) =>
          if pl =? 2 then (0, Some s, Some (stored ip oip), Some (hi * 256 + lo))
          else (-1, Some s, Some (stored ip oip), Some port)
      | Some (ip, _) => (-1, Some s, Some (stored ip oip), Some port)
      end
  | _ => (-1, Some st, Some oip, Some port)
  end.

(** What a buffer holds after a message of [n] bytes was encoded into it. *)
Definition encoded (b : bytes) (r : option (Z * ptr bytes)) (msg : bytes) : Prop :=
  r = Some (blen msg, Some (msg ++ drop (length msg) b)).

(** ** Encoders write exactly their frame *)

Lemma opcode_u8 op : is_u8 (opcode op).
Proof. unfold is_u8; destruct op; simpl; lia. Qed.

Lemma status_u8 st : is_u8 (status_code st).
Proof. unfold is_u8; destruct st; simpl; lia. Qed.

Lemma status_code_inj st1 st2 : status_code st1 = status_code st2 -> st1 = st2.
Proof. destruct st1, st2; simpl; (lia || done). Qed.

#[export] Hint Resolve opcode_u8 status_u8 : chat.

(** Linear facts about lengths of concatenations. *)
Ltac len :=
  unfold blen, strlen, is_u8, is_u16 in *;
  do 4 (cbn [length app] in *; rewrite ?length_app, ?length_drop, ?length_take in *);
  cbn [length] in *; lia.

Ltac chat_consts :=
  unfold CHAT_MAX_MSG_SIZE, CHAT_MAX_PAYLOAD, CHAT_MAX_USERNAME_LEN,
    CHAT_MAX_PASSWORD_LEN, CHAT_MAX_GROUPNAME_LEN, CHAT_MAX_IP_STR_LEN in *.

(** Resolve a comparison of C integers in the goal by linear arithmetic. *)
Ltac ctest :=
  match goal with
  | |- context [?a <? ?b] =>
      first [ rewrite (proj2 (Z.ltb_lt a b)) by len | rewrite (proj2 (Z.ltb_ge a b)) by len ]
  | |- context [?a <=? ?b] =>
      first [ rewrite (proj2 (Z.leb_le a b)) by len | rewrite (proj2 (Z.leb_gt a b)) by len ]
  | |- context [?a =? ?b] =>
      first [ rewrite (proj2 (Z.eqb_eq a b)) by len | rewrite (proj2 (Z.eqb_neq a b)) by len ]
  end.

Ltac ctests := rewrite ?Z.gtb_ltb, ?Z.geb_leb; repeat ctest; cbn [orb andb negb].

(** Run the next store of an encoder. *)
Ltac enc_first b :=
  change (buf_set b 0) with (buf_set ([] ++ drop (length (@nil Z)) b) 0);
  rewrite (buf_set_next b []) by len; cbn [mbind option_bind].
Ltac enc_step :=
  first [ rewrite buf_set_next by len | rewrite buf_write_next by len ];
  cbn [mbind option_bind].

Lemma encode_user_pass_spec b op u p :
  CHAT_MAX_MSG_SIZE <= blen b -> strlen u <= CHAT_MAX_USERNAME_LEN ->
  strlen p <= CHAT_MAX_PASSWORD_LEN ->
  encoded b (chat_encode_user_pass_req (Some b) op (Some u) (Some p)) (user_pass_frame op u p).
Proof.
  intros Hb Hu Hp. unfold encoded, chat_encode_user_pass_req. chat_consts. ctests.
  enc_first b. repeat enc_step.
  unfold user_pass_frame, frame, field. cbn [app]. rewrite <-!app_assoc. cbn [app].
  rewrite !u8_id by (auto with chat; len).
  f_equal. f_equal; [len|]. repeat f_equal; len.
Qed.

Lemma encode_groupname_spec b op g :
  CHAT_MAX_MSG_SIZE <= blen b -> strlen g <= CHAT_MAX_GROUPNAME_LEN ->
  encoded b (chat_encode_groupname_req (Some b) op (Some g)) (groupname_frame op g).
Proof.
  intros Hb Hg. unfold encoded, chat_encode_groupname_req. chat_consts. ctests.
  enc_first b. repeat enc_step.
  unfold groupname_frame, frame, field. cbn [app].
  rewrite !u8_id by (auto with chat; len).
  f_equal. f_equal; [len|]. repeat f_equal; len.
Qed.

Lemma encode_status_spec b op st :
  3 <= blen b -> encoded b (chat_encode_status_rep (Some b) op st) (status_frame op st).
Proof.
  intros Hb. unfold encoded, chat_encode_status_rep.
  enc_first b. repeat enc_step. cbn [app]. by rewrite !u8_id by (auto with chat; len).
Qed.

Lemma encode_logout_spec b :
  2 <= blen b -> encoded b (chat_encode_logout_req (Some b)) logout_frame.
Proof.
  intros Hb. unfold encoded, chat_encode_logout_req.
  enc_first b. repeat enc_step. cbn [app]. by rewrite !u8_id by (auto with chat; len).
Qed.

Lemma shiftr8 z : Z.shiftr z 8 = z / 256.
Proof. by rewrite Z.shiftr_div_pow2 by lia. Qed.

Lemma land255 z : Z.land z 255 = z mod 256.
Proof. change 255 with (Z.ones 8). by rewrite Z.land_ones by lia. Qed.

Lemma encode_group_ok_spec b op ip port :
  CHAT_MAX_MSG_SIZE <= blen b -> strlen ip < CHAT_MAX_IP_STR_LEN -> is_u16 port ->
  encoded b (chat_encode_group_rep_ok (Some b) op (Some ip) port) (group_ok_frame op ip port).
Proof.
  intros Hb Hip Hport. unfold encoded, chat_encode_group_rep_ok. chat_consts. ctests.
  rewrite shiftr8, land255. unfold is_u16 in Hport.
  assert (is_u8 (port / 256) /\ is_u8 (port mod 256)) as [? ?].
  { unfold is_u8. pose proof (Z.mod_pos_bound port 256). split; [|lia].
    split; [apply Z.div_pos; lia|]. apply Z.div_lt_upper_bound; lia. }
  enc_first b. repeat enc_step.
  unfold group_ok_frame, frame, field. change (blen [_; _]) with 2.
  cbn [app]. rewrite <-?app_assoc. cbn [app]. rewrite <-?app_assoc. cbn [app].
  rewrite !u8_id by (auto with chat; len).
  f_equal. f_equal; [len|]. repeat f_equal; len.
Qed.

(** ** Decoders agree with the reference parsers *)

Lemma parse_field_spec max b : is_byte_list b ->
  match parse_field max b with
  | Some (v, r) => b = blen v :: v ++ r /\ blen v <= max
  | None => b = [] \/ exists l r, b = l :: r /\ (max < l \/ blen r < l)
  end.
Proof.
  intros Hb. destruct b as [|l r]; cbn; [by left|].
  apply Forall_cons_1 in Hb as [Hl Hr]. unfold is_u8 in Hl.
  destruct ((l <=? max) && (l <=? blen r)) eqn:E; bprop.
  - unfold blen in *. rewrite length_take, take_drop.
    rewrite Nat.min_l, Z2Nat.id by lia. auto.
  - right. exists l, r. split; [done|]. destruct E; bprop; lia.
Qed.

Lemma parse_field_app max v r : blen v <= max -> parse_field max (field v ++ r) = Some (v, r).
Proof.
  intros Hv. unfold field. cbn. pose proof (blen_nonneg v). pose proof (blen_nonneg r).
  rewrite !(proj2 (Z.leb_le _ _)) by len. cbn. unfold blen.
  by rewrite Nat2Z.id, take_app_length, drop_app_length.
Qed.

Lemma store_string (s b : bytes) {A} (k : bytes -> option A) :
  blen s < blen b ->
  (b1 ← buf_write b 0 s; b2 ← buf_set b1 (blen s) 0; k b2) = k (stored s b).
Proof.
  intros Hlt. pose proof (blen_nonneg s).
  change (buf_write b 0 s) with (buf_write ([] ++ drop (length (@nil Z)) b) 0 s).
  rewrite (buf_write_next b []) by len. cbn [mbind option_bind app].
  rewrite buf_set_next by len. cbn [mbind option_bind]. unfold stored.
  rewrite <-app_assoc. cbn [app]. rewrite length_app. cbn [length].
  by rewrite Nat.add_1_r.
Qed.

Lemma stored_length s b : blen s < blen b -> blen (stored s b) = blen b.
Proof. intros. unfold stored. len. Qed.

Lemma c_str_stored s b : is_cstring s -> c_str (stored s b) = Some s.
Proof. apply c_str_app. Qed.

(** Reads in a buffer whose split at the index is given. *)
Lemma buf_get_at b pre x rest i :
  b = pre ++ x :: rest -> i = blen pre -> buf_get b i = Some x.
Proof. intros -> Hi. by apply buf_get_mid. Qed.

Lemma buf_slice_at b pre s rest i n :
  b = pre ++ s ++ rest -> i = blen pre -> n = blen s -> buf_slice b i n = Some s.
Proof. intros -> Hi Hn. by apply buf_slice_mid. Qed.

(** Equality of byte lists up to the association of concatenations. *)
Ltac app_eq := do 3 (cbn [app]; rewrite <-?app_assoc); reflexivity.

(** Evaluate the read at the head of a decoder, given the split of the
    buffer at the index. *)
Ltac dec_at pre x rest :=
  match goal with
  | |- buf_get ?b ?i ≫= _ = _ =>
      rewrite (buf_get_at b pre x rest i) by (first [ app_eq | len ])
  end; cbn [mbind option_bind].
Ltac dec_slice pre s rest :=
  match goal with
  | |- buf_slice ?b ?i ?n ≫= _ = _ =>
      rewrite (buf_slice_at b pre s rest i n) by (first [ app_eq | len ])
  end; cbn [mbind option_bind]; rewrite store_string by len.

(** The received bytes are the first [n] of the buffer. *)
Lemma received_split (b : bytes) n :
  0 <= n <= blen b -> exists fr rest, b = fr ++ rest /\ blen fr = n /\ take (Z.to_nat n) b = fr.
Proof.
  intros Hn. exists (take (Z.to_nat n) b), (drop (Z.to_nat n) b).
  rewrite take_drop. split; [done|]. split; [|done]. len.
Qed.

Lemma decode_user_pass_spec b n ou op :
  is_byte_list b -> 0 <= n <= blen b -> 33 <= blen ou -> 33 <= blen op ->
  chat_decode_user_pass (Some b) n (Some ou) (Some op)
  = Some (user_pass_outcome (take (Z.to_nat n) b) ou op).
Proof.
  intros Hb Hn Hou Hop. destruct (received_split b n Hn) as (fr & rest & -> & <- & ->).
  apply Forall_app in Hb as [Hfr _]. unfold chat_decode_user_pass, user_pass_outcome.
  destruct fr as [|t [|l body]]; [by ctests..|].
  unfold is_byte_list in Hfr. rewrite !Forall_cons_iff in Hfr. destruct Hfr as (Ht & Hl & Hbody).
  pose proof (blen_nonneg body). unfold parse_frame.
  ctests. dec_at [t] l (body ++ rest). rewrite Z.gtb_ltb.
  destruct (l <=? blen body) eqn:El; bprop; ctests; [|done].
  pose proof (parse_field_spec CHAT_MAX_USERNAME_LEN body Hbody) as Hu.
  destruct (parse_field CHAT_MAX_USERNAME_LEN body) as [[u r]|].
  2:{ destruct Hu as [->|(ul & r & -> & Hu)]; [by ctests|].
      ctests. dec_at [t; l] ul (r ++ rest). chat_consts. rewrite !Z.gtb_ltb.
      destruct (32 <? ul) eqn:E; [done|]. bprop. by ctests. }
  destruct Hu as [-> Hu]. chat_consts.
  apply Forall_cons_1 in Hbody as [_ Hbody]. apply Forall_app in Hbody as [_ Hr].
  ctests. dec_at [t; l] (blen u) ((u ++ r) ++ rest). ctests.
  dec_slice [t; l; blen u] u (r ++ rest).
  pose proof (parse_field_spec 32 r Hr) as Hp.
  destruct (parse_field 32 r) as [[p r']|].
  2:{ destruct Hp as [->|(pl & r' & -> & Hp)]; [by ctests|].
      ctests. dec_at ([t; l; blen u] ++ u) pl (r' ++ rest). rewrite !Z.gtb_ltb.
      destruct (32 <? pl) eqn:E; [done|]. bprop. by ctests. }
  destruct Hp as [-> Hp].
  ctests. dec_at ([t; l; blen u] ++ u) (blen p) ((p ++ r') ++ rest). ctests.
  by dec_slice ([t; l; blen u] ++ u ++ [blen p]) p (r' ++ rest).
Qed.

Lemma decode_groupname_spec b n og :
  is_byte_list b -> 0 <= n <= blen b -> 33 <= blen og ->
  chat_decode_groupname (Some b) n (Some og)
  = Some (groupname_outcome (take (Z.to_nat n) b) og).
Proof.
  intros Hb Hn Hog. destruct (received_split b n Hn) as (fr & rest & -> & <- & ->).
  apply Forall_app in Hb as [Hfr _].
  unfold chat_decode_groupname, groupname_outcome, parse_groupname.
  destruct fr as [|t [|l body]]; [by ctests..|].
  unfold is_byte_list in Hfr. rewrite !Forall_cons_iff in Hfr. destruct Hfr as (Ht & Hl & Hbody).
  pose proof (blen_nonneg body). unfold parse_frame.
  ctests. dec_at [t] l (body ++ rest). rewrite Z.gtb_ltb.
  destruct (l <=? blen body) eqn:El; bprop; ctests; [|done]. cbn [mbind option_bind].
  destruct (l <? 1) eqn:E1; bprop; [done|].
  pose proof (parse_field_spec CHAT_MAX_GROUPNAME_LEN body Hbody) as Hg.
  destruct (parse_field CHAT_MAX_GROUPNAME_LEN body) as [[g r]|]; cbn [mbind option_bind].
  2:{ destruct Hg as [->|(gl & r & -> & Hg)]; [len|].
      dec_at [t; l] gl (r ++ rest). chat_consts. rewrite !Z.gtb_ltb.
      destruct (32 <? gl) eqn:E; [done|]. bprop. by ctests. }
  destruct Hg as [-> Hg]. chat_consts.
  dec_at [t; l] (blen g) ((g ++ r) ++ rest). ctests.
  by dec_slice [t; l; blen g] g (r ++ rest).
Qed.

Lemma be16 hi lo : is_u8 hi -> is_u8 lo -> u16 (Z.lor (Z.shiftl hi 8) lo) = hi * 256 + lo.
Proof.
  unfold is_u8, u16. intros Hh Hl. rewrite Z.shiftl_mul_pow2 by lia.
  rewrite <-Z.add_nocarry_lor; [rewrite Z.mod_small; lia|].
  apply Z.bits_inj'. intros i Hi. rewrite Z.land_spec, Z.bits_0.
  destruct (Z.ltb_spec i 8).
  - by rewrite Z.mul_pow2_bits_low by lia.
  - rewrite (Z.bits_above_log2 lo), andb_false_r; [done|lia|].
    destruct (decide (lo = 0)) as [->|]; [simpl; lia|].
    apply Z.lt_le_trans with 8; [|lia]. apply Z.log2_lt_pow2; lia.
Qed.

Lemma decode_group_rep_spec b n st oip port :
  is_byte_list b -> 0 <= n <= blen b -> 16 <= blen oip ->
  chat_decode_group_rep_ok (Some b) n (Some st) (Some oip) (Some port)
  = Some (group_rep_outcome (take (Z.to_nat n) b) st oip port).
Proof.
  intros Hb Hn Hoip. destruct (received_split b n Hn) as (fr & rest & -> & <- & ->).
  apply Forall_app in Hb as [Hfr _].
  unfold chat_decode_group_rep_ok, group_rep_outcome.
  destruct fr as [|t [|l [|s r]]]; [by ctests..| |].
  { ctests. cbn. by destruct (l <=? _). }
  unfold is_byte_list in Hfr. rewrite !Forall_cons_iff in Hfr. destruct Hfr as (Ht & Hl & Hs & Hr).
  pose proof (blen_nonneg r). unfold parse_frame. chat_consts.
  ctests. dec_at [t] l (s :: r ++ rest). rewrite Z.gtb_ltb.
  destruct (l <=? blen (s :: r)) eqn:El; bprop; ctests; [|done].
  destruct (l <? 1) eqn:E1; bprop; [done|].
  dec_at [t; l] s (r ++ rest).
  destruct (negb (s =? status_code ST_OK) || (l =? 1)) eqn:Es.
  { pose proof (store_string [] oip (fun b2 => Some (0, Some s, Some b2, Some 0))
      ltac:(len)) as E. rewrite <-E. unfold buf_write. by ctests. }
  bprop. cbn [status_code] in *.
  change (16 - 1) with 15. pose proof (parse_field_spec 15 r Hr) as Hip.
  destruct (parse_field 15 r) as [[ip r']|].
  2:{ destruct Hip as [->|(il & r' & -> & Hip)]; [by ctests|].
      ctests. dec_at [t; l; s] il (r' ++ rest). rewrite ?Z.gtb_ltb, ?Z.geb_leb.
      destruct (16 <=? il) eqn:E; [done|]. bprop. by ctests. }
  destruct Hip as [-> Hip].
  apply Forall_cons_1 in Hr as [_ Hr]. apply Forall_app in Hr as [_ Hr].
  ctests. dec_at [t; l; s] (blen ip) ((ip ++ r') ++ rest). ctests.
  dec_slice [t; l; s; blen ip] ip (r' ++ rest).
  destruct r' as [|pl r']; [by ctests|].
  ctests. dec_at ([t; l; s; blen ip] ++ ip) pl (r' ++ rest).
  destruct r' as [|hi [|lo r']]; [by ctests; destruct (pl =? 2)..|].
  destruct (pl =? 2) eqn:Ep; bprop; [|done]. subst pl. ctests.
  dec_at ([t; l; s; blen ip] ++ ip ++ [2]) hi (lo :: r' ++ rest).
  dec_at ([t; l; s; blen ip] ++ ip ++ [2; hi]) lo (r' ++ rest).
  rewrite !Forall_cons_iff in Hr. destruct Hr as (_ & Hhi & Hlo & _).
  by rewrite be16.
Qed.

(** ** Consequences used by the rest of the development *)

Lemma field_bytes v : blen v < 256 -> is_byte_list v -> is_byte_list (field v).
Proof. intros Hv Hb. constructor; [len|done]. Qed.

Lemma frame_bytes op payload :
  blen payload < 256 -> is_byte_list payload -> is_byte_list (frame op payload).
Proof. intros Hp Hb. constructor; [apply opcode_u8|]. constructor; [len|done]. Qed.

Lemma field_len v : blen (field v) = 1 + blen v.
Proof. unfold field. len. Qed.

Lemma frame_len op payload : blen (frame op payload) = 2 + blen payload.
Proof. unfold frame. len. Qed.

(** A frame parses back to its payload, whatever follows it is not looked at. *)
Lemma parse_frame_frame op payload :
  parse_frame (frame op payload) = Some (opcode op, blen payload, payload).
Proof. unfold parse_frame, frame. by ctests. Qed.

Lemma take_blen (b rest : bytes) : take (Z.to_nat (blen b)) (b ++ rest) = b.
Proof. unfold blen. by rewrite Nat2Z.id, take_app_length. Qed.

Lemma user_pass_outcome_frame op u p ou oq :
  blen u <= 32 -> blen p <= 32 ->
  user_pass_outcome (user_pass_frame op u p) ou oq = (0, Some (stored u ou), Some (stored p oq)).
Proof.
  intros Hu Hp. unfold user_pass_outcome, user_pass_frame. rewrite parse_frame_frame.
  rewrite parse_field_app by (by chat_consts).
  rewrite <-(app_nil_r (field p)). by rewrite parse_field_app by (by chat_consts).
Qed.

Lemma groupname_outcome_frame op g og :
  blen g <= 32 -> groupname_outcome (groupname_frame op g) og = (0, Some (stored g og)).
Proof.
  intros Hg. unfold groupname_outcome, parse_groupname, groupname_frame.
  rewrite parse_frame_frame. cbn [mbind option_bind]. rewrite field_len.
  pose proof (blen_nonneg g). ctests.
  rewrite <-(app_nil_r (field g)). by rewrite parse_field_app by (by chat_consts).
Qed.

Lemma group_rep_outcome_ok op ip port st oip p0 :
  blen ip < 16 -> is_u16 port ->
  group_rep_outcome (group_ok_frame op ip port) st oip p0
  = (0, Some (status_code ST_OK), Some (stored ip oip), Some port).
Proof.
  intros Hip Hport. unfold group_rep_outcome, group_ok_frame.
  rewrite parse_frame_frame. pose proof (blen_nonneg ip).
  rewrite blen_cons, blen_app, !field_len. cbn [status_code Z.eqb negb orb]. ctests.
  rewrite parse_field_app by (chat_consts; lia). unfold field. cbn.
  do 3 f_equal. pose proof (Z.div_mod port 256). lia.
Qed.

Lemma group_rep_outcome_status op s st oip p0 :
  s <> ST_OK ->
  group_rep_outcome (status_frame op s) st oip p0
  = (0, Some (status_code s), Some (stored [] oip), Some 0).
Proof.
  intros Hs. unfold group_rep_outcome, status_frame. rewrite parse_frame_frame.
  destruct s; done.
Qed.

Lemma stored_bytes s b : is_byte_list s -> is_byte_list b -> is_byte_list (stored s b).
Proof.
  intros Hs Hb. apply Forall_app; split; [done|]. constructor; [len|]. by apply Forall_drop.
Qed.

(** A stored field can be read as a string no longer than the field. *)
Lemma stored_c_str s b : exists t, c_str (stored s b) = Some t /\ strlen t <= blen s.
Proof.
  destruct (c_str_total s (drop (S (length s)) b)) as (t & Ht & Hl).
  exists t. split; [done|len].
Qed.

(** On arbitrary received bytes. *)
Lemma user_pass_outcome_safe fr ou oq :
  is_byte_list fr -> blen ou = 33 -> blen oq = 33 ->
  exists rc ou' oq', user_pass_outcome fr ou oq = (rc, Some ou', Some oq') /\
    blen ou' = 33 /\ blen oq' = 33 /\
    (rc = -1 \/ (rc = 0 /\ exists u p, c_str ou' = Some u /\ c_str oq' = Some p /\
       strlen u <= CHAT_MAX_USERNAME_LEN /\ strlen p <= CHAT_MAX_PASSWORD_LEN)).
Proof.
  intros Hfr Lou Loq. unfold user_pass_outcome, parse_frame. chat_consts.
  destruct fr as [|t [|l body]]; [by do 3 eexists; auto..|].
  unfold is_byte_list in Hfr. rewrite !Forall_cons_iff in Hfr. destruct Hfr as (_ & _ & Hbody).
  destruct (l <=? blen body); [|by do 3 eexists; auto].
  pose proof (parse_field_spec 32 body Hbody) as Hu.
  destruct (parse_field 32 body) as [[u r]|]; [|by do 3 eexists; auto].
  destruct Hu as [-> Hu]. apply Forall_cons_1 in Hbody as [_ [_ Hr]%Forall_app].
  pose proof (parse_field_spec 32 r Hr) as Hp.
  destruct (parse_field 32 r) as [[p r']|]; do 3 eexists; (split; [done|]);
    rewrite !stored_length by len; [|by auto].
  split; [done|]. split; [done|]. right. split; [done|].
  destruct (stored_c_str u ou) as (s1 & ? & ?), (stored_c_str p oq) as (s2 & ? & ?).
  exists s1, s2. repeat (split; [done|]). lia.
Qed.

Lemma groupname_outcome_safe fr og :
  is_byte_list fr -> blen og = 33 ->
  exists rc og', groupname_outcome fr og = (rc, Some og') /\ blen og' = 33 /\
    (rc = -1 \/ (rc = 0 /\ exists g, c_str og' = Some g /\ strlen g <= CHAT_MAX_GROUPNAME_LEN)).
Proof.
  intros Hfr Log. unfold groupname_outcome, parse_groupname, parse_frame. chat_consts.
  destruct fr as [|t [|l body]]; [by do 2 eexists; auto..|].
  unfold is_byte_list in Hfr. rewrite !Forall_cons_iff in Hfr. destruct Hfr as (_ & _ & Hbody).
  destruct (l <=? blen body); cbn [mbind option_bind]; [|by do 2 eexists; auto].
  destruct (l <? 1); [by do 2 eexists; auto|].
  pose proof (parse_field_spec 32 body Hbody) as Hg.
  destruct (parse_field 32 body) as [[g r]|]; cbn [mbind option_bind]; [|by do 2 eexists; auto].
  destruct Hg as [-> Hg]. do 2 eexists. split; [done|].
  rewrite !stored_length by len. split; [done|]. right. split; [done|].
  destruct (stored_c_str g og) as (s1 & ? & ?). exists s1. split; [done|]. lia.
Qed.

(** ** Properties *)

(** C30: A REG_REQ or LOGIN_REQ survives the wire: what [chat_encode_user_pass_req]
    puts in a message buffer, [chat_decode_user_pass] reads back as the same user
    and password, whatever was in the buffers before. *)
Theorem user_pass_roundtrip op (u p b ou oq : bytes)
    (Hu : is_cstring u) (Hp : is_cstring p) (Hb : is_byte_list b)
    (Lu : strlen u <= CHAT_MAX_USERNAME_LEN) (Lp : strlen p <= CHAT_MAX_PASSWORD_LEN)
    (Lb : CHAT_MAX_MSG_SIZE <= blen b) (Lou : 33 <= blen ou) (Loq : 33 <= blen oq) :
  exists n b' ou' oq',
    chat_encode_user_pass_req (Some b) op (Some u) (Some p) = Some (n, Some b') /\
    n = 4 + strlen u + strlen p /\
    chat_decode_user_pass (Some b') n (Some ou) (Some oq) = Some (0, Some ou', Some oq') /\
    c_str ou' = Some u /\ c_str oq' = Some p.
Proof.
  pose proof (encode_user_pass_spec b op u p Lb Lu Lp) as He. unfold encoded in He.
  do 4 eexists. split; [exact He|]. split; [unfold user_pass_frame, frame, field; len|].
  rewrite decode_user_pass_spec; [|apply Forall_app; split|len..].
  - rewrite take_blen, user_pass_outcome_frame by (chat_consts; len).
    split; [done|]. split; by apply c_str_stored.
  - chat_consts. apply frame_bytes; [unfold field; len|].
    apply Forall_app; split; apply field_bytes; [len|by apply is_cstring_bytes|len|by apply is_cstring_bytes].
  - by apply Forall_drop.
Qed.

Lemma user_pass_roundtrip_witness :
  exists n b' ou' oq',
    chat_encode_user_pass_req (Some (replicate 257 7)) OP_REG_REQ
      (Some [97; 98; 99]) (Some [49; 50; 51]) = Some (n, Some b') /\
    n = 4 + strlen [97; 98; 99] + strlen [49; 50; 51] /\
    chat_decode_user_pass (Some b') n (Some (replicate 33 0)) (Some (replicate 33 0))
      = Some (0, Some ou', Some oq') /\
    c_str ou' = Some [97; 98; 99] /\ c_str oq' = Some [49; 50; 51].
Proof.
  apply user_pass_roundtrip.
  1-2: repeat constructor; lia.
  1: apply Forall_replicate; unfold is_u8; lia.
  all: vm_compute; discriminate.
Defined.

(** A group request survives the wire in the same way. *)
Theorem groupname_roundtrip op (g b og : bytes)
    (Hg : is_cstring g) (Hb : is_byte_list b) (Lg : strlen g <= CHAT_MAX_GROUPNAME_LEN)
    (Lb : CHAT_MAX_MSG_SIZE <= blen b) (Log : 33 <= blen og) :
  exists n b' og',
    chat_encode_groupname_req (Some b) op (Some g) = Some (n, Some b') /\
    n = 3 + strlen g /\
    chat_decode_groupname (Some b') n (Some og) = Some (0, Some og') /\
    c_str og' = Some g.
Proof.
  pose proof (encode_groupname_spec b op g Lb Lg) as He. unfold encoded in He.
  do 3 eexists. split; [exact He|]. split; [unfold groupname_frame, frame, field; len|].
  rewrite decode_groupname_spec; [|apply Forall_app; split|len..].
  - rewrite take_blen, groupname_outcome_frame by (chat_consts; len).
    split; [done|]. by apply c_str_stored.
  - chat_consts. apply frame_bytes; [unfold field; len|].
    apply field_bytes; [len|by apply is_cstring_bytes].
  - by apply Forall_drop.
Qed.

Lemma groupname_roundtrip_witness :
  exists n b' og',
    chat_encode_groupname_req (Some (replicate 257 0)) OP_JOIN_GROUP_REQ (Some [103; 49])
      = Some (n, Some b') /\
    n = 3 + strlen [103; 49] /\
    chat_decode_groupname (Some b') n (Some (replicate 33 0)) = Some (0, Some og') /\
    c_str og' = Some [103; 49].
Proof.
  apply groupname_roundtrip.
  1: repeat constructor; lia.
  1: apply Forall_replicate; unfold is_u8; lia.
  all: vm_compute; discriminate.
Defined.

(** A group reply survives the wire: the success form brings the multicast
    address and the 16-bit port (big-endian) to the client, and every failure
    form brings its status with an empty address and port 0. *)
Theorem group_reply_roundtrip op (ip b oip : bytes) port s st p0
    (Hip : is_cstring ip) (Hb : is_byte_list b) (Lip : strlen ip < CHAT_MAX_IP_STR_LEN)
    (Hport : is_u16 port) (Lb : CHAT_MAX_MSG_SIZE <= blen b) (Loip : 16 <= blen oip)
    (Hs : s <> ST_OK) :
  (exists n b' oip',
    chat_encode_group_rep_ok (Some b) op (Some ip) port = Some (n, Some b') /\
    chat_decode_group_rep_ok (Some b') n (Some st) (Some oip) (Some p0)
      = Some (0, Some (status_code ST_OK), Some oip', Some port) /\
    c_str oip' = Some ip) /\
  (exists n b' oip',
    chat_encode_status_rep (Some b) op s = Some (n, Some b') /\
    chat_decode_group_rep_ok (Some b') n (Some st) (Some oip) (Some p0)
      = Some (0, Some (status_code s), Some oip', Some 0) /\
    c_str oip' = Some []).
Proof.
  assert (Hd : forall k, is_byte_list (drop k b)) by (intros; by apply Forall_drop).
  split.
  - pose proof (encode_group_ok_spec b op ip port Lb Lip Hport) as He.
    do 3 eexists. split; [exact He|].
    rewrite decode_group_rep_spec; [|apply Forall_app; split; [|apply Hd]|len..].
    + rewrite take_blen, group_rep_outcome_ok by (chat_consts; len).
      split; [done|]. by apply c_str_stored.
    + chat_consts. assert (0 <= port / 256 < 256 /\ 0 <= port mod 256 < 256).
      { unfold is_u16 in Hport. pose proof (Z.mod_pos_bound port 256).
        pose proof (Z.div_mod port 256). lia. }
      apply frame_bytes; [unfold field; len|]. constructor; [apply status_u8|].
      apply Forall_app; split; apply field_bytes;
        [len|by apply is_cstring_bytes|len|repeat constructor; len].
  - pose proof (encode_status_spec b op s ltac:(chat_consts; lia)) as He.
    do 3 eexists. split; [exact He|].
    rewrite decode_group_rep_spec; [|apply Forall_app; split; [|apply Hd]|len..].
    + rewrite take_blen, group_rep_outcome_status by done. done.
    + apply frame_bytes; [len|]. constructor; [apply status_u8|constructor].
Qed.

Lemma group_reply_roundtrip_witness :
  (exists n b' oip',
    chat_encode_group_rep_ok (Some (replicate 257 0)) OP_JOIN_GROUP_REP (Some [50; 51; 57]) 6007
      = Some (n, Some b') /\
    chat_decode_group_rep_ok (Some b') n (Some 99) (Some (replicate 16 0)) (Some 1)
      = Some (0, Some (status_code ST_OK), Some oip', Some 6007) /\
    c_str oip' = Some [50; 51; 57]) /\
  (exists n b' oip',
    chat_encode_status_rep (Some (replicate 257 0)) OP_JOIN_GROUP_REP ST_ERR_GROUP_NOT_FOUND
      = Some (n, Some b') /\
    chat_decode_group_rep_ok (Some b') n (Some 99) (Some (replicate 16 0)) (Some 1)
      = Some (0, Some (status_code ST_ERR_GROUP_NOT_FOUND), Some oip', Some 0) /\
    c_str oip' = Some []).
Proof.
  apply group_reply_roundtrip.
  1: repeat constructor; lia.
  1: apply Forall_replicate; unfold is_u8; lia.
  2: split; vm_compute; congruence.
  4: discriminate.
  all: vm_compute; congruence.
Defined.

(** Decoding untrusted bytes is safe: on any received bytes the decoders of
    requests return 0 or -1, never read past [buf_len] (they behave the same on
    any buffer with the same first [buf_len] bytes), never write past the
    33-byte out-buffers, and what they accept are terminated strings of at most
    32 characters. *)
Theorem request_decoders_safe (b b2 ou oq : bytes) n
    (Hb : is_byte_list b) (Hb2 : is_byte_list b2) (Hn : 0 <= n <= blen b) (Hn2 : n <= blen b2)
    (Heq : take (Z.to_nat n) b2 = take (Z.to_nat n) b)
    (Lou : blen ou = 33) (Loq : blen oq = 33) :
  (exists rc ou' oq',
    chat_decode_user_pass (Some b) n (Some ou) (Some oq) = Some (rc, Some ou', Some oq') /\
    chat_decode_user_pass (Some b2) n (Some ou) (Some oq) = Some (rc, Some ou', Some oq') /\
    blen ou' = 33 /\ blen oq' = 33 /\
    (rc = -1 \/ (rc = 0 /\ exists u p, c_str ou' = Some u /\ c_str oq' = Some p /\
       strlen u <= CHAT_MAX_USERNAME_LEN /\ strlen p <= CHAT_MAX_PASSWORD_LEN))) /\
  (exists rc og',
    chat_decode_groupname (Some b) n (Some ou) = Some (rc, Some og') /\
    chat_decode_groupname (Some b2) n (Some ou) = Some (rc, Some og') /\
    blen og' = 33 /\
    (rc = -1 \/ (rc = 0 /\ exists g, c_str og' = Some g /\ strlen g <= CHAT_MAX_GROUPNAME_LEN))).
Proof.
  rewrite !decode_user_pass_spec, !decode_groupname_spec, !Heq by (done || lia).
  assert (Hfr : is_byte_list (take (Z.to_nat n) b)) by by apply Forall_take.
  split.
  - destruct (user_pass_outcome_safe _ ou oq Hfr Lou Loq) as (rc & ou' & oq' & -> & H).
    by exists rc, ou', oq'.
  - destruct (groupname_outcome_safe _ ou Hfr Lou) as (rc & og' & -> & H). by exists rc, og'.
Qed.

Lemma request_decoders_safe_witness :
  let b := [1; 8; 200; 1; 2; 3; 4; 5; 6; 7] in
  (exists rc ou' oq',
    chat_decode_user_pass (Some b) 10 (Some (replicate 33 0)) (Some (replicate 33 0))
      = Some (rc, Some ou', Some oq') /\
    chat_decode_user_pass (Some (b ++ [9])) 10 (Some (replicate 33 0)) (Some (replicate 33 0))
      = Some (rc, Some ou', Some oq') /\
    blen ou' = 33 /\ blen oq' = 33 /\
    (rc = -1 \/ (rc = 0 /\ exists u p, c_str ou' = Some u /\ c_str oq' = Some p /\
       strlen u <= CHAT_MAX_USERNAME_LEN /\ strlen p <= CHAT_MAX_PASSWORD_LEN))) /\
  (exists rc og',
    chat_decode_groupname (Some b) 10 (Some (replicate 33 0)) = Some (rc, Some og') /\
    chat_decode_groupname (Some (b ++ [9])) 10 (Some (replicate 33 0)) = Some (rc, Some og') /\
    blen og' = 33 /\
    (rc = -1 \/ (rc = 0 /\ exists g, c_str og' = Some g /\ strlen g <= CHAT_MAX_GROUPNAME_LEN))).
Proof.
  intros b. subst b. apply request_decoders_safe; try reflexivity.
  1-2: repeat constructor; lia.
  1: split; vm_compute; discriminate.
  vm_compute; discriminate.
Defined.

(** The encoder of REG_REQ/LOGIN_REQ produces exactly the frame
    [T][L][Lu][user][Lp][pass] and touches no byte after it, or, when a field is
    longer than 32 characters, returns -1 and leaves the buffer alone; it never
    writes outside a buffer of CHAT_MAX_MSG_SIZE bytes. *)
Theorem user_pass_encoder_exact op (b u p : bytes) (Lb : CHAT_MAX_MSG_SIZE <= blen b) :
  chat_encode_user_pass_req (Some b) op (Some u) (Some p) =
  if (strlen u <=? CHAT_MAX_USERNAME_LEN) && (strlen p <=? CHAT_MAX_PASSWORD_LEN)
  then let f := opcode op :: (2 + strlen u + strlen p) :: (strlen u :: u) ++ (strlen p :: p) in
       Some (4 + strlen u + strlen p, Some (f ++ drop (length f) b))
  else Some (-1, Some b).
Proof.
  destruct ((strlen u <=? _) && (strlen p <=? _)) eqn:E; bprop.
  - rewrite (encode_user_pass_spec b op u p) by lia.
    unfold user_pass_frame, frame, field. cbv zeta. cbn [app].
    replace (blen (blen u :: u ++ blen p :: p)) with (2 + strlen u + strlen p) by len.
    do 2 f_equal. len.
  - unfold chat_encode_user_pass_req. rewrite !Z.gtb_ltb. destruct E; bprop;
      [by rewrite (proj2 (Z.ltb_lt _ _))|].
    rewrite (proj2 (Z.ltb_lt _ (strlen p))) by lia. by rewrite orb_true_r.
Qed.

Lemma user_pass_encoder_exact_witness :
  chat_encode_user_pass_req (Some (replicate 257 0)) OP_REG_REQ (Some [97]) (Some (replicate 33 120))
  = Some (-1, Some (replicate 257 0)).
Proof.
  rewrite user_pass_encoder_exact; [reflexivity | vm_compute; discriminate].
Defined.

(** C31: What [chat_decode_user_pass] accepts.  On [n] received bytes it
    succeeds exactly when they start with a type byte, a length byte that does
    not exceed the bytes that follow, a user field and a password field, of at
    most 32 bytes each, both within the [n] bytes.  These are more than the
    well-formed frames [L][username][L][password]: the two fields may end before
    the declared payload does or go on beyond it, and bytes after the password are
    ignored ([user_pass_accepts_loose]). *)
Theorem user_pass_accepts_iff (b ou oq : bytes) n
    (Hb : is_byte_list b) (Hn : 0 <= n <= blen b) (Lou : blen ou = 33) (Loq : blen oq = 33) :
  (exists ou' oq', chat_decode_user_pass (Some b) n (Some ou) (Some oq) = Some (0, Some ou', Some oq'))
  <->
  (exists t l u p rest, take (Z.to_nat n) b = t :: l :: (blen u :: u) ++ (blen p :: p) ++ rest /\
     2 + l <= n /\ blen u <= 32 /\ blen p <= 32).
Proof.
  rewrite decode_user_pass_spec by (done || lia).
  assert (Hl : blen (take (Z.to_nat n) b) = n) by len.
  assert (Hfr : Forall is_u8 (take (Z.to_nat n) b)) by by apply Forall_take.
  revert Hl Hfr. generalize (take (Z.to_nat n) b). intros fr Hl Hfr. split.
  - intros (ou' & oq' & H). unfold user_pass_outcome, parse_frame in H. chat_consts.
    destruct fr as [|t [|l body]]; [done..|].
    rewrite !Forall_cons_iff in Hfr. destruct Hfr as (_ & _ & Hbody).
    destruct (l <=? blen body) eqn:E; [|done]. bprop.
    pose proof (parse_field_spec 32 body Hbody) as Hu.
    destruct (parse_field 32 body) as [[u r]|]; [|done].
    destruct Hu as [-> Hu]. apply Forall_cons_1 in Hbody as [_ [_ Hr]%Forall_app].
    pose proof (parse_field_spec 32 r Hr) as Hp.
    destruct (parse_field 32 r) as [[p r']|]; [|done]. destruct Hp as [-> Hp].
    exists t, l, u, p, r'. split; [done|]. split; [len|]. done.
  - intros (t & l & u & p & rest & -> & Hle & Hu & Hp).
    exists (stored u ou), (stored p oq). unfold user_pass_outcome, parse_frame. chat_consts.
    rewrite (proj2 (Z.leb_le l _)) by len.
    change (blen u :: u) with (field u). change (blen p :: p) with (field p).
    by rewrite !parse_field_app.
Qed.

(** Accepted, although the declared payload is empty. *)
Example user_pass_accepts_loose :
  (fst <$> (fst <$> chat_decode_user_pass (Some [3; 0; 1; 97; 1; 98; 77]) 7
     (Some (replicate 33 0)) (Some (replicate 33 0)))) = Some 0.
Proof. vm_compute. reflexivity. Qed.

Lemma user_pass_accepts_iff_witness :
  (exists ou' oq', chat_decode_user_pass (Some [3; 4; 1; 97; 1; 98]) 6
     (Some (replicate 33 0)) (Some (replicate 33 0)) = Some (0, Some ou', Some oq')).
Proof.
  apply user_pass_accepts_iff.
  - repeat constructor; lia.
  - split; vm_compute; discriminate.
  - reflexivity.
  - reflexivity.
  - exists 3, 4, [97], [98], []. split; [reflexivity|]. repeat split; vm_compute; discriminate.
Defined.
