(* ===== verification/GenQueue.v ===== *)
(** * The generic queue: [shared/adt/genqueue.h], [shared/adt/genqueue.c]

    A circular buffer of [void*] with a head index, a tail index and an element
    count, each of them a [size_t].  The array is modelled as a list of slots,
    with every access checked; the magic number and the NULL checks are kept.
    The file proves that the buffer is a bounded FIFO queue: it refines a list
    with a capacity, operation by operation and for every sequence of calls. *)

From S2P Require Import Prelude.

Definition QUEUE_MAGIC_NUMBER : Z := 3203386110.

Inductive QueueResult :=
| QUEUE_SUCCESS
| QUEUE_UNINITIALIZED_ERROR
| QUEUE_OVERFLOW_ERROR
| QUEUE_DATA_NOT_FOUND_ERROR
| QUEUE_DATA_UNINITIALIZED_ERROR.

#[export] Instance QueueResult_eq_dec : EqDecision QueueResult.
Proof. solve_decision. Defined.

(** [struct Queue]: [m_items] is the array [m_items] points to. *)
Record Queue (A : Type) := MkQueue {
  m_items : list (ptr A);
  m_size : Z;
  m_head : Z;
  m_tail : Z;
  m_numOfElements : Z;
  m_magic : Z
}.
Arguments MkQueue {A}.
Arguments m_items {A}. Arguments m_size {A}. Arguments m_head {A}.
Arguments m_tail {A}. Arguments m_numOfElements {A}. Arguments m_magic {A}.

Section queue.
Context {A : Type}.

(** [q->m_items[i]] and [q->m_items[i] = x]. *)
Definition slot_get (l : list (ptr A)) (i : Z) : option (ptr A) :=
  if 0 <=? i then l !! Z.to_nat i else None.
Definition slot_set (l : list (ptr A)) (i : Z) (x : ptr A) : option (list (ptr A)) :=
  if (0 <=? i) && (i <? Z.of_nat (length l)) then Some (<[Z.to_nat i := x]> l) else None.

(** The array has [_size] times [sizeof] of a pointer bytes, computed in [size_t]; its slots
    are uninitialised, modelled as NULL. *)
Definition QueueCreate (_size : Z) : M (ptr (Queue A)) :=
  if _size =? 0 then mret NULL else
  ok ← malloc;
  if negb ok then mret NULL else
  ok ← malloc;
  if negb ok then (free;; mret NULL) else
  mret (Some {| m_items := replicate (Z.to_nat (size_t (_size * 8) / 8)) NULL;
                m_size := _size; m_head := 0; m_tail := 0; m_numOfElements := 0;
                m_magic := QUEUE_MAGIC_NUMBER |}).

(** The loop of [QueueDestroy], [n] iterations left. *)
Fixpoint destroy_items (_itemDestroy : ptr A -> M unit) (q : Queue A) (n : nat) (idx : Z)
  : M unit :=
  match n with
  | O => mret tt
  | S n =>
      x ← lift (slot_get (m_items q) idx);
      _itemDestroy x;;
      destroy_items _itemDestroy q n (size_t (idx + 1) mod m_size q)
  end.

Definition QueueDestroy (_queue : ptr (ptr (Queue A))) (_itemDestroy : ptr (ptr A -> M unit))
  : M (ptr (ptr (Queue A))) :=
  match _queue with
  | Some (Some q) =>
      if negb (m_magic q =? QUEUE_MAGIC_NUMBER) then mret _queue else
      match _itemDestroy with
      | Some f => destroy_items f q (Z.to_nat (m_numOfElements q)) (m_head q)
      | None => mret tt
      end;;
      free;;
      free;;
      mret (Some NULL)
  | _ => mret _queue
  end.

Definition QueueInsert (_queue : ptr (Queue A)) (_item : ptr A)
  : option (QueueResult * ptr (Queue A)) :=
  match _queue with
  | None => Some (QUEUE_UNINITIALIZED_ERROR, _queue)
  | Some q =>
      if negb (m_magic q =? QUEUE_MAGIC_NUMBER) then Some (QUEUE_UNINITIALIZED_ERROR, _queue) else
      match _item with
      | None => Some (QUEUE_DATA_UNINITIALIZED_ERROR, _queue)
      | Some _ =>
          if m_numOfElements q =? m_size q then Some (QUEUE_OVERFLOW_ERROR, _queue) else
          items ← slot_set (m_items q) (m_tail q) _item;
          Some (QUEUE_SUCCESS,
                Some {| m_items := items; m_size := m_size q; m_head := m_head q;
                        m_tail := size_t (m_tail q + 1) mod m_size q;
                        m_numOfElements := size_t (m_numOfElements q + 1);
                        m_magic := m_magic q |})
      end
  end.

Definition QueueRemove (_queue : ptr (Queue A)) (_item : ptr (ptr A))
  : option (QueueResult * ptr (Queue A) * ptr (ptr A)) :=
  match _queue with
  | None => Some (QUEUE_UNINITIALIZED_ERROR, _queue, _item)
  | Some q =>
      if negb (m_magic q =? QUEUE_MAGIC_NUMBER)
      then Some (QUEUE_UNINITIALIZED_ERROR, _queue, _item) else
      match _item with
      | None => Some (QUEUE_DATA_UNINITIALIZED_ERROR, _queue, _item)
      | Some _ =>
          if m_numOfElements q =? 0 then Some (QUEUE_DATA_NOT_FOUND_ERROR, _queue, _item) else
          x ← slot_get (m_items q) (m_head q);
          Some (QUEUE_SUCCESS,
                Some {| m_items := m_items q; m_size := m_size q;
                        m_head := size_t (m_head q + 1) mod m_size q; m_tail := m_tail q;
                        m_numOfElements := size_t (m_numOfElements q - 1);
                        m_magic := m_magic q |},
                Some x)
      end
  end.

Definition QueueIsEmpty (_queue : ptr (Queue A)) : Z :=
  match _queue with
  | None => 1
  | Some q =>
      if negb (m_magic q =? QUEUE_MAGIC_NUMBER) then 1 else
      if m_numOfElements q =? 0 then 1 else 0
  end.

(** The loop of [QueueForEach]: the action returns its C result and the new
    value of what [_context] points to. *)
Fixpoint foreach_items {C : Type} (_action : ptr A -> C -> Z * C) (q : Queue A) (n : nat)
    (idx count : Z) (_context : C) : option (Z * C) :=
  match n with
  | O => Some (count, _context)
  | S n =>
      let count := size_t (count + 1) in
      x ← slot_get (m_items q) idx;
      let '(r, _context) := _action x _context in
      if r =? 0 then Some (count, _context) else
      foreach_items _action q n (size_t (idx + 1) mod m_size q) count _context
  end.

Definition QueueForEach {C : Type} (_queue : ptr (Queue A)) (_action : ptr (ptr A -> C -> Z * C))
    (_context : C) : option (Z * C) :=
  match _queue, _action with
  | Some q, Some act =>
      if negb (m_magic q =? QUEUE_MAGIC_NUMBER) then Some (0, _context) else
      foreach_items act q (Z.to_nat (m_numOfElements q)) (m_head q) 0 _context
  | _, _ => Some (0, _context)
  end.

(** ** The bounded FIFO queue it implements *)

(** [q] is a live queue of capacity [cap] holding [xs], oldest first. *)
Record queue_rep (cap : Z) (q : Queue A) (xs : list A) : Prop := {
  qr_cap : 0 < cap < 2 ^ 61;
  qr_size : m_size q = cap;
  qr_magic : m_magic q = QUEUE_MAGIC_NUMBER;
  qr_items : Z.of_nat (length (m_items q)) = cap;
  qr_head : 0 <= m_head q < cap;
  qr_num : m_numOfElements q = Z.of_nat (length xs);
  qr_le : Z.of_nat (length xs) <= cap;
  qr_tail : m_tail q = (m_head q + Z.of_nat (length xs)) mod cap;
  qr_slots : forall (i : nat) x, xs !! i = Some x ->
    m_items q !! Z.to_nat ((m_head q + Z.of_nat i) mod cap) = Some (Some x)
}.

(** Calls and their results, on the implementation and on a list. *)
Inductive queue_call := CInsert (x : A) | CRemove.

Definition fifo_call (cap : Z) (xs : list A) (c : queue_call) : QueueResult * list A * option A :=
  match c with
  | CInsert x =>
      if Z.of_nat (length xs) =? cap then (QUEUE_OVERFLOW_ERROR, xs, None)
      else (QUEUE_SUCCESS, xs ++ [x], None)
  | CRemove =>
      match xs with
      | [] => (QUEUE_DATA_NOT_FOUND_ERROR, xs, None)
      | x :: xs => (QUEUE_SUCCESS, xs, Some x)
      end
  end.

Fixpoint fifo_run (cap : Z) (xs : list A) (cs : list queue_call)
  : list (QueueResult * option A) * list A :=
  match cs with
  | [] => ([], xs)
  | c :: cs =>
      let '(r, xs, o) := fifo_call cap xs c in
      let '(rs, xs) := fifo_run cap xs cs in ((r, o) :: rs, xs)
  end.

Definition queue_do (q : ptr (Queue A)) (c : queue_call)
  : option (QueueResult * ptr (Queue A) * option A) :=
  match c with
  | CInsert x =>
      match QueueInsert q (Some x) with
      | Some (r, q) => Some (r, q, None)
      | None => None
      end
  | CRemove =>
      match QueueRemove q (Some NULL) with
      | Some (r, q, o) => Some (r, q, mjoin o)
      | None => None
      end
  end.

Fixpoint queue_run (q : ptr (Queue A)) (cs : list queue_call)
  : option (list (QueueResult * option A) * ptr (Queue A)) :=
  match cs with
  | [] => Some ([], q)
  | c :: cs =>
      match queue_do q c with
      | Some (r, q, o) =>
          match queue_run q cs with
          | Some (rs, q) => Some ((r, o) :: rs, q)
          | None => None
          end
      | None => None
      end
  end.

(** What the loops do on the elements in FIFO order. *)
Fixpoint each (f : A -> M unit) (xs : list A) : M unit :=
  match xs with
  | [] => mret tt
  | x :: xs => f x;; each f xs
  end.

(** Visit a list until the action returns 0: the number of visits, and the
    final context. *)
Fixpoint visit {C : Type} (act : A -> C -> Z * C) (xs : list A) (n : Z) (c : C) : Z * C :=
  match xs with
  | [] => (n, c)
  | x :: xs =>
      let '(r, c) := act x c in
      if r =? 0 then (n + 1, c) else visit act xs (n + 1) c
  end.

End queue.

Section refinement.
Context {A : Type}.
Implicit Types (q : Queue A) (xs : list A).

Lemma mod_succ_assoc h i cap : 0 < cap -> ((h + 1) mod cap + i) mod cap = (h + (i + 1)) mod cap.
Proof. intros. rewrite Zplus_mod_idemp_l. f_equal. lia. Qed.

Lemma slot_get_in (l : list (ptr A)) i : 0 <= i -> slot_get l i = l !! Z.to_nat i.
Proof. intros. unfold slot_get. by rewrite (proj2 (Z.leb_le _ _)). Qed.

(** Distinct positions of a queue are distinct slots of the ring. *)
Lemma ring_inj h i j cap :
  0 <= h < cap -> 0 <= i < cap -> 0 <= j < cap ->
  (h + i) mod cap = (h + j) mod cap -> i = j.
Proof.
  intros Hh Hi Hj E.
  pose proof (Z.div_mod (h + i) cap ltac:(lia)). pose proof (Z.div_mod (h + j) cap ltac:(lia)).
  assert (0 <= (h + i) / cap <= 1).
  { split; [apply Z.div_pos; lia|]. apply Z.lt_succ_r. apply Z.div_lt_upper_bound; lia. }
  assert (0 <= (h + j) / cap <= 1).
  { split; [apply Z.div_pos; lia|]. apply Z.lt_succ_r. apply Z.div_lt_upper_bound; lia. }
  assert ((h + i) / cap = (h + j) / cap \/ (h + i) / cap <> (h + j) / cap) as [D|D] by lia.
  - rewrite E, D in *. lia.
  - nia.
Qed.

Lemma rep_insert cap q xs x :
  queue_rep cap q xs ->
  exists q', QueueInsert (Some q) (Some x)
    = Some (if Z.of_nat (length xs) =? cap then (QUEUE_OVERFLOW_ERROR, Some q)
            else (QUEUE_SUCCESS, Some q')) /\
    (Z.of_nat (length xs) <> cap -> queue_rep cap q' (xs ++ [x])).
Proof.
  intros [Hcap Hsz Hm Hit Hh Hn Hle Ht Hs]. unfold QueueInsert.
  rewrite Hm, Z.eqb_refl, Hn, Hsz. cbn [negb].
  destruct (_ =? cap) eqn:E; bprop.
  { exists q. split; [done|]. intros []. done. }
  pose proof (Z.mod_pos_bound (m_head q + Z.of_nat (length xs)) cap ltac:(lia)) as Hb.
  assert (size_t (m_tail q + 1) = m_tail q + 1) as Et.
  { unfold size_t. rewrite Z.mod_small; lia. }
  assert (size_t (Z.of_nat (length xs) + 1) = Z.of_nat (length xs) + 1) as En.
  { unfold size_t. rewrite Z.mod_small; lia. }
  unfold slot_set. rewrite (proj2 (Z.leb_le _ _)), (proj2 (Z.ltb_lt _ _)) by lia.
  cbn [andb mbind option_bind]. eexists. split; [done|]. intros _.
  split; cbn [m_items m_size m_head m_tail m_numOfElements m_magic]; try done.
  - by rewrite length_insert.
  - rewrite En, length_app. simpl. lia.
  - rewrite length_app. simpl. lia.
  - rewrite Et, Ht, length_app, Zplus_mod_idemp_l. f_equal. simpl. lia.
  - intros i y Hi. apply lookup_app_Some in Hi as [Hi|[Hge Hi]].
    + pose proof (lookup_lt_Some _ _ _ Hi). rewrite list_lookup_insert_ne; [by apply Hs|].
      rewrite Ht. pose proof (Z.mod_pos_bound (m_head q + Z.of_nat i) cap ltac:(lia)).
      intros Ei. apply Z2Nat.inj in Ei; [|lia..].
      apply ring_inj in Ei; lia.
    + apply list_lookup_singleton_Some in Hi as [Hi <-].
      replace i with (length xs) by lia. rewrite <-Ht.
      apply list_lookup_insert_eq. lia.
Qed.

Lemma rep_remove cap q xs o :
  queue_rep cap q xs ->
  match xs with
  | [] => QueueRemove (Some q) (Some o) = Some (QUEUE_DATA_NOT_FOUND_ERROR, Some q, Some o)
  | x :: xs' => exists q', QueueRemove (Some q) (Some o)
                  = Some (QUEUE_SUCCESS, Some q', Some (Some x)) /\ queue_rep cap q' xs'
  end.
Proof.
  intros [Hcap Hsz Hm Hit Hh Hn Hle Ht Hs]. unfold QueueRemove.
  rewrite Hm, Z.eqb_refl, Hn. cbn [negb]. destruct xs as [|x xs]; [done|]. cbn [length] in *.
  rewrite (proj2 (Z.eqb_neq _ _)) by lia.
  rewrite slot_get_in by lia.
  pose proof (Hs 0%nat x eq_refl) as H0. rewrite Z.add_0_r, Z.mod_small in H0 by lia.
  rewrite H0. cbn [mbind option_bind]. eexists. split; [done|].
  assert (size_t (m_head q + 1) = m_head q + 1) as Eh.
  { unfold size_t. rewrite Z.mod_small; lia. }
  assert (size_t (Z.of_nat (S (length xs)) - 1) = Z.of_nat (length xs)) as En.
  { unfold size_t. rewrite Z.mod_small; lia. }
  split; cbn [m_items m_size m_head m_tail m_numOfElements m_magic]; try done; try lia.
  - rewrite Eh, Hsz. apply Z.mod_pos_bound. lia.
  - rewrite Eh, Ht, Hsz, mod_succ_assoc by lia. f_equal. lia.
  - intros i y Hi. rewrite Eh, Hsz, mod_succ_assoc by lia.
    replace (Z.of_nat i + 1) with (Z.of_nat (S i)) by lia. by apply Hs.
Qed.

Lemma rep_create cap m :
  0 < cap < 2 ^ 61 ->
  exists r m', QueueCreate (A := A) cap m = Some (r, m') /\
    match r with
    | Some q => queue_rep cap q [] /\ live m' = live m + 2
    | None => live m' = live m
    end /\ (alloc_ok m -> r <> None /\ alloc_ok m').
Proof.
  intros Hcap. unfold QueueCreate. rewrite (proj2 (Z.eqb_neq _ _)) by lia.
  destruct (malloc_inv m) as (b1 & m1 & E1 & L1 & A1).
  mrun E1. destruct b1; cbn [negb].
  2:{ exists NULL, m1. split; [done|]. split; [done|]. intros [? _]%A1. done. }
  destruct (malloc_inv m1) as (b2 & m2 & E2 & L2 & A2). mrun E2. destruct b2; cbn [negb].
  2:{ mfree. exists NULL. eexists. split; [done|]. simpl. split; [lia|].
      intros [_ H]%A1. by apply A2 in H as []. }
  do 2 eexists. split; [done|]. split; [|by intros [_ [_ ?]%A2]%A1].
  split; [|lia]. split; cbn; try done; try lia.
  - rewrite length_replicate. unfold size_t. rewrite Z.mod_small by lia.
    rewrite Z.div_mul by lia. lia.
Qed.

Lemma rep_IsEmpty cap q xs : queue_rep cap q xs -> QueueIsEmpty (Some q) = match xs with [] => 1 | _ => 0 end.
Proof.
  intros H. unfold QueueIsEmpty. rewrite (qr_magic _ _ _ H), Z.eqb_refl, (qr_num _ _ _ H).
  by destruct xs.
Qed.

(** Walking the ring from the head meets the elements in FIFO order. *)
Lemma rep_slot cap q xs i x :
  queue_rep cap q xs -> xs !! i = Some x ->
  slot_get (m_items q) ((m_head q + Z.of_nat i) mod cap) = Some (Some x).
Proof.
  intros H Hi. pose proof (qr_cap _ _ _ H).
  rewrite slot_get_in by (apply Z.mod_pos_bound; lia). by apply (qr_slots _ _ _ H).
Qed.

Lemma rep_next cap q xs i :
  queue_rep cap q xs ->
  size_t ((m_head q + i) mod cap + 1) mod m_size q = (m_head q + (i + 1)) mod cap.
Proof.
  intros H. pose proof (qr_cap _ _ _ H). rewrite (qr_size _ _ _ H).
  pose proof (Z.mod_pos_bound (m_head q + i) cap ltac:(lia)).
  unfold size_t. rewrite (Z.mod_small _ (2 ^ 64)) by lia.
  rewrite Zplus_mod_idemp_l. f_equal. lia.
Qed.

Lemma destroy_items_spec cap q xs f m :
  queue_rep cap q xs ->
  destroy_items f q (length xs) (m_head q) m = each (fun x => f (Some x)) xs m.
Proof.
  intros H.
  enough (forall ys i m, drop i xs = ys ->
    destroy_items f q (length ys) ((m_head q + Z.of_nat i) mod cap) m
    = each (fun x => f (Some x)) ys m) as Hg.
  { specialize (Hg xs 0%nat m eq_refl).
    rewrite Z.add_0_r, Z.mod_small in Hg by apply (qr_head _ _ _ H). done. }
  intros ys. induction ys as [|y ys IH]; intros i m0 Hd; [done|]. cbn [destroy_items each length].
  assert (xs !! i = Some y) as Hy.
  { rewrite <-(Nat.add_0_r i), <-lookup_drop, Hd. done. }
  rewrite (rep_slot _ _ _ _ _ H Hy). unfold mbind, M_bind, lift at 1.
  destruct (f (Some y) m0) as [[[] m1]|]; [|done].
  rewrite (rep_next _ _ _ _ H). replace (Z.of_nat i + 1) with (Z.of_nat (S i)) by lia.
  apply IH. by rewrite <-Nat.add_1_r, <-drop_drop, Hd.
Qed.

Lemma foreach_items_spec {C} cap q xs (act : ptr A -> C -> Z * C) c :
  queue_rep cap q xs ->
  foreach_items act q (length xs) (m_head q) 0 c
  = Some (visit (fun x => act (Some x)) xs 0 c).
Proof.
  intros H. pose proof (qr_cap _ _ _ H). pose proof (qr_le _ _ _ H).
  enough (forall ys i n c, drop i xs = ys -> 0 <= n -> n + Z.of_nat (length ys) <= cap ->
    foreach_items act q (length ys) ((m_head q + Z.of_nat i) mod cap) n c
    = Some (visit (fun x => act (Some x)) ys n c)) as Hg.
  { specialize (Hg xs 0%nat 0 c eq_refl ltac:(lia) ltac:(lia)).
    rewrite Z.add_0_r, Z.mod_small in Hg by apply (qr_head _ _ _ H). done. }
  intros ys. induction ys as [|y ys IH]; intros i n c0 Hd Hn Hle; [done|].
  cbn [foreach_items visit length] in *.
  assert (xs !! i = Some y) as Hy.
  { rewrite <-(Nat.add_0_r i), <-lookup_drop, Hd. done. }
  rewrite (rep_slot _ _ _ _ _ H Hy). cbn [mbind option_bind].
  assert (size_t (n + 1) = n + 1) as -> by (unfold size_t; rewrite Z.mod_small; lia).
  destruct (act (Some y) c0) as [r c1]. destruct (r =? 0); [done|].
  rewrite (rep_next _ _ _ _ H). replace (Z.of_nat i + 1) with (Z.of_nat (S i)) by lia.
  apply IH; [|lia..]. by rewrite <-Nat.add_1_r, <-drop_drop, Hd.
Qed.

Lemma rep_run cap q xs cs :
  queue_rep cap q xs ->
  exists q', queue_run (Some q) cs = Some (fst (fifo_run cap xs cs), Some q') /\
    queue_rep cap q' (snd (fifo_run cap xs cs)).
Proof.
  revert q xs. induction cs as [|c cs IH]; intros q xs H; [by exists q|].
  cbn [queue_run fifo_run].
  assert (exists q1, queue_do (Some q) c
            = Some (fst (fst (fifo_call cap xs c)), Some q1, snd (fifo_call cap xs c)) /\
          queue_rep cap q1 (snd (fst (fifo_call cap xs c)))) as (q1 & E & H1).
  { destruct c as [x|]; unfold queue_do, fifo_call.
    - destruct (rep_insert cap q xs x H) as (q' & -> & H').
      destruct (_ =? cap) eqn:Ec; bprop; [by exists q|]. exists q'. split; [done|by apply H'].
    - pose proof (rep_remove cap q xs NULL H) as Hr. destruct xs as [|x xs].
      + rewrite Hr. by exists q.
      + destruct Hr as (q' & -> & H'). by exists q'. }
  rewrite E. destruct (fifo_call cap xs c) as [[r xs1] o]. cbn [fst snd] in *.
  destruct (IH q1 xs1 H1) as (q' & -> & H').
  destruct (fifo_run cap xs1 cs) as [rs xs2]. by exists q'.
Qed.

End refinement.

(** ** Properties *)

(** C29: The circular buffer is a bounded FIFO queue: a queue created with
    capacity [cap] answers every sequence of inserts and removes exactly as a
    list does - same result codes, same items in the same order, overflow
    exactly at [cap] elements, not-found exactly when empty - and no call
    accesses a slot outside the array. *)
Theorem queue_refines_fifo (A : Type) cap (cs : list (queue_call (A := A))) m
    (Hcap : 0 < cap < 2 ^ 61) (Hm : alloc_ok m) :
  exists q m', QueueCreate cap m = Some (Some q, m') /\
  exists q', queue_run (Some q) cs = Some (fst (fifo_run cap [] cs), Some q') /\
    QueueIsEmpty (Some q') = match snd (fifo_run cap [] cs) with [] => 1 | _ => 0 end.
Proof.
  destruct (rep_create (A := A) cap m Hcap) as (r & m' & E & Hr & Hok).
  destruct (Hok Hm) as [Hne _]. destruct r as [q|]; [|done]. destruct Hr as [Hr _].
  exists q, m'. split; [done|]. destruct (rep_run cap q [] cs Hr) as (q' & Erun & H').
  exists q'. split; [done|]. by eapply rep_IsEmpty.
Qed.

Lemma queue_refines_fifo_witness :
  exists q m', QueueCreate 2 (Mem [] 0) = Some (Some q, m') /\
  exists q', queue_run (Some q) [CInsert 10; CInsert 11; CInsert 12; CRemove; CInsert 13; CRemove]
    = Some (fst (fifo_run 2 [] [CInsert 10; CInsert 11; CInsert 12; CRemove; CInsert 13; CRemove]),
            Some q') /\
    QueueIsEmpty (Some q') = 0.
Proof. apply queue_refines_fifo; [lia | constructor]. Defined.

(** [QueueDestroy] hands every element, oldest first, to the destroy callback
    exactly once, releases the array and the header, and nulls the caller's
    pointer; [QueueForEach] visits the elements in the same order and stops
    after the first one whose action returns 0. *)
Theorem queue_destroy_foreach (A C : Type) cap (q : Queue A) xs m
    (f : ptr A -> M unit) (act : ptr A -> C -> Z * C) c
    (H : queue_rep cap q xs) :
  QueueDestroy (Some (Some q)) (Some f) m
    = (each (fun x => f (Some x)) xs;; free;; free;; mret (Some NULL)) m /\
  QueueForEach (Some q) (Some act) c = Some (visit (fun x => act (Some x)) xs 0 c).
Proof.
  unfold QueueDestroy, QueueForEach.
  rewrite (qr_magic _ _ _ H), Z.eqb_refl, (qr_num _ _ _ H), Nat2Z.id. cbn [negb]. split.
  - unfold mbind, M_bind. by rewrite (destroy_items_spec _ _ _ _ _ H).
  - by apply (foreach_items_spec cap).
Qed.

Lemma queue_destroy_foreach_witness :
  let q := {| m_items := [Some 7; NULL; Some 9]; m_size := 3; m_head := 2; m_tail := 1;
              m_numOfElements := 2; m_magic := QUEUE_MAGIC_NUMBER |} in
  QueueDestroy (Some (Some q)) (Some (fun _ => free)) (Mem [] 5) = Some (Some NULL, Mem [] 1) /\
  QueueForEach (Some q) (Some (fun x l => (1, l ++ [x]))) [] = Some (2, [Some 9; Some 7]).
Proof.
  apply (queue_destroy_foreach Z (list (ptr Z)) 3 _ [9; 7] (Mem [] 5) (fun _ => free)
           (fun x l => (1, l ++ [x])) []).
  split; cbn; try done; try lia.
  intros [|[|i]] x Hx; cbn in Hx; simplify_eq; done.
Defined.
