(* ===== verification/GenDlist.v ===== *)
(** * The generic list: [shared/adt/gen_dlist.h], [shared/adt/gen_dlist.c]

    A circular doubly linked list with a sentinel.  The nodes of one list are a
    store of their own: [nodes] maps the address of every live node (the
    sentinel included) to its fields, and every [->] is a checked access to
    that store, so following NULL or a freed node is undefined behaviour.
    Iterators are node addresses.  The file proves that the pointer structure
    refines a list: [dl_rep l xs] says that following [next] from the sentinel
    meets exactly the nodes [xs] in order and comes back, that [prev] is the
    inverse of [next], and that no other node is live; every operation
    preserves it and acts on [xs] as its name says. *)

From S2P Require Import Prelude.

(** [struct Node] *)
Record Node (A : Type) := MkNode {
  data : ptr A;
  next : ptr loc;
  prev : ptr loc;
  is_sentinel : bool
}.
Arguments MkNode {A}.
Arguments data {A}. Arguments next {A}. Arguments prev {A}. Arguments is_sentinel {A}.

(** [struct List]: its nodes by address.  The sentinel is the field of the
    structure itself, so it is at a fixed address of the store. *)
Record List (A : Type) := MkList { nodes : gmap loc (Node A) }.
Arguments MkList {A}. Arguments nodes {A}.

Definition sentinel : loc := 1%positive.

Section dlist.
Context {A : Type}.

(** ** Access to the nodes of a list *)

Definition deref (l : List A) (p : ptr loc) : option (Node A) :=
  match p with Some a => nodes l !! a | None => None end.

Definition set_node (l : List A) (p : ptr loc) (f : Node A -> Node A) : option (List A) :=
  match p with
  | Some a => n ← nodes l !! a; Some (MkList (<[a := f n]> (nodes l)))
  | None => None
  end.

Definition set_next l p v := set_node l p (fun n => MkNode (data n) v (prev n) (is_sentinel n)).
Definition set_prev l p v := set_node l p (fun n => MkNode (data n) (next n) v (is_sentinel n)).
Definition set_data l p v := set_node l p (fun n => MkNode v (next n) (prev n) (is_sentinel n)).

(** [free(n)]: freeing what is not a live node is undefined. *)
Definition node_free (l : List A) (p : ptr loc) : M (List A) :=
  match p with
  | Some a =>
      _ ← lift (nodes l !! a);
      free;;
      mret (MkList (delete a (nodes l)))
  | None => mret l
  end.

(** ** Helpers *)

Definition NodeCreate (l : List A) (_data : ptr A) : M (ptr loc * List A) :=
  ok ← malloc;
  if negb ok then mret (NULL, l) else
  let a := fresh (dom (nodes l)) in
  mret (Some a, MkList (<[a := MkNode _data NULL NULL false]> (nodes l))).

Definition NodeLinkBefore (l : List A) (pos n : ptr loc) : option (List A) :=
  p ← deref l pos;
  l ← set_prev l n (prev p);
  l ← set_next l n pos;
  p ← deref l pos;
  l ← set_next l (prev p) n;
  set_prev l pos n.

Definition NodeUnlink (l : List A) (n : ptr loc) : option (List A) :=
  x ← deref l n;
  l ← set_next l (prev x) (next x);
  x ← deref l n;
  l ← set_prev l (next x) (prev x);
  l ← set_prev l n NULL;
  set_next l n NULL.

(** ** Lifecycle *)

Definition ListCreate : M (ptr (List A)) :=
  ok ← malloc;
  if negb ok then mret NULL else
  mret (Some (MkList {[ sentinel := MkNode NULL (Some sentinel) (Some sentinel) true ]})).

(** The loop of [ListDestroy]; the fuel is the number of nodes. *)
Fixpoint destroy_loop (fuel : nat) (_elementDestroy : ptr (ptr A -> M unit)) (l : List A)
    (cur : ptr loc) : M (List A) :=
  if decide (cur = Some sentinel) then mret l else
  match fuel with
  | O => fault
  | S fuel =>
      n ← lift (deref l cur);
      match _elementDestroy with
      | Some f => f (data n)
      | None => mret tt
      end;;
      l ← node_free l cur;
      destroy_loop fuel _elementDestroy l (next n)
  end.

Definition ListDestroy (_pList : ptr (ptr (List A))) (_elementDestroy : ptr (ptr A -> M unit))
  : M (ptr (ptr (List A))) :=
  match _pList with
  | Some (Some l) =>
      s ← lift (deref l (Some sentinel));
      destroy_loop (size (nodes l)) _elementDestroy l (next s);;
      free;;
      mret (Some NULL)
  | _ => mret _pList
  end.

(** ** Push and pop *)

Definition ListPushHead (_list : ptr (List A)) (_item : ptr A) : M (ptr loc * ptr (List A)) :=
  match _list with
  | None => mret (NULL, NULL)
  | Some l =>
      '(n, l) ← NodeCreate l _item;
      match n with
      | None => mret (NULL, Some l)
      | Some _ =>
          s ← lift (deref l (Some sentinel));
          l ← lift (NodeLinkBefore l (next s) n);
          mret (n, Some l)
      end
  end.

Definition ListPushTail (_list : ptr (List A)) (_item : ptr A) : M (ptr loc * ptr (List A)) :=
  match _list with
  | None => mret (NULL, NULL)
  | Some l =>
      '(n, l) ← NodeCreate l _item;
      match n with
      | None => mret (NULL, Some l)
      | Some _ =>
          l ← lift (NodeLinkBefore l (Some sentinel) n);
          mret (n, Some l)
      end
  end.

Definition ListPopHead (_list : ptr (List A)) : M (ptr A * ptr (List A)) :=
  match _list with
  | None => mret (NULL, NULL)
  | Some l =>
      s ← lift (deref l (Some sentinel));
      let first := next s in
      if decide (first = Some sentinel) then mret (NULL, Some l) else
      n ← lift (deref l first);
      let d := data n in
      l ← lift (NodeUnlink l first);
      l ← node_free l first;
      mret (d, Some l)
  end.

Definition ListPopTail (_list : ptr (List A)) : M (ptr A * ptr (List A)) :=
  match _list with
  | None => mret (NULL, NULL)
  | Some l =>
      s ← lift (deref l (Some sentinel));
      let last := prev s in
      if decide (last = Some sentinel) then mret (NULL, Some l) else
      n ← lift (deref l last);
      let d := data n in
      l ← lift (NodeUnlink l last);
      l ← node_free l last;
      mret (d, Some l)
  end.

(** ** Iterators

    An iterator is the address of a node; the list it points into is passed
    along. *)

Definition ListItrBegin (_list : ptr (List A)) : option (ptr loc) :=
  match _list with
  | None => Some NULL
  | Some l => s ← deref l (Some sentinel); Some (next s)
  end.

Definition ListItrEnd (_list : ptr (List A)) : ptr loc :=
  match _list with
  | None => NULL
  | Some _ => Some sentinel
  end.

(** [(Node* )_itr] for a non-NULL iterator. *)
Definition itr_node (_list : ptr (List A)) (_itr : ptr loc) : option (Node A) :=
  match _list with None => None | Some l => deref l _itr end.

Definition ListItrNext (_list : ptr (List A)) (_itr : ptr loc) : option (ptr loc) :=
  match _itr with
  | None => Some NULL
  | Some _ =>
      n ← itr_node _list _itr;
      if is_sentinel n then Some _itr else Some (next n)
  end.

Definition ListItrPrev (_list : ptr (List A)) (_itr : ptr loc) : option (ptr loc) :=
  match _itr with
  | None => Some NULL
  | Some _ =>
      n ← itr_node _list _itr;
      p ← itr_node _list (prev n);
      if is_sentinel p then Some _itr else Some (prev n)
  end.

Definition ListItrGet (_list : ptr (List A)) (_itr : ptr loc) : option (ptr A) :=
  match _itr with
  | None => Some NULL
  | Some _ =>
      n ← itr_node _list _itr;
      if is_sentinel n then Some NULL else Some (data n)
  end.

Definition ListItrSet (_list : ptr (List A)) (_itr : ptr loc) (_element : ptr A)
  : option (ptr A * ptr (List A)) :=
  match _itr with
  | None => Some (NULL, _list)
  | Some _ =>
      match _list with
      | None => None
      | Some l =>
          n ← deref l _itr;
          if is_sentinel n then Some (NULL, _list) else
          l ← set_data l _itr _element;
          Some (data n, Some l)
      end
  end.

Definition ListItrInsertBefore (_list : ptr (List A)) (_itr : ptr loc) (_element : ptr A)
  : M (ptr loc * ptr (List A)) :=
  match _itr with
  | None => mret (NULL, _list)
  | Some _ =>
      match _list with
      | None => fault
      | Some l =>
          '(n, l) ← NodeCreate l _element;
          match n with
          | None => mret (NULL, Some l)
          | Some _ =>
              l ← lift (NodeLinkBefore l _itr n);
              mret (n, Some l)
          end
      end
  end.

Definition ListItrRemove (_list : ptr (List A)) (_itr : ptr loc) : M (ptr A * ptr (List A)) :=
  match _itr with
  | None => mret (NULL, _list)
  | Some _ =>
      match _list with
      | None => fault
      | Some l =>
          n ← lift (deref l _itr);
          if is_sentinel n then mret (NULL, _list) else
          let d := data n in
          l ← lift (NodeUnlink l _itr);
          l ← node_free l _itr;
          mret (d, Some l)
      end
  end.

(** ** Size, emptiness, iteration *)

Fixpoint size_loop (fuel : nat) (l : List A) (count : Z) (cur : ptr loc) : option Z :=
  if decide (cur = Some sentinel) then Some count else
  match fuel with
  | O => None
  | S fuel =>
      n ← deref l cur;
      size_loop fuel l (size_t (count + 1)) (next n)
  end.

Definition ListSize (_list : ptr (List A)) : option Z :=
  match _list with
  | None => Some 0
  | Some l => s ← deref l (Some sentinel); size_loop (size (nodes l)) l 0 (next s)
  end.

Definition ListIsEmpty (_list : ptr (List A)) : option Z :=
  match _list with
  | None => Some 1
  | Some l =>
      s ← deref l (Some sentinel);
      Some (if decide (next s = Some sentinel) then 1 else 0)
  end.

Fixpoint foreach_loop {C : Type} (fuel : nat) (l : List A) (cur e : ptr loc)
    (_action : ptr A -> C -> Z * C) (_context : C) : option (ptr loc * C) :=
  if decide (cur = e) then Some (e, _context) else
  match fuel with
  | O => None
  | S fuel =>
      n ← deref l cur;
      let '(r, _context) := _action (data n) _context in
      if r =? 0 then Some (cur, _context) else
      foreach_loop fuel l (next n) e _action _context
  end.

Definition ListItrForEach {C : Type} (_list : ptr (List A)) (_begin _end : ptr loc)
    (_action : ptr (ptr A -> C -> Z * C)) (_context : C) : option (ptr loc * C) :=
  match _begin, _end, _action with
  | Some _, Some _, Some act =>
      match _list with
      | None => None
      | Some l => foreach_loop (size (nodes l)) l _begin _end act _context
      end
  | _, _, _ => Some (_begin, _context)
  end.

(** ** The sequence a list represents *)

Definition nxt (l : List A) (p : loc) : option loc := nodes l !! p ≫= next.
Definition prv (l : List A) (p : loc) : option loc := nodes l !! p ≫= prev.
Definition payload (l : List A) (p : loc) : option (ptr A * bool) :=
  (fun n => (data n, is_sentinel n)) <$> nodes l !! p.

(** Consecutive addresses of [ps] are linked both ways. *)
Fixpoint chain (l : List A) (ps : list loc) : Prop :=
  match ps with
  | p :: (q :: _) as rest => nxt l p = Some q /\ prv l q = Some p /\ chain l rest
  | _ => True
  end.

(** [l] is the list with the nodes [xs] (address and item), in order. *)
Record dl_rep (l : List A) (xs : list (loc * ptr A)) : Prop := {
  dl_chain : chain l (sentinel :: xs.*1 ++ [sentinel]);
  dl_nodup : NoDup (sentinel :: xs.*1);
  dl_sent : payload l sentinel = Some (NULL, true);
  dl_data : forall p x, (p, x) ∈ xs -> payload l p = Some (x, false);
  dl_dom : dom (nodes l) = list_to_set (sentinel :: xs.*1)
}.

(** What the loops do on the represented sequence. *)

(** Call the destroy function on an item, then free its node. *)
Fixpoint destroy_each (_elementDestroy : ptr (ptr A -> M unit)) (xs : list (ptr A)) : M unit :=
  match xs with
  | [] => mret tt
  | x :: xs =>
      match _elementDestroy with Some f => f x | None => mret tt end;;
      free;;
      destroy_each _elementDestroy xs
  end.

(** Visit items until the action returns 0; [e] is the end iterator. *)
Fixpoint walk {C : Type} (act : ptr A -> C -> Z * C) (xs : list (loc * ptr A)) (e : loc) (c : C)
  : ptr loc * C :=
  match xs with
  | [] => (Some e, c)
  | (p, x) :: xs =>
      let '(r, c) := act x c in
      if r =? 0 then (Some p, c) else walk act xs e c
  end.

End dlist.

(** ** Calls of a client, on the list and on a sequence *)

Section calls.
Context {A : Type}.

(** Where an iterator is: begin or end, moved by [ListItrNext] and [ListItrPrev]. *)
Inductive itr_start := AtBegin | AtEnd.

Inductive itr_move := MoveNext | MovePrev.

Abbreviation list_pos := (itr_start * list itr_move)%type.

Inductive list_call :=
| LPushHead (x : ptr A)
| LPushTail (x : ptr A)
| LPopHead
| LPopTail
| LGet (i : list_pos)
| LInsertBefore (i : list_pos) (x : ptr A)
| LSet (i : list_pos) (x : ptr A)
| LRemove (i : list_pos).

Fixpoint itr_moves (_list : ptr (List A)) (itr : ptr loc) (ms : list itr_move) : option (ptr loc) :=
  match ms with
  | [] => Some itr
  | MoveNext :: ms => itr ← ListItrNext _list itr; itr_moves _list itr ms
  | MovePrev :: ms => itr ← ListItrPrev _list itr; itr_moves _list itr ms
  end.

Definition itr_at (_list : ptr (List A)) (i : list_pos) : option (ptr loc) :=
  itr ← match fst i with AtBegin => ListItrBegin _list | AtEnd => Some (ListItrEnd _list) end;
  itr_moves _list itr (snd i).

(** The item a call returns; for the insertions, which return an iterator, the
    item at this iterator. *)
Definition list_do (_list : ptr (List A)) (c : list_call) : M (ptr A * ptr (List A)) :=
  match c with
  | LPushHead x =>
      '(itr, l) ← ListPushHead _list x;
      y ← lift (ListItrGet l itr); mret (y, l)
  | LPushTail x =>
      '(itr, l) ← ListPushTail _list x;
      y ← lift (ListItrGet l itr); mret (y, l)
  | LPopHead => ListPopHead _list
  | LPopTail => ListPopTail _list
  | LGet i =>
      itr ← lift (itr_at _list i);
      y ← lift (ListItrGet _list itr); mret (y, _list)
  | LInsertBefore i x =>
      itr ← lift (itr_at _list i);
      '(itr, l) ← ListItrInsertBefore _list itr x;
      y ← lift (ListItrGet l itr); mret (y, l)
  | LSet i x => itr ← lift (itr_at _list i); lift (ListItrSet _list itr x)
  | LRemove i => itr ← lift (itr_at _list i); ListItrRemove _list itr
  end.

Fixpoint list_run (_list : ptr (List A)) (cs : list list_call)
  : M (list (ptr A) * ptr (List A)) :=
  match cs with
  | [] => mret ([], _list)
  | c :: cs =>
      '(r, l) ← list_do _list c;
      '(rs, l) ← list_run l cs;
      mret (r :: rs, l)
  end.

(** The position an iterator reaches in a sequence of [n] items; [n] is the end.
    The iterator at the end stays there when it is moved on, and the one at the
    first item when it is moved back. *)
Definition pos_move (n k : nat) (mv : itr_move) : nat :=
  match mv with MoveNext => Nat.min n (S k) | MovePrev => pred k end.

Definition pos_of (n : nat) (i : list_pos) : nat :=
  foldl (pos_move n) (match fst i with AtBegin => O | AtEnd => n end) (snd i).

Definition seq_do (xs : list (ptr A)) (c : list_call) : ptr A * list (ptr A) :=
  match c with
  | LPushHead x => (x, x :: xs)
  | LPushTail x => (x, xs ++ [x])
  | LPopHead => (mjoin (head xs), tail xs)
  | LPopTail => (mjoin (last xs), removelast xs)
  | LGet i => (mjoin (xs !! pos_of (length xs) i), xs)
  | LInsertBefore i x =>
      let k := pos_of (length xs) i in (x, take k xs ++ x :: drop k xs)
  | LSet i x =>
      let k := pos_of (length xs) i in (mjoin (xs !! k), <[k := x]> xs)
  | LRemove i =>
      let k := pos_of (length xs) i in (mjoin (xs !! k), delete k xs)
  end.

Fixpoint seq_run (xs : list (ptr A)) (cs : list list_call) : list (ptr A) * list (ptr A) :=
  match cs with
  | [] => ([], xs)
  | c :: cs =>
      let '(r, xs) := seq_do xs c in
      let '(rs, xs) := seq_run xs cs in (r :: rs, xs)
  end.

End calls.

(** ** Effects of single stores *)

Section effects.
Context {A : Type}.
Implicit Types (l : List A) (xs : list (loc * ptr A)).

(** The address an iterator at the start of [xs] holds. *)
Definition begin_of xs : loc := match xs with [] => sentinel | (p, _) :: _ => p end.

Lemma deref_Some l p : is_Some (nodes l !! p) ->
  exists n, deref l (Some p) = Some n /\ nodes l !! p = Some n /\
    next n = nxt l p /\ prev n = prv l p /\ payload l p = Some (data n, is_sentinel n).
Proof.
  intros [n Hn]. exists n. unfold deref, nxt, prv, payload. rewrite Hn. done.
Qed.

Lemma set_next_spec l p v : is_Some (nodes l !! p) ->
  exists l', set_next l (Some p) v = Some l' /\
    (forall q, nxt l' q = if decide (q = p) then v else nxt l q) /\
    (forall q, prv l' q = prv l q) /\ (forall q, payload l' q = payload l q) /\
    dom (nodes l') = dom (nodes l).
Proof.
  intros [n Hn]. unfold set_next, set_node. rewrite Hn. cbn. eexists. split; [done|].
  unfold nxt, prv, payload. cbn [nodes].
  assert (dom (<[p:=MkNode (data n) v (prev n) (is_sentinel n)]> (nodes l)) = dom (nodes l)).
  { apply dom_insert_lookup_L. eauto. }
  repeat split; try done; intros q; rewrite lookup_insert; destruct (decide (p = q)) as [->|];
    rewrite ?Hn, ?decide_True by done; rewrite ?decide_False by congruence; done.
Qed.

Lemma set_prev_spec l p v : is_Some (nodes l !! p) ->
  exists l', set_prev l (Some p) v = Some l' /\
    (forall q, prv l' q = if decide (q = p) then v else prv l q) /\
    (forall q, nxt l' q = nxt l q) /\ (forall q, payload l' q = payload l q) /\
    dom (nodes l') = dom (nodes l).
Proof.
  intros [n Hn]. unfold set_prev, set_node. rewrite Hn. cbn. eexists. split; [done|].
  unfold nxt, prv, payload. cbn [nodes].
  assert (dom (<[p:=MkNode (data n) (next n) v (is_sentinel n)]> (nodes l)) = dom (nodes l)).
  { apply dom_insert_lookup_L. eauto. }
  repeat split; try done; intros q; rewrite lookup_insert; destruct (decide (p = q)) as [->|];
    rewrite ?Hn, ?decide_True by done; rewrite ?decide_False by congruence; done.
Qed.

Lemma live_dom l p : is_Some (nodes l !! p) <-> p ∈ dom (nodes l).
Proof. by rewrite elem_of_dom. Qed.

(** ** Chains *)

Lemma chain_app l ps p qs :
  chain l (ps ++ p :: qs) <-> chain l (ps ++ [p]) /\ chain l (p :: qs).
Proof.
  induction ps as [|q ps IH]; cbn [app].
  - cbn [chain]. tauto.
  - destruct ps as [|r ps]; cbn [app] in *.
    + cbn [chain] in *. tauto.
    + cbn [chain]. cbn [chain] in IH. tauto.
Qed.

Lemma chain_frame l l' ps :
  (forall p, p ∈ removelast ps -> nxt l' p = nxt l p) ->
  (forall q, q ∈ tail ps -> prv l' q = prv l q) ->
  chain l ps -> chain l' ps.
Proof.
  induction ps as [|p ps IH]; [done|]. destruct ps as [|q ps]; [done|].
  intros Hn Hp (E1 & E2 & Hc). cbn [chain]. split; [|split].
  - rewrite Hn; [done|]. cbn. set_solver.
  - rewrite Hp; [done|]. cbn. set_solver.
  - apply IH; [| |done].
    + intros r Hr. apply Hn. cbn [removelast] in *. set_solver.
    + intros r Hr. apply Hp. cbn in *. set_solver.
Qed.

(** ** Representation *)

Lemma rep_live l xs p : dl_rep l xs -> p ∈ sentinel :: xs.*1 -> is_Some (nodes l !! p).
Proof. intros H Hp. rewrite live_dom, (dl_dom _ _ H). set_solver. Qed.

Lemma rep_not_sent l xs p x : dl_rep l xs -> (p, x) ∈ xs -> p <> sentinel.
Proof.
  intros H Hp ->. pose proof (dl_nodup _ _ H) as [Hs _]%NoDup_cons.
  apply Hs. apply list_elem_of_fmap. by exists (sentinel, x).
Qed.

Lemma begin_path xs : exists V, xs.*1 ++ [sentinel] = begin_of xs :: V.
Proof. destruct xs as [|[p x] xs]; cbn; eauto. Qed.

Lemma end_path xs : exists U a, sentinel :: xs.*1 = U ++ [a].
Proof.
  destruct xs as [|y xs] using rev_ind.
  - by exists [], sentinel.
  - rewrite fmap_app. by exists (sentinel :: xs.*1), y.1.
Qed.

Lemma chain_cons2 l p q ps :
  chain l (p :: q :: ps) <-> nxt l p = Some q /\ prv l q = Some p /\ chain l (q :: ps).
Proof. done. Qed.

(** Cutting out the nodes [ms] between [xs1] and [xs2]: [a] is the node before
    the cut.  A store that changes only the links across the cut, and links [a]
    to the node after it through [mid], is chained again. *)
Lemma rep_split l xs1 ms xs2 :
  dl_rep l (xs1 ++ ms ++ xs2) ->
  exists a, a ∈ sentinel :: xs1.*1 /\ begin_of xs2 ∈ sentinel :: xs2.*1 /\
    chain l (a :: ms.*1 ++ [begin_of xs2]) /\
    forall l' mid,
      (forall q, q ∈ sentinel :: xs1.*1 ++ xs2.*1 -> q <> a -> nxt l' q = nxt l q) ->
      (forall q, q ∈ sentinel :: xs1.*1 ++ xs2.*1 -> q <> begin_of xs2 -> prv l' q = prv l q) ->
      chain l' (a :: mid ++ [begin_of xs2]) ->
      chain l' (sentinel :: xs1.*1 ++ mid ++ xs2.*1 ++ [sentinel]).
Proof.
  intros H. destruct (end_path xs1) as (U & a & E1), (begin_path xs2) as (V & E2).
  pose proof (dl_chain _ _ H) as Hc. rewrite !fmap_app, <-!app_assoc, E2 in Hc.
  rewrite app_comm_cons, E1, <-app_assoc in Hc. cbn [app] in Hc.
  apply chain_app in Hc as [Hc1 Hc2].
  rewrite app_comm_cons in Hc2. apply chain_app in Hc2 as [Hc2 Hc3].
  pose proof (dl_nodup _ _ H) as Hd. rewrite !fmap_app in Hd.
  assert (NoDup ((sentinel :: xs1.*1) ++ xs2.*1)) as Hd0.
  { cbn [app]. apply NoDup_cons in Hd as [Hs Hd]. apply NoDup_cons.
    split; [set_solver|]. apply NoDup_app in Hd as (? & Hdis & [? [? ?]]%NoDup_app).
    apply NoDup_app. split; [done|]. split; [set_solver|done]. }
  assert (NoDup (xs1.*1 ++ begin_of xs2 :: V)) as (_ & Hdis2 & Hd2)%NoDup_app.
  { by rewrite <-E2, app_assoc, <-Permutation_cons_append. }
  rewrite E1 in Hd0. apply NoDup_app in Hd0 as (Hd1 & Hdis1 & _).
  exists a. split; [rewrite E1; set_solver|]. split; [destruct xs2 as [|[] ?]; set_solver|].
  split; [done|]. intros l' mid HN HP Hm.
  rewrite E2. rewrite app_comm_cons, E1, <-app_assoc. cbn [app]. apply chain_app. split.
  - apply (chain_frame l); [..|done].
    + rewrite removelast_last. intros p Hp.
      apply HN; [rewrite app_comm_cons, E1; set_solver|].
      intros ->. apply NoDup_app in Hd1 as (_ & Hd1 & _). apply (Hd1 a Hp). set_solver.
    + rewrite <-E1. cbn [tail]. intros q Hq. apply HP; [set_solver|].
      intros ->. apply (Hdis2 _ Hq). set_solver.
  - rewrite app_comm_cons. apply chain_app. split; [done|].
    apply (chain_frame l); [..|done].
    + rewrite <-E2, removelast_last. intros p Hp. apply HN; [set_solver|].
      intros ->. apply (Hdis1 a); [set_solver|done].
    + cbn [tail]. intros q Hq.
      assert (q ∈ xs2.*1 ++ [sentinel]) by (rewrite E2; set_solver).
      apply HP; [set_solver|]. intros ->. by apply NoDup_cons in Hd2 as [? _].
Qed.

(** ** Linking and unlinking *)

Lemma NodeLinkBefore_spec l pos n a :
  prv l pos = Some a -> n <> pos -> n <> a ->
  n ∈ dom (nodes l) -> pos ∈ dom (nodes l) -> a ∈ dom (nodes l) ->
  exists l', NodeLinkBefore l (Some pos) (Some n) = Some l' /\
    nxt l' n = Some pos /\ prv l' n = Some a /\ nxt l' a = Some n /\ prv l' pos = Some n /\
    (forall q, q <> n -> q <> a -> nxt l' q = nxt l q) /\
    (forall q, q <> n -> q <> pos -> prv l' q = prv l q) /\
    (forall q, payload l' q = payload l q) /\ dom (nodes l') = dom (nodes l).
Proof.
  intros Ha Hnp Hna Hn Hp Had. unfold NodeLinkBefore.
  destruct (deref_Some l pos) as (np & -> & _ & _ & Epv & _); [by apply live_dom|].
  cbn [mbind option_bind]. rewrite Epv, Ha.
  destruct (set_prev_spec l n (Some a)) as (l1 & -> & P1 & N1 & D1 & M1); [by apply live_dom|].
  cbn [mbind option_bind].
  destruct (set_next_spec l1 n (Some pos)) as (l2 & -> & N2 & P2 & D2 & M2);
    [apply live_dom; congruence|].
  cbn [mbind option_bind].
  destruct (deref_Some l2 pos) as (np2 & -> & _ & _ & Epv2 & _); [apply live_dom; congruence|].
  cbn [mbind option_bind]. rewrite Epv2, P2, P1, decide_False, Ha by done.
  destruct (set_next_spec l2 a (Some n)) as (l3 & -> & N3 & P3 & D3 & M3);
    [apply live_dom; congruence|].
  cbn [mbind option_bind].
  destruct (set_prev_spec l3 pos (Some n)) as (l4 & -> & P4 & N4 & D4 & M4);
    [apply live_dom; congruence|].
  exists l4. split; [done|].
  repeat split; intros; rewrite ?N4, ?N3, ?N2, ?N1, ?P4, ?P3, ?P2, ?P1, ?D4, ?D3, ?D2, ?D1;
    repeat case_decide; congruence.
Qed.

Lemma NodeUnlink_spec l n a b :
  prv l n = Some a -> nxt l n = Some b -> n <> a -> n <> b ->
  n ∈ dom (nodes l) -> a ∈ dom (nodes l) -> b ∈ dom (nodes l) ->
  exists l', NodeUnlink l (Some n) = Some l' /\
    nxt l' a = Some b /\ prv l' b = Some a /\
    (forall q, q <> n -> q <> a -> nxt l' q = nxt l q) /\
    (forall q, q <> n -> q <> b -> prv l' q = prv l q) /\
    (forall q, payload l' q = payload l q) /\ dom (nodes l') = dom (nodes l).
Proof.
  intros Ha Hb Hna Hnb Hn Had Hbd. unfold NodeUnlink.
  destruct (deref_Some l n) as (x & -> & _ & En & Ep & _); [by apply live_dom|].
  cbn [mbind option_bind]. rewrite En, Ep, Ha, Hb.
  destruct (set_next_spec l a (Some b)) as (l1 & -> & N1 & P1 & D1 & M1); [by apply live_dom|].
  cbn [mbind option_bind].
  destruct (deref_Some l1 n) as (x1 & -> & _ & En1 & Ep1 & _); [apply live_dom; congruence|].
  cbn [mbind option_bind]. rewrite En1, Ep1, N1, P1, decide_False, Ha, Hb by done.
  destruct (set_prev_spec l1 b (Some a)) as (l2 & -> & P2 & N2 & D2 & M2);
    [apply live_dom; congruence|].
  cbn [mbind option_bind].
  destruct (set_prev_spec l2 n NULL) as (l3 & -> & P3 & N3 & D3 & M3);
    [apply live_dom; congruence|].
  cbn [mbind option_bind].
  destruct (set_next_spec l3 n NULL) as (l4 & -> & N4 & P4 & D4 & M4);
    [apply live_dom; congruence|].
  exists l4. split; [done|].
  repeat split; intros; rewrite ?N4, ?N3, ?N2, ?N1, ?P4, ?P3, ?P2, ?P1, ?D4, ?D3, ?D2, ?D1;
    repeat case_decide; congruence.
Qed.

(** Inserting a fresh node before the position between [xs1] and [xs2]. *)
Lemma rep_link l xs1 xs2 n x :
  dl_rep l (xs1 ++ xs2) -> n ∉ dom (nodes l) ->
  exists l', NodeLinkBefore (MkList (<[n := MkNode x NULL NULL false]> (nodes l)))
               (Some (begin_of xs2)) (Some n) = Some l' /\
    dl_rep l' (xs1 ++ (n, x) :: xs2).
Proof.
  intros H Hn. set (l1 := MkList _).
  destruct (rep_split l xs1 [] xs2 H) as (a & Ha & Hb & (Hab & Hba & _) & Hcut).
  assert (Hlive : forall p, p ∈ sentinel :: xs1.*1 ++ xs2.*1 -> p <> n /\ p ∈ dom (nodes l)).
  { intros p Hp. rewrite <-fmap_app in Hp. apply (rep_live _ _ _ H) in Hp.
    apply live_dom in Hp. split; [congruence|done]. }
  assert (Hother : forall q, q <> n -> nxt l1 q = nxt l q /\ prv l1 q = prv l q /\
                             payload l1 q = payload l q).
  { intros q Hq. unfold nxt, prv, payload, l1. cbn [nodes]. by rewrite lookup_insert_ne. }
  assert (dom (nodes l1) = {[n]} ∪ dom (nodes l)) as Hdom by (unfold l1; apply dom_insert_L).
  destruct (Hlive a) as [Han Had]; [set_solver|].
  destruct (Hlive (begin_of xs2)) as [Hbn Hbd]; [set_solver|].
  destruct (NodeLinkBefore_spec l1 (begin_of xs2) n a)
    as (l' & El & R1 & R2 & R3 & R4 & RN & RP & RD & RM).
  1: by rewrite (proj1 (proj2 (Hother _ Hbn))). 1-2: done. 1-3: rewrite Hdom; set_solver.
  exists l'. split; [done|].
  assert (Hpay : forall q, q <> n -> payload l' q = payload l q).
  { intros q Hq. rewrite RD. by apply Hother. }
  split.
  - rewrite fmap_app, fmap_cons, <-app_assoc. apply (Hcut l' [n]); [| |done].
    + intros q [Hq _]%Hlive Hqa. rewrite RN by done. by apply Hother.
    + intros q [Hq _]%Hlive Hqb. rewrite RP by done. by apply Hother.
  - rewrite fmap_app, fmap_cons. cbn [fst].
    assert (Permutation (n :: sentinel :: xs1.*1 ++ xs2.*1) (sentinel :: xs1.*1 ++ n :: xs2.*1)) as <-.
    { rewrite <-Permutation_middle. apply perm_swap. }
    apply NoDup_cons. split; [|rewrite <-fmap_app; apply (dl_nodup _ _ H)].
    intros Hin. by destruct (Hlive n Hin).
  - rewrite Hpay; [apply (dl_sent _ _ H)|]. apply (Hlive sentinel). set_solver.
  - intros p y Hp. rewrite elem_of_app, elem_of_cons in Hp.
    destruct (decide (p = n)) as [->|Hpn].
    + rewrite RD. unfold payload, l1. cbn [nodes]. rewrite lookup_insert_eq. cbn.
      destruct Hp as [Hp|[[= ->]|Hp]]; [|done|];
        (edestruct (Hlive n) as [? _]; [|done]); apply elem_of_cons; right;
        apply elem_of_app; [left|right]; apply list_elem_of_fmap; by eexists (_, _).
    + rewrite Hpay by done. apply (dl_data _ _ H). apply elem_of_app.
      destruct Hp as [?|[[= ? ?]|?]]; [by left|done|by right].
  - rewrite RM, Hdom, (dl_dom _ _ H), !fmap_app, fmap_cons. cbn [fst]. clear; set_solver.
Qed.

(** Unlinking a node and freeing it. *)
Lemma rep_unlink l xs1 n x xs2 :
  dl_rep l (xs1 ++ (n, x) :: xs2) ->
  exists l1, NodeUnlink l (Some n) = Some l1 /\ is_Some (nodes l1 !! n) /\
    dl_rep (MkList (delete n (nodes l1))) (xs1 ++ xs2).
Proof.
  intros H. destruct (rep_split l xs1 [(n, x)] xs2 H) as (a & Ha & Hb & Hc & Hcut).
  cbn [fmap list_fmap app fst] in Hc. rewrite !chain_cons2 in Hc.
  destruct Hc as (Han & Hna & Hnb & Hbn & _).
  pose proof (dl_nodup _ _ H) as Hd. rewrite fmap_app, fmap_cons in Hd. cbn [fst] in Hd.
  assert (Permutation (sentinel :: xs1.*1 ++ n :: xs2.*1) (n :: sentinel :: xs1.*1 ++ xs2.*1)) as Hperm.
  { rewrite <-Permutation_middle. apply perm_swap. }
  rewrite Hperm in Hd. apply NoDup_cons in Hd as [Hfresh Hd].
  pose proof (dl_dom _ _ H) as Hdom. rewrite fmap_app, fmap_cons in Hdom. cbn [fst] in Hdom.
  assert (Hne : forall p, p ∈ sentinel :: xs1.*1 ++ xs2.*1 -> n <> p /\ p ∈ dom (nodes l)).
  { intros p Hp. split; [by intros ->|]. rewrite Hdom. set_solver -Hfresh. }
  destruct (Hne a) as [? ?]; [set_solver -Hfresh|].
  destruct (Hne (begin_of xs2)) as [? ?]; [set_solver -Hfresh|].
  destruct (NodeUnlink_spec l n a (begin_of xs2))
    as (l1 & E & R1 & R2 & RN & RP & RD & RM); [done..|rewrite Hdom; set_solver -Hfresh|done|done|].
  exists l1. split; [done|]. split; [apply live_dom; rewrite RM, Hdom; set_solver -Hfresh|].
  set (l2 := MkList _).
  assert (Hother : forall q, n <> q -> nxt l2 q = nxt l1 q /\ prv l2 q = prv l1 q /\
                             payload l2 q = payload l1 q).
  { intros q Hq. unfold nxt, prv, payload, l2. cbn [nodes]. by rewrite lookup_delete_ne. }
  split.
  - rewrite fmap_app, <-app_assoc. apply (Hcut l2 []).
    + intros q [Hq _]%Hne Hqa. rewrite (proj1 (Hother q Hq)). by apply RN.
    + intros q [Hq _]%Hne Hqb. rewrite (proj1 (proj2 (Hother q Hq))). by apply RP.
    + cbn [app]. rewrite chain_cons2. split; [|split; [|done]].
      * by rewrite (proj1 (Hother a ltac:(done))).
      * by rewrite (proj1 (proj2 (Hother (begin_of xs2) ltac:(done)))).
  - by rewrite fmap_app.
  - rewrite (proj2 (proj2 (Hother sentinel (proj1 (Hne sentinel ltac:(set_solver -Hfresh)))))), RD.
    apply (dl_sent _ _ H).
  - intros p y Hp. assert (p ∈ sentinel :: xs1.*1 ++ xs2.*1) as [Hq _]%Hne.
    { apply elem_of_cons. right. rewrite <-fmap_app. apply list_elem_of_fmap. by exists (p, y). }
    rewrite (proj2 (proj2 (Hother p Hq))), RD. apply (dl_data _ _ H).
    apply elem_of_app in Hp. apply elem_of_app. rewrite elem_of_cons. tauto.
  - cbn [nodes l2]. rewrite dom_delete_L, RM, Hdom, fmap_app. 
    apply set_eq. intros p. rewrite elem_of_difference, !elem_of_list_to_set, elem_of_singleton.
    rewrite Hperm, (elem_of_cons _ p n). split; [tauto|]. intros Hp. split; [tauto|]. by intros ->.
Qed.

End effects.

(** ** The operations on the represented sequence *)

Section operations.
Context {A : Type}.
Implicit Types (l : List A) (xs : list (loc * ptr A)).

Lemma rep_sentinel l xs : dl_rep l xs ->
  exists s, deref l (Some sentinel) = Some s /\ next s = Some (begin_of xs) /\
    is_sentinel s = true /\ prev s = Some (begin_of (rev xs)).
Proof.
  intros H. destruct (deref_Some l sentinel) as (s & E & _ & En & Ep & Ed).
  { apply (rep_live _ xs); [done|set_solver]. }
  exists s. split; [done|]. rewrite (dl_sent _ _ H) in Ed.
  destruct (rep_split l [] [] xs H) as (a & Ha & _ & (Hab & _) & _).
  apply list_elem_of_singleton in Ha as ->. rewrite En, Hab. split; [done|].
  split; [by injection Ed|].
  rewrite Ep. destruct (rep_split l xs [] []) as (b & _ & _ & (_ & Hba & _) & _);
    [by rewrite !app_nil_r|]. cbn [begin_of] in Hba. rewrite Hba.
  pose proof (dl_chain _ _ H) as Hc.
  destruct xs as [|[p x] xs _] using rev_ind.
  - destruct Hc as (_ & Hc & _). cbn. congruence.
  - rewrite rev_unit. cbn. rewrite fmap_app, <-app_assoc in Hc.
    cbn [fmap list_fmap fst app] in Hc. rewrite app_comm_cons in Hc.
    apply chain_app in Hc as [_ (_ & Hc & _)]. congruence.
Qed.

Lemma rep_node l xs1 p x xs2 : dl_rep l (xs1 ++ (p, x) :: xs2) ->
  exists n, deref l (Some p) = Some n /\ data n = x /\ is_sentinel n = false /\
    next n = Some (begin_of xs2) /\ prev n = Some (begin_of (rev xs1)).
Proof.
  intros H. assert ((p, x) ∈ xs1 ++ (p, x) :: xs2) as Hin by set_solver.
  destruct (deref_Some l p) as (n & E & _ & En & Ep & Ed).
  { apply (rep_live _ _ _ H), elem_of_cons. right. apply list_elem_of_fmap. by exists (p, x). }
  rewrite (dl_data _ _ H _ _ Hin) in Ed. simplify_eq.
  exists n. repeat (split; [done|]).
  destruct (rep_split l xs1 [(p, data n)] xs2 H) as (a & Ha & _ & Hc & _).
  cbn [fmap list_fmap app fst] in Hc. rewrite !chain_cons2 in Hc.
  destruct Hc as (Hap & Hpa & Hpb & _). rewrite En, Ep, Hpb, Hpa. split; [done|].
  destruct xs1 as [|[q y] xs1 _] using rev_ind; [set_solver|].
  rewrite rev_unit. cbn. f_equal.
  pose proof (dl_chain _ _ H) as Hc. rewrite !fmap_app in Hc. cbn [fmap list_fmap fst] in Hc.
  rewrite <-!app_assoc in Hc. rewrite app_comm_cons in Hc. apply chain_app in Hc as [_ Hc].
  cbn [app] in Hc. rewrite chain_cons2 in Hc. destruct Hc as (_ & Hc & _). congruence.
Qed.

Lemma rep_create_list m :
  exists r m', ListCreate m = Some (r, m') /\
    match r with
    | Some l => dl_rep (A := A) l [] /\ live m' = live m + 1
    | None => live m' = live m
    end /\ (alloc_ok m -> r <> None /\ alloc_ok m').
Proof.
  unfold ListCreate. destruct (malloc_inv m) as (b & m1 & E & L & Al). mrun E.
  destruct b; cbn [negb].
  2:{ exists NULL, m1. split; [done|]. split; [done|]. by intros [? _]%Al. }
  do 2 eexists. split; [done|]. split; [|by intros [_ ?]%Al]. split; [|done].
  split; cbn [fmap list_fmap app].
  - rewrite chain_cons2. unfold nxt, prv. cbn [nodes]. by rewrite lookup_singleton_eq.
  - apply NoDup_singleton.
  - unfold payload. cbn [nodes]. by rewrite lookup_singleton_eq.
  - set_solver.
  - cbn [nodes]. rewrite dom_singleton_L. set_solver.
Qed.

(** [NodeCreate] followed by [NodeLinkBefore]: the common part of the pushes and
    of [ListItrInsertBefore]. *)
Lemma rep_insert_before l xs1 xs2 x m :
  dl_rep l (xs1 ++ xs2) ->
  exists n l1 m', NodeCreate l x m = Some ((n, l1), m') /\
    match n with
    | None => l1 = l /\ live m' = live m
    | Some a => deref l1 (Some sentinel) = deref l (Some sentinel) /\
        (exists l', NodeLinkBefore l1 (Some (begin_of xs2)) n = Some l' /\
                    dl_rep l' (xs1 ++ (a, x) :: xs2)) /\ live m' = live m + 1
    end /\ (alloc_ok m -> n <> None /\ alloc_ok m').
Proof.
  intros H. unfold NodeCreate. destruct (malloc_inv m) as (b & m1 & E & L & Al). mrun E.
  destruct b; cbn [negb].
  2:{ exists NULL, l, m1. split; [done|]. split; [done|]. by intros [? _]%Al. }
  pose proof (is_fresh (dom (nodes l))) as Hf. set (a := fresh _) in *.
  do 3 eexists. split; [done|]. split; [|by intros [_ ?]%Al]. split.
  - unfold deref. cbn [nodes]. rewrite lookup_insert_ne; [done|]. intros ->.
    apply Hf, live_dom. apply (rep_live _ _ _ H). set_solver.
  - split; [|done]. by apply rep_link.
Qed.

(** [NodeUnlink] followed by [free]: the common part of the pops and of
    [ListItrRemove]. *)
Lemma rep_remove_node l xs1 p x xs2 m {B} (k : List A -> M B) :
  dl_rep l (xs1 ++ (p, x) :: xs2) ->
  exists l', dl_rep l' (xs1 ++ xs2) /\
    (l1 ← lift (NodeUnlink l (Some p)); l2 ← node_free l1 (Some p); k l2) m
    = k l' (Mem (plan m) (live m - 1)).
Proof.
  intros H. destruct (rep_unlink l xs1 p x xs2 H) as (l1 & E & [n Hn] & H').
  eexists. split; [exact H'|]. rewrite E. unfold lift, node_free, mbind, M_bind. by rewrite Hn.
Qed.

Lemma begin_of_sent l xs : dl_rep l xs -> begin_of xs = sentinel <-> xs = [].
Proof.
  intros H. split; [|by intros ->]. destruct xs as [|[p x] xs]; [done|]. cbn. intros ->.
  edestruct (rep_not_sent _ _ sentinel x H); [set_solver|done].
Qed.

Lemma begin_of_rev_sent l xs : dl_rep l xs -> begin_of (rev xs) = sentinel <-> xs = [].
Proof.
  intros H. split; [|by intros ->]. destruct xs as [|[p x] xs _] using rev_ind; [done|].
  rewrite rev_unit. cbn. intros ->. edestruct (rep_not_sent _ _ sentinel x H); [set_solver|done].
Qed.

Lemma rep_push_head l xs x m :
  dl_rep l xs ->
  exists n l' m', ListPushHead (Some l) x m = Some ((n, Some l'), m') /\
    match n with
    | None => l' = l /\ live m' = live m
    | Some a => dl_rep l' ((a, x) :: xs) /\ live m' = live m + 1
    end /\ (alloc_ok m -> n <> None /\ alloc_ok m').
Proof.
  intros H. unfold ListPushHead.
  destruct (rep_insert_before l [] xs x m H) as (n & l1 & m' & E & Hn & Hok). mrun E.
  destruct n as [a|].
  - destruct Hn as (Es & (l' & El & H') & L).
    destruct (rep_sentinel l xs H) as (s & Hs & Hnx & _).
    rewrite Es, Hs. mlift. rewrite Hnx, El. mlift. by exists (Some a), l', m'.
  - destruct Hn as [-> L]. by exists NULL, l, m'.
Qed.

Lemma rep_push_tail l xs x m :
  dl_rep l xs ->
  exists n l' m', ListPushTail (Some l) x m = Some ((n, Some l'), m') /\
    match n with
    | None => l' = l /\ live m' = live m
    | Some a => dl_rep l' (xs ++ [(a, x)]) /\ live m' = live m + 1
    end /\ (alloc_ok m -> n <> None /\ alloc_ok m').
Proof.
  intros H. unfold ListPushTail.
  destruct (rep_insert_before l xs [] x m) as (n & l1 & m' & E & Hn & Hok);
    [by rewrite app_nil_r|]. mrun E.
  destruct n as [a|].
  - destruct Hn as (_ & (l' & El & H') & L). cbn [begin_of] in El. rewrite El. mlift.
    by exists (Some a), l', m'.
  - destruct Hn as [-> L]. by exists NULL, l, m'.
Qed.

Lemma rep_insert_at l xs1 xs2 x m :
  dl_rep l (xs1 ++ xs2) ->
  exists n l' m', ListItrInsertBefore (Some l) (Some (begin_of xs2)) x m = Some ((n, Some l'), m') /\
    match n with
    | None => l' = l /\ live m' = live m
    | Some a => dl_rep l' (xs1 ++ (a, x) :: xs2) /\ live m' = live m + 1
    end /\ (alloc_ok m -> n <> None /\ alloc_ok m').
Proof.
  intros H. unfold ListItrInsertBefore.
  destruct (rep_insert_before l xs1 xs2 x m H) as (n & l1 & m' & E & Hn & Hok). mrun E.
  destruct n as [a|].
  - destruct Hn as (_ & (l' & El & H') & L). rewrite El. mlift. by exists (Some a), l', m'.
  - destruct Hn as [-> L]. by exists NULL, l, m'.
Qed.

Lemma rep_pop_head l xs m :
  dl_rep l xs ->
  match xs with
  | [] => ListPopHead (Some l) m = Some ((NULL, Some l), m)
  | (_, x) :: xs' => exists l', dl_rep l' xs' /\
      ListPopHead (Some l) m = Some ((x, Some l'), Mem (plan m) (live m - 1))
  end.
Proof.
  intros H. unfold ListPopHead. destruct (rep_sentinel l xs H) as (s & Hs & Hnx & _).
  destruct xs as [|[p x] xs].
  - rewrite Hs. mlift. by rewrite Hnx.
  - destruct (rep_node l [] p x xs H) as (n & Hn & Hx & _).
    destruct (rep_remove_node l [] p x xs m (fun l => mret (x, Some l)) H) as (l' & H' & E).
    exists l'. split; [done|]. rewrite Hs. mlift. rewrite Hnx. cbn [begin_of].
    rewrite decide_False.
    2:{ intros [= ->]. by pose proof (proj1 (begin_of_sent _ _ H) eq_refl). }
    rewrite Hn. mlift. cbv zeta. rewrite Hx. exact E.
Qed.

Lemma rep_pop_tail l xs p x m :
  (dl_rep l [] -> ListPopTail (Some l) m = Some ((NULL, Some l), m)) /\
  (dl_rep l (xs ++ [(p, x)]) -> exists l', dl_rep l' xs /\
     ListPopTail (Some l) m = Some ((x, Some l'), Mem (plan m) (live m - 1))).
Proof.
  unfold ListPopTail. split; intros H; destruct (rep_sentinel l _ H) as (s & Hs & _ & _ & Hpv).
  - rewrite Hs. mlift. by rewrite Hpv.
  - destruct (rep_node l xs p x [] H) as (n & Hn & Hx & _).
    destruct (rep_remove_node l xs p x [] m (fun l => mret (x, Some l)) H) as (l' & H' & E).
    rewrite app_nil_r in H'. exists l'. split; [done|]. rewrite Hs. mlift.
    rewrite Hpv, rev_unit. cbn [begin_of]. rewrite decide_False.
    2:{ intros [= ->]. edestruct (rep_not_sent _ _ sentinel x H); [set_solver|done]. }
    rewrite Hn. mlift. cbv zeta. rewrite Hx. exact E.
Qed.

Lemma rep_remove_itr l xs1 p x xs2 m :
  dl_rep l (xs1 ++ (p, x) :: xs2) ->
  exists l', dl_rep l' (xs1 ++ xs2) /\
    ListItrRemove (Some l) (Some p) m = Some ((x, Some l'), Mem (plan m) (live m - 1)).
Proof.
  intros H. unfold ListItrRemove.
  destruct (rep_node l xs1 p x xs2 H) as (n & Hn & Hx & Hs & _).
  destruct (rep_remove_node l xs1 p x xs2 m (fun l => mret (x, Some l)) H) as (l' & H' & E).
  exists l'. split; [done|]. rewrite Hn. mlift. rewrite Hs. cbv zeta. rewrite Hx. exact E.
Qed.

Lemma rep_begin l xs : dl_rep l xs -> ListItrBegin (Some l) = Some (Some (begin_of xs)).
Proof.
  intros H. destruct (rep_sentinel l xs H) as (s & Hs & Hn & _).
  unfold ListItrBegin. rewrite Hs. cbn. by rewrite Hn.
Qed.

Lemma rep_next_itr l xs1 p x xs2 :
  dl_rep l (xs1 ++ (p, x) :: xs2) -> ListItrNext (Some l) (Some p) = Some (Some (begin_of xs2)).
Proof.
  intros H. destruct (rep_node l xs1 p x xs2 H) as (n & Hn & _ & Hs & Hx & _).
  unfold ListItrNext, itr_node. rewrite Hn. cbn. by rewrite Hs, Hx.
Qed.

Lemma rep_get l xs1 p x xs2 :
  dl_rep l (xs1 ++ (p, x) :: xs2) -> ListItrGet (Some l) (Some p) = Some x.
Proof.
  intros H. destruct (rep_node l xs1 p x xs2 H) as (n & Hn & Hx & Hs & _).
  unfold ListItrGet, itr_node. rewrite Hn. cbn. by rewrite Hs, Hx.
Qed.

(** The iterator before position [xs2]; the first one stays where it is. *)
Lemma rep_prev l xs1 xs2 :
  dl_rep l (xs1 ++ xs2) ->
  ListItrPrev (Some l) (Some (begin_of xs2))
  = Some (Some (match rev xs1 with [] => begin_of xs2 | (p, _) :: _ => p end)).
Proof.
  intros H. unfold ListItrPrev, itr_node.
  assert (exists n, deref l (Some (begin_of xs2)) = Some n /\ prev n = Some (begin_of (rev xs1)))
    as (n & -> & Hp).
  { destruct xs2 as [|[p x] xs2]; cbn [begin_of].
    - rewrite app_nil_r in H. destruct (rep_sentinel l xs1 H) as (s & ? & _ & _ & ?). by exists s.
    - destruct (rep_node l xs1 p x xs2 H) as (n & ? & _ & _ & _ & ?). by exists n. }
  cbn. rewrite Hp. destruct xs1 as [|[q y] xs1 _] using rev_ind.
  - destruct (rep_sentinel l _ H) as (s & Hs & _ & Hf & _). cbn [rev begin_of app] in *.
    rewrite Hs. cbn. by rewrite Hf.
  - rewrite rev_unit. cbn [begin_of]. rewrite <-app_assoc in H.
    destruct (rep_node l xs1 q y xs2 H) as (n2 & Hn2 & _ & Hf & _). rewrite Hn2. cbn. by rewrite Hf.
Qed.

Lemma rep_set l xs1 p x xs2 y :
  dl_rep l (xs1 ++ (p, x) :: xs2) ->
  exists l', ListItrSet (Some l) (Some p) y = Some (x, Some l') /\
    dl_rep l' (xs1 ++ (p, y) :: xs2).
Proof.
  intros H. destruct (rep_node l xs1 p x xs2 H) as (n & Hn & Hx & Hs & _).
  unfold ListItrSet. rewrite Hn. cbn [mbind option_bind]. rewrite Hs.
  unfold set_data, set_node. cbn [deref] in Hn. rewrite Hn. cbn [mbind option_bind].
  eexists. rewrite Hx. split; [done|]. set (l' := MkList _).
  assert (forall q, nxt l' q = nxt l q /\ prv l' q = prv l q) as Hlink.
  { intros q. unfold nxt, prv, l'. cbn [nodes]. rewrite lookup_insert.
    case_decide; [subst; by rewrite Hn|done]. }
  assert (p <> sentinel) as Hps.
  { apply (rep_not_sent _ _ p x H). apply elem_of_app. right. by left. }
  assert (forall q, q <> p -> payload l' q = payload l q) as Hpay.
  { intros q Hq. unfold payload, l'. cbn [nodes]. by rewrite lookup_insert_ne. }
  pose proof (dl_nodup _ _ H) as Hd. rewrite fmap_app, fmap_cons in Hd. cbn [fst] in Hd.
  destruct H as [Hc _ Hse Hda Hdo]. rewrite fmap_app, fmap_cons in *. cbn [fst] in *.
  split; rewrite ?fmap_app, ?fmap_cons; cbn [fst]; try done.
  - eapply chain_frame; [..|exact Hc]; intros; apply Hlink.
  - by rewrite Hpay.
  - intros q z Hq. destruct (decide (q = p)) as [->|Hqp].
    + assert (z = y) as ->.
      { apply elem_of_app in Hq as [Hq|[[= ->]|Hq]%elem_of_cons]; [exfalso|done|exfalso].
        - apply NoDup_cons in Hd as [_ (_ & Hd & _)%NoDup_app]. apply (Hd p); [|by left].
          apply list_elem_of_fmap. by exists (p, z).
        - apply NoDup_cons in Hd as [_ (_ & _ & [Hd _]%NoDup_cons)%NoDup_app]. apply Hd.
          apply list_elem_of_fmap. by exists (p, z). }
      unfold payload, l'. cbn [nodes]. rewrite lookup_insert_eq. cbn. by rewrite Hs.
    + rewrite Hpay by done. apply Hda. rewrite elem_of_app, elem_of_cons in *.
      destruct Hq as [?|[[= ? ?]|?]]; [by left|done|by right; right].
  - unfold l'. cbn [nodes]. rewrite dom_insert_lookup_L by eauto. done.
Qed.

(** ** The loops *)

Lemma rep_size l xs : dl_rep l xs -> size (nodes l) = S (length xs).
Proof.
  intros H. rewrite <-size_dom, (dl_dom _ _ H), size_list_to_set by apply (dl_nodup _ _ H).
  simpl. by rewrite length_fmap.
Qed.

Lemma size_t_succ k : size_t (size_t k + 1) = size_t (k + 1).
Proof. unfold size_t. by rewrite Zplus_mod_idemp_l. Qed.

Lemma begin_ne_sent l xs1 p x xs2 : dl_rep l (xs1 ++ (p, x) :: xs2) -> Some p <> Some sentinel.
Proof.
  intros H [= ->]. edestruct (rep_not_sent _ _ sentinel x H); [|done].
  apply elem_of_app. right. by left.
Qed.

Lemma rep_ListSize l xs : dl_rep l xs -> ListSize (Some l) = Some (size_t (Z.of_nat (length xs))).
Proof.
  intros H. destruct (rep_sentinel l xs H) as (s & Hs & Hn & _).
  unfold ListSize. rewrite Hs. cbn [mbind option_bind]. rewrite Hn, (rep_size _ _ H).
  enough (forall ys xs1 fuel k, xs = xs1 ++ ys -> (length ys <= fuel)%nat ->
    size_loop fuel l (size_t k) (Some (begin_of ys)) = Some (size_t (k + Z.of_nat (length ys)))) as Hg.
  { apply (Hg xs [] _ 0); [done|lia]. }
  intros ys. induction ys as [|[p x] ys IH]; intros xs1 fuel k -> Hf.
  - rewrite Z.add_0_r. by destruct fuel.
  - cbn [length] in *. destruct fuel as [|fuel]; [lia|].
    cbn [size_loop begin_of]. rewrite decide_False by (by eapply begin_ne_sent).
    destruct (rep_node l xs1 p x ys H) as (n & Hn' & _ & _ & Hx & _). rewrite Hn'.
    cbn [mbind option_bind]. rewrite Hx, size_t_succ.
    rewrite (IH (xs1 ++ [(p, x)])); [do 2 f_equal; lia|by rewrite <-app_assoc|lia].
Qed.

Lemma rep_ListIsEmpty l xs :
  dl_rep l xs -> ListIsEmpty (Some l) = Some (match xs with [] => 1 | _ => 0 end).
Proof.
  intros H. destruct (rep_sentinel l xs H) as (s & Hs & Hn & _).
  unfold ListIsEmpty. rewrite Hs. cbn. rewrite Hn. destruct xs as [|[p x] xs]; [done|].
  by rewrite decide_False by (by eapply (begin_ne_sent l [] p x)).
Qed.

(** Iterating over the range [xs2] of a list. *)
Lemma rep_foreach {C} l xs1 xs2 xs3 (act : ptr A -> C -> Z * C) c :
  dl_rep l (xs1 ++ xs2 ++ xs3) ->
  ListItrForEach (Some l) (Some (begin_of (xs2 ++ xs3))) (Some (begin_of xs3)) (Some act) c
  = Some (walk act xs2 (begin_of xs3) c).
Proof.
  intros H. unfold ListItrForEach. rewrite (rep_size _ _ H), !length_app.
  enough (forall ys xs0 fuel c, xs1 ++ xs2 = xs0 ++ ys -> (length ys <= fuel)%nat ->
    foreach_loop fuel l (Some (begin_of (ys ++ xs3))) (Some (begin_of xs3)) act c
    = Some (walk act ys (begin_of xs3) c)) as Hg.
  { apply (Hg xs2 xs1); [done|lia]. }
  intros ys. induction ys as [|[p x] ys IH]; intros xs0 fuel c0 E Hf.
  - cbn [app]. destruct fuel; cbn [foreach_loop]; by rewrite decide_True.
  - cbn [length] in *. destruct fuel as [|fuel]; [lia|].
    rewrite app_assoc, E, <-app_assoc in H. cbn [app] in *.
    cbn [foreach_loop begin_of walk]. rewrite decide_False.
    2:{ intros [= Hp]. pose proof (dl_nodup _ _ H) as Hd.
        rewrite fmap_app, fmap_cons in Hd. apply NoDup_cons in Hd as [Hs Hd].
        apply NoDup_app in Hd as (_ & _ & Hd). apply NoDup_cons in Hd as [Hd _]. cbn [fst] in *.
        destruct xs3 as [|[q y] xs3]; cbn [begin_of] in Hp; subst p.
        - apply Hs, elem_of_app. right. by left.
        - apply Hd. rewrite fmap_app. apply elem_of_app. right. by left. }
    destruct (rep_node l xs0 p x (ys ++ xs3) H) as (n & Hn & Hx & _ & Hnx & _). rewrite Hn.
    cbn [mbind option_bind]. rewrite Hx. destruct (act x c0) as [r c1].
    destruct (r =? 0); [done|]. rewrite Hnx.
    apply (IH (xs0 ++ [(p, x)])); [by rewrite <-app_assoc|lia].
Qed.

Lemma destroy_loop_spec l xs f :
  dl_rep l xs ->
  forall ys xs1 fuel l' m, xs = xs1 ++ ys -> (length ys <= fuel)%nat ->
  (forall p, p ∈ ys.*1 -> nodes l' !! p = nodes l !! p) ->
  (destroy_loop fuel f l' (Some (begin_of ys));; mret tt) m = destroy_each f ys.*2 m.
Proof.
  intros H ys. induction ys as [|[p x] ys IH]; intros xs1 fuel l' m0 -> Hf Hl; [by destruct fuel|].
  cbn [length] in *. destruct fuel as [|fuel]; [lia|].
  cbn [destroy_loop begin_of]. rewrite decide_False by (by eapply begin_ne_sent).
  destruct (rep_node l xs1 p x ys H) as (n & Hn & Hx & _ & Hnx & _).
  assert (nodes l' !! p = Some n) as Hp by (rewrite Hl; [done|by left]).
  cbn [deref]. rewrite Hp. cbn [fmap list_fmap snd destroy_each].
  pose proof (dl_nodup _ _ H) as Hd. rewrite fmap_app, fmap_cons in Hd.
  apply NoDup_cons in Hd as [_ Hd]. apply NoDup_app in Hd as (_ & _ & Hd).
  apply NoDup_cons in Hd as [Hd _]. cbn [fst] in Hd.
  specialize (IH (xs1 ++ [(p, x)]) fuel (MkList (delete p (nodes l')))).
  rewrite <-app_assoc in IH. cbn [app] in IH.
  assert (forall m, (destroy_loop fuel f (MkList (delete p (nodes l'))) (next n);; mret tt) m
                    = destroy_each f ys.*2 m) as IH'.
  { intros m1. rewrite Hnx. apply IH; [done|lia|]. intros q Hq. cbn [nodes].
    rewrite lookup_delete_ne by (by intros ->). apply Hl. by right. }
  unfold mbind, M_bind in IH' |- *. unfold lift, node_free. rewrite Hp. rewrite Hx.
  destruct f as [f|].
  - destruct (f x m0) as [[[] m1]|]; [|done]. cbn. apply IH'.
  - cbn. apply IH'.
Qed.

Lemma rep_ListDestroy l xs f m :
  dl_rep l xs ->
  ListDestroy (Some (Some l)) f m = (destroy_each f xs.*2;; free;; mret (Some NULL)) m.
Proof.
  intros H. unfold ListDestroy. destruct (rep_sentinel l xs H) as (s & Hs & Hn & _).
  rewrite Hs. mlift. rewrite Hn.
  pose proof (destroy_loop_spec l xs f H xs [] (size (nodes l)) l m eq_refl) as E.
  rewrite (rep_size _ _ H) in *. specialize (E ltac:(lia) ltac:(done)).
  unfold mbind, M_bind in *. rewrite <-E. by destruct (destroy_loop _ f l _ m) as [[? ?]|].
Qed.

(** ** Sequences of calls *)

(** Moving an iterator that is at position [k]. *)
Lemma rep_itr_next l xs k : dl_rep l xs ->
  ListItrNext (Some l) (Some (begin_of (drop k xs)))
  = Some (Some (begin_of (drop (pos_move (length xs) k MoveNext) xs))).
Proof.
  intros H. cbn [pos_move]. destruct (drop k xs) as [|[p x] ys] eqn:E.
  - destruct (rep_sentinel l xs H) as (s & Hs & _ & Hf & _).
    unfold ListItrNext, itr_node. cbn [begin_of]. rewrite Hs. cbn [mbind option_bind]. rewrite Hf.
    pose proof (f_equal length E) as HL. rewrite length_drop in HL. cbn [length] in HL.
    by rewrite drop_ge by lia.
  - pose proof (f_equal length E) as HL. rewrite length_drop in HL. cbn [length] in HL.
    rewrite <-(take_drop k xs), E in H. cbn [begin_of]. rewrite (rep_next_itr l _ p x ys H).
    rewrite Nat.min_r by lia. by rewrite <-Nat.add_1_r, <-drop_drop, E.
Qed.

Lemma rep_itr_prev l xs k : dl_rep l xs -> (k <= length xs)%nat ->
  ListItrPrev (Some l) (Some (begin_of (drop k xs)))
  = Some (Some (begin_of (drop (pos_move (length xs) k MovePrev) xs))).
Proof.
  intros H Hk. cbn [pos_move]. pose proof H as H'. rewrite <-(take_drop k xs) in H'.
  rewrite (rep_prev l _ _ H'). destruct k as [|k]; [done|]. cbn [pred].
  destruct (lookup_lt_is_Some_2 xs k) as [[p x] E]; [lia|].
  by rewrite (take_S_r _ _ _ E), rev_unit, (drop_S _ _ _ E).
Qed.

Lemma rep_itr_moves l xs ms k : dl_rep l xs -> (k <= length xs)%nat ->
  itr_moves (Some l) (Some (begin_of (drop k xs))) ms
  = Some (Some (begin_of (drop (foldl (pos_move (length xs)) k ms) xs))).
Proof.
  intros H. revert k. induction ms as [|[] ms IH]; intros k Hk; [done|..]; cbn [itr_moves foldl].
  - rewrite rep_itr_next by done. cbn [mbind option_bind]. apply IH. simpl. lia.
  - rewrite rep_itr_prev by done. cbn [mbind option_bind]. apply IH. simpl. lia.
Qed.

Lemma rep_itr_at l xs i :
  dl_rep l xs -> itr_at (Some l) i = Some (Some (begin_of (drop (pos_of (length xs) i) xs))).
Proof.
  intros H. unfold itr_at, pos_of. destruct i as [[] ms]; cbn [fst snd].
  - rewrite (rep_begin l xs H). cbn [mbind option_bind]. apply (rep_itr_moves l xs ms 0 H). lia.
  - cbn [ListItrEnd mbind option_bind]. rewrite <-(rep_itr_moves l xs ms (length xs) H) by lia.
    by rewrite drop_all.
Qed.

Lemma rep_set_end l xs y : dl_rep l xs -> ListItrSet (Some l) (Some sentinel) y = Some (NULL, Some l).
Proof.
  intros H. destruct (rep_sentinel l xs H) as (s & Hs & _ & Hf & _).
  unfold ListItrSet. rewrite Hs. cbn. by rewrite Hf.
Qed.

Lemma rep_remove_end l xs m :
  dl_rep l xs -> ListItrRemove (Some l) (Some sentinel) m = Some ((NULL, Some l), m).
Proof.
  intros H. destruct (rep_sentinel l xs H) as (s & Hs & _ & Hf & _).
  unfold ListItrRemove. rewrite Hs. mlift. by rewrite Hf.
Qed.

Lemma rep_get_end l xs : dl_rep l xs -> ListItrGet (Some l) (Some sentinel) = Some NULL.
Proof.
  intros H. destruct (rep_sentinel l xs H) as (s & Hs & _ & Hf & _).
  unfold ListItrGet, itr_node. rewrite Hs. cbn. by rewrite Hf.
Qed.

(** The [i]-th iterator is at a node, or at the end. *)
Lemma nth_cases xs i :
  (drop i xs = [] /\ xs.*2 !! i = None) \/
  (exists p y, drop i xs = (p, y) :: drop (S i) xs /\ xs.*2 !! i = Some y /\
     xs = take i xs ++ (p, y) :: drop (S i) xs /\ (i < length xs)%nat).
Proof.
  destruct (xs !! i) as [[p y]|] eqn:E.
  - right. exists p, y. rewrite list_lookup_fmap, E. rewrite (drop_S _ _ _ E).
    split; [done|]. split; [done|]. split; [by rewrite take_drop_middle|].
    by eapply lookup_lt_Some.
  - left. rewrite list_lookup_fmap, E. split; [|done].
    apply drop_ge. by apply lookup_ge_None.
Qed.

(** One call: the effect on the sequence, and one live block per node. *)
Definition call_ok l xs c m : Prop :=
  exists l' xs' m', list_do (Some l) c m = Some ((fst (seq_do xs.*2 c), Some l'), m') /\
    dl_rep l' xs' /\ xs'.*2 = snd (seq_do xs.*2 c) /\ alloc_ok m' /\
    live m' - Z.of_nat (length xs') = live m - Z.of_nat (length xs).

Lemma rep_do_get l xs i m : dl_rep l xs -> alloc_ok m -> call_ok l xs (LGet i) m.
Proof.
  intros H Hm. unfold call_ok. cbn [list_do seq_do fst snd].
  rewrite length_fmap, (rep_itr_at l xs i H). mlift. generalize (pos_of (length xs) i). intros k.
  exists l, xs, m. destruct (nth_cases xs k) as [[-> Hi]|(p & y & -> & Hi & Ex & Hlt)];
    rewrite Hi; cbn [begin_of].
  - by rewrite (rep_get_end l xs H).
  - pose proof H as H'. rewrite Ex in H'. by rewrite (rep_get l _ p y _ H').
Qed.

Lemma rep_do_set l xs i x m : dl_rep l xs -> alloc_ok m -> call_ok l xs (LSet i x) m.
Proof.
  intros H Hm. unfold call_ok. cbn [list_do seq_do fst snd]. cbv zeta.
  rewrite length_fmap, (rep_itr_at l xs i H). mlift. generalize (pos_of (length xs) i). intros k.
  destruct (nth_cases xs k) as [[-> Hi]|(p & y & -> & Hi & Ex & Hlt)]; rewrite Hi; cbn [begin_of].
  - exists l, xs, m. rewrite (rep_set_end l xs x H), list_insert_ge; [done|].
    by apply lookup_ge_None.
  - rewrite Ex in H. destruct (rep_set l _ p y _ x H) as (l' & E & H').
    exists l', (take k xs ++ (p, x) :: drop (S k) xs), m. rewrite E. split; [done|].
    split; [done|]. rewrite insert_take_drop by by rewrite length_fmap.
    rewrite fmap_app, fmap_cons, fmap_take, fmap_drop. split; [done|]. split; [done|].
    rewrite length_app. cbn [length]. rewrite length_take, length_drop. lia.
Qed.

Lemma rep_do_remove l xs i m : dl_rep l xs -> alloc_ok m -> call_ok l xs (LRemove i) m.
Proof.
  intros H Hm. unfold call_ok. cbn [list_do seq_do fst snd]. cbv zeta.
  rewrite length_fmap, (rep_itr_at l xs i H). mlift. generalize (pos_of (length xs) i). intros k.
  destruct (nth_cases xs k) as [[-> Hi]|(p & y & -> & Hi & Ex & Hlt)]; rewrite Hi; cbn [begin_of].
  - exists l, xs, m. rewrite (rep_remove_end l xs m H), delete_take_drop.
    apply lookup_ge_None in Hi. rewrite take_ge, drop_ge, app_nil_r by lia. done.
  - rewrite Ex in H. destruct (rep_remove_itr l _ p y _ m H) as (l' & H' & E).
    exists l', (take k xs ++ drop (S k) xs). eexists. split; [exact E|].
    split; [done|]. rewrite delete_take_drop, fmap_app, fmap_take, fmap_drop.
    split; [done|]. split; [done|]. rewrite length_app, length_take, length_drop. simpl. lia.
Qed.

Lemma rep_do_insert l xs i x m : dl_rep l xs -> alloc_ok m -> call_ok l xs (LInsertBefore i x) m.
Proof.
  intros H Hm. unfold call_ok. cbn [list_do seq_do fst snd]. cbv zeta.
  rewrite length_fmap, (rep_itr_at l xs i H). mlift. generalize (pos_of (length xs) i). intros k.
  rewrite <-(take_drop k xs) in H.
  destruct (rep_insert_at l _ _ x m H) as (n & l' & m' & E & Hn & Hok).
  destruct (Hok Hm) as [? ?]. destruct n as [a|]; [|done]. destruct Hn as [H' L]. mrun E.
  rewrite (rep_get l' _ a x _ H'). mlift.
  exists l', (take k xs ++ (a, x) :: drop k xs), m'. split; [done|]. split; [done|].
  rewrite fmap_app, fmap_cons, fmap_take, fmap_drop. split; [done|]. split; [done|].
  rewrite length_app. cbn [length]. rewrite length_take, length_drop. lia.
Qed.

Lemma rep_do_push l xs x m :
  dl_rep l xs -> alloc_ok m -> call_ok l xs (LPushHead x) m /\ call_ok l xs (LPushTail x) m.
Proof.
  intros H Hm. unfold call_ok. cbn [list_do seq_do fst snd]. split.
  - destruct (rep_push_head l xs x m H) as (n & l' & m' & E & Hn & Hok).
    destruct (Hok Hm) as [? ?]. destruct n as [a|]; [|done]. destruct Hn as [H' L].
    mrun E. rewrite (rep_get l' [] a x xs H'). mlift.
    exists l', ((a, x) :: xs), m'. repeat (split; [done|]). simpl. lia.
  - destruct (rep_push_tail l xs x m H) as (n & l' & m' & E & Hn & Hok).
    destruct (Hok Hm) as [? ?]. destruct n as [a|]; [|done]. destruct Hn as [H' L].
    mrun E. rewrite (rep_get l' xs a x [] H'). mlift.
    exists l', (xs ++ [(a, x)]), m'. rewrite fmap_app, length_app.
    repeat (split; [done|]). simpl. lia.
Qed.

Lemma rep_do_pop l xs m :
  dl_rep l xs -> alloc_ok m -> call_ok l xs LPopHead m /\ call_ok l xs LPopTail m.
Proof.
  intros H Hm. unfold call_ok. cbn [list_do seq_do fst snd]. split.
  - pose proof (rep_pop_head l xs m H) as E. destruct xs as [|[p x] xs].
    + exists l, [], m. done.
    + destruct E as (l' & H' & E). exists l', xs. eexists. split; [exact E|].
      repeat (split; [done|]). simpl. lia.
  - destruct xs as [|[p x] xs _] using rev_ind.
    + destruct (rep_pop_tail l [] sentinel NULL m) as [E _]. exists l, [], m. rewrite (E H). done.
    + destruct (rep_pop_tail l xs p x m) as [_ E]. destruct (E H) as (l' & H' & E').
      exists l', xs. eexists. rewrite fmap_app. cbn [fmap list_fmap snd].
      rewrite last_snoc, removelast_last, length_app.
      split; [exact E'|]. repeat (split; [done|]). simpl. lia.
Qed.

Lemma rep_list_do l xs c m : dl_rep l xs -> alloc_ok m -> call_ok l xs c m.
Proof.
  intros H Hm. destruct c; first
    [ by apply rep_do_push | by apply rep_do_pop | by apply rep_do_get | by apply rep_do_insert
    | by apply rep_do_set | by apply rep_do_remove ].
Qed.

Lemma rep_list_run l xs cs m :
  dl_rep l xs -> alloc_ok m ->
  exists l' xs' m', list_run (Some l) cs m = Some ((fst (seq_run xs.*2 cs), Some l'), m') /\
    dl_rep l' xs' /\ xs'.*2 = snd (seq_run xs.*2 cs) /\
    live m' - Z.of_nat (length xs') = live m - Z.of_nat (length xs).
Proof.
  revert l xs m. induction cs as [|c cs IH]; intros l xs m H Hm; [by exists l, xs, m|].
  cbn [list_run seq_run].
  destruct (rep_list_do l xs c m H Hm) as (l1 & xs1 & m1 & E & H1 & Ex & Hm1 & L1). mrun E.
  destruct (seq_do xs.*2 c) as [r ys]. cbn [fst snd] in *.
  destruct (IH l1 xs1 m1 H1 Hm1) as (l' & xs' & m' & E' & H' & Ex' & L').
  rewrite Ex in *. mrun E'. destruct (seq_run ys cs) as [rs zs]. cbn [fst snd] in *.
  exists l', xs', m'. repeat (split; [done|]). lia.
Qed.

End operations.

(** ** Properties *)

(** C28: The pointer structure is a sequence: a list made by [ListCreate] answers
    every sequence of pushes, pops and iterator operations (get, set, insert
    before and remove, through iterators that start at begin or end and are moved
    on and back in any way) exactly as a sequence of items does, without ever
    following NULL or a freed node; moving back from the first item stays there,
    as moving on from the end does.  It holds one heap block per item plus one
    for the list, and [ListSize]/[ListIsEmpty] report it. *)
Theorem dlist_refines_sequence (A : Type) (cs : list (list_call (A := A))) m (Hm : alloc_ok m) :
  exists l m1, ListCreate m = Some (Some l, m1) /\
  exists l' m2, list_run (Some l) cs m1 = Some ((fst (seq_run [] cs), Some l'), m2) /\
    ListSize (Some l') = Some (size_t (Z.of_nat (length (snd (seq_run [] cs))))) /\
    ListIsEmpty (Some l') = Some (match snd (seq_run [] cs) with [] => 1 | _ => 0 end) /\
    live m2 = live m + 1 + Z.of_nat (length (snd (seq_run [] cs))).
Proof.
  destruct (rep_create_list (A := A) m) as (r & m1 & E & Hr & Hok).
  destruct (Hok Hm) as [Hsome Hm1]. destruct r as [l|]; [|done]. destruct Hr as [H L].
  exists l, m1. split; [done|].
  destruct (rep_list_run l [] cs m1 H Hm1) as (l' & xs & m2 & E2 & H2 & Ex & L2).
  cbn [fmap list_fmap length] in *.
  exists l', m2. split; [done|]. rewrite (rep_ListSize _ _ H2), (rep_ListIsEmpty _ _ H2).
  rewrite <-Ex, length_fmap. split; [done|]. split; [by destruct xs|]. lia.
Qed.

Lemma dlist_refines_sequence_witness :
  exists l m1, ListCreate (Mem [] 0) = Some (Some l, m1) /\
  exists l' m2,
    list_run (Some l) [LPushTail (Some 1); LPushHead (Some 2);
                       LInsertBefore (AtBegin, [MoveNext]) (Some 3);
                       LGet (AtEnd, [MovePrev; MovePrev]); LGet (AtBegin, [MovePrev]);
                       LRemove (AtBegin, []); LPopTail; LRemove (AtEnd, [])] m1
      = Some (([Some 1; Some 2; Some 3; Some 3; Some 2; Some 2; Some 1; NULL], Some l'), m2) /\
    ListSize (Some l') = Some 1 /\ ListIsEmpty (Some l') = Some 0 /\ live m2 = 2.
Proof.
  apply (dlist_refines_sequence Z [LPushTail (Some 1); LPushHead (Some 2);
           LInsertBefore (AtBegin, [MoveNext]) (Some 3);
           LGet (AtEnd, [MovePrev; MovePrev]); LGet (AtBegin, [MovePrev]);
           LRemove (AtBegin, []); LPopTail; LRemove (AtEnd, [])] (Mem [] 0)).
  constructor.
Defined.

(** [ListDestroy] gives every item, first to last, to the destroy function
    exactly once, frees every node right after its item and the list at the
    end, and nulls the caller's pointer; [ListItrForEach] over a half-open
    range visits exactly the items of the range in order, stopping at (and
    returning) the first iterator whose action returns 0. *)
Theorem dlist_destroy_foreach (A C : Type) (l : List A) xs1 xs2 xs3 f
    (act : ptr A -> C -> Z * C) c m (H : dl_rep l (xs1 ++ xs2 ++ xs3)) :
  ListDestroy (Some (Some l)) f m
    = (destroy_each f (xs1 ++ xs2 ++ xs3).*2;; free;; mret (Some NULL)) m /\
  ListItrForEach (Some l) (Some (begin_of (xs2 ++ xs3))) (Some (begin_of xs3)) (Some act) c
    = Some (walk act xs2 (begin_of xs3) c).
Proof. split; [by apply rep_ListDestroy | by eapply rep_foreach]. Qed.

Lemma dlist_destroy_foreach_witness :
  let l := MkList {[ 1%positive := MkNode NULL (Some 2%positive) (Some 3%positive) true;
                     2%positive := MkNode (Some 7) (Some 3%positive) (Some 1%positive) false;
                     3%positive := MkNode (Some 8) (Some 1%positive) (Some 2%positive) false ]} in
  ListDestroy (Some (Some l)) NULL (Mem [] 3) = Some (Some NULL, Mem [] 0) /\
  ListItrForEach (Some l) (Some 2%positive) (Some 1%positive) (Some (fun x s => (1, s ++ [x]))) []
    = Some (Some 1%positive, [Some 7; Some 8]).
Proof.
  apply (dlist_destroy_foreach Z (list (ptr Z)) _ [] [(2%positive, Some 7); (3%positive, Some 8)] []
           NULL (fun x s => (1, s ++ [x])) [] (Mem [] 3)).
  split.
  - vm_compute. repeat split.
  - vm_compute. repeat constructor; set_solver.
  - reflexivity.
  - intros p x [[= -> ->]|[[= -> ->]|Hin]%elem_of_cons]%elem_of_cons; [reflexivity..|].
    by apply elem_of_nil in Hin.
  - vm_compute. reflexivity.
Defined.
