(* ===== verification/HashMap.v ===== *)
(** * The generic hash map: [shared/adt/HashMap.h], [shared/adt/HashMap.c]

    Separate chaining over the lists of [GenDlist]: an array of bucket
    pointers, allocated lazily, each bucket a list of pointers to key/value
    pairs.  A [void*] key is a pointer to an object of type [K] that the hash and
    equality functions read, so [ptr K]; a [void*] value is an uninterpreted
    word of type [V].  The functions stored in the structure are used through
    the interface [HashKey]: the equality function decides equality of keys.
    The file proves that the map refines a finite map [gmap K V] ([hm_rep]),
    that the trial division of [IsPrime] decides primality, and the number of
    heap blocks the map owns. *)

From S2P Require Import Prelude GenDlist.
From Stdlib Require Import Znumtheory.

Inductive Map_Result :=
| MAP_SUCCESS
| MAP_UNINITIALIZED_ERROR
| MAP_KEY_NULL_ERROR
| MAP_KEY_DUPLICATE_ERROR
| MAP_KEY_NOT_FOUND_ERROR
| MAP_ALLOCATION_ERROR.

#[export] Instance Map_Result_eq_dec : EqDecision Map_Result.
Proof. solve_decision. Defined.

(** [struct KeyValuePair] *)
Record KeyValuePair (K V : Type) := MkPair { key : K; value : V }.
Arguments MkPair {K V}. Arguments key {K V}. Arguments value {K V}.

(** [struct HashMap] *)
Record HashMap (K V : Type) := MkHashMap {
  buckets : list (ptr (List (KeyValuePair K V)));
  capacity : Z;
  hm_size : Z;
  hashFunc : K -> Z;
  keysEqualFunc : K -> K -> Z
}.
Arguments MkHashMap {K V}. Arguments buckets {K V}. Arguments capacity {K V}.
Arguments hm_size {K V}. Arguments hashFunc {K V}. Arguments keysEqualFunc {K V}.

(** ** The table size *)

(** A turn of the loop [for (i = 5; i * i <= _num; i += 6)], in [size_t]
    arithmetic. *)
Definition IsPrime_turn (_num i : Z) : option (Z + Z) :=
  if size_t (i * i) <=? _num then
    if (i =? 0) || (size_t (i + 2) =? 0) then None (* division by zero *) else
    if (0 =? _num mod i) || (0 =? _num mod (size_t (i + 2))) then Some (inr 0) else
    Some (inl (size_t (i + 6)))
  else Some (inr 1).

(** A loop over a [size_t] that has made [2^64] turns never ends. *)
Definition IsPrime (_num : Z) : option Z :=
  if _num <=? 1 then Some 0 else
  if (2 =? _num) || (3 =? _num) then Some 1 else
  if (0 =? _num mod 2) || (0 =? _num mod 3) then Some 0 else
  run_turns 64 (IsPrime_turn _num) 5.

(** A turn of [while (0 == IsPrime(prime)) prime++]. *)
Definition GetNextPrime_turn (prime : Z) : option (Z + Z) :=
  r ← IsPrime prime;
  Some (if 0 =? r then inl (size_t (prime + 1)) else inr prime).

Definition GetNextPrime (_num : Z) : option Z := run_turns 64 GetNextPrime_turn _num.

Section hashmap.
Context {K V : Type}.

Abbreviation KVP := (KeyValuePair K V).

(** [_map->buckets[i]] and its assignment *)
Definition bucket_get (h : HashMap K V) (i : Z) : option (ptr (List KVP)) :=
  if 0 <=? i then buckets h !! Z.to_nat i else None.

Definition bucket_set (h : HashMap K V) (i : Z) (b : ptr (List KVP)) : option (HashMap K V) :=
  if (0 <=? i) && (i <? Z.of_nat (length (buckets h)))
  then Some (MkHashMap (<[Z.to_nat i := b]> (buckets h)) (capacity h) (hm_size h)
                       (hashFunc h) (keysEqualFunc h))
  else None.

Definition with_size (h : HashMap K V) (n : Z) : HashMap K V :=
  MkHashMap (buckets h) (capacity h) n (hashFunc h) (keysEqualFunc h).

(** ** Helpers *)

Definition GetBucketIndex (_map : ptr (HashMap K V)) (_key : ptr K) : option Z :=
  match _map, _key with
  | Some h, Some k =>
      if capacity h =? 0 then None else Some ((hashFunc h k) mod (capacity h))
  | _, _ => Some 0
  end.

Definition CreateKeyValuePair (_key : K) (_value : V) : M (ptr KVP) :=
  ok ← malloc;
  mret (if ok : bool then Some (MkPair _key _value) else NULL).

Definition DestroyKeyValuePair (_kvp : ptr KVP) : M unit :=
  match _kvp with
  | Some _ => free
  | None => mret tt
  end.

Fixpoint FindInList_loop (fuel : nat) (_list : ptr (List KVP)) (_key : K) (_isEqual : K -> K -> Z)
    (_outItr : ptr (ptr loc)) (itr e : ptr loc) : option (ptr KVP * ptr (ptr loc)) :=
  if decide (itr = e) then Some (NULL, _outItr) else
  match fuel with
  | O => None
  | S fuel =>
      kvp ← ListItrGet _list itr;
      if (match kvp with Some kv => negb (_isEqual _key (key kv) =? 0) | None => false end)
      then Some (kvp, match _outItr with Some _ => Some itr | None => NULL end)
      else
        itr ← ListItrNext _list itr;
        FindInList_loop fuel _list _key _isEqual _outItr itr e
  end.

Definition FindInList (_list : ptr (List KVP)) (_key : K) (_isEqual : K -> K -> Z)
    (_outItr : ptr (ptr loc)) : option (ptr KVP * ptr (ptr loc)) :=
  match _list with
  | None => Some (NULL, _outItr)
  | Some l =>
      itr ← ListItrBegin _list;
      let e := ListItrEnd _list in
      FindInList_loop (size (nodes l)) _list _key _isEqual _outItr itr e
  end.

(** The memory the callbacks of [HashMap_Destroy] work on is [C]. *)
Fixpoint destroy_bucket_loop {C : Type} (fuel : nat) (_bucket : ptr (List KVP))
    (_keyDestroy : ptr (K -> C -> M C)) (_valDestroy : ptr (V -> C -> M C))
    (itr e : ptr loc) (c : C) : M C :=
  if decide (itr = e) then mret c else
  match fuel with
  | O => fault
  | S fuel =>
      kvp ← lift (ListItrGet _bucket itr);
      c ← match kvp with
          | Some kv =>
              c ← match _keyDestroy with Some f => f (key kv) c | None => mret c end;
              c ← match _valDestroy with Some f => f (value kv) c | None => mret c end;
              DestroyKeyValuePair kvp;;
              mret c
          | None => mret c
          end;
      itr ← lift (ListItrNext _bucket itr);
      destroy_bucket_loop fuel _bucket _keyDestroy _valDestroy itr e c
  end.

Definition DestroySingleBucket {C : Type} (_bucket : ptr (List KVP))
    (_keyDestroy : ptr (K -> C -> M C)) (_valDestroy : ptr (V -> C -> M C)) (c : C) : M C :=
  match _bucket with
  | None => mret c
  | Some l =>
      itr ← lift (ListItrBegin _bucket);
      let e := ListItrEnd _bucket in
      c ← destroy_bucket_loop (size (nodes l)) _bucket _keyDestroy _valDestroy itr e c;
      ListDestroy (Some _bucket) NULL;;
      mret c
  end.

(** ** The interface *)

Definition HashMap_Create (_capacity : Z) (_hashFunc : ptr (K -> Z))
    (_keysEqualFunc : ptr (K -> K -> Z)) : M (ptr (HashMap K V)) :=
  match _hashFunc, _keysEqualFunc with
  | Some hf, Some ef =>
      if 0 =? _capacity then mret NULL else
      ok ← malloc;
      if negb ok then mret NULL else
      primeCapacity ← lift (GetNextPrime _capacity);
      ok ← malloc;
      if negb ok then free;; mret NULL else
      mret (Some (MkHashMap (replicate (Z.to_nat primeCapacity) NULL) primeCapacity 0 hf ef))
  | _, _ => mret NULL
  end.

(** The loop [for (i = 0; i < capacity; ++i)] of [HashMap_Destroy]. *)
Fixpoint Destroy_loop {C : Type} (fuel : nat) (h : HashMap K V) (i : Z)
    (_keyDestroy : ptr (K -> C -> M C)) (_valDestroy : ptr (V -> C -> M C)) (c : C) : M C :=
  if i <? capacity h then
    match fuel with
    | O => fault
    | S fuel =>
        b ← lift (bucket_get h i);
        c ← match b with
            | Some _ => DestroySingleBucket b _keyDestroy _valDestroy c
            | None => mret c
            end;
        Destroy_loop fuel h (size_t (i + 1)) _keyDestroy _valDestroy c
    end
  else mret c.

Definition HashMap_Destroy {C : Type} (_map : ptr (ptr (HashMap K V)))
    (_keyDestroy : ptr (K -> C -> M C)) (_valDestroy : ptr (V -> C -> M C)) (c : C)
  : M (ptr (ptr (HashMap K V)) * C) :=
  match _map with
  | Some (Some h) =>
      c ← Destroy_loop (Z.to_nat (capacity h)) h 0 _keyDestroy _valDestroy c;
      free;;
      free;;
      mret (Some NULL, c)
  | _ => mret (_map, c)
  end.

Definition HashMap_Insert (_map : ptr (HashMap K V)) (_key : ptr K) (_value : V)
  : M (Map_Result * ptr (HashMap K V)) :=
  match _map with
  | None => mret (MAP_UNINITIALIZED_ERROR, _map)
  | Some h =>
      match _key with
      | None => mret (MAP_KEY_NULL_ERROR, _map)
      | Some k =>
          index ← lift (GetBucketIndex _map _key);
          b ← lift (bucket_get h index);
          '(early, h) ←
            (match b with
             | None =>
                 nb ← ListCreate;
                 h ← lift (bucket_set h index nb);
                 mret (match nb with None => Some MAP_ALLOCATION_ERROR | Some _ => None end, h)
             | Some _ =>
                 '(kvp, _) ← lift (FindInList b k (keysEqualFunc h) (Some NULL));
                 mret (match kvp with Some _ => Some MAP_KEY_DUPLICATE_ERROR | None => None end, h)
             end);
          match early with
          | Some r => mret (r, Some h)
          | None =>
              kvp ← CreateKeyValuePair k _value;
              match kvp with
              | None => mret (MAP_ALLOCATION_ERROR, Some h)
              | Some _ =>
                  b ← lift (bucket_get h index);
                  '(itr, b) ← ListPushTail b kvp;
                  h ← lift (bucket_set h index b);
                  match itr with
                  | None =>
                      DestroyKeyValuePair kvp;;
                      mret (MAP_ALLOCATION_ERROR, Some h)
                  | Some _ => mret (MAP_SUCCESS, Some (with_size h (size_t (hm_size h + 1))))
                  end
              end
          end
      end
  end.

(** [_pKey] and [_pValue] point to variables of the caller, whose contents
    after the call are returned. *)
Definition HashMap_Remove (_map : ptr (HashMap K V)) (_searchKey : ptr K)
    (_pKey : ptr (ptr K)) (_pValue : ptr V)
  : M (Map_Result * ptr (ptr K) * ptr V * ptr (HashMap K V)) :=
  match _map with
  | None => mret (MAP_UNINITIALIZED_ERROR, _pKey, _pValue, _map)
  | Some h =>
      match _searchKey with
      | None => mret (MAP_KEY_NULL_ERROR, _pKey, _pValue, _map)
      | Some k =>
          index ← lift (GetBucketIndex _map _searchKey);
          b ← lift (bucket_get h index);
          match b with
          | None => mret (MAP_KEY_NOT_FOUND_ERROR, _pKey, _pValue, _map)
          | Some _ =>
              '(kvp, targetItr) ← lift (FindInList b k (keysEqualFunc h) (Some NULL));
              match kvp with
              | None => mret (MAP_KEY_NOT_FOUND_ERROR, _pKey, _pValue, _map)
              | Some kv =>
                  itr ← lift targetItr;
                  '(_, b) ← ListItrRemove b itr;
                  h ← lift (bucket_set h index b);
                  let _pKey := match _pKey with Some _ => Some (Some (key kv)) | None => NULL end in
                  let _pValue := match _pValue with Some _ => Some (value kv) | None => NULL end in
                  DestroyKeyValuePair kvp;;
                  mret (MAP_SUCCESS, _pKey, _pValue, Some (with_size h (size_t (hm_size h - 1))))
              end
          end
      end
  end.

Definition HashMap_Find (_map : ptr (HashMap K V)) (_key : ptr K) (_pValue : ptr V)
  : option (Map_Result * ptr V) :=
  match _map with
  | None => Some (MAP_UNINITIALIZED_ERROR, _pValue)
  | Some h =>
      match _key with
      | None => Some (MAP_KEY_NULL_ERROR, _pValue)
      | Some k =>
          index ← GetBucketIndex _map _key;
          b ← bucket_get h index;
          match b with
          | None => Some (MAP_KEY_NOT_FOUND_ERROR, _pValue)
          | Some _ =>
              r ← FindInList b k (keysEqualFunc h) NULL;
              match fst r with
              | None => Some (MAP_KEY_NOT_FOUND_ERROR, _pValue)
              | Some kv =>
                  Some (MAP_SUCCESS, match _pValue with Some _ => Some (value kv) | None => NULL end)
              end
          end
      end
  end.

Definition HashMap_Size (_map : ptr (HashMap K V)) : Z :=
  match _map with
  | None => 0
  | Some h => hm_size h
  end.

(** The inner loop of [HashMap_ForEach]: [true] when the action returned 0. *)
Fixpoint foreach_bucket {C : Type} (fuel : nat) (b : ptr (List KVP))
    (_action : K -> V -> C -> Z * C) (itr e : ptr loc) (count : Z) (c : C)
  : option (bool * Z * C) :=
  if decide (itr = e) then Some (false, count, c) else
  match fuel with
  | O => None
  | S fuel =>
      kvp ← ListItrGet b itr;
      match kvp with
      | Some kv =>
          let count := size_t (count + 1) in
          let '(r, c) := _action (key kv) (value kv) c in
          if 0 =? r then Some (true, count, c) else
          itr ← ListItrNext b itr;
          foreach_bucket fuel b _action itr e count c
      | None =>
          itr ← ListItrNext b itr;
          foreach_bucket fuel b _action itr e count c
      end
  end.

Fixpoint ForEach_loop {C : Type} (fuel : nat) (h : HashMap K V) (_action : K -> V -> C -> Z * C)
    (i count : Z) (c : C) : option (Z * C) :=
  if i <? capacity h then
    match fuel with
    | O => None
    | S fuel =>
        b ← bucket_get h i;
        match b with
        | Some l =>
            itr ← ListItrBegin b;
            r ← foreach_bucket (size (nodes l)) b _action itr (ListItrEnd b) count c;
            match r with
            | (true, count, c) => Some (count, c)
            | (false, count, c) => ForEach_loop fuel h _action (size_t (i + 1)) count c
            end
        | None => ForEach_loop fuel h _action (size_t (i + 1)) count c
        end
    end
  else Some (count, c).

Definition HashMap_ForEach {C : Type} (_map : ptr (HashMap K V))
    (_action : ptr (K -> V -> C -> Z * C)) (_context : C) : option (Z * C) :=
  match _map, _action with
  | Some h, Some act => ForEach_loop (Z.to_nat (capacity h)) h act 0 0 _context
  | _, _ => Some (0, _context)
  end.

End hashmap.

(** ** Primality *)

(** No wrap-around happens below this bound: the last candidate below [2^32]
    is [2^32 - 5]. *)
Definition prime_bound : Z := (2 ^ 32 - 5) ^ 2.

Lemma size_t_id z : 0 <= z < 2 ^ 64 -> size_t z = z.
Proof. intros. unfold size_t. by rewrite Z.mod_small. Qed.

Lemma mod_zero_divide n d : 0 < d -> (0 =? n mod d) = true <-> (d | n).
Proof.
  intros Hd. rewrite Z.eqb_eq. split; intros H.
  - by apply Z.mod_divide; [lia|].
  - symmetry. apply Z.mod_divide; [lia|done].
Qed.

Lemma mod_nonzero_not_divide n d : 0 < d -> (0 =? n mod d) = false <-> ~ (d | n).
Proof. intros Hd. rewrite <-(mod_zero_divide n d Hd). by destruct (0 =? n mod d). Qed.

(** [n] has no divisor below [i] other than 1. *)
Definition no_divisor_below (n i : Z) : Prop := forall d, 1 < d < i -> ~ (d | n).

Lemma no_divisor_prime n i :
  1 < n -> 1 < i -> no_divisor_below n i -> n < i * i -> prime n.
Proof.
  intros Hn Hi Hd Hlt. apply prime_alt. split; [done|].
  intros d Hd1 [q Hq]. destruct (Z_lt_ge_dec d i) as [|Hge].
  - apply (Hd d); [lia|]. by exists q.
  - apply (Hd q); [nia|]. exists d. lia.
Qed.

Lemma divisor_not_prime n d : 1 < d < n -> (d | n) -> ~ prime n.
Proof. intros Hd Hn [_ Hp]%prime_alt. by apply (Hp d). Qed.

(** The candidates of the trial division: [i] and [i + 2] for [i = 5 mod 6]. *)
Lemma no_divisor_step n i :
  i mod 6 = 5 -> ~ (2 | n) -> ~ (3 | n) -> no_divisor_below n i ->
  ~ (i | n) -> ~ (i + 2 | n) -> no_divisor_below n (i + 6).
Proof.
  intros Hi H2 H3 Hd Hi0 Hi2 d Hr Hdn.
  destruct (Z_lt_ge_dec d i) as [|Hge]; [by apply (Hd d); [lia|]|].
  assert (i = 6 * (i / 6) + 5) as Ei by (pose proof (Z.div_mod i 6); lia).
  assert (d = i \/ d = i + 2 \/ d = i + 1 \/ d = i + 3 \/ d = i + 5 \/ d = i + 4)
    as [->|[->|[->|[->|[->| ->]]]]] by lia; try done.
  - apply H2. eapply Z.divide_trans; [|exact Hdn]. exists (3 * (i / 6) + 3). lia.
  - apply H2. eapply Z.divide_trans; [|exact Hdn]. exists (3 * (i / 6) + 4). lia.
  - apply H2. eapply Z.divide_trans; [|exact Hdn]. exists (3 * (i / 6) + 5). lia.
  - apply H3. eapply Z.divide_trans; [|exact Hdn]. exists (2 * (i / 6) + 3). lia.
Qed.

Lemma IsPrime_turn_spec n i :
  1 < n < prime_bound -> ~ (2 | n) -> ~ (3 | n) ->
  5 <= i <= Z.sqrt n + 6 -> i mod 6 = 5 -> no_divisor_below n i ->
  exists x, IsPrime_turn n i = Some x /\
  match x with
  | inl j => (5 <= j <= Z.sqrt n + 6 /\ j mod 6 = 5 /\ no_divisor_below n j) /\ i < j
  | inr r => (r = 1 /\ prime n) \/ (r = 0 /\ ~ prime n)
  end.
Proof.
  intros Hn H2 H3 Hi Hi6 Hd. unfold prime_bound in Hn.
  assert (Z.sqrt n < 2 ^ 32 - 5) by (apply Z.sqrt_lt_square; lia).
  pose proof (Z.sqrt_spec n ltac:(lia)) as Hs.
  assert (i < 2 ^ 32) as Hi32.
  { pose proof (Z.div_mod i 6). lia. }
  unfold IsPrime_turn. rewrite (size_t_id (i * i)) by nia.
  destruct (i * i <=? n) eqn:Ei; bprop.
  - assert (i <= Z.sqrt n) by (apply Z.sqrt_le_square; lia).
    rewrite !(size_t_id (i + _)) by lia.
    rewrite (proj2 (Z.eqb_neq i 0)), (proj2 (Z.eqb_neq (i + 2) 0)) by lia. cbn [orb].
    destruct (0 =? n mod i) eqn:E1.
    { exists (inr 0). split; [done|]. right. split; [done|].
      apply mod_zero_divide in E1; [|lia]. eapply divisor_not_prime; [|exact E1]. nia. }
    destruct (0 =? n mod (i + 2)) eqn:E2; cbn [orb].
    { exists (inr 0). split; [done|]. right. split; [done|].
      apply mod_zero_divide in E2; [|lia]. eapply divisor_not_prime; [|exact E2]. nia. }
    apply mod_nonzero_not_divide in E1; [|lia]. apply mod_nonzero_not_divide in E2; [|lia].
    exists (inl (i + 6)). split; [done|]. split; [|lia]. split; [lia|]. split; [|by apply no_divisor_step].
    rewrite <-Hi6. replace (i + 6) with (i + 1 * 6) by lia. apply Z.mod_add. lia.
  - exists (inr 1). split; [done|]. left. split; [done|]. apply (no_divisor_prime n i); (lia || done).
Qed.

Lemma no_divisor_5 n : ~ (2 | n) -> ~ (3 | n) -> no_divisor_below n 5.
Proof.
  intros H2 H3 d Hd Hn. assert (d = 2 \/ d = 3 \/ d = 4) as [->|[->| ->]] by lia; try done.
  apply H2. eapply Z.divide_trans; [|exact Hn]. by exists 2.
Qed.

Lemma IsPrime_spec n : 0 <= n < prime_bound ->
  exists r, IsPrime n = Some r /\ ((r = 1 /\ prime n) \/ (r = 0 /\ ~ prime n)).
Proof.
  intros Hn. unfold IsPrime.
  destruct (n <=? 1) eqn:E1; bprop.
  { exists 0. split; [done|]. right. split; [done|]. intros []. lia. }
  destruct (2 =? n) eqn:E2; bprop.
  { subst. exists 1. split; [done|]. left. split; [done|]. apply prime_alt. split; [lia|]. lia. }
  destruct (3 =? n) eqn:E3; bprop.
  { subst. exists 1. split; [done|]. left. split; [done|]. apply prime_alt. split; [lia|].
    intros d Hd [q Hq]. assert (d = 2) as -> by lia. lia. }
  cbn [orb].
  destruct (0 =? n mod 2) eqn:D2.
  { exists 0. split; [done|]. right. split; [done|].
    apply mod_zero_divide in D2; [|lia]. eapply divisor_not_prime; [|exact D2]. lia. }
  destruct (0 =? n mod 3) eqn:D3; cbn [orb].
  { exists 0. split; [done|]. right. split; [done|].
    apply mod_zero_divide in D3; [|lia]. eapply divisor_not_prime; [|exact D3]. lia. }
  apply mod_nonzero_not_divide in D2; [|lia]. apply mod_nonzero_not_divide in D3; [|lia].
  assert (2 <= Z.sqrt n) by (apply Z.sqrt_le_square; lia).
  assert (Z.sqrt n <= n) by (apply Z.sqrt_le_lin; lia).
  apply (run_turns_spec (fun i => 5 <= i <= Z.sqrt n + 6 /\ i mod 6 = 5 /\ no_divisor_below n i)
    (fun i => Z.sqrt n + 6 - i)).
  - intros i (Hi & Hi6 & Hd). destruct (IsPrime_turn_spec n i) as (x & E & Hx); [lia|done..|].
    exists x. split; [done|]. destruct x; [|done]. destruct Hx as [Hj ?]. split; [done|lia].
  - split; [lia|]. split; [done|by apply no_divisor_5].
  - assert (prime_bound + 6 < 2 ^ 64) by by vm_compute. lia.
Qed.

Lemma GetNextPrime_spec n p :
  0 <= n -> n <= p < prime_bound -> prime p ->
  (forall q, n <= q < p -> ~ prime q) -> GetNextPrime n = Some p.
Proof.
  intros Hn Hp Hprime Hleast. assert (prime_bound < 2 ^ 64) by by vm_compute.
  enough (exists r, GetNextPrime n = Some r /\ r = p) as (r & -> & ->) by done. unfold GetNextPrime.
  apply (run_turns_spec (fun i => n <= i <= p) (fun i => p - i)); [|lia|lia].
  intros i Hi. unfold GetNextPrime_turn. destruct (IsPrime_spec i) as (r & -> & Hr); [lia|]. cbn [mbind option_bind].
  eexists. split; [done|]. destruct (decide (i = p)) as [->|Hne].
  - by destruct Hr as [[-> _]|[_ ?]].
  - destruct Hr as [[_ Hip]|[-> _]]; [by destruct (Hleast i); [lia|]|]. cbn [Z.eqb]. rewrite size_t_id by lia. lia.
Qed.

(** ** The interface to keys

    What the map relies on of the two functions it is created with: a hash is a
    [size_t], and the equality function decides equality of keys. *)
Class HashKey {K : Type} (hash : K -> Z) (eqf : K -> K -> Z) : Prop := {
  hash_range : forall k, 0 <= hash k < 2 ^ 64;
  keys_equal : forall a b, eqf a b <> 0 <-> a = b
}.

(** ** The finite map a hash map represents *)

Section representation.
Context {K V : Type} `{Countable K}.

Abbreviation KVP := (KeyValuePair K V).

Definition as_pair (kv : KVP) : K * V := (key kv, value kv).

(** The pairs of a bucket, in list order; a bucket not yet allocated has none. *)
Definition bucket_rep (b : ptr (List KVP)) (row : list KVP) : Prop :=
  match b with
  | None => row = []
  | Some l => exists xs, dl_rep l xs /\ xs.*2 = Some <$> row
  end.

Definition home (h : HashMap K V) (k : K) : nat :=
  Z.to_nat (hashFunc h k mod capacity h).

Record rows_rep (h : HashMap K V) (rows : list (list KVP)) : Prop := {
  rr_buckets : Forall2 bucket_rep (buckets h) rows;
  rr_capacity : capacity h = Z.of_nat (length (buckets h));
  rr_positive : 0 < capacity h < 2 ^ 64;
  rr_home : forall i row kv, rows !! i = Some row -> kv ∈ row -> i = home h (key kv);
  rr_nodup : NoDup (key <$> concat rows);
  rr_size : hm_size h = size_t (Z.of_nat (length (concat rows)))
}.

Definition hm_rep (h : HashMap K V) (g : gmap K V) : Prop :=
  HashKey (hashFunc h) (keysEqualFunc h) /\
  exists rows, rows_rep h rows /\ map_to_list g ≡ₚ as_pair <$> concat rows.

(** The heap blocks of a map: the structure, the bucket array, the lists of
    the buckets that were allocated, and a node and a pair per entry. *)
Definition some_list {A} (b : option A) : Z := match b with Some _ => 1 | None => 0 end.
Definition lists_of (h : HashMap K V) : Z := zsum some_list (buckets h).
Definition blocks (h : HashMap K V) (g : gmap K V) : Z :=
  2 + lists_of h + 2 * Z.of_nat (size g).

(** ** Rows *)

Lemma concat_split {A} (rows : list (list A)) i row :
  rows !! i = Some row -> concat rows ≡ₚ row ++ concat (delete i rows).
Proof.
  revert i. induction rows as [|r rows IH]; intros [|i]; cbn; try done.
  - by intros [= ->].
  - intros Hi. rewrite (IH i Hi). by rewrite Permutation_app_swap_app.
Qed.

Lemma concat_replace {A} (rows : list (list A)) i row row' :
  rows !! i = Some row -> concat (<[i := row']> rows) ≡ₚ row' ++ concat (delete i rows).
Proof.
  revert i. induction rows as [|r rows IH]; intros [|i]; cbn; try done.
  intros Hi. rewrite (IH i Hi). by rewrite Permutation_app_swap_app.
Qed.

Lemma rep_lookup h g k : hm_rep h g ->
  exists rows row, rows_rep h rows /\ map_to_list g ≡ₚ as_pair <$> concat rows /\
    rows !! home h k = Some row /\ (home h k < length (buckets h))%nat /\
    GetBucketIndex (Some h) (Some k) = Some (Z.of_nat (home h k)) /\
    forall v, g !! k = Some v <-> MkPair k v ∈ row.
Proof.
  intros [HK (rows & R & P)]. destruct (rr_positive _ _ R) as [Hpos _].
  pose proof (Z.mod_pos_bound (hashFunc h k) (capacity h) Hpos) as Hb.
  assert (home h k < length (buckets h))%nat as Hlt.
  { unfold home. rewrite (rr_capacity _ _ R) in *. lia. }
  pose proof (Forall2_length _ _ _ (rr_buckets _ _ R)) as Hlen.
  destruct (lookup_lt_is_Some_2 rows (home h k)) as [row Hrow]; [lia|].
  exists rows, row. repeat (split; [done|]). split.
  { unfold GetBucketIndex. rewrite (proj2 (Z.eqb_neq _ _)) by lia.
    unfold home. by rewrite Z2Nat.id by lia. }
  intros v. rewrite <-elem_of_map_to_list, P, list_elem_of_fmap. split.
  - intros ([k' v'] & [= -> ->] & Hin).
    apply list_elem_of_In, in_concat in Hin as (row' & Hr' & Hin').
    apply list_elem_of_In in Hr'. apply list_elem_of_In in Hin'.
    apply list_elem_of_lookup in Hr' as [i Hi].
    pose proof (rr_home _ _ R _ _ _ Hi Hin'). cbn in *. subst. congruence.
  - intros Hin. exists (MkPair k v). split; [done|].
    apply list_elem_of_In, in_concat. exists row.
    split; apply list_elem_of_In; [by eapply list_elem_of_lookup_2|done].
Qed.

Lemma rep_row_NoDup h rows i row :
  rows_rep h rows -> rows !! i = Some row -> NoDup (key <$> row).
Proof.
  intros R Hi. pose proof (rr_nodup _ _ R) as N.
  rewrite (concat_split rows i row Hi), fmap_app in N. by apply NoDup_app in N as [N _].
Qed.

Lemma bucket_get_home (h : HashMap K V) i : bucket_get h (Z.of_nat i) = buckets h !! i.
Proof. unfold bucket_get. rewrite (proj2 (Z.leb_le _ _)) by lia. by rewrite Nat2Z.id. Qed.

Lemma bucket_set_home (h : HashMap K V) i b : (i < length (buckets h))%nat ->
  bucket_set h (Z.of_nat i) b
  = Some (MkHashMap (<[i := b]> (buckets h)) (capacity h) (hm_size h) (hashFunc h) (keysEqualFunc h)).
Proof.
  intros Hi. unfold bucket_set. rewrite (proj2 (Z.leb_le _ _)), (proj2 (Z.ltb_lt _ _)) by lia.
  cbn. by rewrite Nat2Z.id.
Qed.

(** ** Searching a bucket *)

Definition has_key (k : K) (y : loc * ptr KVP) : Prop := key <$> y.2 = Some k.
#[local] Instance has_key_dec k y : Decision (has_key k y).
Proof. unfold has_key. apply _. Defined.

Lemma FindInList_loop_spec (l : List KVP) ef k out xs1 xs2 fuel hf `{!HashKey hf ef} :
  dl_rep l (xs1 ++ xs2) -> (length xs2 <= fuel)%nat ->
  FindInList_loop fuel (Some l) k ef out (Some (begin_of xs2)) (Some sentinel)
  = Some (match list_find (has_key k) xs2 with
          | Some (_, (p, d)) => (d, match out with Some _ => Some (Some p) | None => NULL end)
          | None => (NULL, out)
          end).
Proof.
  revert xs1 fuel. induction xs2 as [|[p d] xs2 IH]; intros xs1 fuel Hl Hf.
  { by destruct fuel. }
  destruct fuel as [|fuel]; [cbn in Hf; lia|]. cbn [FindInList_loop begin_of].
  rewrite decide_False by (by eapply begin_ne_sent).
  rewrite (rep_get _ _ _ _ _ Hl), (rep_next_itr _ _ _ _ _ Hl). cbn [mbind option_bind].
  cbn [list_find]. unfold has_key at 2. cbn [snd].
  assert ((match d with Some kv => negb (ef k (key kv) =? 0) | None => false end) = true
          <-> key <$> d = Some k) as Hk.
  { destruct d as [kv|]; [|done]. rewrite negb_true_iff, Z.eqb_neq, keys_equal. cbn.
    split; [by intros ->|]. by intros [= ->]. }
  destruct (match d with Some kv => _ | None => _ end) eqn:E.
  - rewrite decide_True by tauto. done.
  - rewrite decide_False by (intros ?; assert (false = true) by tauto; done).
    rewrite (IH (xs1 ++ [(p, d)])); [|by rewrite <-app_assoc|cbn in Hf; lia].
    by destruct (list_find _ xs2) as [[? []]|].
Qed.

(** The three outcomes of a search. *)
Lemma FindInList_spec l xs (row : list KVP) k ef out hf `{!HashKey hf ef} :
  dl_rep l xs -> xs.*2 = Some <$> row ->
  match FindInList (Some l) k ef out with
  | Some (Some kv, out') => key kv = k /\
      exists xs1 p xs2 row1 row2, xs = xs1 ++ (p, Some kv) :: xs2 /\ row = row1 ++ kv :: row2 /\
        xs1.*2 = Some <$> row1 /\ xs2.*2 = Some <$> row2 /\
        out' = (match out with Some _ => Some (Some p) | None => NULL end)
  | Some (None, out') => out' = out /\ k ∉ key <$> row
  | None => False
  end.
Proof.
  intros Hl Hrow. unfold FindInList. rewrite (rep_begin _ _ Hl). cbn [mbind option_bind ListItrEnd].
  rewrite (FindInList_loop_spec l ef k out [] xs _ hf Hl) by (rewrite (rep_size _ _ Hl); lia).
  destruct (list_find (has_key k) xs) as [[i [p d]]|] eqn:E.
  - apply list_find_Some in E as (Hi & Hk & _). unfold has_key in Hk. cbn in Hk.
    destruct d as [kv|]; [|done]. cbn in Hk. injection Hk as Hk.
    apply list_elem_of_split_length in Hi as (xs1 & xs2 & -> & ->).
    rewrite fmap_app, fmap_cons in Hrow. symmetry in Hrow.
    apply fmap_app_inv in Hrow as (row1 & row2' & E1 & E2 & ->).
    destruct row2' as [|kv' row2]; [done|]. cbn in E2. injection E2 as -> E2.
    split; [done|]. exists xs1, p, xs2, row1, row2. done.
  - apply list_find_None in E. split; [done|]. intros (kv & Hk & Hin)%list_elem_of_fmap.
    assert (Some kv ∈ xs.*2) as (y & Hy & Hyin)%list_elem_of_fmap
      by (rewrite Hrow; by apply list_elem_of_fmap_2).
    rewrite Forall_forall in E. apply (E y Hyin). unfold has_key. rewrite <-Hy. cbn. by rewrite Hk.
Qed.

(** ** Replacing one bucket *)

Lemma rep_size_map (g : gmap K V) (kvs : list KVP) :
  map_to_list g ≡ₚ as_pair <$> kvs -> length kvs = size g.
Proof. intros P. by rewrite <-(length_fmap as_pair), <-P, length_map_to_list. Qed.

Lemma keys_NoDup (g : gmap K V) (kvs : list KVP) :
  map_to_list g ≡ₚ as_pair <$> kvs -> NoDup (key <$> kvs).
Proof.
  intros P. pose proof (NoDup_fst_map_to_list g) as N. rewrite P in N.
  by rewrite <-list_fmap_compose in N.
Qed.

Lemma rep_update h rows i row b' row' n (g' : gmap K V) :
  HashKey (hashFunc h) (keysEqualFunc h) -> rows_rep h rows -> rows !! i = Some row ->
  bucket_rep b' row' -> (forall kv, kv ∈ row' -> i = home h (key kv)) ->
  map_to_list g' ≡ₚ as_pair <$> row' ++ concat (delete i rows) ->
  n = size_t (Z.of_nat (size g')) ->
  hm_rep (MkHashMap (<[i := b']> (buckets h)) (capacity h) n (hashFunc h) (keysEqualFunc h)) g'.
Proof.
  intros HK R Hi Hb Hh P Hn. split; [done|]. exists (<[i := row']> rows).
  assert (map_to_list g' ≡ₚ as_pair <$> concat (<[i := row']> rows)) as P'.
  { by rewrite (concat_replace rows i row row'). }
  split; [|done]. constructor; cbn [buckets capacity hm_size].
  - apply Forall2_insert; [apply (rr_buckets _ _ R)|done].
  - rewrite length_insert. apply (rr_capacity _ _ R).
  - apply (rr_positive _ _ R).
  - intros j r kv Hj Hkv. destruct (decide (i = j)) as [<-|].
    + rewrite list_lookup_insert_eq in Hj by (by eapply lookup_lt_Some).
      injection Hj as <-. by apply Hh.
    + rewrite list_lookup_insert_ne in Hj by done. by eapply (rr_home _ _ R).
  - by apply (keys_NoDup g').
  - by rewrite (rep_size_map g' _ P').
Qed.

(** ** The operations *)

Lemma rep_Find h g k out : hm_rep h g ->
  HashMap_Find (Some h) (Some k) out
  = Some (match g !! k with
          | Some v => (MAP_SUCCESS, match out with Some _ => Some v | None => NULL end)
          | None => (MAP_KEY_NOT_FOUND_ERROR, out)
          end).
Proof.
  intros Hr. destruct (rep_lookup h g k Hr) as (rows & row & R & P & Hrow & Hlt & Hix & Hg).
  destruct Hr as [HK _]. cbn [HashMap_Find]. rewrite Hix. cbn [mbind option_bind].
  rewrite bucket_get_home.
  destruct (Forall2_lookup_r _ _ _ _ _ (rr_buckets _ _ R) Hrow) as (b & Hb & Hbr).
  rewrite Hb. cbn [mbind option_bind].
  destruct b as [l|]; cbn in Hbr.
  - destruct Hbr as (xs & Hl & Hx).
    pose proof (FindInList_spec l xs row k (keysEqualFunc h) NULL (hashFunc h) Hl Hx) as F.
    destruct (FindInList (Some l) k (keysEqualFunc h) NULL) as [[[kv|] out']|]; [| |done].
    + destruct F as (Hk & xs1 & p & xs2 & row1 & row2 & _ & Hr2 & _).
      cbn. assert (g !! k = Some (value kv)) as ->; [|done]. apply Hg. rewrite Hr2, <-Hk.
      destruct kv. apply elem_of_app. right. apply elem_of_cons. by left.
    + destruct F as [_ Hk]. cbn. destruct (g !! k) as [v|] eqn:E; [|done].
      exfalso. apply Hk, list_elem_of_fmap. exists (MkPair k v). split; [done|]. by apply Hg.
  - destruct (g !! k) as [v|] eqn:E; [|done]. pose proof (proj1 (Hg v) eq_refl) as Hin.
    rewrite Hbr in Hin. by apply elem_of_nil in Hin.
Qed.

(** The part of [HashMap_Insert] after the bucket is known. *)
Definition push_pair (h : HashMap K V) (index : Z) (k : K) (_value : V)
  : M (Map_Result * ptr (HashMap K V)) :=
  kvp ← CreateKeyValuePair k _value;
  match kvp with
  | None => mret (MAP_ALLOCATION_ERROR, Some h)
  | Some _ =>
      b ← lift (bucket_get h index);
      '(itr, b) ← ListPushTail b kvp;
      h ← lift (bucket_set h index b);
      match itr with
      | None => DestroyKeyValuePair kvp;; mret (MAP_ALLOCATION_ERROR, Some h)
      | Some _ => mret (MAP_SUCCESS, Some (with_size h (size_t (hm_size h + 1))))
      end
  end.

Lemma rep_hm_size h g : hm_rep h g -> hm_size h = size_t (Z.of_nat (size g)).
Proof. intros [_ (rows & R & P)]. by rewrite (rr_size _ _ R), (rep_size_map g _ P). Qed.

Lemma size_t_add_l a b : size_t (size_t a + b) = size_t (a + b).
Proof. unfold size_t. by rewrite Zplus_mod_idemp_l. Qed.

Lemma blocks_update (h : HashMap K V) i b b' n g g' : buckets h !! i = Some b ->
  blocks (MkHashMap (<[i := b']> (buckets h)) (capacity h) n (hashFunc h) (keysEqualFunc h)) g'
  = blocks h g - some_list b + some_list b' + 2 * Z.of_nat (size g') - 2 * Z.of_nat (size g).
Proof.
  intros Hi. unfold blocks, lists_of. cbn [buckets]. rewrite (zsum_insert _ _ _ _ _ Hi). lia.
Qed.

(** The result of [HashMap_Insert] when the key is new. *)
Definition inserted h g k v m (o : option (Map_Result * ptr (HashMap K V) * mem)) : Prop :=
  exists r h' m', o = Some ((r, Some h'), m') /\
  (if decide (r = MAP_SUCCESS)
   then hm_rep h' (<[k := v]> g) /\ live m' = live m + blocks h' (<[k := v]> g) - blocks h g
   else r = MAP_ALLOCATION_ERROR /\ hm_rep h' g /\ live m' = live m + blocks h' g - blocks h g) /\
  (alloc_ok m -> r = MAP_SUCCESS /\ alloc_ok m').

Lemma create_pair_spec k v m : exists r m', CreateKeyValuePair k v m = Some (r, m') /\
  match r with
  | Some kv => kv = MkPair (K := K) (V := V) k v /\ live m' = live m + 1
  | None => live m' = live m
  end /\ (alloc_ok m -> r <> None /\ alloc_ok m').
Proof.
  unfold CreateKeyValuePair. destruct (malloc_inv m) as (b & m1 & E & L & O). mrun E.
  exists (if b then Some (MkPair k v) else None), m1. split; [done|].
  destruct b; (split; [done|]); intros Ho; by destruct (O Ho).
Qed.

Lemma rep_push_pair h g k v l m :
  hm_rep h g -> g !! k = None -> buckets h !! home h k = Some (Some l) ->
  inserted h g k v m (push_pair h (Z.of_nat (home h k)) k v m).
Proof.
  intros Hr Hk Hb. unfold push_pair, inserted.
  destruct (rep_lookup h g k Hr) as (rows & row & R & P & Hrow & Hlt & Hix & Hg).
  destruct (Forall2_lookup_lr _ _ _ _ _ _ (rr_buckets _ _ R) Hb Hrow) as (xs & Hl & Hx).
  destruct (create_pair_spec k v m) as ([kv|] & m1 & E & C1 & O1); mrun E; cycle 1.
  { exists MAP_ALLOCATION_ERROR, h, m1. split; [done|].
    rewrite decide_False by done. split; [split; [done|split; [done|lia]]|].
    intros Ho. by destruct (O1 Ho). }
  destruct C1 as [-> L1]. rewrite bucket_get_home, Hb. mlift.
  destruct (rep_push_tail l xs (Some (MkPair k v)) m1 Hl) as (a & l' & m2 & E2 & R2 & O2).
  mrun E2. rewrite bucket_set_home by done. mlift.
  destruct a as [a|].
  - destruct R2 as [Hl' L2]. eexists MAP_SUCCESS, _, m2. split; [done|].
    rewrite decide_True by done. unfold with_size. cbn [buckets capacity hm_size hashFunc keysEqualFunc].
    rewrite (blocks_update h _ (Some l) _ _ g) by done. rewrite map_size_insert_None by done.
    cbn [some_list]. split; [split|].
    + eapply (rep_update h rows (home h k) row (Some l') (row ++ [MkPair k v])); try done.
      * by destruct Hr.
      * exists (xs ++ [(a, Some (MkPair k v))]). split; [done|]. by rewrite !fmap_app, Hx.
      * intros kv [Hin|Hin]%elem_of_app; [by eapply (rr_home _ _ R)|].
        by apply list_elem_of_singleton in Hin as ->.
      * rewrite map_to_list_insert, P, (concat_split _ _ _ Hrow) by done.
        rewrite <-app_assoc. rewrite (Permutation_app_swap_app row [_]). done.
      * rewrite (rep_hm_size h g Hr), size_t_add_l, map_size_insert_None by done. f_equal. lia.
    + lia.
    + intros Ho. destruct (O1 Ho) as [_ O1']. destruct (O2 O1'). done.
  - destruct R2 as [-> L2]. cbn [DestroyKeyValuePair]. mfree.
    eexists MAP_ALLOCATION_ERROR, _, _. split; [done|].
    rewrite decide_False by done.
    rewrite (blocks_update h _ (Some l) _ _ g) by done. cbn [some_list live].
    split; [split; [done|split; [|lia]]|].
    + rewrite list_insert_id by done. by destruct h.
    + intros Ho. destruct (O1 Ho) as [_ O1']. by destruct (O2 O1').
Qed.

Lemma rep_Insert h g k v m : hm_rep h g ->
  match g !! k with
  | Some _ => HashMap_Insert (Some h) (Some k) v m = Some ((MAP_KEY_DUPLICATE_ERROR, Some h), m)
  | None => inserted h g k v m (HashMap_Insert (Some h) (Some k) v m)
  end.
Proof.
  intros Hr. destruct (rep_lookup h g k Hr) as (rows & row & R & P & Hrow & Hlt & Hix & Hg).
  pose proof (rep_hm_size h g Hr) as Hsz.
  destruct (Forall2_lookup_r _ _ _ _ _ (rr_buckets _ _ R) Hrow) as (b & Hb & Hbr).
  cbn [HashMap_Insert]. rewrite Hix. mlift. rewrite bucket_get_home, Hb. mlift.
  pose proof (proj1 Hr) as HK.
  destruct b as [l|]; cbn in Hbr.
  - destruct Hbr as (xs & Hl & Hx).
    pose proof (FindInList_spec l xs row k (keysEqualFunc h) (Some NULL) (hashFunc h) Hl Hx) as F.
    destruct (FindInList (Some l) k (keysEqualFunc h) (Some NULL)) as [[[kv|] out']|]; [| |done].
    + destruct F as (Hk & xs1 & p & xs2 & row1 & row2 & _ & Hr2 & _).
      assert (g !! k = Some (value kv)) as ->; [|done].
      apply Hg. rewrite Hr2, <-Hk. destruct kv. apply elem_of_app. right. apply elem_of_cons. by left.
    + destruct F as [_ Hk]. assert (g !! k = None) as Hn.
      { destruct (g !! k) as [w|] eqn:E; [|done]. exfalso. apply Hk, list_elem_of_fmap.
        exists (MkPair k w). split; [done|]. by apply Hg. }
      rewrite Hn. by apply (rep_push_pair h g k v l m).
  - subst row. assert (g !! k = None) as Hn.
    { destruct (g !! k) as [w|] eqn:E; [|done].
      pose proof (proj1 (Hg w) eq_refl) as Hin. by apply elem_of_nil in Hin. }
    rewrite Hn. destruct (rep_create_list (A := KVP) m) as (nb & m1 & E & C1 & O1).
    rewrite (M_bind_Some _ _ m (match nb with None => Some MAP_ALLOCATION_ERROR | Some _ => None end,
      MkHashMap (<[home h k := nb]> (buckets h)) (capacity h) (hm_size h) (hashFunc h) (keysEqualFunc h)) m1)
      by (mrun E; by rewrite bucket_set_home).
    set (h1 := MkHashMap _ _ _ _ _).
    assert (hm_rep h1 g) as Hr1.
    { eapply (rep_update h rows _ [] nb []); try done.
      - destruct nb as [l|]; [|done]. exists []. by destruct C1.
      - intros kv Hin. by apply elem_of_nil in Hin.
      - by rewrite P, (concat_split _ _ _ Hrow). }
    assert (blocks h1 g = blocks h g + some_list nb) as Bl.
    { unfold h1. rewrite (blocks_update h _ None _ _ g) by done. cbn [some_list]. lia. }
    destruct nb as [l|]; cbn [some_list] in Bl.
    + destruct C1 as [Hl L1].
      destruct (rep_push_pair h1 g k v l m1 Hr1 Hn) as (r & h' & m' & E' & Hc & O').
      { by apply list_lookup_insert_eq. }
      exists r, h', m'. split; [exact E'|]. split.
      * case_decide; [|]; [destruct Hc as [??]|destruct Hc as (?&?&?)]; repeat (split; [done|]); lia.
      * intros Ho. destruct (O1 Ho) as [_ Ho1]. by apply O'.
    + exists MAP_ALLOCATION_ERROR, h1, m1. split; [done|]. rewrite decide_False by done.
      split; [split; [done|split; [done|lia]]|]. intros Ho. by destruct (O1 Ho).
Qed.

(** [HashMap_Remove] frees the node and the pair and hands key and value out. *)
Lemma rep_Remove h g k pk pv m : hm_rep h g ->
  match g !! k with
  | None => HashMap_Remove (Some h) (Some k) pk pv m
            = Some ((MAP_KEY_NOT_FOUND_ERROR, pk, pv, Some h), m)
  | Some v => exists h', hm_rep h' (delete k g) /\
      blocks h' (delete k g) = blocks h g - 2 /\
      HashMap_Remove (Some h) (Some k) pk pv m
      = Some ((MAP_SUCCESS, match pk with Some _ => Some (Some k) | None => NULL end,
               match pv with Some _ => Some v | None => NULL end, Some h'),
              Mem (plan m) (live m - 2))
  end.
Proof.
  intros Hr. destruct (rep_lookup h g k Hr) as (rows & row & R & P & Hrow & Hlt & Hix & Hg).
  pose proof (rep_hm_size h g Hr) as Hsz. pose proof (proj1 Hr) as HK.
  destruct (Forall2_lookup_r _ _ _ _ _ (rr_buckets _ _ R) Hrow) as (b & Hb & Hbr).
  cbn [HashMap_Remove]. rewrite Hix. mlift. rewrite bucket_get_home, Hb. mlift.
  destruct b as [l|]; cbn in Hbr; cycle 1.
  { destruct (g !! k) as [v|] eqn:E; [|done]. pose proof (proj1 (Hg v) eq_refl) as Hin.
    rewrite Hbr in Hin. by apply elem_of_nil in Hin. }
  destruct Hbr as (xs & Hl & Hx).
  pose proof (FindInList_spec l xs row k (keysEqualFunc h) (Some NULL) (hashFunc h) Hl Hx) as F.
  destruct (FindInList (Some l) k (keysEqualFunc h) (Some NULL)) as [[[kv|] out']|]; [| |done].
  - destruct F as (<- & xs1 & p & xs2 & row1 & row2 & -> & -> & Hx1 & Hx2 & ->).
    assert (g !! key kv = Some (value kv)) as Hk.
    { apply Hg. destruct kv. apply elem_of_app. right. apply elem_of_cons. by left. }
    rewrite Hk. mlift. mlift.
    destruct (rep_remove_itr l xs1 p (Some kv) xs2 m Hl) as (l' & Hl' & E).
    mrun E. rewrite bucket_set_home by done. mlift. cbn [DestroyKeyValuePair]. mfree.
    eexists. split; [|split; [|cbn [plan live]; by replace (live m - 1 - 1) with (live m - 2) by lia]].
    + eapply (rep_update h rows _ _ (Some l') (row1 ++ row2)); try done.
      * exists (xs1 ++ xs2). split; [done|]. by rewrite !fmap_app, Hx1, Hx2.
      * intros kv' Hin. eapply (rr_home _ _ R); [done|].
        apply elem_of_app in Hin as [?|?]; apply elem_of_app; [by left|].
        right. apply elem_of_cons. by right.
      * pose proof (map_to_list_delete g _ _ Hk) as Pd.
        rewrite P, (concat_split _ _ _ Hrow), <-app_assoc in Pd. cbn [app] in Pd.
        rewrite fmap_app, fmap_cons, <-Permutation_middle in Pd.
        apply Permutation_cons_inv in Pd. by rewrite Pd, <-fmap_app, app_assoc.
      * cbn [hm_size]. rewrite Hsz, map_size_delete_Some by done. unfold size_t.
        rewrite Zminus_mod_idemp_l. f_equal.
        assert (size g <> 0)%nat by (by apply map_size_non_empty_iff; intros ->).
        lia.
    + unfold with_size. cbn [buckets capacity hm_size hashFunc keysEqualFunc].
      rewrite (blocks_update h _ (Some l) _ _ g) by done.
      rewrite map_size_delete_Some by done. cbn [some_list].
      assert (size g <> 0)%nat by (by apply map_size_non_empty_iff; intros ->). lia.
  - destruct F as [_ Hk]. assert (g !! k = None) as ->; [|by mlift].
    destruct (g !! k) as [w|] eqn:E; [|done]. exfalso. apply Hk, list_elem_of_fmap.
    exists (MkPair k w). split; [done|]. by apply Hg.
Qed.

Lemma rep_Size h g : hm_rep h g -> HashMap_Size (Some h) = size_t (Z.of_nat (size g)).
Proof. apply rep_hm_size. Qed.

(** A map created with a capacity whose next prime is [p]. *)
Lemma rep_Create cap p hf ef m `{!HashKey hf ef} :
  cap <> 0 -> 0 < p < 2 ^ 64 -> GetNextPrime cap = Some p ->
  exists r m', HashMap_Create cap (Some hf) (Some ef) m = Some (r, m') /\
  match r with
  | Some h => hm_rep h ∅ /\ live m' = live m + blocks h ∅ /\ capacity h = p
  | None => live m' = live m
  end /\ (alloc_ok m -> r <> None /\ alloc_ok m').
Proof.
  intros Hcap Hp E. unfold HashMap_Create. rewrite (proj2 (Z.eqb_neq 0 cap)) by lia.
  destruct (malloc_inv m) as (b1 & m1 & E1 & L1 & O1). mrun E1. destruct b1; cbn [negb]; cycle 1.
  { exists NULL, m1. split; [done|]. split; [done|]. intros Ho. by destruct (O1 Ho). }
  rewrite E. mlift.
  destruct (malloc_inv m1) as (b2 & m2 & E2 & L2 & O2). mrun E2. destruct b2; cbn [negb]; cycle 1.
  { mfree. eexists NULL, _. split; [done|]. split; [cbn [live]; lia|].
    intros Ho. destruct (O1 Ho) as [_ Ho1]. by destruct (O2 Ho1). }
  eexists (Some _), m2. split; [done|]. split; [split; [split; [done|]|split; [|done]]|].
  - exists (replicate (Z.to_nat p) []). cbn [buckets capacity hm_size hashFunc keysEqualFunc].
    assert (concat (replicate (Z.to_nat p) (A := list KVP) []) = []) as Ec.
    { induction (Z.to_nat p) as [|n IH]; [done|]. cbn. by rewrite IH. }
    split; [|by rewrite Ec, map_to_list_empty]. constructor; cbn [buckets capacity hm_size hashFunc].
    + apply Forall2_same_length_lookup. rewrite !length_replicate. split; [done|].
      intros i b row [-> _]%lookup_replicate [-> _]%lookup_replicate. done.
    + rewrite length_replicate. lia.
    + done.
    + intros i row kv [-> _]%lookup_replicate Hin. by apply elem_of_nil in Hin.
    + rewrite Ec. constructor.
    + rewrite Ec. done.
  - unfold blocks, lists_of. cbn [buckets]. rewrite map_size_empty.
    assert (zsum some_list (replicate (Z.to_nat p) (None : ptr (List KVP))) = 0) as ->; [|lia].
    induction (Z.to_nat p) as [|n IH]; [done|]. cbn [replicate]. by rewrite zsum_cons, IH.
  - intros Ho. destruct (O1 Ho) as [_ Ho1]. by destruct (O2 Ho1).
Qed.

(** ** Iteration *)

(** What [HashMap_ForEach] does with the pairs in table order: the flag says
    that the action stopped the iteration. *)
Fixpoint visit {C : Type} (act : K -> V -> C -> Z * C) (kvs : list KVP) (count : Z) (c : C)
  : bool * Z * C :=
  match kvs with
  | [] => (false, count, c)
  | kv :: kvs =>
      let '(r, c) := act (key kv) (value kv) c in
      if 0 =? r then (true, size_t (count + 1), c) else visit act kvs (size_t (count + 1)) c
  end.

Lemma visit_app {C} (act : K -> V -> C -> Z * C) kvs1 kvs2 count c :
  visit act (kvs1 ++ kvs2) count c
  = match visit act kvs1 count c with
    | (true, n, c') => (true, n, c')
    | (false, n, c') => visit act kvs2 n c'
    end.
Proof.
  revert count c. induction kvs1 as [|kv kvs1 IH]; intros count c; cbn [visit app]; [done|].
  destruct (act (key kv) (value kv) c) as [r c']. destruct (0 =? r); [done|]. apply IH.
Qed.

Lemma foreach_bucket_spec {C} (act : K -> V -> C -> Z * C) l xs1 xs2 row2 fuel count c :
  dl_rep l (xs1 ++ xs2) -> xs2.*2 = Some <$> row2 -> (length xs2 <= fuel)%nat ->
  foreach_bucket fuel (Some l) act (Some (begin_of xs2)) (Some sentinel) count c
  = Some (visit act row2 count c).
Proof.
  revert xs1 row2 fuel count c.
  induction xs2 as [|[p d] xs2 IH]; intros xs1 row2 fuel count c Hl Hx Hf.
  { destruct row2; [|done]. by destruct fuel. }
  destruct row2 as [|kv row2]; [done|]. injection Hx as -> Hx.
  destruct fuel as [|fuel]; [cbn in Hf; lia|]. cbn [foreach_bucket begin_of visit].
  rewrite decide_False by (by eapply begin_ne_sent).
  rewrite (rep_get _ _ _ _ _ Hl), (rep_next_itr _ _ _ _ _ Hl). cbn [mbind option_bind].
  destruct (act (key kv) (value kv) c) as [r c']. destruct (0 =? r); [done|].
  apply (IH (xs1 ++ [(p, Some kv)])); [by rewrite <-app_assoc|done|cbn in Hf; lia].
Qed.

Lemma bucket_next h rows i : rows_rep h rows -> (i < length rows)%nat ->
  exists b row, bucket_get h (Z.of_nat i) = Some b /\ bucket_rep b row /\
    drop i rows = row :: drop (S i) rows /\ drop i (buckets h) = b :: drop (S i) (buckets h) /\
    (Z.of_nat i <? capacity h) = true /\ size_t (Z.of_nat i + 1) = Z.of_nat (S i).
Proof.
  intros R Hi. pose proof (Forall2_length _ _ _ (rr_buckets _ _ R)) as Hlen.
  destruct (lookup_lt_is_Some_2 rows i Hi) as [row Hrow].
  destruct (Forall2_lookup_r _ _ _ _ _ (rr_buckets _ _ R) Hrow) as (b & Hb & Hbr).
  pose proof (rr_positive _ _ R). pose proof (rr_capacity _ _ R).
  exists b, row. rewrite bucket_get_home. split; [done|]. split; [done|].
  split; [by apply drop_S|]. split; [by apply drop_S|].
  split; [apply Z.ltb_lt; lia|]. rewrite size_t_id; lia.
Qed.

Lemma ForEach_loop_spec {C} (act : K -> V -> C -> Z * C) h rows fuel i count c :
  rows_rep h rows -> length rows = (i + fuel)%nat ->
  ForEach_loop fuel h act (Z.of_nat i) count c
  = Some (let '(_, n, c') := visit act (concat (drop i rows)) count c in (n, c')).
Proof.
  intros R. pose proof (Forall2_length _ _ _ (rr_buckets _ _ R)) as Hlen.
  revert i count c. induction fuel as [|fuel IH]; intros i count c Hf.
  - rewrite drop_ge by lia. cbn. rewrite (proj2 (Z.ltb_ge _ _)); [done|].
    rewrite (rr_capacity _ _ R). lia.
  - destruct (bucket_next h rows i R) as (b & row & Hb & Hbr & Hd & _ & Hlt & Hs); [lia|].
    cbn [ForEach_loop]. rewrite Hlt, Hb, Hd, Hs. cbn [mbind option_bind concat].
    rewrite visit_app. destruct b as [l|]; cbn in Hbr.
    + destruct Hbr as (xs & Hl & Hx). rewrite (rep_begin _ _ Hl). cbn [mbind option_bind ListItrEnd].
      rewrite (foreach_bucket_spec act l [] xs row _ count c Hl Hx) by (rewrite (rep_size _ _ Hl); lia).
      cbn [mbind option_bind]. destruct (visit act row count c) as [[[] n] c']; [done|].
      apply IH. lia.
    + subst row. cbn [visit]. apply IH. lia.
Qed.

Lemma rep_ForEach {C} h g (act : K -> V -> C -> Z * C) c : hm_rep h g ->
  exists kvs, map_to_list g ≡ₚ as_pair <$> kvs /\
    HashMap_ForEach (Some h) (Some act) c
    = Some (let '(_, n, c') := visit act kvs 0 c in (n, c')).
Proof.
  intros [_ (rows & R & P)]. exists (concat rows). split; [done|].
  unfold HashMap_ForEach. apply (ForEach_loop_spec act h rows _ 0); [done|].
  rewrite (rr_capacity _ _ R), Nat2Z.id. symmetry. apply (Forall2_length _ _ _ (rr_buckets _ _ R)).
Qed.

(** ** Destruction *)

Section destroy.
Context {C : Type} (kd : ptr (K -> C -> M C)) (vd : ptr (V -> C -> M C)).

(** The callbacks of one pair. *)
Definition callbacks (kv : KVP) (c : C) : M C :=
  c ← match kd with Some f => f (key kv) c | None => mret c end;
  match vd with Some f => f (value kv) c | None => mret c end.

(** What the callbacks do: with [P kvs c] the pairs [kvs] can still be given
    to them, each one releasing [w] blocks. *)
Context (P : list KVP -> C -> Prop) (w : K * V -> Z).
Hypothesis callbacks_ok : forall kv rest c m, P (kv :: rest) c ->
  exists c' m', callbacks kv c m = Some (c', m') /\ P rest c' /\
    plan m' = plan m /\ live m' = live m - w (as_pair kv).

Lemma destroy_bucket_loop_spec l xs1 xs2 row2 rest fuel c m :
  dl_rep l (xs1 ++ xs2) -> xs2.*2 = Some <$> row2 -> (length xs2 <= fuel)%nat ->
  P (row2 ++ rest) c ->
  exists c' m', destroy_bucket_loop fuel (Some l) kd vd (Some (begin_of xs2)) (Some sentinel) c m
      = Some (c', m') /\ P rest c' /\ plan m' = plan m /\
    live m' = live m - zsum (w ∘ as_pair) row2 - Z.of_nat (length row2).
Proof.
  revert xs1 row2 fuel c m.
  induction xs2 as [|[p d] xs2 IH]; intros xs1 row2 fuel c m Hl Hx Hf HP.
  { destruct row2; [|done]. exists c, m. split; [by destruct fuel|]. cbn. repeat (split; [done|]). lia. }
  destruct row2 as [|kv row2]; [done|]. injection Hx as -> Hx.
  destruct fuel as [|fuel]; [cbn in Hf; lia|]. cbn [destroy_bucket_loop begin_of].
  rewrite decide_False by (by eapply begin_ne_sent).
  rewrite (rep_get _ _ _ _ _ Hl), (rep_next_itr _ _ _ _ _ Hl). mlift.
  destruct (callbacks_ok kv (row2 ++ rest) c m HP) as (c1 & m1 & E1 & P1 & Pl1 & L1).
  destruct (IH (xs1 ++ [(p, Some kv)]) row2 fuel c1 (Mem (plan m1) (live m1 - 1)))
    as (c2 & m2 & E2 & P2 & Pl2 & L2); [by rewrite <-app_assoc|done|cbn in Hf; lia|done|].
  cbn [plan live] in *. exists c2, m2.
  rewrite (M_bind_Some _ _ m c1 (Mem (plan m1) (live m1 - 1))).
  - mlift. split; [done|]. split; [done|]. split; [congruence|].
    rewrite zsum_cons. cbn [length compose] in *. unfold compose in *. lia.
  - unfold callbacks in E1. apply M_bind_inv in E1 as (c0 & m0 & Ea & Eb).
    mrun Ea. mrun Eb. by mfree.
Qed.

Lemma frees_spec {A} (xs : list (ptr A)) m :
  destroy_each NULL xs m = Some (tt, Mem (plan m) (live m - Z.of_nat (length xs))).
Proof.
  revert m. induction xs as [|x xs IH]; intros m; cbn [destroy_each length].
  - unfold mret, M_ret. destruct m. cbn. do 3 f_equal. lia.
  - mstep_ret. mfree. rewrite IH. cbn [plan live]. do 3 f_equal. lia.
Qed.

Lemma DestroySingleBucket_spec l xs row rest c m :
  dl_rep l xs -> xs.*2 = Some <$> row -> P (row ++ rest) c ->
  exists c' m', DestroySingleBucket (Some l) kd vd c m = Some (c', m') /\ P rest c' /\
    plan m' = plan m /\
    live m' = live m - zsum (w ∘ as_pair) row - 2 * Z.of_nat (length row) - 1.
Proof.
  intros Hl Hx HP. unfold DestroySingleBucket. rewrite (rep_begin _ _ Hl). mlift.
  destruct (destroy_bucket_loop_spec l [] xs row rest (size (nodes l)) c m Hl Hx)
    as (c1 & m1 & E1 & P1 & Pl1 & L1); [rewrite (rep_size _ _ Hl); lia|done|].
  cbn [ListItrEnd]. mrun E1.
  assert (ListDestroy (Some (Some l)) NULL m1
          = Some (Some NULL, Mem (plan m1) (live m1 - Z.of_nat (length row) - 1))) as E2.
  { rewrite (rep_ListDestroy _ _ _ _ Hl). rewrite (M_bind_Some _ _ _ _ _ (frees_spec _ _)). mfree.
    by rewrite Hx, length_fmap. }
  mrun E2. eexists c1, _. split; [done|]. cbn [plan live]. repeat (split; [done|]). lia.
Qed.

Lemma Destroy_loop_spec h rows fuel i c m :
  rows_rep h rows -> length rows = (i + fuel)%nat -> P (concat (drop i rows)) c ->
  exists c' m', Destroy_loop fuel h (Z.of_nat i) kd vd c m = Some (c', m') /\ P [] c' /\
    plan m' = plan m /\
    live m' = live m - zsum (w ∘ as_pair) (concat (drop i rows))
              - 2 * Z.of_nat (length (concat (drop i rows))) - zsum some_list (drop i (buckets h)).
Proof.
  intros R. pose proof (Forall2_length _ _ _ (rr_buckets _ _ R)) as Hlen.
  revert i c m. induction fuel as [|fuel IH]; intros i c m Hf HP.
  - rewrite !drop_ge in * by lia. cbn [Destroy_loop]. rewrite (proj2 (Z.ltb_ge _ _))
      by (rewrite (rr_capacity _ _ R); lia).
    exists c, m. repeat (split; [done|]). cbn. lia.
  - destruct (bucket_next h rows i R) as (b & row & Hb & Hbr & Hd & Hdb & Hlt & Hs); [lia|].
    rewrite Hd in HP. cbn [concat] in HP. cbn [Destroy_loop]. rewrite Hlt, Hb, Hs. mlift.
    rewrite Hd, Hdb. cbn [concat]. rewrite zsum_app, zsum_cons, length_app.
    destruct b as [l|]; cbn in Hbr; cbn [some_list].
    + destruct Hbr as (xs & Hl & Hx).
      destruct (DestroySingleBucket_spec l xs row _ c m Hl Hx HP) as (c1 & m1 & E1 & P1 & Pl1 & L1).
      mrun E1. destruct (IH (S i) c1 m1) as (c2 & m2 & E2 & P2 & Pl2 & L2); [lia|done|].
      exists c2, m2. split; [done|]. split; [done|]. split; [congruence|]. lia.
    + subst row. mstep_ret. destruct (IH (S i) c m) as (c2 & m2 & E2 & P2 & Pl2 & L2); [lia|done|].
      exists c2, m2. split; [done|]. split; [done|]. split; [congruence|]. cbn. lia.
Qed.

(** [HashMap_Destroy] gives every pair to the callbacks exactly once and
    releases every block of the map. *)
Lemma rep_Destroy h g c m : hm_rep h g ->
  (forall kvs, map_to_list g ≡ₚ as_pair <$> kvs -> P kvs c) ->
  exists c' m', HashMap_Destroy (Some (Some h)) kd vd c m = Some ((Some NULL, c'), m') /\
    P [] c' /\ plan m' = plan m /\ live m' = live m - blocks h g - zsum w (map_to_list g).
Proof.
  intros [_ (rows & R & Pm)] HP. unfold HashMap_Destroy.
  destruct (Destroy_loop_spec h rows (Z.to_nat (capacity h)) 0 c m R)
    as (c1 & m1 & E1 & P1 & Pl1 & L1).
  { rewrite (rr_capacity _ _ R), Nat2Z.id. symmetry. apply (Forall2_length _ _ _ (rr_buckets _ _ R)). }
  { by apply HP. }
  change (Z.of_nat 0) with 0 in E1. mrun E1. mfree. mfree. eexists c1, _. split; [done|].
  cbn [plan live]. split; [done|]. split; [done|]. rewrite Pm, zsum_fmap.
  unfold blocks, lists_of. rewrite <-(rep_size_map g _ Pm). rewrite !drop_0 in L1. lia.
Qed.

End destroy.

End representation.

(** ** Calls of a client, on the table and on a finite map *)

Section calls.
Context {K V : Type} `{Countable K}.

Inductive map_call := MInsert (k : K) (v : V) | MRemove (k : K) | MFind (k : K).

(** [d] is in the client's variable that receives a value. *)
Definition map_do (h : ptr (HashMap K V)) (d : V) (c : map_call)
  : M (Map_Result * V * ptr (HashMap K V)) :=
  match c with
  | MInsert k v => '(r, h) ← HashMap_Insert h (Some k) v; mret (r, d, h)
  | MRemove k => '(r, _, pv, h) ← HashMap_Remove h (Some k) NULL (Some d); mret (r, default d pv, h)
  | MFind k => '(r, pv) ← lift (HashMap_Find h (Some k) (Some d)); mret (r, default d pv, h)
  end.

Fixpoint map_run (h : ptr (HashMap K V)) (d : V) (cs : list map_call)
  : M (list (Map_Result * V) * ptr (HashMap K V)) :=
  match cs with
  | [] => mret ([], h)
  | c :: cs =>
      '(r, v, h) ← map_do h d c;
      '(rs, h) ← map_run h d cs;
      mret ((r, v) :: rs, h)
  end.

Definition gmap_do (g : gmap K V) (d : V) (c : map_call) : Map_Result * V * gmap K V :=
  match c with
  | MInsert k v =>
      match g !! k with
      | Some _ => (MAP_KEY_DUPLICATE_ERROR, d, g)
      | None => (MAP_SUCCESS, d, <[k := v]> g)
      end
  | MRemove k =>
      match g !! k with
      | Some v => (MAP_SUCCESS, v, delete k g)
      | None => (MAP_KEY_NOT_FOUND_ERROR, d, g)
      end
  | MFind k =>
      match g !! k with
      | Some v => (MAP_SUCCESS, v, g)
      | None => (MAP_KEY_NOT_FOUND_ERROR, d, g)
      end
  end.

Fixpoint gmap_run (g : gmap K V) (d : V) (cs : list map_call) : list (Map_Result * V) * gmap K V :=
  match cs with
  | [] => ([], g)
  | c :: cs =>
      let '(r, v, g) := gmap_do g d c in
      let '(rs, g) := gmap_run g d cs in ((r, v) :: rs, g)
  end.

Lemma rep_map_do h g d c m : hm_rep h g -> alloc_ok m ->
  exists h' m', map_do (Some h) d c m = Some ((fst (gmap_do g d c), Some h'), m') /\
    hm_rep h' (snd (gmap_do g d c)) /\ alloc_ok m' /\
    live m' - blocks h' (snd (gmap_do g d c)) = live m - blocks h g.
Proof.
  intros Hr Hm. destruct c as [k v|k|k]; cbn [map_do gmap_do].
  - pose proof (rep_Insert h g k v m Hr) as I. destruct (g !! k) as [w|].
    + mrun I. exists h, m. done.
    + destruct I as (r & h' & m' & E & Hc & Ho). destruct (Ho Hm) as [-> Hm'].
      rewrite decide_True in Hc by done. destruct Hc as [Hr' L]. mrun E.
      exists h', m'. repeat (split; [done|]). cbn [snd]. lia.
  - pose proof (rep_Remove h g k NULL (Some d) m Hr) as I. destruct (g !! k) as [w|].
    + destruct I as (h' & Hr' & Hb & E). mrun E. eexists h', _. split; [done|].
      split; [done|]. split; [done|]. cbn [live snd]. lia.
    + mrun I. exists h, m. done.
  - rewrite (rep_Find h g k (Some d) Hr). exists h, m.
    destruct (g !! k) as [w|]; mlift; done.
Qed.

Lemma rep_map_run h g d cs m : hm_rep h g -> alloc_ok m ->
  exists h' m', map_run (Some h) d cs m = Some ((fst (gmap_run g d cs), Some h'), m') /\
    hm_rep h' (snd (gmap_run g d cs)) /\ alloc_ok m' /\
    live m' - blocks h' (snd (gmap_run g d cs)) = live m - blocks h g.
Proof.
  revert h g m. induction cs as [|c cs IH]; intros h g m Hr Hm.
  { exists h, m. done. }
  cbn [map_run gmap_run].
  destruct (rep_map_do h g d c m Hr Hm) as (h1 & m1 & E & Hr1 & Hm1 & L1). mrun E.
  destruct (gmap_do g d c) as [[r v] g1]. cbn [fst snd] in *.
  destruct (IH h1 g1 m1 Hr1 Hm1) as (h2 & m2 & E2 & Hr2 & Hm2 & L2). mrun E2.
  destruct (gmap_run g1 d cs) as [rs g2]. cbn [fst snd] in *.
  exists h2, m2. repeat (split; [done|]). lia.
Qed.

End calls.
Arguments map_call : clear implicits.

(** A concrete interface to keys, for the witnesses: numbers. *)
#[export] Instance HashKey_Z : HashKey (fun k => k mod 2 ^ 64) (fun a b => if a =? b then 1 else 0).
Proof.
  constructor.
  - intros k. by apply Z.mod_pos_bound.
  - intros a b. destruct (a =? b) eqn:E; bprop; [by subst|]. split; [done|]. by intros ->.
Qed.

(** Primes, decided by the code. *)
Lemma prime_of_IsPrime n : 0 <= n < prime_bound -> IsPrime n = Some 1 -> prime n.
Proof. intros Hn E. destruct (IsPrime_spec n Hn) as (r & E' & [[_ ?]|[-> _]]); [done|]. by rewrite E in E'. Qed.

Lemma prime_101 : prime 101.
Proof. apply prime_of_IsPrime; [by vm_compute|by vm_compute]. Qed.

(** The largest prime below [2 ^ 32]. *)
Lemma prime_top : prime (2 ^ 32 - 5).
Proof. apply prime_of_IsPrime; [by vm_compute|by vm_compute]. Qed.

(** The least prime from [n] on. *)
Lemma least_prime n : 0 <= n <= 2 ^ 32 - 5 ->
  exists p, n <= p <= 2 ^ 32 - 5 /\ prime p /\ forall q, n <= q < p -> ~ prime q.
Proof.
  intros Hn. remember (Z.to_nat (2 ^ 32 - 5 - n)) as k eqn:Ek. revert n Hn Ek. induction k as [|k IH]; intros n Hn Ek.
  - exists (2 ^ 32 - 5). split; [lia|]. split; [apply prime_top|lia].
  - assert (2 ^ 32 - 5 < prime_bound) by by vm_compute.
    destruct (IsPrime_spec n) as (r & _ & [[_ Hp]|[_ Hp]]); [lia|exists n; split; [lia|]; split; [done|lia]|].
    destruct (IH (n + 1)) as (p & Hnp & Hpp & Hl); [lia|lia|]. exists p. split; [lia|]. split; [done|].
    intros q Hq. destruct (decide (q = n)) as [->|Hne]; [done|]. apply Hl. lia.
Qed.

Lemma not_prime_100 q : 100 <= q < 101 -> ~ prime q.
Proof.
  intros Hq. assert (q = 100) as -> by lia. apply (divisor_not_prime 100 2); [lia|]. by exists 50.
Qed.

Lemma GetNextPrime_100 : GetNextPrime 100 = Some 101.
Proof. by vm_compute. Qed.

(** ** Properties *)

(** C27: The bucket array is a finite map: for any hash function and any
    equality function that decides equality, and a capacity whose
    next prime is below [(2^32 - 5)^2], a new map answers every sequence of inserts, removes
    and lookups as the finite map does (duplicate inserts rejected, missing
    keys reported, outputs written only on success), never following a bad
    pointer or indexing out of bounds; the table has prime capacity, the
    reported size is the map's, and the blocks it holds are accounted for. *)
Theorem hashmap_refines_gmap (K V : Type) `{Countable K} hf ef `{!HashKey (K := K) hf ef}
    cap p (d : V) (cs : list (map_call K V)) m :
  0 < cap <= p -> p < prime_bound -> prime p ->
  (forall q, cap <= q < p -> ~ prime q) -> alloc_ok m ->
  exists h m1, HashMap_Create cap (Some hf) (Some ef) m = Some (Some h, m1) /\ capacity h = p /\
  exists h' m2, map_run (Some h) d cs m1 = Some ((fst (gmap_run ∅ d cs), Some h'), m2) /\
    HashMap_Size (Some h') = size_t (Z.of_nat (size (snd (gmap_run ∅ d cs)))) /\
    live m2 = live m + blocks h' (snd (gmap_run ∅ d cs)).
Proof.
  intros Hcap Hp Hprime Hleast Hm.
  assert (prime_bound <= 2 ^ 64) by (vm_compute; congruence).
  destruct (rep_Create (V := V) cap p hf ef m) as (r & m1 & E & Hc & Ho);
    [lia|lia|apply GetNextPrime_spec; (lia || done)|].
  destruct (Ho Hm) as [Hsome Hm1]. destruct r as [h|]; [|done]. destruct Hc as (Hr & L & Hcp).
  exists h, m1. split; [done|]. split; [done|].
  destruct (rep_map_run h ∅ d cs m1 Hr Hm1) as (h' & m2 & E2 & Hr2 & Hm2 & L2).
  exists h', m2. split; [done|]. split; [by apply rep_Size|]. lia.
Qed.

Lemma hashmap_refines_gmap_witness :
  exists h m1,
    HashMap_Create 100 (Some (fun k => k mod 2 ^ 64)) (Some (fun a b => if a =? b then 1 else 0))
      (Mem [] 0) = Some (Some h, m1) /\ capacity h = 101 /\
  exists h' m2,
    map_run (Some h) 0 [MInsert 5 50; MInsert 106 60; MInsert 5 70; MFind 106; MRemove 5; MFind 5] m1
      = Some (([(MAP_SUCCESS, 0); (MAP_SUCCESS, 0); (MAP_KEY_DUPLICATE_ERROR, 0); (MAP_SUCCESS, 60);
                (MAP_SUCCESS, 50); (MAP_KEY_NOT_FOUND_ERROR, 0)], Some h'), m2) /\
    HashMap_Size (Some h') = 1 /\ live m2 = 0 + blocks h' {[106 := 60]}.
Proof.
  assert (gmap_run ∅ 0 [MInsert 5 50; MInsert 106 60; MInsert 5 70; MFind 106; MRemove 5; MFind 5]
    = ([(MAP_SUCCESS, 0); (MAP_SUCCESS, 0); (MAP_KEY_DUPLICATE_ERROR, 0); (MAP_SUCCESS, 60);
        (MAP_SUCCESS, 50); (MAP_KEY_NOT_FOUND_ERROR, 0)], ({[106 := 60]} : gmap Z Z))) as E
    by (vm_compute; reflexivity).
  pose proof (hashmap_refines_gmap Z Z (fun k => k mod 2 ^ 64) (fun a b => if a =? b then 1 else 0)
    100 101 0 [MInsert 5 50; MInsert 106 60; MInsert 5 70; MFind 106; MRemove 5; MFind 5] (Mem [] 0)) as W.
  rewrite E in W. apply W; clear.
  - lia.
  - by vm_compute.
  - apply prime_101.
  - apply not_prime_100.
  - constructor.
Defined.

(** C37: When memory runs out in [HashMap_Insert] (for the bucket's list, the
    pair or the node) the map still represents what it did, and nothing is
    leaked: in every outcome, the blocks the map owns account for the blocks
    allocated; the only failure outcomes are the duplicate key, which changes
    nothing, and an allocation failure that really happened. *)
Theorem hashmap_insert_failure (K V : Type) `{Countable K} h (g : gmap K V) k v m :
  hm_rep h g ->
  exists r h' m' g', HashMap_Insert (Some h) (Some k) v m = Some ((r, Some h'), m') /\
    hm_rep h' g' /\ live m' - blocks h' g' = live m - blocks h g /\
    ((r = MAP_SUCCESS /\ g !! k = None /\ g' = <[k := v]> g) \/
     (r = MAP_KEY_DUPLICATE_ERROR /\ is_Some (g !! k) /\ g' = g /\ h' = h /\ m' = m) \/
     (r = MAP_ALLOCATION_ERROR /\ g !! k = None /\ g' = g /\ ~ alloc_ok m)).
Proof.
  intros Hr. pose proof (rep_Insert h g k v m Hr) as I. destruct (g !! k) as [w|] eqn:Hk.
  - exists MAP_KEY_DUPLICATE_ERROR, h, m, g. repeat (split; [done|]). right. left. done.
  - destruct I as (r & h' & m' & E & Hc & Ho). case_decide as D.
    + destruct Hc as [Hr' L]. exists r, h', m', (<[k := v]> g).
      repeat (split; [done|]). split; [lia|]. by left.
    + destruct Hc as (-> & Hr' & L). exists MAP_ALLOCATION_ERROR, h', m', g.
      repeat (split; [done|]). split; [lia|]. right. right. repeat (split; [done|]).
      intros Hm. by destruct (Ho Hm).
Qed.

Lemma hashmap_insert_failure_witness :
  let h := MkHashMap [NULL; NULL] 2 0 (fun k => k mod 2 ^ 64) (fun a b => if a =? b then 1 else 0) in
  exists r h' m' g', HashMap_Insert (Some h) (Some 7) 70 (Mem [true; true; false] 2) = Some ((r, Some h'), m') /\
    hm_rep h' g' /\ live m' - blocks h' g' = 2 - blocks (V := Z) h ∅ /\
    ((r = MAP_SUCCESS /\ (∅ : gmap Z Z) !! 7 = None /\ g' = <[7 := 70]> ∅) \/
     (r = MAP_KEY_DUPLICATE_ERROR /\ is_Some ((∅ : gmap Z Z) !! 7) /\ g' = ∅ /\ h' = h /\
        m' = Mem [true; true; false] 2) \/
     (r = MAP_ALLOCATION_ERROR /\ (∅ : gmap Z Z) !! 7 = None /\ g' = ∅ /\
        ~ alloc_ok (Mem [true; true; false] 2))).
Proof.
  apply (hashmap_insert_failure Z Z _ ∅ 7 70 (Mem [true; true; false] 2)).
  split; [apply _|]. exists [[]; []]. split; [|done].
  constructor; [by repeat constructor|done|cbn; lia| |constructor|done].
  intros [|[|i]] row kv Hi Hin; try done; injection Hi as <-; by apply elem_of_nil in Hin.
Defined.

(** Destroying a map gives every pair to the callbacks exactly once (in
    some order: the table's), releases every block of the map, structure,
    bucket array, lists, nodes and pairs, and nulls the caller's pointer;
    [HashMap_ForEach] visits the pairs of the map exactly once each and
    returns how many it visited, up to and including the pair at which the
    action returned 0. *)
Theorem hashmap_destroy_foreach (K V C : Type) `{Countable K} h (g : gmap K V)
    (f : K -> C -> C) (f' : V -> C -> C) (act : K -> V -> C -> Z * C) c m :
  hm_rep h g ->
  (exists kvs, map_to_list g ≡ₚ as_pair <$> kvs /\
    HashMap_Destroy (Some (Some h)) (Some (fun k c => mret (f k c))) (Some (fun v c => mret (f' v c))) c m
    = Some ((Some NULL, foldl (fun c kv => f' (value kv) (f (key kv) c)) c kvs),
            Mem (plan m) (live m - blocks h g))) /\
  (exists kvs, map_to_list g ≡ₚ as_pair <$> kvs /\
    HashMap_ForEach (Some h) (Some act) c
    = Some (let '(_, n, c') := visit act kvs 0 c in (n, c'))).
Proof.
  intros Hr. split; [|by apply rep_ForEach].
  set (step := fun c (kv : KeyValuePair K V) => f' (value kv) (f (key kv) c)).
  destruct (rep_Destroy (Some (fun k c => mret (f k c))) (Some (fun v c => mret (f' v c)))
    (fun rest c' => exists pre, map_to_list g ≡ₚ as_pair <$> pre ++ rest /\ c' = foldl step c pre)
    (fun _ => 0)) with (h := h) (g := g) (c := c) (m := m) as (c' & m' & E & P & Pl & L).
  - intros kv rest c1 m1 (pre & Hp & ->). eexists _, m1. split; [done|]. split; [|split; [done|lia]].
    exists (pre ++ [kv]). rewrite <-app_assoc, foldl_app. done.
  - done.
  - intros kvs Hp. by exists [].
  - destruct P as (kvs & Hp & ->). rewrite app_nil_r in Hp. exists kvs. split; [done|].
    rewrite E. destruct m'. cbn in *. subst. do 3 f_equal.
    rewrite zsum_const. lia.
Qed.

Lemma hashmap_destroy_foreach_witness :
  let h := MkHashMap [NULL; NULL] 2 0 (fun k => k mod 2 ^ 64) (fun a b => if a =? b then 1 else 0) in
  (exists kvs, map_to_list (∅ : gmap Z Z) ≡ₚ as_pair <$> kvs /\
    HashMap_Destroy (Some (Some h)) (Some (fun k c => mret (c + k))) (Some (fun v c => mret (c * v))) 5
      (Mem [] 2)
    = Some ((Some NULL, foldl (fun c kv => (c + key kv) * value kv) 5 kvs),
            Mem [] (2 - blocks (V := Z) h ∅))) /\
  (exists kvs, map_to_list (∅ : gmap Z Z) ≡ₚ as_pair <$> kvs /\
    HashMap_ForEach (Some h) (Some (fun k v c => (1, c))) 5
    = Some (let '(_, n, c') := visit (fun k v c => (1, c)) kvs 0 5 in (n, c'))).
Proof.
  apply (hashmap_destroy_foreach Z Z Z
    (MkHashMap [NULL; NULL] 2 0 (fun k => k mod 2 ^ 64) (fun a b => if a =? b then 1 else 0))
    ∅ (fun k c => c + k) (fun v c => c * v) (fun k v c => (1, c)) 5 (Mem [] 2)).
  split; [apply _|]. exists [[]; []]. split; [|done].
  constructor; [by repeat constructor|done|cbn; lia| |constructor|done].
  intros [|[|i]] row kv Hi Hin; try done; injection Hi as <-; by apply elem_of_nil in Hin.
Defined.

(** C38: The table size.  The trial division of [IsPrime], in wrapping 64-bit
    arithmetic with candidates [6k - 1] and [6k + 1] only, ends and decides
    primality for every number below [(2^32 - 5)^2]; beyond that its square may
    wrap around.  The search of [GetNextPrime] ends for every capacity up to
    [2^32 - 5], the largest prime of 32 bits, with the least prime that is not
    below it (a capacity that is prime is kept). *)
Theorem next_prime_correct n k : 0 <= n <= 2 ^ 32 - 5 -> 0 <= k < prime_bound ->
  (exists p, GetNextPrime n = Some p /\ n <= p <= 2 ^ 32 - 5 /\ prime p /\ forall q, n <= q < p -> ~ prime q) /\
  exists r, IsPrime k = Some r /\ (r = 1 <-> prime k) /\ (r = 0 <-> ~ prime k).
Proof.
  intros Hn Hk. split.
  - destruct (least_prime n Hn) as (p & Hp & Hpp & Hl). exists p. split; [|done].
    assert (2 ^ 32 - 5 < prime_bound) by by vm_compute. apply GetNextPrime_spec; (lia || done).
  - destruct (IsPrime_spec k Hk) as (r & E & Hr). exists r. split; [done|].
    destruct Hr as [[-> ?]|[-> ?]]; split; split; (done || lia).
Qed.

Lemma next_prime_correct_witness : GetNextPrime 0 = Some 2 /\ GetNextPrime 100 = Some 101 /\
  (exists p, GetNextPrime 100 = Some p /\ 100 <= p <= 2 ^ 32 - 5 /\ prime p /\ forall q, 100 <= q < p -> ~ prime q) /\
  exists r, IsPrime 10201 = Some r /\ (r = 1 <-> prime 10201) /\ (r = 0 <-> ~ prime 10201).
Proof.
  split; [by vm_compute|]. split; [by vm_compute|].
  apply (next_prime_correct 100 10201); by vm_compute.
Defined.
