(* ===== verification/HashUtils.v ===== *)
(** * String keys: [server/hash_utils.h], [server/hash_utils.c]

    The DJB2 hash, in [size_t] arithmetic, and the equality of the maps whose
    keys are NUL-terminated strings; they implement the interface [HashKey] of
    the hash map. *)

From S2P Require Import Prelude GenDlist HashMap.

(** The loop [while ((c = *str++))]: the end of the list is the NUL. *)
Fixpoint HashStringDjb2_loop (str : cstring) (hash : Z) : Z :=
  match str with
  | [] => hash
  | c :: str =>
      HashStringDjb2_loop str
        (size_t (size_t (size_t (Z.shiftl hash 5) + hash) + c)) (* hash * 33 + c *)
  end.

Definition HashStringDjb2 (_key : ptr cstring) : Z :=
  match _key with
  | None => 0
  | Some str => HashStringDjb2_loop str 5381
  end.

Definition StringKeysEqual (_firstKey _secondKey : ptr cstring) : Z :=
  match _firstKey, _secondKey with
  | Some s, Some t => if str_eqb s t then 1 else 0
  | _, _ => 0
  end.

(** The two functions at the non-NULL keys of a map. *)
Definition string_hash (k : cstring) : Z := HashStringDjb2 (Some k).
Definition string_equal (a b : cstring) : Z := StringKeysEqual (Some a) (Some b).

(** ** The hash without wrap-around at each step *)

Definition djb2_sum (s : cstring) (h : Z) : Z := foldl (fun h c => 33 * h + c) h s.

Lemma djb2_step h c : size_t (size_t (size_t (Z.shiftl h 5) + h) + c) = size_t (33 * h + c).
Proof.
  rewrite Z.shiftl_mul_pow2 by lia. rewrite !size_t_add_l.
  rewrite <-Z.add_assoc, size_t_add_l. f_equal. lia.
Qed.

Lemma djb2_sum_mod s h : size_t (djb2_sum s (size_t h)) = size_t (djb2_sum s h).
Proof.
  revert h. induction s as [|c s IH]; intros h; cbn [djb2_sum foldl].
  - unfold size_t. by rewrite Zmod_mod.
  - fold (djb2_sum s (33 * size_t h + c)) (djb2_sum s (33 * h + c)).
    rewrite <-IH, <-(IH (33 * h + c)). do 2 f_equal. unfold size_t.
    rewrite Zplus_mod, (Zmult_mod 33), Zmod_mod, <-Zmult_mod, <-Zplus_mod. done.
Qed.

Lemma djb2_loop s h : 0 <= h < 2 ^ 64 -> HashStringDjb2_loop s h = size_t (djb2_sum s h).
Proof.
  revert h. induction s as [|c s IH]; intros h Hh; cbn [HashStringDjb2_loop].
  - by rewrite size_t_id.
  - rewrite djb2_step, IH by (unfold size_t; by apply Z.mod_pos_bound).
    by rewrite djb2_sum_mod.
Qed.

#[export] Instance string_HashKey : HashKey string_hash string_equal.
Proof.
  constructor.
  - intros k. unfold string_hash, HashStringDjb2. rewrite djb2_loop by lia.
    by apply Z.mod_pos_bound.
  - intros a b. unfold string_equal, StringKeysEqual, str_eqb.
    case_bool_decide; [done|]. by split.
Qed.

(** The maps of the server: created with these functions and capacity 100. *)
Lemma rep_Create_100 {V} m :
  exists r m', HashMap_Create 100 (Some string_hash) (Some string_equal) m = Some (r, m') /\
  match r with
  | Some h => hm_rep (V := V) h ∅ /\ live m' = live m + blocks h ∅
  | None => live m' = live m
  end /\ (alloc_ok m -> r <> None /\ alloc_ok m').
Proof.
  destruct (rep_Create (V := V) 100 101 string_hash string_equal m)
    as (r & m' & E & Hc & Ho); [done|lia|apply GetNextPrime_100|].
  exists r, m'. split; [done|]. split; [|done]. destruct r; [|done]. by destruct Hc as (?&?&?).
Qed.

(** [HashStringDjb2], computed with 64-bit wrap-around at every step, is
    the polynomial hash [5381 * 33^n + sum c_i * 33^(n-1-i)] reduced once
    modulo [2^64], so equal strings always hash alike and the result is a
    [size_t]; [StringKeysEqual] returns 1 exactly on equal strings; a NULL key
    hashes to 0 and equals nothing. *)
Theorem djb2_polynomial (s t : cstring) :
  HashStringDjb2 (Some s)
  = size_t (5381 * 33 ^ strlen s + foldr Z.add 0 (imap (fun i c => c * 33 ^ (strlen s - 1 - Z.of_nat i)) s)) /\
  0 <= HashStringDjb2 (Some s) < 2 ^ 64 /\
  (StringKeysEqual (Some s) (Some t) = 1 <-> s = t) /\
  HashStringDjb2 NULL = 0 /\ StringKeysEqual NULL (Some t) = 0 /\ StringKeysEqual (Some s) NULL = 0.
Proof.
  split; [|split; [by apply string_HashKey|split; [|done]]].
  - cbn [HashStringDjb2]. rewrite djb2_loop by lia. f_equal.
    generalize 5381. induction s as [|c s IH]; intros h; cbn [djb2_sum foldl].
    + cbn. change (strlen []) with 0. lia.
    + fold (djb2_sum s (33 * h + c)). rewrite IH. unfold strlen in *.
      cbn [imap length foldr]. replace (Z.of_nat (S (length s)) - 1 - Z.of_nat 0)
        with (Z.of_nat (length s)) by lia.
      rewrite Nat2Z.inj_succ, Z.pow_succ_r by lia.
      erewrite (imap_ext (fun i c0 => c0 * 33 ^ (Z.of_nat (length s) - 1 - Z.of_nat i))
        ((fun i c0 => c0 * 33 ^ (Z.succ (Z.of_nat (length s)) - 1 - Z.of_nat i)) ∘ S)); [lia|].
      intros i x _. cbn. do 2 f_equal. lia.
  - unfold StringKeysEqual, str_eqb. case_bool_decide; [by split|]. by split.
Qed.
