(* ===== verification/FreeMcQueue.v ===== *)
(** * The pool of multicast addresses: [server/free_mc_queue.h], [server/free_mc_queue.c]

    A queue of heap-allocated address/port pairs over [GenQueue], filled with
    239.1.1.1 to 239.1.1.255 on port 6000.  Taking a pair copies it out and
    frees it; returning one allocates a copy.  The file proves that the pool is
    a FIFO list of pairs ([pool_rep]), what it holds initially, also when some
    of the 255 allocations fail, and the number of heap blocks it owns. *)

From S2P Require Import Prelude Text Protocol GenQueue.

(** [McastPair]: [ip] is the string held in [char ip[CHAT_MAX_IP_STR_LEN]]. *)
Record McastPair := MkMcastPair { ip : cstring; port : Z }.

#[export] Instance McastPair_eq_dec : EqDecision McastPair.
Proof. solve_decision. Defined.

(** [struct FreeMcQueue] *)
Record FreeMcQueue := MkFreeMcQueue { pool : ptr (Queue McastPair) }.

(** ["239.1.1."] *)
Definition ip_prefix : cstring := [50; 51; 57; 46; 49; 46; 49; 46].

(** [sprintf(pair->ip, "239.1.1.%d", i)]: overflowing the buffer is undefined. *)
Definition sprintf_ip (i : Z) : option cstring :=
  strcpy CHAT_MAX_IP_STR_LEN (ip_prefix ++ print_nat 10 i).

Definition DestroyPairCallback (_item : ptr McastPair) : M unit :=
  match _item with
  | Some _ => free
  | None => mret tt
  end.

(** The loop [for (i = 1; i <= 255; ++i)], [n] iterations left. *)
Fixpoint fill_pool (n : nat) (i : Z) (q : ptr (Queue McastPair)) : M (ptr (Queue McastPair)) :=
  match n with
  | O => mret q
  | S n =>
      ok ← malloc;
      q ← (if ok : bool then
             s ← lift (sprintf_ip i);
             '(r, q) ← lift (QueueInsert q (Some (MkMcastPair s CHAT_MCAST_BASE_PORT)));
             (if decide (r = QUEUE_SUCCESS) then mret tt else free);;
             mret q
           else mret q);
      fill_pool n (i + 1) q
  end.

Definition FreeMcQueue_Create : M (ptr FreeMcQueue) :=
  ok ← malloc;
  if negb ok then mret NULL else
  q ← QueueCreate 255;
  match q with
  | None => free;; mret NULL
  | Some _ =>
      q ← fill_pool 255 1 q;
      mret (Some (MkFreeMcQueue q))
  end.

Definition FreeMcQueue_Destroy (_queue : ptr (ptr FreeMcQueue)) : M (ptr (ptr FreeMcQueue)) :=
  match _queue with
  | Some (Some f) =>
      QueueDestroy (Some (pool f)) (Some DestroyPairCallback);;
      free;;
      mret (Some NULL)
  | _ => mret _queue
  end.

Definition FreeMcQueue_Take (_queue : ptr FreeMcQueue) (_outPair : ptr McastPair)
  : M (Z * ptr FreeMcQueue * ptr McastPair) :=
  match _queue, _outPair with
  | Some f, Some _ =>
      '(r, q, popped) ← lift (QueueRemove (pool f) (Some NULL));
      match (if decide (r = QUEUE_SUCCESS) then mjoin popped else NULL) with
      | None => mret (0, Some (MkFreeMcQueue q), _outPair)
      | Some pr =>
          s ← lift (strcpy CHAT_MAX_IP_STR_LEN (ip pr));
          free;;
          mret (1, Some (MkFreeMcQueue q), Some (MkMcastPair s (port pr)))
      end
  | _, _ => mret (0, _queue, _outPair)
  end.

Definition FreeMcQueue_Return (_queue : ptr FreeMcQueue) (_pair : ptr McastPair)
  : M (Z * ptr FreeMcQueue) :=
  match _queue, _pair with
  | Some f, Some pr =>
      ok ← malloc;
      if negb ok then mret (0, _queue) else
      s ← lift (strcpy CHAT_MAX_IP_STR_LEN (ip pr));
      '(r, q) ← lift (QueueInsert (pool f) (Some (MkMcastPair s (port pr))));
      if decide (r = QUEUE_SUCCESS) then mret (1, Some (MkFreeMcQueue q))
      else free;; mret (0, Some (MkFreeMcQueue q))
  | _, _ => mret (0, _queue)
  end.

(** ** The list of free pairs a pool represents *)

Definition pair_ok (p : McastPair) : Prop := strlen (ip p) < CHAT_MAX_IP_STR_LEN.

Record pool_rep (f : FreeMcQueue) (ps : list McastPair) : Prop := {
  pr_queue : exists q, pool f = Some q /\ queue_rep 255 q ps;
  pr_pairs : Forall pair_ok ps
}.

(** Heap blocks of a pool: the structure, the queue and its array, the pairs. *)
Definition pool_blocks (ps : list McastPair) : Z := 3 + Z.of_nat (length ps).

(** The pair number [i], and the pool as it is filled. *)
Definition nth_pair (i : Z) : McastPair :=
  MkMcastPair (ip_prefix ++ print_nat 10 i) CHAT_MCAST_BASE_PORT.
Definition initial_pairs : list McastPair := nth_pair <$> seqZ 1 255.

(** ** Facts about the initial pairs, by evaluation *)

Lemma initial_pairs_length : length initial_pairs = 255%nat.
Proof. done. Qed.

Lemma initial_pairs_NoDup : NoDup initial_pairs.
Proof. apply (bool_decide_eq_true_1 (NoDup initial_pairs)). by vm_compute. Qed.

Definition good_pair (p : McastPair) : bool :=
  (strlen (ip p) <? CHAT_MAX_IP_STR_LEN) &&
  forallb (fun c => (1 <=? c) && (c <? 256)) (ip p) && (0 <=? port p) && (port p <? 65536).

Lemma nth_pair_good i : 1 <= i <= 255 -> good_pair (nth_pair i) = true.
Proof.
  intros Hi. assert (forallb good_pair initial_pairs = true) as F by (by vm_compute).
  rewrite forallb_forall in F. apply F. apply list_elem_of_In. unfold initial_pairs.
  apply list_elem_of_fmap. exists i. split; [done|]. apply elem_of_seqZ. lia.
Qed.

Lemma good_pair_spec p : good_pair p = true ->
  pair_ok p /\ is_cstring (ip p) /\ 0 <= port p < 65536.
Proof.
  unfold good_pair. intros G. bprop. split; [done|]. split; [|lia].
  apply Forall_forall. intros c Hc. apply list_elem_of_In in Hc.
  match goal with F : forallb _ _ = true |- _ => rewrite forallb_forall in F; specialize (F c Hc) end.
  bprop. lia.
Qed.

Lemma sprintf_ip_spec i : 1 <= i <= 255 -> sprintf_ip i = Some (ip (nth_pair i)).
Proof.
  intros Hi. destruct (good_pair_spec _ (nth_pair_good i Hi)) as [Ok _].
  unfold sprintf_ip, strcpy. unfold pair_ok in Ok.
  rewrite (proj2 (Z.ltb_lt _ _)); [done|]. exact Ok.
Qed.

Lemma initial_good p : p ∈ initial_pairs -> pair_ok p /\ is_cstring (ip p) /\ 0 <= port p < 65536.
Proof.
  intros (i & -> & Hi)%list_elem_of_fmap. apply elem_of_seqZ in Hi.
  apply good_pair_spec, nth_pair_good. lia.
Qed.

(** ** Operations *)

Lemma rep_Take f ps o m : pool_rep f ps ->
  match ps with
  | [] => exists f', FreeMcQueue_Take (Some f) (Some o) m = Some ((0, Some f', Some o), m) /\ pool_rep f' []
  | p :: ps' => exists f', FreeMcQueue_Take (Some f) (Some o) m
                  = Some ((1, Some f', Some p), Mem (plan m) (live m - 1)) /\ pool_rep f' ps'
  end.
Proof.
  intros [(q & Hq & R) Hp]. unfold FreeMcQueue_Take. rewrite Hq.
  pose proof (rep_remove 255 q ps NULL R) as E. destruct ps as [|p ps].
  - rewrite E. mlift. rewrite decide_False by done.
    eexists. split; [done|]. constructor; [by exists q|done].
  - destruct E as (q' & E & R'). rewrite E. mlift. rewrite decide_True by done. cbn [mjoin option_join].
    apply Forall_cons_1 in Hp as [Hp Hps]. unfold strcpy.
    rewrite (proj2 (Z.ltb_lt _ _)) by exact Hp. mlift. mfree.
    eexists. split; [by destruct p|]. constructor; [by exists q'|done].
Qed.

Lemma rep_Return f ps p m : pool_rep f ps -> pair_ok p ->
  exists r f' m', FreeMcQueue_Return (Some f) (Some p) m = Some ((r, Some f'), m') /\
    ((r = 1 /\ pool_rep f' (ps ++ [p]) /\ live m' = live m + 1) \/
     (r = 0 /\ pool_rep f' ps /\ live m' = live m)) /\
    (alloc_ok m -> alloc_ok m' /\ ((length ps < 255)%nat -> r = 1)).
Proof.
  intros HR Hp. pose proof HR as [(q & Hq & R) Hps]. unfold FreeMcQueue_Return.
  destruct (malloc_inv m) as (b & m1 & E & L & O). mrun E. destruct b; cbn [negb].
  2:{ exists 0, f, m1. split; [done|]. split; [right; repeat (split; [done|]); done|].
      intros Ho. by destruct (O Ho). }
  unfold strcpy. rewrite (proj2 (Z.ltb_lt _ _)) by exact Hp. mlift. rewrite Hq.
  destruct (rep_insert 255 q ps (MkMcastPair (ip p) (port p)) R) as (q' & E' & R'). rewrite E'.
  destruct (_ =? 255) eqn:Ef; bprop; mlift.
  - rewrite decide_False by done. mfree. exists 0, (MkFreeMcQueue (Some q)), (Mem (plan m1) (live m1 - 1)).
    split; [done|]. split.
    + right. split; [done|]. split; [constructor; [by exists q|done]|]. cbn. lia.
    + intros Ho. destruct (O Ho). split; [done|]. lia.
  - rewrite decide_True by done. exists 1, (MkFreeMcQueue (Some q')), m1. split; [done|]. split.
    + left. split; [done|]. split; [|done]. constructor.
      * exists q'. split; [done|]. destruct p. by apply R'.
      * apply Forall_app. split; [done|]. by constructor.
    + intros Ho. destruct (O Ho). done.
Qed.

Lemma fill_pool_spec n i q ps m :
  queue_rep 255 q ps -> Forall pair_ok ps -> 1 <= i -> i + Z.of_nat n = 256 ->
  (length ps <= Z.to_nat (i - 1))%nat ->
  exists q' ps' m', fill_pool n i (Some q) m = Some (Some q', m') /\
    queue_rep 255 q' (ps ++ ps') /\ Forall pair_ok (ps ++ ps') /\
    sublist ps' (nth_pair <$> seqZ i (Z.of_nat n)) /\
    live m' = live m + Z.of_nat (length ps') /\
    (alloc_ok m -> ps' = nth_pair <$> seqZ i (Z.of_nat n) /\ alloc_ok m').
Proof.
  revert i q ps m. induction n as [|n IH]; intros i q ps m R Hp Hi Hn Hl.
  { exists q, [], m. rewrite app_nil_r. repeat (split; [done|]). cbn. split; [lia|done]. }
  cbn [fill_pool]. destruct (malloc_inv m) as (b & m1 & E & L & O). mrun E.
  rewrite seqZ_cons by lia. rewrite fmap_cons. replace (Z.pred (Z.of_nat (S n))) with (Z.of_nat n) by lia.
  replace (Z.succ i) with (i + 1) by lia. destruct b.
  - rewrite sprintf_ip_spec by lia.
    destruct (rep_insert 255 q ps (nth_pair i) R) as (q1 & E1 & R1).
    rewrite (proj2 (Z.eqb_neq _ _)) in * by lia.
    assert (pair_ok (nth_pair i)) as Hpi by (apply good_pair_spec, nth_pair_good; lia).
    rewrite (M_bind_Some _ _ m1 (Some q1) m1).
    2:{ mlift. change (MkMcastPair (ip (nth_pair i)) CHAT_MCAST_BASE_PORT) with (nth_pair i).
        rewrite E1. mlift. done. }
    destruct (IH (i + 1) q1 (ps ++ [nth_pair i]) m1) as (q2 & ps2 & m2 & E2 & R2 & F2 & S2 & L2 & O2).
    + apply R1. lia.
    + apply Forall_app. split; [done|]. by constructor.
    + lia.
    + lia.
    + rewrite length_app. cbn. lia.
    + rewrite <-app_assoc in *. cbn [app] in *.
      exists q2, (nth_pair i :: ps2), m2. repeat (split; [done|]). split; [by constructor|].
      split; [cbn [length]; lia|].
      intros Ho. destruct (O Ho) as [_ Ho1]. destruct (O2 Ho1) as [-> Ho2]. done.
  - mstep_ret. destruct (IH (i + 1) q ps m1) as (q2 & ps2 & m2 & E2 & R2 & F2 & S2 & L2 & O2);
      [done|done|lia|lia|lia|].
    exists q2, ps2, m2. repeat (split; [done|]). split; [by constructor|]. split; [lia|].
    intros Ho. by destruct (O Ho).
Qed.

Lemma rep_pool_create m :
  exists r m', FreeMcQueue_Create m = Some (r, m') /\
  match r with
  | Some f => exists ps, pool_rep f ps /\ sublist ps initial_pairs /\ live m' = live m + pool_blocks ps /\
      (alloc_ok m -> ps = initial_pairs)
  | None => live m' = live m
  end /\ (alloc_ok m -> r <> None /\ alloc_ok m').
Proof.
  unfold FreeMcQueue_Create. destruct (malloc_inv m) as (b & m1 & E & L & O). mrun E.
  destruct b; cbn [negb].
  2:{ exists NULL, m1. split; [done|]. split; [done|]. intros Ho. by destruct (O Ho). }
  destruct (rep_create (A := McastPair) 255 m1) as (q & m2 & E2 & C2 & O2); [lia|]. mrun E2.
  destruct q as [q|].
  - destruct C2 as [R2 L2].
    destruct (fill_pool_spec 255 1 q [] m2) as (q3 & ps & m3 & E3 & R3 & F3 & S3 & L3 & O3);
      [done|constructor|lia|lia|cbn; lia|].
    mrun E3. cbn [app] in *. eexists (Some _), m3. split; [done|]. split.
    + exists ps. split; [constructor; [by exists q3|done]|]. split; [done|].
      unfold pool_blocks. split; [lia|]. intros Ho. destruct (O Ho) as [_ Ho1].
      destruct (O2 Ho1) as [_ Ho2]. by apply O3.
    + intros Ho. destruct (O Ho) as [_ Ho1]. destruct (O2 Ho1) as [_ Ho2]. split; [done|]. by apply O3.
  - mfree. eexists NULL, _. split; [done|]. split; [cbn; lia|].
    intros Ho. destruct (O Ho) as [_ Ho1]. by destruct (O2 Ho1).
Qed.

Lemma each_free (ps : list McastPair) m :
  each (fun x => DestroyPairCallback (Some x)) ps m
  = Some (tt, Mem (plan m) (live m - Z.of_nat (length ps))).
Proof.
  revert m. induction ps as [|p ps IH]; intros m; cbn [each length DestroyPairCallback].
  - destruct m. unfold mret, M_ret. do 3 f_equal. cbn. lia.
  - mfree. rewrite IH. cbn [plan live]. do 3 f_equal. lia.
Qed.

Lemma rep_pool_destroy f ps m : pool_rep f ps ->
  FreeMcQueue_Destroy (Some (Some f)) m = Some (Some NULL, Mem (plan m) (live m - pool_blocks ps)).
Proof.
  intros [(q & Hq & R) Hp]. unfold FreeMcQueue_Destroy, QueueDestroy. rewrite Hq.
  rewrite (qr_magic _ _ _ R), Z.eqb_refl, (qr_num _ _ _ R), Nat2Z.id. cbn [negb].
  rewrite (M_bind_Some _ _ m (Some NULL) (Mem (plan m) (live m - Z.of_nat (length ps) - 2))).
  - mfree. cbn [plan live]. unfold pool_blocks, mret, M_ret. do 3 f_equal. lia.
  - rewrite (M_bind_Some _ _ m tt (Mem (plan m) (live m - Z.of_nat (length ps)))).
    + mfree. mfree. cbn [plan live]. unfold mret, M_ret. do 3 f_equal. lia.
    + rewrite (destroy_items_spec 255 q ps _ m R). apply each_free.
Qed.

(** [n] calls of [FreeMcQueue_Take] with the results and the pairs received. *)
Fixpoint take_n (n : nat) (f : ptr FreeMcQueue) (o : McastPair)
  : M (list (Z * McastPair) * ptr FreeMcQueue) :=
  match n with
  | O => mret ([], f)
  | S n =>
      '(r, f, out) ← FreeMcQueue_Take f (Some o);
      let o := default o out in
      '(rs, f) ← take_n n f o;
      mret ((r, o) :: rs, f)
  end.

Lemma rep_take_n f ps o m : pool_rep f ps ->
  exists f', take_n (length ps) (Some f) o m
    = Some ((pair 1 <$> ps, Some f'), Mem (plan m) (live m - Z.of_nat (length ps))) /\
    pool_rep f' [].
Proof.
  revert f o m. induction ps as [|p ps IH]; intros f o m H; cbn [take_n length].
  { exists f. split; [|done]. destruct m. unfold mret, M_ret. do 3 f_equal. cbn. lia. }
  destruct (rep_Take f (p :: ps) o m H) as (f1 & E & H1). mrun E. cbn [default from_option id].
  destruct (IH f1 p (Mem (plan m) (live m - 1)) H1) as (f2 & E2 & H2). mrun E2.
  exists f2. split; [|done]. cbn [plan live]. unfold mret, M_ret. do 3 f_equal. lia.
Qed.

(** ** Properties *)

(** Whatever allocations fail, creating the pool either fails without a
    leak or yields a pool of distinct addresses among 239.1.1.1 to 239.1.1.255
    in order (all 255 when memory does not run out); the pool hands out each
    of them exactly once, first to last, then reports exhaustion; and
    destroying it, before or after, releases every block. *)
Theorem pool_hands_out (o : McastPair) m :
  exists r m1, FreeMcQueue_Create m = Some (r, m1) /\ (alloc_ok m -> r <> NULL) /\
  match r with
  | None => live m1 = live m
  | Some f => exists ps, sublist ps initial_pairs /\ NoDup ps /\
      (alloc_ok m -> ps = initial_pairs) /\
      FreeMcQueue_Destroy (Some (Some f)) m1 = Some (Some NULL, Mem (plan m1) (live m)) /\
      exists f' m2, take_n (length ps) (Some f) o m1 = Some ((pair 1 <$> ps, Some f'), m2) /\
        FreeMcQueue_Take (Some f') (Some o) m2 = Some ((0, Some f', Some o), m2) /\
        FreeMcQueue_Destroy (Some (Some f')) m2 = Some (Some NULL, Mem (plan m2) (live m))
  end.
Proof.
  destruct (rep_pool_create m) as (r & m1 & E & C & O). exists r, m1. split; [done|].
  split; [intros Ho; by destruct (O Ho)|]. destruct r as [f|]; [|done].
  destruct C as (ps & R & Hsub & L & Hall). exists ps. split; [done|].
  split; [eapply sublist_NoDup; [apply initial_pairs_NoDup|done]|]. split; [done|].
  split; [rewrite (rep_pool_destroy f ps m1 R); do 3 f_equal; lia|].
  destruct (rep_take_n f ps o m1 R) as (f' & E' & R').
  exists f', (Mem (plan m1) (live m1 - Z.of_nat (length ps))). split; [done|].
  split; [|rewrite (rep_pool_destroy f' [] (Mem (plan m1) (live m1 - Z.of_nat (length ps))) R'); cbn [plan live]; do 3 f_equal;
           unfold pool_blocks in *; cbn [length]; lia].
  destruct (rep_Take f' [] o (Mem (plan m1) (live m1 - Z.of_nat (length ps))) R') as (f2 & E2 & _).
  rewrite E2. destruct R' as [(q & Hq & R') _]. unfold FreeMcQueue_Take in E2. rewrite Hq in E2.
  rewrite (rep_remove 255 q [] NULL R') in E2. injection E2 as <-. by destruct f'; cbn in *; subst.
Qed.

(** An address that was taken and is returned goes to the back of the
    pool, so every other free address is used first; the only failure is an
    allocation failure, in which case the call reports 0 and the address is
    lost to the pool. *)
Theorem pool_take_return f p ps o m (H : pool_rep f (p :: ps)) :
  exists f1 m1, FreeMcQueue_Take (Some f) (Some o) m = Some ((1, Some f1, Some p), m1) /\
  exists r f2 m2, FreeMcQueue_Return (Some f1) (Some p) m1 = Some ((r, Some f2), m2) /\
    ((r = 1 /\ pool_rep f2 (ps ++ [p]) /\ live m2 = live m) \/
     (r = 0 /\ pool_rep f2 ps /\ live m2 = live m - 1 /\ ~ alloc_ok m)).
Proof.
  destruct (rep_Take f (p :: ps) o m H) as (f1 & E & H1). eexists f1, _. split; [exact E|].
  assert (pair_ok p) as Hp by (by destruct H as [_ [Hp _]%Forall_cons_1]).
  assert (length ps < 255)%nat as Hlen.
  { destruct H as [(q & _ & R) _]. pose proof (qr_le _ _ _ R) as Hle. cbn [length] in Hle. lia. }
  destruct (rep_Return f1 ps p (Mem (plan m) (live m - 1)) H1 Hp) as (r & f2 & m2 & E2 & Hc & Ho).
  exists r, f2, m2. split; [done|]. cbn [live] in Hc. destruct Hc as [(-> & R & L)|(-> & R & L)].
  - left. repeat (split; [done|]). lia.
  - right. split; [done|]. split; [done|]. split; [lia|]. intros Hm. destruct (Ho Hm) as [_ Hr].
    specialize (Hr Hlen). done.
Qed.

Lemma pool_take_return_witness :
  let p := MkMcastPair [49] 6000 in
  let f := MkFreeMcQueue (Some (MkQueue (Some p :: replicate 254 NULL) 255 0 1 1 QUEUE_MAGIC_NUMBER)) in
  exists f1 m1, FreeMcQueue_Take (Some f) (Some (MkMcastPair [] 0)) (Mem [] 4) = Some ((1, Some f1, Some p), m1) /\
  exists r f2 m2, FreeMcQueue_Return (Some f1) (Some p) m1 = Some ((r, Some f2), m2) /\
    ((r = 1 /\ pool_rep f2 [p] /\ live m2 = 4) \/
     (r = 0 /\ pool_rep f2 [] /\ live m2 = 4 - 1 /\ ~ alloc_ok (Mem [] 4))).
Proof.
  apply (pool_take_return _ (MkMcastPair [49] 6000) [] (MkMcastPair [] 0) (Mem [] 4)).
  constructor; [|by repeat constructor]. eexists. split; [done|]. constructor; try done; try lia; try (cbn; lia).
  - intros [|i] x Hx; [|done]. by injection Hx as <-.
Defined.
