(* ===== verification/Index.v ===== *)
(** * Stores indexed by name

    Lemmas shared by the group and the user manager: both keep their objects
    on the heap and index them by name in a hash map, the key being the name
    stored in the object itself.  [index_rep g st G] says that the index [g]
    and the store [st] represent the abstract map [G] from names to objects:
    every entry points to a live object of that name, and every live object is
    indexed, so nothing is leaked and nothing dangles. *)

From S2P Require Import Prelude HashMap.

Section index.
Context {T : Type} (name : T -> cstring).
Implicit Types (g : gmap cstring (ptr loc)) (st : gmap loc T) (G : gmap cstring T).

Record index_rep g st G : Prop := {
  ix_some : forall k x, G !! k = Some x -> exists l, g !! k = Some (Some l) /\ st !! l = Some x;
  ix_none : forall k, G !! k = None -> g !! k = None;
  ix_name : forall k x, G !! k = Some x -> name x = k;
  ix_live : forall l x, st !! l = Some x -> G !! name x = Some x /\ g !! name x = Some (Some l)
}.

Lemma index_empty : index_rep ∅ ∅ ∅.
Proof. by constructor. Qed.

Lemma index_entry g st G k p : index_rep g st G -> g !! k = Some p ->
  exists l x, p = Some l /\ st !! l = Some x /\ G !! k = Some x /\ name x = k.
Proof.
  intros I Hk. destruct (G !! k) as [x|] eqn:E.
  - destruct (ix_some _ _ _ I k x E) as (l & Hl & Hx). rewrite Hk in Hl. injection Hl as ->.
    exists l, x. repeat (split; [done|]). by apply (ix_name _ _ _ I).
  - rewrite (ix_none _ _ _ I k E) in Hk. done.
Qed.

(** Looking a name up gives the address of its object. *)
Lemma index_lookup g st G k : index_rep g st G ->
  match G !! k with
  | Some x => exists l, g !! k = Some (Some l) /\ st !! l = Some x /\ name x = k
  | None => g !! k = None
  end.
Proof.
  intros I. destruct (G !! k) as [x|] eqn:E; [|by apply (ix_none _ _ _ I)].
  destruct (ix_some _ _ _ I k x E) as (l & Hl & Hx). exists l.
  repeat (split; [done|]). by apply (ix_name _ _ _ I).
Qed.

Lemma index_size g st G : index_rep g st G -> size g = size G.
Proof.
  intros I. rewrite <-!size_dom. f_equal. apply set_eq. intros k. rewrite !elem_of_dom. split.
  - intros [p Hp]. destruct (index_entry g st G k p I Hp) as (l & x & _ & _ & Hx & _). by exists x.
  - intros [x Hx]. destruct (ix_some _ _ _ I k x Hx) as (l & Hl & _). by exists (Some l).
Qed.

Lemma index_insert g st G k l x : index_rep g st G -> G !! k = None -> st !! l = None ->
  name x = k -> index_rep (<[k := Some l]> g) (<[l := x]> st) (<[k := x]> G).
Proof.
  intros I Hk Hl <-. constructor.
  - intros k y [[<- <-]|[Hne Hy]]%lookup_insert_Some.
    + exists l. by rewrite !lookup_insert_eq.
    + destruct (ix_some _ _ _ I k y Hy) as (l' & Hg & Hst). exists l'.
      rewrite lookup_insert_ne by done. split; [done|]. rewrite lookup_insert_ne; [done|].
      intros ->. congruence.
  - intros k [Hy Hne]%lookup_insert_None. rewrite lookup_insert_ne by done. by apply (ix_none _ _ _ I).
  - intros k y [[<- <-]|[Hne Hy]]%lookup_insert_Some; [done|]. by apply (ix_name _ _ _ I).
  - intros l' y [[<- <-]|[Hne Hy]]%lookup_insert_Some; [by rewrite !lookup_insert_eq|].
    destruct (ix_live _ _ _ I l' y Hy) as [HG Hg].
    assert (name x <> name y) by (intros E; rewrite E in Hk; congruence).
    by rewrite !lookup_insert_ne.
Qed.

(** Changing an object in place, its name kept. *)
Lemma index_update g st G k l x x' : index_rep g st G -> G !! k = Some x ->
  g !! k = Some (Some l) -> name x' = k -> index_rep g (<[l := x']> st) (<[k := x']> G).
Proof.
  intros I HG Hg Hn. constructor.
  - intros k' y [[<- <-]|[Hne Hy]]%lookup_insert_Some.
    + exists l. by rewrite lookup_insert_eq.
    + destruct (ix_some _ _ _ I k' y Hy) as (l' & Hg' & Hst). exists l'. split; [done|].
      destruct (decide (l = l')) as [<-|]; [|by rewrite lookup_insert_ne].
      destruct (ix_live _ _ _ I l y Hst) as [_ Hg2].
      destruct (index_entry g st G k (Some l) I Hg) as (l2 & x2 & [= <-] & Hx2 & _ & Hn2).
      pose proof (ix_name _ _ _ I k' y Hy). congruence.
  - intros k' [Hy Hne]%lookup_insert_None. by apply (ix_none _ _ _ I).
  - intros k' y [[<- <-]|[Hne Hy]]%lookup_insert_Some; [done|]. by apply (ix_name _ _ _ I).
  - intros l' y [[<- <-]|[Hne Hy]]%lookup_insert_Some; [rewrite Hn; by rewrite lookup_insert_eq|].
    destruct (ix_live _ _ _ I l' y Hy) as [HG' Hg'].
    assert (k <> name y) by (intros ->; congruence). by rewrite lookup_insert_ne.
Qed.

Lemma index_delete g st G k l : index_rep g st G -> g !! k = Some (Some l) ->
  index_rep (delete k g) (delete l st) (delete k G).
Proof.
  intros I Hg. constructor.
  - intros k' y [Hne Hy]%lookup_delete_Some. destruct (ix_some _ _ _ I k' y Hy) as (l' & Hg' & Hst).
    exists l'. rewrite lookup_delete_ne by done. split; [done|]. rewrite lookup_delete_ne; [done|].
    intros <-. destruct (index_entry g st G k (Some l) I Hg) as (l2 & x2 & [= <-] & Hx2 & _ & Hn2).
    pose proof (ix_name _ _ _ I k' y Hy). congruence.
  - intros k' [->|Hy]%lookup_delete_None; apply lookup_delete_None; [by left|]. right.
    by apply (ix_none _ _ _ I).
  - intros k' y [Hne Hy]%lookup_delete_Some. by apply (ix_name _ _ _ I).
  - intros l' y [Hne Hy]%lookup_delete_Some. destruct (ix_live _ _ _ I l' y Hy) as [HG' Hg'].
    assert (k <> name y) by (intros ->; congruence). by rewrite !lookup_delete_ne.
Qed.

(** ** Destroying an indexed store through the index *)

(** The live objects are those the remaining entries point to, each once. *)
Definition live_values G (kvs : list (KeyValuePair cstring (ptr loc))) st : Prop :=
  NoDup (value <$> kvs) /\
  (forall kv, kv ∈ kvs ->
    exists l x, value kv = Some l /\ st !! l = Some x /\ G !! key kv = Some x) /\
  (forall l, is_Some (st !! l) -> Some l ∈ value <$> kvs).

Lemma index_live_values g st G kvs : index_rep g st G ->
  map_to_list g ≡ₚ as_pair <$> kvs -> live_values G kvs st.
Proof.
  intros I P.
  assert (forall kv, kv ∈ kvs -> g !! key kv = Some (value kv)) as Hin.
  { intros kv Hkv. apply elem_of_map_to_list. rewrite P. apply list_elem_of_fmap. by exists kv. }
  split; [|split].
  - apply NoDup_fmap_2_strong.
    + intros a b Ha%Hin Hb%Hin E.
      destruct (index_entry g st G _ _ I Ha) as (l & x & El & Hx & _ & Hn).
      destruct (index_entry g st G _ _ I Hb) as (l2 & x2 & El2 & Hx2 & _ & Hn2).
      destruct a as [ka va], b as [kb vb]. cbn in *. f_equal; [|done]. congruence.
    + eapply NoDup_fmap_1. rewrite <-P. apply NoDup_map_to_list.
  - intros kv Hkv%Hin. destruct (index_entry g st G _ _ I Hkv) as (l & x & El & Hx & HG & _).
    by exists l, x.
  - intros l [x Hx]. destruct (ix_live _ _ _ I l x Hx) as [_ Hg].
    apply elem_of_map_to_list in Hg. rewrite P in Hg.
    apply list_elem_of_fmap in Hg as (kv & E & Hkv). injection E as _ E.
    rewrite E. by apply list_elem_of_fmap_2.
Qed.

Lemma live_values_cons G kv kvs st : live_values G (kv :: kvs) st ->
  exists l x, value kv = Some l /\ st !! l = Some x /\ G !! key kv = Some x /\
    live_values G kvs (delete l st).
Proof.
  intros (N & Hin & Hlive). destruct (Hin kv) as (l & x & El & Hx & HG); [apply elem_of_cons; by left|].
  exists l, x. repeat (split; [done|]).
  rewrite fmap_cons in N. apply NoDup_cons in N as [Hni N]. split; [done|]. split.
  - intros kv' Hkv'. destruct (Hin kv') as (l' & x' & El' & Hx' & HG'); [apply elem_of_cons; by right|].
    exists l', x'. split; [done|]. split; [|done]. rewrite lookup_delete_ne; [done|].
    intros ->. apply Hni. rewrite El, <-El'. by apply list_elem_of_fmap_2.
  - intros l' [y [Hne Hy]%lookup_delete_Some].
    assert (Some l' ∈ value <$> kv :: kvs) as [E|]%elem_of_cons by (apply Hlive; by exists y); [|done].
    congruence.
Qed.

Lemma live_values_nil G st : live_values G [] st -> st = ∅.
Proof.
  intros (_ & _ & Hlive). apply map_empty. intros l. destruct (st !! l) as [x|] eqn:E; [|done].
  exfalso. eapply not_elem_of_nil. apply (Hlive l). by exists x.
Qed.

End index.
