(* ===== verification/GroupMng.v ===== *)
(** * The group manager: [server/group.h], [server/group_mng.h], [server/group_mng.c]

    Groups are heap objects, indexed by name in a hash map, each holding one
    multicast address of the pool and the number of its members.  The pool is
    the server's: the manager only refers to it.  The file proves that the
    manager refines an abstract state, a finite map from names to groups and
    the list of free addresses ([gm_rep]), with every operation's effect and
    result on it, allocation failures included. *)

From S2P Require Import Prelude Protocol GenQueue HashMap HashUtils FreeMcQueue Index.

(** [Group] *)
Record Group := MkGroup {
  g_name : cstring;
  mcast_ip : cstring;
  mcast_port : Z;
  member_count : Z
}.

(** The heap objects the manager shares with its callers: the groups by
    address, and the server's one [FreeMcQueue] ([None] when there is none). *)
Record gheap := MkGheap { groups : gmap loc Group; mcq : option FreeMcQueue }.

(** [struct GroupMng]; [ipPool] points to the one [FreeMcQueue]. *)
Record GroupMng := MkGroupMng {
  groupsByName : ptr (HashMap cstring (ptr loc));
  ipPool : ptr unit
}.

(** The object [ipPool] points to, for the calls of the pool. *)
Definition pool_arg (mng : GroupMng) (hp : gheap) : option (ptr FreeMcQueue) :=
  match ipPool mng with
  | None => Some NULL
  | Some _ => f ← mcq hp; Some (Some f)
  end.
Definition set_pool (hp : gheap) (q : ptr FreeMcQueue) : gheap :=
  match q with Some f => MkGheap (groups hp) (Some f) | None => hp end.

Definition set_index (mng : GroupMng) h : GroupMng := MkGroupMng h (ipPool mng).

Definition DestroyGroupCallback (_value : ptr loc) (st : gmap loc Group) : M (gmap loc Group) :=
  match _value with
  | None => mret st
  | Some l =>
      _ ← lift (st !! l);
      free;;
      mret (delete l st)
  end.

Definition GroupMng_Create (_pool : ptr unit) : M (ptr GroupMng) :=
  match _pool with
  | None => mret NULL
  | Some _ =>
      ok ← malloc;
      if negb ok then mret NULL else
      h ← HashMap_Create 100 (Some string_hash) (Some string_equal);
      match h with
      | None => free;; mret NULL
      | Some _ => mret (Some (MkGroupMng h _pool))
      end
  end.

Definition GroupMng_Destroy (_mng : ptr (ptr GroupMng)) (hp : gheap)
  : M (ptr (ptr GroupMng) * gheap) :=
  match _mng with
  | Some (Some mng) =>
      '(_, st) ← HashMap_Destroy (Some (groupsByName mng)) NULL (Some DestroyGroupCallback) (groups hp);
      free;;
      mret (Some NULL, MkGheap st (mcq hp))
  | _ => mret (_mng, hp)
  end.

Definition GroupMng_CreateGroup (_mng : ptr GroupMng) (hp : gheap) (_groupName : ptr cstring)
    (_outGroup : ptr (ptr loc)) : M (ChatStatus * ptr (ptr loc) * ptr GroupMng * gheap) :=
  match _mng, _groupName, _outGroup with
  | Some mng, Some k, Some _ =>
      '(r, _) ← lift (HashMap_Find (groupsByName mng) _groupName (Some NULL));
      if decide (r = MAP_SUCCESS) then mret (ST_ERR_GROUP_EXISTS, _outGroup, _mng, hp) else
      q ← lift (pool_arg mng hp);
      '(taken, q, pr) ← FreeMcQueue_Take q (Some (MkMcastPair [] 0));
      let hp := set_pool hp q in
      if 0 =? taken then mret (ST_ERR_SERVER_FULL, _outGroup, _mng, hp) else
      pr ← lift pr;
      ok ← malloc;
      if negb ok then
        q ← lift (pool_arg mng hp);
        '(_, q) ← FreeMcQueue_Return q (Some pr);
        mret (ST_ERR_PROTOCOL, _outGroup, _mng, set_pool hp q)
      else
      ip16 ← lift (strcpy CHAT_MAX_IP_STR_LEN (ip pr));
      let newGroup := fresh (dom (groups hp)) in
      let grp := MkGroup (strncpy CHAT_MAX_GROUPNAME_LEN k) ip16 (port pr) 1 in
      let hp := MkGheap (<[newGroup := grp]> (groups hp)) (mcq hp) in
      '(r, h) ← HashMap_Insert (groupsByName mng) (Some (g_name grp)) (Some newGroup);
      let mng := set_index mng h in
      if decide (r <> MAP_SUCCESS) then
        q ← lift (pool_arg mng hp);
        '(_, q) ← FreeMcQueue_Return q (Some pr);
        let hp := set_pool hp q in
        free;;
        mret (ST_ERR_PROTOCOL, _outGroup, Some mng, MkGheap (delete newGroup (groups hp)) (mcq hp))
      else mret (ST_OK, Some (Some newGroup), Some mng, hp)
  | _, _, _ => mret (ST_ERR_PROTOCOL, _outGroup, _mng, hp)
  end.

(** [group->member_count = n] *)
Definition set_count (hp : gheap) (l : loc) (grp : Group) (n : Z) : gheap :=
  MkGheap (<[l := MkGroup (g_name grp) (mcast_ip grp) (mcast_port grp) n]> (groups hp)) (mcq hp).

Definition GroupMng_JoinGroup (_mng : ptr GroupMng) (hp : gheap) (_groupName : ptr cstring)
    (_outGroup : ptr (ptr loc)) : option (ChatStatus * ptr (ptr loc) * gheap) :=
  match _mng, _groupName, _outGroup with
  | Some mng, Some _, Some _ =>
      r ← HashMap_Find (groupsByName mng) _groupName (Some NULL);
      if decide (fst r <> MAP_SUCCESS) then Some (ST_ERR_GROUP_NOT_FOUND, _outGroup, hp) else
      group ← mjoin (snd r);
      grp ← groups hp !! group;
      Some (ST_OK, Some (Some group), set_count hp group grp (size_t (member_count grp + 1)))
  | _, _, _ => Some (ST_ERR_PROTOCOL, _outGroup, hp)
  end.

Definition GroupMng_LeaveGroup (_mng : ptr GroupMng) (hp : gheap) (_groupName : ptr cstring)
  : M (ChatStatus * ptr GroupMng * gheap) :=
  match _mng, _groupName with
  | Some mng, Some k =>
      '(r, v) ← lift (HashMap_Find (groupsByName mng) _groupName (Some NULL));
      if decide (r <> MAP_SUCCESS) then mret (ST_ERR_GROUP_NOT_FOUND, _mng, hp) else
      group ← lift (mjoin v);
      grp ← lift (groups hp !! group);
      let hp := (if member_count grp >? 0
                 then set_count hp group grp (size_t (member_count grp - 1)) else hp) in
      grp ← lift (groups hp !! group);
      if 0 =? member_count grp then
        s ← lift (strcpy CHAT_MAX_IP_STR_LEN (mcast_ip grp));
        q ← lift (pool_arg mng hp);
        '(_, q) ← FreeMcQueue_Return q (Some (MkMcastPair s (mcast_port grp)));
        let hp := set_pool hp q in
        '(_, _, pVal, h) ← HashMap_Remove (groupsByName mng) _groupName (Some NULL) (Some NULL);
        pVal ← lift pVal;
        st ← DestroyGroupCallback pVal (groups hp);
        mret (ST_OK, Some (set_index mng h), MkGheap st (mcq hp))
      else mret (ST_OK, _mng, hp)
  | _, _ => mret (ST_ERR_PROTOCOL, _mng, hp)
  end.

(** ** The abstract state of the manager *)

Definition pair_of (grp : Group) : McastPair := MkMcastPair (mcast_ip grp) (mcast_port grp).
Definition pairs_of (G : gmap cstring Group) : list McastPair :=
  (fun x => pair_of x.2) <$> map_to_list G.

(** The groups by name, and the free addresses in the order they will be used.
    Every address is either free or held by one group; addresses may be
    missing (an allocation failed), never duplicated. *)
Record gm_rep (mng : GroupMng) (hp : gheap) (G : gmap cstring Group) (ps : list McastPair) : Prop := {
  gm_index : exists h g, groupsByName mng = Some h /\ hm_rep h g /\ index_rep g_name g (groups hp) G;
  gm_pool : ipPool mng = Some tt /\ exists f, mcq hp = Some f /\ pool_rep f ps;
  gm_addresses : ps ++ pairs_of G ⊆+ initial_pairs;
  gm_members : forall k grp, G !! k = Some grp -> 1 <= member_count grp < 2 ^ 64
}.

(** Heap blocks: the manager, its hash map, a node, a pair and a group per
    group, and the pool. *)
Definition gm_blocks (mng : GroupMng) (G : gmap cstring Group) (ps : list McastPair) : Z :=
  1 + match groupsByName mng with Some h => 2 + lists_of h | None => 0 end
  + 3 * Z.of_nat (size G) + pool_blocks ps.

(** ** Lemmas *)

Lemma pairs_of_insert G k grp : G !! k = None -> pairs_of (<[k := grp]> G) ≡ₚ pair_of grp :: pairs_of G.
Proof. intros Hk. unfold pairs_of. by rewrite map_to_list_insert. Qed.

Lemma pairs_of_delete G k grp : G !! k = Some grp -> pairs_of G ≡ₚ pair_of grp :: pairs_of (delete k G).
Proof. intros Hk. unfold pairs_of. by rewrite <-(map_to_list_delete G k grp Hk). Qed.

Lemma pairs_of_update G k grp grp' : G !! k = Some grp -> pair_of grp' = pair_of grp ->
  pairs_of (<[k := grp']> G) ≡ₚ pairs_of G.
Proof.
  intros Hk E. rewrite (pairs_of_delete G k grp Hk), (pairs_of_delete _ k grp').
  - by rewrite delete_insert_eq, E.
  - by rewrite lookup_insert_eq.
Qed.

Lemma gm_pair_ok mng hp G ps k grp : gm_rep mng hp G ps -> G !! k = Some grp -> pair_ok (pair_of grp) /\
  (length ps < 255)%nat.
Proof.
  intros R Hk. pose proof (gm_addresses _ _ _ _ R) as S. split.
  - apply initial_good. eapply elem_of_submseteq; [|exact S]. apply elem_of_app. right.
    apply list_elem_of_fmap. exists (k, grp). split; [done|]. by apply elem_of_map_to_list.
  - apply submseteq_length in S. rewrite length_app, (Permutation_length (pairs_of_delete G k grp Hk)) in S.
    rewrite initial_pairs_length in S. cbn [length] in S. lia.
Qed.

Lemma gm_free_ok mng hp G p ps : gm_rep mng hp G (p :: ps) -> pair_ok p /\ (length ps < 255)%nat.
Proof.
  intros R. pose proof (gm_addresses _ _ _ _ R) as S. split.
  - apply initial_good. eapply elem_of_submseteq; [|exact S]. by left.
  - apply submseteq_length in S. rewrite initial_pairs_length in S. cbn [app length] in S. rewrite length_app in S. lia.
Qed.

(** The three pieces of an operation. *)
Lemma gm_find mng hp G ps k : gm_rep mng hp G ps ->
  match G !! k with
  | Some grp => exists l, groups hp !! l = Some grp /\ g_name grp = k /\
      HashMap_Find (groupsByName mng) (Some k) (Some NULL) = Some (MAP_SUCCESS, Some (Some l))
  | None => HashMap_Find (groupsByName mng) (Some k) (Some NULL) = Some (MAP_KEY_NOT_FOUND_ERROR, Some NULL)
  end.
Proof.
  intros R. destruct (gm_index _ _ _ _ R) as (h & g & -> & Hr & I).
  rewrite (rep_Find h g k _ Hr). pose proof (index_lookup g_name g (groups hp) G k I) as L.
  destruct (G !! k) as [grp|].
  - destruct L as (l & -> & Hl & Hn). by exists l.
  - by rewrite L.
Qed.

Lemma pool_arg_rep mng hp G ps : gm_rep mng hp G ps ->
  exists f, pool_arg mng hp = Some (Some f) /\ pool_rep f ps.
Proof.
  intros R. destruct (gm_pool _ _ _ _ R) as (Hp & f & Hf & Rp).
  exists f. unfold pool_arg. by rewrite Hp, Hf.
Qed.

Lemma size_insert_new {A} (G : gmap cstring A) k x : G !! k = None -> size (<[k := x]> G) = S (size G).
Proof. apply map_size_insert_None. Qed.

Lemma size_delete_old {A} (G : gmap cstring A) k x : G !! k = Some x ->
  S (size (delete k G)) = size G.
Proof.
  intros Hk. rewrite map_size_delete_Some by done.
  assert (size G <> 0)%nat by (by apply map_size_non_empty_iff; intros ->). lia.
Qed.

Lemma size_update_old {A} (G : gmap cstring A) k x y : G !! k = Some x -> size (<[k := y]> G) = size G.
Proof. intros Hk. by rewrite map_size_insert_Some. Qed.

(** A manager whose table changed but whose groups did not. *)
Lemma gm_rep_change mng hp G ps h' st' f' g' G' ps' :
  gm_rep mng hp G ps -> hm_rep h' g' -> index_rep g_name g' st' G' -> pool_rep f' ps' ->
  ps' ++ pairs_of G' ⊆+ ps ++ pairs_of G ->
  (forall k grp, G' !! k = Some grp -> 1 <= member_count grp < 2 ^ 64) ->
  gm_rep (set_index mng (Some h')) (MkGheap st' (Some f')) G' ps'.
Proof.
  intros R Hr I Rp Hs Hm. constructor.
  - by exists h', g'.
  - split; [apply (gm_pool _ _ _ _ R)|]. by exists f'.
  - etrans; [exact Hs|apply (gm_addresses _ _ _ _ R)].
  - done.
Qed.

Lemma gm_rep_eta mng hp G ps : gm_rep mng hp G ps ->
  exists h g f, groupsByName mng = Some h /\ mng = set_index mng (Some h) /\
    hm_rep h g /\ index_rep g_name g (groups hp) G /\ size g = size G /\
    hp = MkGheap (groups hp) (Some f) /\ mcq hp = Some f /\ pool_rep f ps.
Proof.
  intros R. destruct (gm_index _ _ _ _ R) as (h & g & Hh & Hr & I).
  destruct (gm_pool _ _ _ _ R) as (_ & f & Hf & Rp). exists h, g, f.
  split; [done|]. split; [destruct mng; cbn in *; by subst|]. split; [done|]. split; [done|].
  split; [by eapply index_size|]. split; [destruct hp; cbn in *; by subst|]. done.
Qed.

(** ** Joining *)

Definition joined (grp : Group) : Group :=
  MkGroup (g_name grp) (mcast_ip grp) (mcast_port grp) (member_count grp + 1).

Lemma gm_rep_update mng hp G ps k l grp n :
  gm_rep mng hp G ps -> G !! k = Some grp -> groups hp !! l = Some grp -> g_name grp = k ->
  1 <= n < 2 ^ 64 ->
  gm_rep mng (set_count hp l grp n)
    (<[k := MkGroup (g_name grp) (mcast_ip grp) (mcast_port grp) n]> G) ps.
Proof.
  intros R Hk Hl Hn Hc. destruct (gm_rep_eta mng hp G ps R) as (h & g & f & Hh & Em & Hr & I & _ & Eh & Hf & Rp).
  unfold set_count. rewrite Hf, Em. destruct (ix_live _ _ _ _ I l grp Hl) as [_ Hg]. rewrite Hn in Hg.
  eapply gm_rep_change; try done.
  - by eapply index_update.
  - rewrite (pairs_of_update G k grp) by done. done.
  - intros k' grp' [[<- <-]|[_ Hk']]%lookup_insert_Some; [done|]. by eapply (gm_members _ _ _ _ R).
Qed.

Lemma rep_JoinGroup mng hp G ps k out :
  gm_rep mng hp G ps ->
  match G !! k with
  | None => GroupMng_JoinGroup (Some mng) hp (Some k) (Some out) = Some (ST_ERR_GROUP_NOT_FOUND, Some out, hp)
  | Some grp => member_count grp + 1 < 2 ^ 64 ->
      exists l, GroupMng_JoinGroup (Some mng) hp (Some k) (Some out)
        = Some (ST_OK, Some (Some l), set_count hp l grp (member_count grp + 1)) /\
      groups (set_count hp l grp (member_count grp + 1)) !! l = Some (joined grp) /\
      gm_rep mng (set_count hp l grp (member_count grp + 1)) (<[k := joined grp]> G) ps
  end.
Proof.
  intros R. pose proof (gm_find mng hp G ps k R) as F. unfold GroupMng_JoinGroup.
  destruct (G !! k) as [grp|] eqn:Hk.
  - intros Hc. destruct F as (l & Hl & Hn & ->). cbn [mbind option_bind fst snd mjoin option_join].
    rewrite decide_False by (by intros []). rewrite Hl. cbn [mbind option_bind].
    pose proof (gm_members _ _ _ _ R k grp Hk). rewrite size_t_id by lia.
    exists l. split; [done|]. split; [by apply lookup_insert_eq|]. apply gm_rep_update; (done || lia).
  - rewrite F. cbn [mbind option_bind fst]. by rewrite decide_True.
Qed.

(** ** Leaving *)

Definition left_by_one (grp : Group) : Group :=
  MkGroup (g_name grp) (mcast_ip grp) (mcast_port grp) (member_count grp - 1).

Lemma destroy_group_spec l st grp m : st !! l = Some grp ->
  DestroyGroupCallback (Some l) st m = Some (delete l st, Mem (plan m) (live m - 1)).
Proof. intros Hl. unfold DestroyGroupCallback. rewrite Hl. mlift. by mfree. Qed.

(** The last member leaves: the group goes and its address is returned. *)
Lemma rep_LeaveGroup_last mng hp G ps k grp m :
  gm_rep mng hp G ps -> G !! k = Some grp -> member_count grp = 1 ->
  exists mng' hp' m' ps',
    GroupMng_LeaveGroup (Some mng) hp (Some k) m = Some ((ST_OK, Some mng', hp'), m') /\
    gm_rep mng' hp' (delete k G) ps' /\
    (ps' = ps ++ [pair_of grp] \/ (ps' = ps /\ ~ alloc_ok m)) /\
    live m' - gm_blocks mng' (delete k G) ps' = live m - gm_blocks mng G ps /\
    (alloc_ok m -> alloc_ok m').
Proof.
  intros R Hk Hc. destruct (gm_rep_eta mng hp G ps R) as (h & g & f & Hh & Em & Hr & I & Hsz & Eh & Hf & Rp).
  pose proof (gm_find mng hp G ps k R) as F. rewrite Hk in F. destruct F as (l & Hl & Hn & F).
  destruct (gm_pair_ok _ _ _ _ _ _ R Hk) as [Hok Hlen].
  unfold GroupMng_LeaveGroup. rewrite F. mlift. rewrite decide_False by (by intros []).
  cbn [mjoin option_join]. mlift. rewrite Hl. mlift. rewrite Hc. cbn [Z.gtb Z.compare].
  change (size_t (1 - 1)) with 0. cbn [set_count groups]. rewrite lookup_insert_eq. mlift.
  cbn [member_count mcast_ip mcast_port]. rewrite Z.eqb_refl.
  unfold strcpy. rewrite (proj2 (Z.ltb_lt _ _)) by exact Hok. mlift.
  unfold pool_arg. cbn [set_count mcq]. destruct (gm_pool _ _ _ _ R) as [Hp _]. rewrite Hp, Hf.
  cbn [mbind option_bind]. mlift.
  destruct (rep_Return f ps (pair_of grp) m Rp Hok) as (r & f' & m1 & E & Hcase & Ho).
  mrun E. cbn [set_pool groups mcq]. rewrite Hh.
  destruct (ix_live _ _ _ _ I l grp Hl) as [_ Hg]. rewrite Hn in Hg.
  pose proof (rep_Remove h g k (Some NULL) (Some NULL) m1 Hr) as Rm. rewrite Hg in Rm.
  destruct Rm as (h' & Hr' & Hb & Erm). mrun Erm. mlift.
  cbn [set_count groups].   rewrite (M_bind_Some _ _ _ _ _ (destroy_group_spec l _ _ _ (lookup_insert_eq _ _ _))).
  assert (blocks h' (delete k g) = 2 + lists_of h' + 2 * Z.of_nat (size (delete k G))) as B'.
  { unfold blocks. pose proof (size_delete_old _ _ _ Hg). pose proof (size_delete_old _ _ _ Hk). lia. }
  pose proof (size_delete_old _ _ _ Hk) as Hs. unfold blocks in Hb, B'.
  eexists _, _, _, (if r =? 1 then ps ++ [pair_of grp] else ps). split; [done|].
  rewrite delete_insert_eq. split; [|split; [|split]].
  - eapply gm_rep_change; try done.
    + by apply index_delete.
    + destruct Hcase as [(-> & ? & _)|(-> & ? & _)]; done.
    + rewrite (pairs_of_delete G k grp Hk). destruct (r =? 1).
      * by rewrite <-app_assoc.
      * apply submseteq_app; [done|]. by apply submseteq_cons.
    + intros k' grp' [_ Hk']%lookup_delete_Some. by eapply (gm_members _ _ _ _ R).
  - destruct Hcase as [(-> & _)|(-> & _)]; [by left|]. right. split; [done|].
    intros Hm. destruct (Ho Hm) as [_ Hr1]. by specialize (Hr1 Hlen).
  - unfold gm_blocks, pool_blocks. cbn [set_index groupsByName live]. rewrite Hh.
    destruct Hcase as [(-> & _ & L)|(-> & _ & L)]; cbn [Z.eqb Pos.eqb]; rewrite ?length_app; cbn [length]; lia.
  - intros Hm. by destruct (Ho Hm).
Qed.

Lemma rep_LeaveGroup_more mng hp G ps k grp m :
  gm_rep mng hp G ps -> G !! k = Some grp -> member_count grp <> 1 ->
  exists hp', GroupMng_LeaveGroup (Some mng) hp (Some k) m = Some ((ST_OK, Some mng, hp'), m) /\
    gm_rep mng hp' (<[k := left_by_one grp]> G) ps.
Proof.
  intros R Hk Hc. pose proof (gm_find mng hp G ps k R) as F. rewrite Hk in F.
  destruct F as (l & Hl & Hn & F). pose proof (gm_members _ _ _ _ R k grp Hk) as Hm.
  unfold GroupMng_LeaveGroup. rewrite F. mlift. rewrite decide_False by (by intros []).
  cbn [mjoin option_join]. mlift. rewrite Hl. mlift.
  rewrite Z.gtb_ltb, (proj2 (Z.ltb_lt _ _)), size_t_id by lia.
  cbn [set_count groups]. rewrite lookup_insert_eq. mlift. cbn [member_count].
  rewrite (proj2 (Z.eqb_neq _ _)) by lia. eexists. split; [done|].
  apply gm_rep_update; (done || lia).
Qed.

Lemma rep_LeaveGroup_none mng hp G ps k m : gm_rep mng hp G ps -> G !! k = None ->
  GroupMng_LeaveGroup (Some mng) hp (Some k) m = Some ((ST_ERR_GROUP_NOT_FOUND, Some mng, hp), m).
Proof.
  intros R Hk. pose proof (gm_find mng hp G ps k R) as F. rewrite Hk in F.
  unfold GroupMng_LeaveGroup. rewrite F. mlift. by rewrite decide_True.
Qed.

(** ** Creating *)

Definition new_group (k : cstring) (p : McastPair) : Group := MkGroup k (ip p) (port p) 1.

Lemma pair_of_new k p : pair_of (new_group k p) = p.
Proof. by destruct p. Qed.

(** What creating a group does, in terms of the abstract state. *)
Definition create_result (G : gmap cstring Group) (ps : list McastPair) (k : cstring) (m : mem)
    (st : ChatStatus) (G' : gmap cstring Group) (ps' : list McastPair) : Prop :=
  match G !! k, ps with
  | Some _, _ => st = ST_ERR_GROUP_EXISTS /\ G' = G /\ ps' = ps
  | None, [] => st = ST_ERR_SERVER_FULL /\ G' = G /\ ps' = []
  | None, p :: ps0 =>
      (st = ST_OK /\ G' = <[k := new_group k p]> G /\ ps' = ps0) \/
      (st = ST_ERR_PROTOCOL /\ G' = G /\ (ps' = ps0 ++ [p] \/ ps' = ps0) /\ ~ alloc_ok m)
  end.

(** A call of [GroupMng_CreateGroup] that ends in a state representing [G']
    and [ps'], without a leak. *)
Definition created mng G ps k out m (o : option (ChatStatus * ptr (ptr loc) * ptr GroupMng * gheap * mem)) : Prop :=
  exists st out' mng' hp' m' G' ps',
    o = Some ((st, Some out', Some mng', hp'), m') /\
    gm_rep mng' hp' G' ps' /\ create_result G ps k m st G' ps' /\
    (if decide (st = ST_OK)
     then exists l grp, out' = Some l /\ G' !! k = Some grp /\ groups hp' !! l = Some grp
     else out' = out) /\
    live m' - gm_blocks mng' G' ps' = live m - gm_blocks mng G ps /\
    (alloc_ok m -> alloc_ok m').

(** Undoing the assignment of an address. *)
Lemma undo_take mng hp G p ps f h' g' m :
  gm_rep mng hp G (p :: ps) -> pool_rep f ps -> hm_rep h' g' -> index_rep g_name g' (groups hp) G ->
  exists r f' m' ps', FreeMcQueue_Return (Some f) (Some p) m = Some ((r, Some f'), m') /\
    gm_rep (set_index mng (Some h')) (MkGheap (groups hp) (Some f')) G ps' /\
    (ps' = ps ++ [p] \/ ps' = ps) /\ live m' = live m + pool_blocks ps' - pool_blocks ps /\
    (alloc_ok m -> alloc_ok m').
Proof.
  intros R Rp Hr I. destruct (gm_free_ok _ _ _ _ _ R) as [Hok Hlen].
  destruct (rep_Return f ps p m Rp Hok) as (r & f' & m1 & E & Hcase & Ho).
  destruct Hcase as [(-> & Rp' & L)|(-> & Rp' & L)].
  - exists 1, f', m1, (ps ++ [p]). split; [done|]. split; [|split; [by left|split]].
    + eapply gm_rep_change; try done; [|by apply (gm_members _ _ _ _ R)].
      by rewrite <-Permutation_cons_append.
    + unfold pool_blocks. rewrite length_app. cbn [length]. lia.
    + intros Hm. by destruct (Ho Hm).
  - exists 0, f', m1, ps. split; [done|]. split; [|split; [by right|split]].
    + eapply gm_rep_change; try done; [|by apply (gm_members _ _ _ _ R)].
      by apply submseteq_cons.
    + lia.
    + intros Hm. by destruct (Ho Hm).
Qed.

(** The new group is in the index, with the address that was taken. *)
Lemma gm_rep_new mng hp G p ps k l h h' g f : gm_rep mng hp G (p :: ps) -> groupsByName mng = Some h ->
  index_rep g_name g (groups hp) G -> G !! k = None -> groups hp !! l = None -> pool_rep f ps ->
  hm_rep h' (<[k := Some l]> g) ->
  gm_rep (set_index mng (Some h')) (MkGheap (<[l := new_group k p]> (groups hp)) (Some f)) (<[k := new_group k p]> G) ps.
Proof.
  intros R Hh I Hk Hl Rp Hr'. eapply gm_rep_change; try done.
  - by apply index_insert.
  - rewrite pairs_of_insert, pair_of_new by done. by rewrite <-Permutation_middle.
  - intros k' grp' [[_ <-]|[_ Hk']]%lookup_insert_Some; [cbn; lia|]. by eapply (gm_members _ _ _ _ R).
Qed.

(** The address [p] was taken: the group is allocated and inserted. *)
Lemma create_taken mng hp G p ps k out f m
    (R : gm_rep mng hp G (p :: ps)) (Hk : G !! k = None)
    (Hlen : strlen k <= CHAT_MAX_GROUPNAME_LEN) (Rp : pool_rep f ps)
    (E : FreeMcQueue_Take (mcq hp) (Some (MkMcastPair [] 0)) m
         = Some ((1, Some f, Some p), Mem (plan m) (live m - 1))) :
  created mng G (p :: ps) k out m (GroupMng_CreateGroup (Some mng) hp (Some k) (Some out) m).
Proof.
  destruct (gm_rep_eta mng hp G (p :: ps) R) as (h & g & f0 & Hh & Em & Hr & I & Hsz & Eh & Hf & _).
  pose proof (gm_find mng hp G (p :: ps) k R) as F. rewrite Hk in F.
  destruct (gm_pool _ _ _ _ R) as [Hp _]. destruct (gm_free_ok _ _ _ _ _ R) as [Hok _].
  unfold GroupMng_CreateGroup. rewrite F. mlift. rewrite decide_False by done.
  unfold pool_arg. rewrite Hp, Hf. rewrite Hf in E. cbn [mbind option_bind]. mlift. mrun E.
  cbn [Z.eqb set_pool]. mlift.
  set (m0 := Mem (plan m) (live m - 1)). destruct (malloc_inv m0) as (b & m1 & E1 & L1 & O1). mrun E1.
  assert (live m0 = live m - 1) as L0 by done.
  assert (alloc_ok m -> alloc_ok m0) as Ho0 by done.
  unfold created, create_result. rewrite Hk. destruct b; cbn [negb]; cycle 1.
  { cbn [mcq mbind option_bind]. mlift.
    destruct (undo_take mng hp G p ps f h g m1 R Rp Hr I) as (r & f' & m2 & ps' & E2 & R2 & Hps & L2 & O2).
    mrun E2. cbn [set_pool groups]. rewrite <-Em in R2.
    eexists _, _, _, _, _, G, ps'. split; [done|]. split; [done|]. split; [right|].
    - repeat (split; [done|]). intros Hm. by destruct (O1 (Ho0 Hm)).
    - rewrite decide_False by done. split; [done|]. unfold gm_blocks, pool_blocks in *. cbn [length].
      split; [lia|]. intros Hm. apply O2. by apply O1. }
  unfold strcpy. rewrite (proj2 (Z.ltb_lt _ _)) by exact Hok. mlift. rewrite Hh. cbn [groups mcq g_name].
  rewrite (strncpy_fits _ k Hlen). set (l := fresh (dom (groups hp))).
  change (MkGroup k (ip p) (port p) 1) with (new_group k p).
  assert (g !! k = None) as Hgk by (by apply (ix_none _ _ _ _ I)).
  assert (groups hp !! l = None) as Hl by (apply not_elem_of_dom, is_fresh).
  pose proof (rep_Insert h g k (Some l) m1 Hr) as Ins. rewrite Hgk in Ins.
  destruct Ins as (r & h' & m2 & E2 & Hcase & O2). mrun E2. case_decide as Er.
  - destruct Hcase as [Hr' L2]. rewrite decide_False by (intros []; done).
    eexists ST_OK, (Some l), _, _, m2, (<[k := new_group k p]> G), ps. split; [done|].
    split; [|split; [by left|split; [|split]]].
    + by eapply gm_rep_new.
    + rewrite decide_True by done. exists l, (new_group k p). cbn [groups]. rewrite !lookup_insert_eq. done.
    + unfold gm_blocks, pool_blocks, blocks in *. cbn [set_index groupsByName length].
      rewrite Hh. rewrite !map_size_insert_None in * by done. lia.
    + intros Hm. apply O2. by apply O1.
  - destruct Hcase as (-> & Hr' & L2). rewrite decide_True by done.
    cbn [set_index ipPool]. rewrite ?Hp. cbn [mbind option_bind mcq]. mlift.
    destruct (undo_take mng hp G p ps f h' g m2 R Rp Hr' I) as (r & f' & m3 & ps' & E3 & R3 & Hps & L3 & O3).
    mrun E3. mfree. cbn [set_pool groups mcq]. rewrite delete_insert_id by done.
    eexists ST_ERR_PROTOCOL, out, _, _, _, G, ps'. split; [done|]. split; [done|]. split; [right|].
    + repeat (split; [done|]). intros Hm. by destruct (O2 (proj2 (O1 (Ho0 Hm)))).
    + rewrite decide_False by done. split; [done|]. unfold gm_blocks, pool_blocks, blocks in *.
      cbn [set_index groupsByName live length]. rewrite Hh. split; [lia|].
      intros Hm. apply O3. apply O2. by apply O1.
Qed.

Lemma rep_CreateGroup mng hp G ps k out m :
  gm_rep mng hp G ps -> strlen k <= CHAT_MAX_GROUPNAME_LEN ->
  created mng G ps k out m (GroupMng_CreateGroup (Some mng) hp (Some k) (Some out) m).
Proof.
  intros R Hlen. destruct (gm_rep_eta mng hp G ps R) as (h & g & f & Hh & Em & Hr & I & Hsz & Eh & Hf & Rp).
  pose proof (gm_find mng hp G ps k R) as F. destruct (G !! k) as [grp|] eqn:Hk.
  - destruct F as (l & Hl & Hn & F). unfold GroupMng_CreateGroup. rewrite F. mlift.
    rewrite decide_True by done. unfold created, create_result. rewrite Hk.
    eexists _, _, _, _, _, G, ps. split; [done|]. split; [done|]. split; [done|].
    rewrite decide_False by done. split; [done|]. split; [lia|done].
  - pose proof (rep_Take f ps (MkMcastPair [] 0) m Rp) as T. destruct ps as [|p ps].
    + destruct T as (f' & E & Rp'). unfold GroupMng_CreateGroup. rewrite F. mlift.
      rewrite decide_False by done. unfold pool_arg. destruct (gm_pool _ _ _ _ R) as [Hp _].
      rewrite Hp, Hf. cbn [mbind option_bind]. mlift. mrun E. cbn [Z.eqb set_pool].
      unfold created, create_result. rewrite Hk. rewrite Em.
      eexists _, _, _, _, _, G, []. split; [done|]. split; [|split; [done|]].
      * eapply gm_rep_change; try done. by apply (gm_members _ _ _ _ R).
      * rewrite decide_False by done. split; [done|]. split; [lia|done].
    + destruct T as (f' & E & Rp'). eapply create_taken; try done. by rewrite Hf.
Qed.

(** ** Lifecycle *)

Lemma rep_GroupMng_Create f ps m : pool_rep f ps -> ps ⊆+ initial_pairs ->
  exists r m', GroupMng_Create (Some tt) m = Some (r, m') /\
  match r with
  | Some mng => gm_rep mng (MkGheap ∅ (Some f)) ∅ ps /\
      live m' = live m + gm_blocks mng ∅ ps - pool_blocks ps
  | None => live m' = live m
  end /\ (alloc_ok m -> r <> None /\ alloc_ok m').
Proof.
  intros Rp Hs. unfold GroupMng_Create.
  destruct (malloc_inv m) as (b & m1 & E1 & L1 & O1). mrun E1. destruct b; cbn [negb]; cycle 1.
  { exists NULL, m1. split; [done|]. split; [done|]. intros Ho. by destruct (O1 Ho). }
  destruct (rep_Create_100 (V := ptr loc) m1) as (r & m2 & E2 & C2 & O2). mrun E2.
  destruct r as [h|]; cycle 1.
  { mfree. eexists NULL, _. split; [done|]. split; [cbn [live]; lia|].
    intros Ho. destruct (O1 Ho) as [_ Ho1]. by destruct (O2 Ho1). }
  destruct C2 as [Hr L2]. eexists (Some _), m2. split; [done|]. split; [split|].
  - constructor.
    + exists h, ∅. split; [done|]. split; [done|]. apply index_empty.
    + split; [done|]. by exists f.
    + unfold pairs_of. by rewrite map_to_list_empty, app_nil_r.
    + done.
  - unfold gm_blocks, blocks in *. cbn [groupsByName]. rewrite map_size_empty; rewrite map_size_empty in L2. lia.
  - intros Ho. destruct (O1 Ho) as [_ Ho1]. by destruct (O2 Ho1).
Qed.

Lemma rep_GroupMng_Destroy mng hp G ps m : gm_rep mng hp G ps ->
  GroupMng_Destroy (Some (Some mng)) hp m
  = Some ((Some NULL, MkGheap ∅ (mcq hp)),
          Mem (plan m) (live m - gm_blocks mng G ps + pool_blocks ps)).
Proof.
  intros R. destruct (gm_rep_eta mng hp G ps R) as (h & g & f & Hh & Em & Hr & I & Hsz & Eh & Hf & Rp).
  unfold GroupMng_Destroy. rewrite Hh.
  destruct (rep_Destroy NULL (Some DestroyGroupCallback) (live_values G) (fun _ => 1))
    with (h := h) (g := g) (c := groups hp) (m := m) as (c' & m' & E & P & Pl & L).
  - intros kv rest c1 m1 HP. destruct (live_values_cons G kv rest c1 HP) as (l & x & Hv & Hl & _ & HP').
    exists (delete l c1), (Mem (plan m1) (live m1 - 1)). split; [|done].
    unfold callbacks. mstep_ret. rewrite Hv. by apply (destroy_group_spec l c1 x).
  - done.
  - intros kvs Hp. by eapply index_live_values.
  - mrun E. mfree. apply live_values_nil in P as ->. rewrite Pl, L.
    unfold mret, M_ret. do 3 f_equal. unfold gm_blocks, blocks. rewrite Hh, zsum_const, length_map_to_list.
    rewrite Hsz. lia.
Qed.

(** ** A concrete manager, for the witnesses: made by the code, with memory
    that never runs out; then with the group ["g"]. *)

Lemma demo_manager : exists f m0 mng m,
  FreeMcQueue_Create (Mem [] 0) = Some (Some f, m0) /\
  GroupMng_Create (Some tt) m0 = Some (Some mng, m) /\
  gm_rep mng (MkGheap ∅ (Some f)) ∅ initial_pairs /\ alloc_ok m.
Proof.
  destruct (rep_pool_create (Mem [] 0)) as (r & m0 & E & C & O).
  destruct O as [Hs O0]; [constructor|]. destruct r as [f|]; [|by destruct Hs].
  destruct C as (ps & Rp & _ & _ & Hps). rewrite Hps in Rp by constructor.
  destruct (rep_GroupMng_Create f initial_pairs m0 Rp) as (r & m & E2 & C2 & O2); [reflexivity|].
  destruct (O2 O0) as [Hs2 O]. destruct r as [mng|]; [|by destruct Hs2]. destruct C2 as [R _].
  exists f, m0, mng, m. exact (conj E (conj E2 (conj R O))).
Qed.

Lemma demo_group : exists f m0 mng0 m1 l mng hp m,
  FreeMcQueue_Create (Mem [] 0) = Some (Some f, m0) /\
  GroupMng_Create (Some tt) m0 = Some (Some mng0, m1) /\
  GroupMng_CreateGroup (Some mng0) (MkGheap ∅ (Some f)) (Some [103]) (Some NULL) m1
    = Some ((ST_OK, Some l, Some mng, hp), m) /\
  gm_rep mng hp {[ [103] := new_group [103] (nth_pair 1) ]} (tail initial_pairs) /\ alloc_ok m.
Proof.
  destruct demo_manager as (f & m0 & mng0 & m1 & E0 & E1 & R & O).
  destruct (rep_CreateGroup mng0 _ ∅ initial_pairs [103] NULL m1 R)
    as (st & l & mng & hp & m & G' & ps' & E & R' & Hres & _ & _ & O'); [by vm_compute|].
  assert (initial_pairs = nth_pair 1 :: tail initial_pairs) as Ei by reflexivity.
  rewrite Ei in Hres. unfold create_result in Hres. rewrite lookup_empty in Hres.
  destruct Hres as [(-> & -> & ->)|(_ & _ & _ & Hbad)]; [|by destruct Hbad].
  exists f, m0, mng0, m1, l, mng, hp, m.
  exact (conj E0 (conj E1 (conj E (conj R' (O' O))))).
Qed.

(** ** Properties *)

(** C32: Creating a group, whatever allocations fail: an existing name is
    rejected and changes nothing; with no free address the server is full; and
    otherwise either the group exists with the first free address and one
    member (and the result points to it), or memory ran out, the group does
    not exist and its address went back to the pool (or is lost, when even
    that allocation failed).  Every address stays free or held by one group,
    and no block is leaked. *)
Theorem group_create_outcomes mng hp G ps k out m :
  gm_rep mng hp G ps -> strlen k <= CHAT_MAX_GROUPNAME_LEN ->
  exists st out' mng' hp' m' G' ps',
    GroupMng_CreateGroup (Some mng) hp (Some k) (Some out) m = Some ((st, Some out', Some mng', hp'), m') /\
    gm_rep mng' hp' G' ps' /\ create_result G ps k m st G' ps' /\
    (st = ST_OK -> exists l grp, out' = Some l /\ G' !! k = Some grp /\ groups hp' !! l = Some grp) /\
    live m' - gm_blocks mng' G' ps' = live m - gm_blocks mng G ps.
Proof.
  intros R Hlen.
  destruct (rep_CreateGroup mng hp G ps k out m R Hlen)
    as (st & out' & mng' & hp' & m' & G' & ps' & E & R' & Hres & Hout & L & _).
  exists st, out', mng', hp', m', G', ps'. repeat (split; [done|]). split; [|done].
  intros ->. by rewrite decide_True in Hout.
Qed.

Lemma group_create_outcomes_witness : exists f m0 mng m,
  FreeMcQueue_Create (Mem [] 0) = Some (Some f, m0) /\
  GroupMng_Create (Some tt) m0 = Some (Some mng, m) /\
  exists st out' mng' hp' m' G' ps',
    GroupMng_CreateGroup (Some mng) (MkGheap ∅ (Some f)) (Some [103]) (Some NULL) (Mem [true; false] 0)
      = Some ((st, Some out', Some mng', hp'), m') /\
    gm_rep mng' hp' G' ps' /\ create_result ∅ initial_pairs [103] (Mem [true; false] 0) st G' ps' /\
    (st = ST_OK -> exists l grp, out' = Some l /\ G' !! [103] = Some grp /\ groups hp' !! l = Some grp) /\
    live m' - gm_blocks mng' G' ps' = 0 - gm_blocks mng ∅ initial_pairs.
Proof.
  destruct demo_manager as (f & m0 & mng & m & E0 & E1 & R & O).
  exists f, m0, mng, m. split; [exact E0|]. split; [exact E1|].
  apply (group_create_outcomes mng (MkGheap ∅ (Some f)) ∅ initial_pairs [103] NULL (Mem [true; false] 0));
    [exact R|by vm_compute].
Defined.

(** C33: Leaving a group decrements its member count, and the group goes with
    its last member: its name is forgotten and its address returns to the back
    of the pool (unless the allocation this takes fails, when the address is
    lost: the failure is ignored); an unknown name is reported.  Nothing is
    leaked. *)
Theorem group_leave_reclaims mng hp G ps k m (R : gm_rep mng hp G ps) :
  exists st mng' hp' m' G' ps',
    GroupMng_LeaveGroup (Some mng) hp (Some k) m = Some ((st, Some mng', hp'), m') /\
    gm_rep mng' hp' G' ps' /\
    live m' - gm_blocks mng' G' ps' = live m - gm_blocks mng G ps /\
    match G !! k with
    | None => st = ST_ERR_GROUP_NOT_FOUND /\ G' = G /\ ps' = ps
    | Some grp => st = ST_OK /\
        if member_count grp =? 1
        then G' = delete k G /\ (ps' = ps ++ [pair_of grp] \/ (ps' = ps /\ ~ alloc_ok m))
        else G' = <[k := left_by_one grp]> G /\ ps' = ps
    end.
Proof.
  destruct (G !! k) as [grp|] eqn:Hk; [destruct (member_count grp =? 1) eqn:Hc; bprop|].
  - destruct (rep_LeaveGroup_last mng hp G ps k grp m R Hk Hc)
      as (mng' & hp' & m' & ps' & E & R' & Hps & L & _).
    by exists ST_OK, mng', hp', m', (delete k G), ps'.
  - destruct (rep_LeaveGroup_more mng hp G ps k grp m R Hk Hc) as (hp' & E & R').
    exists ST_OK, mng, hp', m, (<[k := left_by_one grp]> G), ps.
    repeat (split; [done|]). split; [|done]. unfold gm_blocks. by rewrite (size_update_old _ _ _ _ Hk).
  - exists ST_ERR_GROUP_NOT_FOUND, mng, hp, m, G, ps. split; [by apply (rep_LeaveGroup_none _ _ G ps)|done].
Qed.

Lemma group_leave_reclaims_witness : exists mng hp,
  gm_rep mng hp {[ [103] := new_group [103] (nth_pair 1) ]} (tail initial_pairs) /\
  exists st mng' hp' m' G' ps',
    GroupMng_LeaveGroup (Some mng) hp (Some [103]) (Mem [] 0) = Some ((st, Some mng', hp'), m') /\
    gm_rep mng' hp' G' ps' /\
    live m' - gm_blocks mng' G' ps'
      = 0 - gm_blocks mng {[ [103] := new_group [103] (nth_pair 1) ]} (tail initial_pairs) /\
    st = ST_OK /\ G' = delete [103] {[ [103] := new_group [103] (nth_pair 1) ]} /\
    (ps' = tail initial_pairs ++ [nth_pair 1] \/ (ps' = tail initial_pairs /\ ~ alloc_ok (Mem [] 0))).
Proof.
  destruct demo_group as (f & m0 & mng0 & m1 & l & mng & hp & m & _ & _ & _ & R & O).
  exists mng, hp. split; [exact R|].
  exact (group_leave_reclaims mng hp _ (tail initial_pairs) [103] (Mem [] 0) R).
Defined.

(** Leaving undoes joining: after [GroupMng_JoinGroup] of an existing
    group, [GroupMng_LeaveGroup] of the same name gives back the same groups
    with the same member counts and the same pool, and allocates and frees
    nothing, so the server's rollback of a join is exact. *)
Theorem group_leave_undoes_join mng hp G ps k grp out m :
  gm_rep mng hp G ps -> G !! k = Some grp -> member_count grp + 1 < 2 ^ 64 ->
  exists l hp1 hp2, GroupMng_JoinGroup (Some mng) hp (Some k) (Some out) = Some (ST_OK, Some (Some l), hp1) /\
    groups hp1 !! l = Some (joined grp) /\
    GroupMng_LeaveGroup (Some mng) hp1 (Some k) m = Some ((ST_OK, Some mng, hp2), m) /\
    gm_rep mng hp2 G ps.
Proof.
  intros R Hk Hc. pose proof (rep_JoinGroup mng hp G ps k out R) as J. rewrite Hk in J.
  destruct (J Hc) as (l & E & Hl & R1). pose proof (gm_members _ _ _ _ R k grp Hk).
  destruct (rep_LeaveGroup_more mng _ (<[k := joined grp]> G) ps k (joined grp) m R1) as (hp2 & E2 & R2).
  - by rewrite lookup_insert_eq.
  - cbn. lia.
  - exists l, (set_count hp l grp (member_count grp + 1)), hp2. split; [exact E|]. split; [done|]. split; [done|].
    rewrite insert_insert_eq in R2. unfold left_by_one in R2. cbn in R2.
    replace (member_count grp + 1 - 1) with (member_count grp) in R2 by lia.
    rewrite insert_id in R2; [done|]. rewrite Hk. by destruct grp.
Qed.

Lemma group_leave_undoes_join_witness : exists mng hp,
  gm_rep mng hp {[ [103] := new_group [103] (nth_pair 1) ]} (tail initial_pairs) /\
  exists l hp1 hp2,
    GroupMng_JoinGroup (Some mng) hp (Some [103]) (Some NULL) = Some (ST_OK, Some (Some l), hp1) /\
    groups hp1 !! l = Some (joined (new_group [103] (nth_pair 1))) /\
    GroupMng_LeaveGroup (Some mng) hp1 (Some [103]) (Mem [] 0) = Some ((ST_OK, Some mng, hp2), Mem [] 0) /\
    gm_rep mng hp2 {[ [103] := new_group [103] (nth_pair 1) ]} (tail initial_pairs).
Proof.
  destruct demo_group as (f & m0 & mng0 & m1 & l & mng & hp & m & _ & _ & _ & R & O).
  exists mng, hp. split; [exact R|].
  apply (group_leave_undoes_join mng hp _ (tail initial_pairs) [103] (new_group [103] (nth_pair 1)) NULL (Mem [] 0) R);
    [apply lookup_insert_eq|by vm_compute].
Defined.
