(* ===== verification/UserMng.v ===== *)
(** * The user manager: [server/user.h], [server/user_mng.h], [server/user_mng.c]

    Users are heap objects with two indexes: by name, a hash map, and by the
    socket they are logged in on, an array of [FD_SETSIZE] pointers to the same
    objects.  A user owns a list of the names of the groups they are in, each
    name a string of its own on the heap.  The file proves that the manager
    refines an abstract state ([um_rep]): a finite map from names to
    passwords, sockets and groups, and the partial map from sockets to names
    that it determines; with every operation's effect and result on it. *)

From S2P Require Import Prelude Protocol GenDlist HashMap HashUtils Index.

Definition FD_SETSIZE : Z := 1024.

Inductive UserState := USER_OFFLINE | USER_ONLINE.

#[export] Instance UserState_eq_dec : EqDecision UserState.
Proof. solve_decision. Defined.

(** [User] *)
Record User := MkUser {
  username : cstring;
  password : cstring;
  state : UserState;
  socketFd : Z;
  joinedGroups : ptr (List cstring)
}.

(** [struct UserMng] *)
Record UserMng := MkUserMng {
  usersByName : ptr (HashMap cstring (ptr loc));
  activeSockets : list (ptr loc)
}.

(** [_mng->activeSockets[_sockfd]] and its assignment *)
Definition sock_get (mng : UserMng) (fd : Z) : option (ptr loc) :=
  if 0 <=? fd then activeSockets mng !! Z.to_nat fd else None.
Definition sock_set (mng : UserMng) (fd : Z) (p : ptr loc) : option UserMng :=
  if (0 <=? fd) && (fd <? Z.of_nat (length (activeSockets mng)))
  then Some (MkUserMng (usersByName mng) (<[Z.to_nat fd := p]> (activeSockets mng))) else None.

Definition set_groups (u : User) (l : ptr (List cstring)) : User :=
  MkUser (username u) (password u) (state u) (socketFd u) l.
Definition set_state (u : User) (s : UserState) (fd : Z) : User :=
  MkUser (username u) (password u) s fd (joinedGroups u).

(** [free] of a pointer that may be NULL *)
Definition free_string (p : ptr cstring) : M unit :=
  match p with Some _ => free | None => mret tt end.

(** The test that opens the operations on a socket. *)
Definition bad_socket (fd : Z) : bool := (0 >? fd) || (fd >=? FD_SETSIZE).

Definition DestroyUserCallback (_value : ptr loc) (st : gmap loc User) : M (gmap loc User) :=
  match _value with
  | None => mret st
  | Some l =>
      u ← lift (st !! l);
      match joinedGroups u with
      | Some _ => ListDestroy (Some (joinedGroups u)) (Some free_string);; mret tt
      | None => mret tt
      end;;
      free;;
      mret (delete l st)
  end.

Definition UserMng_Create : M (ptr UserMng) :=
  ok ← malloc;
  if negb ok then mret NULL else
  h ← HashMap_Create 100 (Some string_hash) (Some string_equal);
  match h with
  | None => free;; mret NULL
  | Some _ => mret (Some (MkUserMng h (replicate (Z.to_nat FD_SETSIZE) NULL)))
  end.

Definition UserMng_Destroy (_mng : ptr (ptr UserMng)) (st : gmap loc User)
  : M (ptr (ptr UserMng) * gmap loc User) :=
  match _mng with
  | Some (Some mng) =>
      '(_, st) ← HashMap_Destroy (Some (usersByName mng)) NULL (Some DestroyUserCallback) st;
      free;;
      mret (Some NULL, st)
  | _ => mret (_mng, st)
  end.

Definition UserMng_Register (_mng : ptr UserMng) (st : gmap loc User)
    (_username _password : ptr cstring) : M (ChatStatus * ptr UserMng * gmap loc User) :=
  match _mng, _username, _password with
  | Some mng, Some k, Some p =>
      '(r, _) ← lift (HashMap_Find (usersByName mng) _username (Some NULL));
      if decide (r = MAP_SUCCESS) then mret (ST_ERR_USER_EXISTS, _mng, st) else
      ok ← malloc;
      if negb ok then mret (ST_ERR_SERVER_FULL, _mng, st) else
      let newUser := fresh (dom st) in
      l ← ListCreate;
      let u := MkUser (strncpy CHAT_MAX_USERNAME_LEN k) (strncpy CHAT_MAX_PASSWORD_LEN p)
                      USER_OFFLINE (-1) l in
      let st := <[newUser := u]> st in
      match l with
      | None => free;; mret (ST_ERR_SERVER_FULL, _mng, delete newUser st)
      | Some _ =>
          '(r, h) ← HashMap_Insert (usersByName mng) (Some (username u)) (Some newUser);
          let mng := MkUserMng h (activeSockets mng) in
          if decide (r <> MAP_SUCCESS) then
            ListDestroy (Some l) NULL;;
            free;;
            mret (ST_ERR_SERVER_FULL, Some mng, delete newUser st)
          else mret (ST_OK, Some mng, st)
      end
  | _, _, _ => mret (ST_ERR_PROTOCOL, _mng, st)
  end.

Definition UserMng_Login (_mng : ptr UserMng) (st : gmap loc User)
    (_username _password : ptr cstring) (_sockfd : Z)
  : option (ChatStatus * ptr UserMng * gmap loc User) :=
  match _mng, _username, _password with
  | Some mng, Some k, Some p =>
      if bad_socket _sockfd then Some (ST_ERR_PROTOCOL, _mng, st) else
      cur ← sock_get mng _sockfd;
      match cur with
      | Some _ => Some (ST_ERR_ALREADY_LOGGED_IN, _mng, st)
      | None =>
          r ← HashMap_Find (usersByName mng) _username (Some NULL);
          if decide (fst r <> MAP_SUCCESS) then Some (ST_ERR_USER_NOT_FOUND, _mng, st) else
          user ← mjoin (snd r);
          u ← st !! user;
          if negb (str_eqb (password u) p) then Some (ST_ERR_BAD_PASSWORD, _mng, st) else
          if decide (USER_ONLINE = state u) then Some (ST_ERR_ALREADY_LOGGED_IN, _mng, st) else
          mng ← sock_set mng _sockfd (Some user);
          Some (ST_OK, Some mng, <[user := set_state u USER_ONLINE _sockfd]> st)
      end
  | _, _, _ => Some (ST_ERR_PROTOCOL, _mng, st)
  end.

(** The loop of [UserMng_Logout]: pop every group from the list.  [C] is the
    memory behind the context of the callback. *)
Fixpoint logout_loop {C : Type} (fuel : nat) (joined : ptr (List cstring))
    (_leaveCb : ptr (cstring -> C -> M C)) (_ctx : C) : M (ptr (List cstring) * C) :=
  itr ← lift (ListItrBegin joined);
  let e := ListItrEnd joined in
  if decide (itr = e) then mret (joined, _ctx) else
  match fuel with
  | O => fault
  | S fuel =>
      '(currentName, joined) ← ListItrRemove joined itr;
      _ctx ← match currentName with
             | Some name =>
                 c ← match _leaveCb with Some cb => cb name _ctx | None => mret _ctx end;
                 free;;
                 mret c
             | None => mret _ctx
             end;
      logout_loop fuel joined _leaveCb _ctx
  end.

Definition list_fuel (l : ptr (List cstring)) : nat :=
  match l with Some l => size (nodes l) | None => O end.

Definition UserMng_Logout {C : Type} (_mng : ptr UserMng) (st : gmap loc User) (_sockfd : Z)
    (_leaveCb : ptr (cstring -> C -> M C)) (_ctx : C)
  : M (ChatStatus * ptr UserMng * gmap loc User * C) :=
  match _mng with
  | Some mng =>
      if bad_socket _sockfd then mret (ST_ERR_PROTOCOL, _mng, st, _ctx) else
      user ← lift (sock_get mng _sockfd);
      match user with
      | None => mret (ST_ERR_NOT_LOGGED_IN, _mng, st, _ctx)
      | Some l =>
          u ← lift (st !! l);
          '(joined, _ctx) ← logout_loop (list_fuel (joinedGroups u)) (joinedGroups u) _leaveCb _ctx;
          let u := set_state (set_groups u joined) USER_OFFLINE (-1) in
          mng ← lift (sock_set mng _sockfd NULL);
          mret (ST_OK, Some mng, <[l := u]> st, _ctx)
      end
  | None => mret (ST_ERR_PROTOCOL, _mng, st, _ctx)
  end.

Definition UserMng_Disconnect {C : Type} (_mng : ptr UserMng) (st : gmap loc User) (_sockfd : Z)
    (_leaveCb : ptr (cstring -> C -> M C)) (_ctx : C) : M (ptr UserMng * gmap loc User * C) :=
  '(_, mng, st, c) ← UserMng_Logout _mng st _sockfd _leaveCb _ctx;
  mret (mng, st, c).

(** The loop of [UserMng_JoinGroup]: is the name in the list?  It compares
    without a NULL check. *)
Fixpoint join_loop (fuel : nat) (joined : ptr (List cstring)) (_groupName : cstring)
    (itr e : ptr loc) : option bool :=
  if decide (itr = e) then Some false else
  match fuel with
  | O => None
  | S fuel =>
      item ← ListItrGet joined itr;
      name ← item;
      if str_eqb name _groupName then Some true else
      itr ← ListItrNext joined itr;
      join_loop fuel joined _groupName itr e
  end.

Definition UserMng_JoinGroup (_mng : ptr UserMng) (st : gmap loc User) (_sockfd : Z)
    (_groupName : ptr cstring) : M (ChatStatus * gmap loc User) :=
  match _mng, _groupName with
  | Some mng, Some k =>
      if bad_socket _sockfd then mret (ST_ERR_PROTOCOL, st) else
      user ← lift (sock_get mng _sockfd);
      match user with
      | None => mret (ST_ERR_NOT_LOGGED_IN, st)
      | Some l =>
          u ← lift (st !! l);
          itr ← lift (ListItrBegin (joinedGroups u));
          let e := ListItrEnd (joinedGroups u) in
          dup ← lift (join_loop (list_fuel (joinedGroups u)) (joinedGroups u) k itr e);
          if dup : bool then mret (ST_ERR_ALREADY_IN_GROUP, st) else
          ok ← malloc;
          if negb ok then mret (ST_ERR_SERVER_FULL, st) else
          groupNameCopy ← lift (strcpy (strlen k + 1) k);
          '(n, joined) ← ListPushTail (joinedGroups u) (Some groupNameCopy);
          let st := <[l := set_groups u joined]> st in
          match n with
          | None => free;; mret (ST_ERR_SERVER_FULL, st)
          | Some _ => mret (ST_OK, st)
          end
      end
  | _, _ => mret (ST_ERR_PROTOCOL, st)
  end.

(** The loop of [UserMng_LeaveGroup]: the list without the name, if it was
    there. *)
Fixpoint leave_loop (fuel : nat) (joined : ptr (List cstring)) (_groupName : cstring)
    (itr e : ptr loc) : M (option (ptr (List cstring))) :=
  if decide (itr = e) then mret None else
  match fuel with
  | O => fault
  | S fuel =>
      currentName ← lift (ListItrGet joined itr);
      if (match currentName with Some name => str_eqb name _groupName | None => false end) then
        '(_, joined) ← ListItrRemove joined itr;
        free;;
        mret (Some joined)
      else
        itr ← lift (ListItrNext joined itr);
        leave_loop fuel joined _groupName itr e
  end.

Definition UserMng_LeaveGroup (_mng : ptr UserMng) (st : gmap loc User) (_sockfd : Z)
    (_groupName : ptr cstring) : M (ChatStatus * gmap loc User) :=
  match _mng, _groupName with
  | Some mng, Some k =>
      if bad_socket _sockfd then mret (ST_ERR_PROTOCOL, st) else
      user ← lift (sock_get mng _sockfd);
      match user with
      | None => mret (ST_ERR_NOT_LOGGED_IN, st)
      | Some l =>
          u ← lift (st !! l);
          itr ← lift (ListItrBegin (joinedGroups u));
          let e := ListItrEnd (joinedGroups u) in
          found ← leave_loop (list_fuel (joinedGroups u)) (joinedGroups u) k itr e;
          match found with
          | Some joined => mret (ST_OK, <[l := set_groups u joined]> st)
          | None => mret (ST_ERR_NOT_IN_GROUP, st)
          end
      end
  | _, _ => mret (ST_ERR_PROTOCOL, st)
  end.

Definition UserMng_IsLoggedIn (_mng : ptr UserMng) (_sockfd : Z) : option Z :=
  match _mng with
  | None => Some 0
  | Some mng =>
      if bad_socket _sockfd then Some 0 else
      cur ← sock_get mng _sockfd;
      Some (match cur with Some _ => 1 | None => 0 end)
  end.

(** ** The abstract state of the manager *)

(** What is known of a user: the password, the socket they are logged in on,
    and the names of their groups in the order they were joined. *)
Record UInfo := MkInfo { u_pass : cstring; u_sock : option Z; u_groups : list cstring }.

Definition groups_rep (p : ptr (List cstring)) (gs : list cstring) : Prop :=
  exists l xs, p = Some l /\ dl_rep l xs /\ xs.*2 = Some <$> gs.

Record user_rep (u : User) (i : UInfo) : Prop := {
  ur_pass : password u = u_pass i;
  ur_state : match u_sock i with
             | Some fd => state u = USER_ONLINE /\ socketFd u = fd
             | None => state u = USER_OFFLINE /\ socketFd u = -1
             end;
  ur_groups : groups_rep (joinedGroups u) (u_groups i)
}.

Definition uname (st : gmap loc User) (l : loc) : option cstring := username <$> st !! l.

(** [U]: the users by name; [S]: who is logged in on each socket.  A user is
    logged in on at most one socket, a socket has at most one user, and only
    users who are logged in are in groups, in each at most once. *)
Record um_rep (mng : UserMng) (st : gmap loc User) (U : gmap cstring UInfo) (S : gmap Z cstring) : Prop := {
  um_index : exists h g G, usersByName mng = Some h /\ hm_rep h g /\ index_rep username g st G /\
    forall k, option_Forall2 user_rep (G !! k) (U !! k);
  um_slots : Z.of_nat (length (activeSockets mng)) = FD_SETSIZE;
  um_sockets : forall fd l, sock_get mng fd = Some (Some l) <->
    exists k, uname st l = Some k /\ S !! fd = Some k;
  um_online : forall fd k, S !! fd = Some k <-> exists i, U !! k = Some i /\ u_sock i = Some fd;
  um_range : forall fd k, S !! fd = Some k -> 0 <= fd < FD_SETSIZE;
  um_groups : forall k i, U !! k = Some i -> NoDup (u_groups i) /\ (u_sock i = None -> u_groups i = [])
}.

(** Heap blocks: the manager, its hash map, and per user the object, its list,
    and a node and a string per group, besides the node and pair of the map. *)
Definition user_blocks (k : cstring) (i : UInfo) : Z := 4 + 2 * Z.of_nat (length (u_groups i)).
Definition um_blocks (mng : UserMng) (U : gmap cstring UInfo) : Z :=
  1 + match usersByName mng with Some h => 2 + lists_of h | None => 0 end + msum user_blocks U.

(** ** Looking users up *)

Lemma um_find mng st U S k : um_rep mng st U S ->
  match U !! k with
  | Some i => exists l u, st !! l = Some u /\ username u = k /\ user_rep u i /\
      HashMap_Find (usersByName mng) (Some k) (Some NULL) = Some (MAP_SUCCESS, Some (Some l))
  | None => HashMap_Find (usersByName mng) (Some k) (Some NULL) = Some (MAP_KEY_NOT_FOUND_ERROR, Some NULL)
  end.
Proof.
  intros R. destruct (um_index _ _ _ _ R) as (h & g & G & -> & Hr & I & HU).
  rewrite (rep_Find h g k _ Hr). pose proof (index_lookup username g st G k I) as L.
  specialize (HU k). destruct HU as [u i Hui|].
  - destruct L as (l & -> & Hl & Hn). by exists l, u.
  - by rewrite L.
Qed.

Lemma uname_info mng st U S l k : um_rep mng st U S -> uname st l = Some k ->
  exists u i, st !! l = Some u /\ username u = k /\ U !! k = Some i /\ user_rep u i.
Proof.
  intros R Hl. destruct (um_index _ _ _ _ R) as (h & g & G & _ & _ & I & HU).
  unfold uname in Hl. destruct (st !! l) as [u|] eqn:Hu; [|done]. injection Hl as Hn.
  destruct (ix_live _ _ _ _ I l u Hu) as [HG _]. rewrite Hn in HG. specialize (HU k).
  rewrite HG in HU. inversion HU as [? i Hui E1 E2|]; subst. by exists u, i.
Qed.

Lemma uname_inj mng st U S l1 l2 k : um_rep mng st U S ->
  uname st l1 = Some k -> uname st l2 = Some k -> l1 = l2.
Proof.
  intros R H1 H2. destruct (um_index _ _ _ _ R) as (h & g & G & _ & _ & I & _). unfold uname in *.
  destruct (st !! l1) as [u1|] eqn:E1; [|done]. destruct (st !! l2) as [u2|] eqn:E2; [|done].
  destruct (ix_live _ _ _ _ I l1 u1 E1) as [_ G1]. destruct (ix_live _ _ _ _ I l2 u2 E2) as [_ G2].
  cbn in *. congruence.
Qed.

Lemma um_sock mng st U S fd : um_rep mng st U S -> bad_socket fd = false ->
  match S !! fd with
  | Some k => exists l u i, sock_get mng fd = Some (Some l) /\ st !! l = Some u /\ username u = k /\
      U !! k = Some i /\ user_rep u i /\ u_sock i = Some fd
  | None => sock_get mng fd = Some NULL
  end.
Proof.
  intros R Hfd. unfold bad_socket in Hfd. bprop. rewrite Z.gtb_ltb in *. rewrite Z.geb_leb in *. bprop.
  assert (exists p, sock_get mng fd = Some p) as [p Hp].
  { unfold sock_get. rewrite (proj2 (Z.leb_le _ _)) by lia. apply lookup_lt_is_Some.
    pose proof (um_slots _ _ _ _ R). lia. }
  destruct (S !! fd) as [k|] eqn:HS.
  - destruct (proj1 (um_online _ _ _ _ R fd k) HS) as (i & Hi & Hs).
    pose proof (um_find mng st U S k R) as F. rewrite Hi in F. destruct F as (l & u & Hl & Hn & Hui & _).
    exists l, u, i. split; [|done]. apply (um_sockets _ _ _ _ R). exists k. split; [|done].
    unfold uname. by rewrite Hl, <-Hn.
  - destruct p as [l|]; [|done]. exfalso.
    apply (um_sockets _ _ _ _ R) in Hp as (k & _ & Hk). congruence.
Qed.

Lemma bad_socket_range fd : bad_socket fd = false <-> 0 <= fd < FD_SETSIZE.
Proof.
  unfold bad_socket. rewrite Z.gtb_ltb, Z.geb_leb. split; intros H; bprop; [done|].
  apply orb_false_iff. split; [apply Z.ltb_ge|apply Z.leb_gt]; lia.
Qed.

Lemma sock_set_spec mng st U S fd p : um_rep mng st U S -> 0 <= fd < FD_SETSIZE ->
  exists mng', sock_set mng fd p = Some mng' /\ usersByName mng' = usersByName mng /\
    length (activeSockets mng') = length (activeSockets mng) /\
    forall fd', sock_get mng' fd' = if decide (fd' = fd) then Some p else sock_get mng fd'.
Proof.
  intros R Hfd. pose proof (um_slots _ _ _ _ R) as Hlen. unfold sock_set.
  rewrite (proj2 (Z.leb_le _ _)), (proj2 (Z.ltb_lt _ _)) by lia. eexists. split; [done|].
  split; [done|]. split; [apply length_insert|]. intros fd'. unfold sock_get. cbn [activeSockets].
  destruct (0 <=? fd') eqn:E; bprop; [|by rewrite decide_False by lia].
  case_decide as D.
  - subst. apply list_lookup_insert_eq. lia.
  - rewrite list_lookup_insert_ne; [done|]. lia.
Qed.

(** ** Changing one user *)

Lemma um_rep_change mng st U S mng' S' k l u u' i i' :
  um_rep mng st U S -> U !! k = Some i -> st !! l = Some u -> username u = k ->
  username u' = k -> user_rep u' i' ->
  usersByName mng' = usersByName mng -> length (activeSockets mng') = length (activeSockets mng) ->
  (forall fd l', sock_get mng' fd = Some (Some l') <-> exists k', uname st l' = Some k' /\ S' !! fd = Some k') ->
  (forall fd k', S' !! fd = Some k' <-> exists j, <[k := i']> U !! k' = Some j /\ u_sock j = Some fd) ->
  (forall fd k', S' !! fd = Some k' -> 0 <= fd < FD_SETSIZE) ->
  NoDup (u_groups i') -> (u_sock i' = None -> u_groups i' = []) ->
  um_rep mng' (<[l := u']> st) (<[k := i']> U) S'.
Proof.
  intros R Hk Hl Hn Hn' Hu' Eh Elen Hsock Honline Hrange Hnd Hoff.
  destruct (um_index _ _ _ _ R) as (h & g & G & Hh & Hr & I & HU).
  assert (forall l', uname (<[l := u']> st) l' = uname st l') as Hnames.
  { intros l'. unfold uname. destruct (decide (l = l')) as [<-|].
    - rewrite lookup_insert_eq, Hl. cbn. congruence.
    - by rewrite lookup_insert_ne. }
  destruct (ix_live _ _ _ _ I l u Hl) as [HG Hg]. rewrite Hn in HG, Hg.
  constructor.
  - exists h, g, (<[k := u']> G). split; [congruence|]. split; [done|].
    split; [by eapply index_update|]. intros k'. destruct (decide (k = k')) as [<-|].
    + rewrite !lookup_insert_eq. by constructor.
    + by rewrite !lookup_insert_ne.
  - rewrite Elen. apply (um_slots _ _ _ _ R).
  - intros fd l'. by rewrite Hnames.
  - exact Honline.
  - exact Hrange.
  - intros k' j [[<- <-]|[_ Hj]]%lookup_insert_Some; [done|]. by eapply (um_groups _ _ _ _ R).
Qed.

Definition with_groups (i : UInfo) (gs : list cstring) : UInfo := MkInfo (u_pass i) (u_sock i) gs.
Definition with_sock (i : UInfo) (s : option Z) : UInfo := MkInfo (u_pass i) s (u_groups i).

(** The groups of a user who is logged in. *)
Lemma um_rep_groups mng st U S k l u i p gs fd :
  um_rep mng st U S -> U !! k = Some i -> st !! l = Some u -> username u = k -> user_rep u i ->
  u_sock i = Some fd -> groups_rep p gs -> NoDup gs ->
  um_rep mng (<[l := set_groups u p]> st) (<[k := with_groups i gs]> U) S.
Proof.
  intros R Hk Hl Hn Hu Hs Hp Hnd. eapply um_rep_change; try done.
  - destruct Hu. by constructor.
  - apply (um_sockets _ _ _ _ R).
  - intros fd' k'. rewrite (um_online _ _ _ _ R). destruct (decide (k = k')) as [<-|].
    + rewrite lookup_insert_eq. split; intros (j & Hj & Hjs).
      * exists (with_groups i gs). split; [done|]. cbn. congruence.
      * exists i. split; [done|]. injection Hj as <-. done.
    + by rewrite lookup_insert_ne.
  - apply (um_range _ _ _ _ R).
  - cbn. congruence.
Qed.

Lemma um_rep_login mng st U S k l u i fd :
  um_rep mng st U S -> U !! k = Some i -> st !! l = Some u -> username u = k -> user_rep u i ->
  u_sock i = None -> S !! fd = None -> 0 <= fd < FD_SETSIZE ->
  exists mng', sock_set mng fd (Some l) = Some mng' /\ usersByName mng' = usersByName mng /\
    um_rep mng' (<[l := set_state u USER_ONLINE fd]> st) (<[k := with_sock i (Some fd)]> U) (<[fd := k]> S).
Proof.
  intros R Hk Hl Hn Hu Hs HS Hfd.
  destruct (sock_set_spec mng st U S fd (Some l) R Hfd) as (mng' & E & Eh & El & Eg).
  exists mng'. split; [done|]. split; [done|]. eapply um_rep_change; try done.
  - destruct Hu. by constructor.
  - intros fd' l'. rewrite Eg. case_decide as D.
    + subst fd'. rewrite lookup_insert_eq. split.
      * intros [= <-]. exists k. split; [|done]. unfold uname. by rewrite Hl, <-Hn.
      * intros (k' & Hl' & [= <-]). do 2 f_equal. eapply uname_inj; try done.
        unfold uname. by rewrite Hl, <-Hn.
    + rewrite lookup_insert_ne by done. apply (um_sockets _ _ _ _ R).
  - intros fd' k'. destruct (decide (fd = fd')) as [<-|Hfd'].
    + rewrite lookup_insert_eq. split.
      * intros [= <-]. exists (with_sock i (Some fd)). by rewrite lookup_insert_eq.
      * intros (j & [[<- <-]|[Hne Hj]]%lookup_insert_Some & Hjs); [done|]. exfalso.
        assert (S !! fd = Some k') by (apply (um_online _ _ _ _ R); by exists j). congruence.
    + rewrite lookup_insert_ne, (um_online _ _ _ _ R) by done. destruct (decide (k = k')) as [<-|].
      * rewrite lookup_insert_eq. split; intros (j & Hj & Hjs); [congruence|].
        injection Hj as <-. cbn in Hjs. congruence.
      * by rewrite lookup_insert_ne.
  - intros fd' k' [[<- _]|[_ Hk']]%lookup_insert_Some; [done|]. by eapply (um_range _ _ _ _ R).
  - by apply (um_groups _ _ _ _ R k i).
Qed.

Definition logged_out (i : UInfo) : UInfo := MkInfo (u_pass i) None [].

Lemma um_rep_logout mng st U S k l u i fd p :
  um_rep mng st U S -> U !! k = Some i -> st !! l = Some u -> username u = k -> user_rep u i ->
  u_sock i = Some fd -> 0 <= fd < FD_SETSIZE -> groups_rep p [] ->
  exists mng', sock_set mng fd NULL = Some mng' /\ usersByName mng' = usersByName mng /\
    um_rep mng' (<[l := set_state (set_groups u p) USER_OFFLINE (-1)]> st)
      (<[k := logged_out i]> U) (delete fd S).
Proof.
  intros R Hk Hl Hn Hu Hs Hfd Hp.
  destruct (sock_set_spec mng st U S fd NULL R Hfd) as (mng' & E & Eh & El & Eg).
  assert (S !! fd = Some k) as HS by (apply (um_online _ _ _ _ R); by exists i).
  exists mng'. split; [done|]. split; [done|]. eapply um_rep_change; try done.
  - destruct Hu. by constructor.
  - intros fd' l'. rewrite Eg. case_decide as D.
    + subst fd'. rewrite lookup_delete_eq. split; [done|]. by intros (? & _ & ?).
    + rewrite lookup_delete_ne by done. apply (um_sockets _ _ _ _ R).
  - intros fd' k'. destruct (decide (k = k')) as [<-|].
    + rewrite lookup_insert_eq. split.
      * intros [Hne Hk']%lookup_delete_Some. apply (um_online _ _ _ _ R) in Hk' as (j & Hj & Hjs). congruence.
      * by intros (j & [= <-] & ?).
    + rewrite lookup_insert_ne by done. rewrite <-(um_online _ _ _ _ R). split.
      * by intros [_ ?]%lookup_delete_Some.
      * intros Hk'. apply lookup_delete_Some. split; [|done]. intros ->. congruence.
  - intros fd' k' [_ Hk']%lookup_delete_Some. by eapply (um_range _ _ _ _ R).
  - constructor.
Qed.

(** ** The loops *)

Lemma join_loop_spec l k xs1 xs2 gs2 fuel :
  dl_rep l (xs1 ++ xs2) -> xs2.*2 = Some <$> gs2 -> (length xs2 <= fuel)%nat ->
  join_loop fuel (Some l) k (Some (begin_of xs2)) (Some sentinel) = Some (bool_decide (k ∈ gs2)).
Proof.
  revert xs1 gs2 fuel. induction xs2 as [|[p d] xs2 IH]; intros xs1 gs2 fuel Hl Hx Hf.
  { destruct gs2; [|done]. rewrite bool_decide_eq_false_2 by apply not_elem_of_nil. by destruct fuel. }
  destruct gs2 as [|x gs2]; [done|]. injection Hx as -> Hx.
  destruct fuel as [|fuel]; [cbn in Hf; lia|]. cbn [join_loop begin_of].
  rewrite decide_False by (by eapply begin_ne_sent).
  rewrite (rep_get _ _ _ _ _ Hl), (rep_next_itr _ _ _ _ _ Hl). cbn [mbind option_bind].
  unfold str_eqb. case_bool_decide as D.
  - subst. rewrite bool_decide_eq_true_2; [done|]. apply elem_of_cons. by left.
  - rewrite (IH (xs1 ++ [(p, Some x)]) gs2); [|by rewrite <-app_assoc|done|cbn in Hf; lia].
    f_equal. apply bool_decide_ext. rewrite elem_of_cons. intuition congruence.
Qed.

(** The list without the (only) occurrence of a name. *)
Definition without (k : cstring) (gs : list cstring) : list cstring := filter (fun g => g <> k) gs.

Lemma without_notin k gs : k ∉ gs -> without k gs = gs.
Proof.
  induction gs as [|x gs IH]; [done|]. intros [Hne Hni]%not_elem_of_cons. unfold without.
  rewrite filter_cons, decide_True by done. f_equal. by apply IH.
Qed.

Lemma without_middle k gs1 gs2 : k ∉ gs1 -> k ∉ gs2 -> without k (gs1 ++ k :: gs2) = gs1 ++ gs2.
Proof.
  intros H1 H2. unfold without. rewrite filter_app, filter_cons, decide_False by (by intros []).
  fold (without k gs1) (without k gs2). by rewrite !without_notin.
Qed.

Lemma leave_loop_spec l k xs1 xs2 gs1 gs2 fuel m :
  dl_rep l (xs1 ++ xs2) -> xs1.*2 = Some <$> gs1 -> xs2.*2 = Some <$> gs2 ->
  NoDup (gs1 ++ gs2) -> k ∉ gs1 -> (length xs2 <= fuel)%nat ->
  if bool_decide (k ∈ gs2)
  then exists p, leave_loop fuel (Some l) k (Some (begin_of xs2)) (Some sentinel) m
         = Some (Some p, Mem (plan m) (live m - 2)) /\ groups_rep p (without k (gs1 ++ gs2))
  else leave_loop fuel (Some l) k (Some (begin_of xs2)) (Some sentinel) m = Some (None, m).
Proof.
  revert xs1 gs1 gs2 fuel. induction xs2 as [|[p d] xs2 IH]; intros xs1 gs1 gs2 fuel Hl Hx1 Hx Hnd Hk1 Hf.
  { destruct gs2; [|done]. rewrite bool_decide_eq_false_2 by apply not_elem_of_nil. by destruct fuel. }
  destruct gs2 as [|x gs2]; [done|]. injection Hx as -> Hx.
  destruct fuel as [|fuel]; [cbn in Hf; lia|]. cbn [leave_loop begin_of].
  rewrite decide_False by (by eapply begin_ne_sent).
  rewrite (rep_get _ _ _ _ _ Hl), (rep_next_itr _ _ _ _ _ Hl). mlift.
  unfold str_eqb. destruct (decide (x = k)) as [->|Hne].
  - rewrite (bool_decide_eq_true_2 (k = k)), bool_decide_eq_true_2 by (done || (apply elem_of_cons; by left)).
    destruct (rep_remove_itr l xs1 p (Some k) xs2 m Hl) as (l' & Hl' & E). mrun E. mfree.
    exists (Some l'). split.
    + cbn [plan live]. by replace (live m - 1 - 1) with (live m - 2) by lia.
    + apply NoDup_app in Hnd as (_ & _ & Hnd). apply NoDup_cons in Hnd as [Hk2 _].
      exists l', (xs1 ++ xs2). split; [done|]. split; [done|].
      rewrite without_middle by done. rewrite !fmap_app. by f_equal.
  - rewrite (bool_decide_eq_false_2 (x = k)) by done. mlift.
    specialize (IH (xs1 ++ [(p, Some x)]) (gs1 ++ [x]) gs2 fuel).
    rewrite <-!app_assoc in IH. cbn [app] in IH.
    rewrite (bool_decide_ext (k ∈ x :: gs2) (k ∈ gs2)) by (rewrite elem_of_cons; intuition congruence).
    apply IH; [done|by rewrite !fmap_app, Hx1|done|done| |cbn in Hf; lia].
    apply not_elem_of_app. split; [done|]. intros Hin. apply list_elem_of_singleton in Hin. congruence.
Qed.

(** Logging out gives every group of the user, in order, to the callback. *)
Section logout.
Context {C : Type} (cb : cstring -> C -> M C) (P : list cstring -> C -> mem -> Prop).
Hypothesis cb_ok : forall name rest c m, P (name :: rest) c m ->
  exists c' m', cb name c (Mem (plan m) (live m - 1)) = Some (c', m') /\
    P rest c' (Mem (plan m') (live m' - 1)).

Lemma logout_loop_spec l xs gs fuel c m :
  dl_rep l xs -> xs.*2 = Some <$> gs -> (length xs <= fuel)%nat -> P gs c m ->
  exists p c' m', logout_loop fuel (Some l) (Some cb) c m = Some ((p, c'), m') /\
    groups_rep p [] /\ P [] c' m'.
Proof.
  revert l gs fuel c m. induction xs as [|[p d] xs IH]; intros l gs fuel c m Hl Hx Hf HP.
  - destruct gs; [|done]. exists (Some l), c, m. split; [|split; [|done]].
    + destruct fuel; cbn [logout_loop]; rewrite (rep_begin _ _ Hl); mlift; by rewrite decide_True.
    + by exists l, [].
  - destruct gs as [|x gs]; [done|]. injection Hx as -> Hx.
    destruct fuel as [|fuel]; [cbn in Hf; lia|]. cbn [logout_loop].
    rewrite (rep_begin _ _ Hl). mlift. cbn [begin_of ListItrEnd].
    rewrite decide_False by (by apply (begin_ne_sent l [] p (Some x) xs)).
    destruct (rep_remove_itr l [] p (Some x) xs m Hl) as (l' & Hl' & E). mrun E.
    destruct (cb_ok x gs c m HP) as (c1 & m1 & E1 & HP1).
    rewrite (M_bind_Some _ _ _ c1 (Mem (plan m1) (live m1 - 1))) by (mrun E1; by mfree).
    apply (IH l' gs); [done|done|cbn in Hf; lia|done].
Qed.

End logout.

(** ** The operations on the abstract state *)

Definition spec_register (U : gmap cstring UInfo) (k p : cstring) : ChatStatus * gmap cstring UInfo :=
  match U !! k with
  | Some _ => (ST_ERR_USER_EXISTS, U)
  | None => (ST_OK, <[k := MkInfo p None []]> U)
  end.

Definition spec_login (U : gmap cstring UInfo) (S : gmap Z cstring) (k p : cstring) (fd : Z)
  : ChatStatus * gmap cstring UInfo * gmap Z cstring :=
  match S !! fd, U !! k with
  | Some _, _ => (ST_ERR_ALREADY_LOGGED_IN, U, S)
  | None, None => (ST_ERR_USER_NOT_FOUND, U, S)
  | None, Some i =>
      if negb (str_eqb (u_pass i) p) then (ST_ERR_BAD_PASSWORD, U, S) else
      match u_sock i with
      | Some _ => (ST_ERR_ALREADY_LOGGED_IN, U, S)
      | None => (ST_OK, <[k := with_sock i (Some fd)]> U, <[fd := k]> S)
      end
  end.

(** The user on a socket. *)
Definition user_at (U : gmap cstring UInfo) (S : gmap Z cstring) (fd : Z) : option (cstring * UInfo) :=
  match S !! fd with
  | Some k => match U !! k with Some i => Some (k, i) | None => None end
  | None => None
  end.

Definition spec_user_join (U : gmap cstring UInfo) (S : gmap Z cstring) (fd : Z) (g : cstring) : ChatStatus * gmap cstring UInfo :=
  match user_at U S fd with
  | None => (ST_ERR_NOT_LOGGED_IN, U)
  | Some (k, i) =>
      if bool_decide (g ∈ u_groups i) then (ST_ERR_ALREADY_IN_GROUP, U)
      else (ST_OK, <[k := with_groups i (u_groups i ++ [g])]> U)
  end.

Definition spec_user_leave (U : gmap cstring UInfo) (S : gmap Z cstring) (fd : Z) (g : cstring) : ChatStatus * gmap cstring UInfo :=
  match user_at U S fd with
  | None => (ST_ERR_NOT_LOGGED_IN, U)
  | Some (k, i) =>
      if bool_decide (g ∈ u_groups i) then (ST_OK, <[k := with_groups i (without g (u_groups i))]> U)
      else (ST_ERR_NOT_IN_GROUP, U)
  end.

Lemma user_at_rep mng st U S fd : um_rep mng st U S -> bad_socket fd = false ->
  match user_at U S fd with
  | Some (k, i) => exists l u, sock_get mng fd = Some (Some l) /\ st !! l = Some u /\ username u = k /\
      S !! fd = Some k /\ U !! k = Some i /\ user_rep u i /\ u_sock i = Some fd
  | None => sock_get mng fd = Some NULL /\ S !! fd = None
  end.
Proof.
  intros R Hfd. pose proof (um_sock mng st U S fd R Hfd) as K. unfold user_at.
  destruct (S !! fd) as [k|]; [|done]. destruct K as (l & u & i & Hg & Hl & Hn & Hi & Hu & Hs).
  rewrite Hi. by exists l, u.
Qed.

Lemma um_blocks_update mng mng' U k i i' : usersByName mng' = usersByName mng -> U !! k = Some i ->
  um_blocks mng' (<[k := i']> U)
  = um_blocks mng U + 2 * Z.of_nat (length (u_groups i')) - 2 * Z.of_nat (length (u_groups i)).
Proof.
  intros E Hk. unfold um_blocks. rewrite E, (msum_update _ _ _ _ _ Hk). unfold user_blocks. lia.
Qed.

(** ** Operations *)

Lemma rep_Login mng st U S k p fd : um_rep mng st U S -> bad_socket fd = false ->
  exists mng' st', UserMng_Login (Some mng) st (Some k) (Some p) fd
    = Some (fst (fst (spec_login U S k p fd)), Some mng', st') /\
  um_rep mng' st' (snd (fst (spec_login U S k p fd))) (snd (spec_login U S k p fd)) /\
  um_blocks mng' (snd (fst (spec_login U S k p fd))) = um_blocks mng U.
Proof.
  intros R Hfd. unfold UserMng_Login, spec_login. rewrite Hfd.
  pose proof (um_sock mng st U S fd R Hfd) as K. destruct (S !! fd) as [k0|] eqn:HS.
  { destruct K as (l & u & i & -> & _). exists mng, st. done. }
  rewrite K. cbn [mbind option_bind].
  pose proof (um_find mng st U S k R) as F. destruct (U !! k) as [i|] eqn:Hi.
  2:{ rewrite F. cbn [mbind option_bind fst]. rewrite decide_True by done. exists mng, st. done. }
  destruct F as (l & u & Hl & Hn & Hu & ->). cbn [mbind option_bind fst snd mjoin option_join].
  rewrite decide_False by (by intros []). rewrite Hl. cbn [mbind option_bind].
  rewrite (ur_pass _ _ Hu). destruct (negb (str_eqb (u_pass i) p)); [exists mng, st; done|].
  pose proof (ur_state _ _ Hu) as Hst. destruct (u_sock i) as [fd'|] eqn:Hs.
  - destruct Hst as [Hst _]. rewrite decide_True by done. exists mng, st. done.
  - destruct Hst as [Hst _]. rewrite decide_False by (rewrite Hst; done).
    destruct (um_rep_login mng st U S k l u i fd R Hi Hl Hn Hu Hs HS) as (mng' & E & Eh & R');
      [by apply bad_socket_range|].
    rewrite E. cbn [mbind option_bind]. exists mng', (<[l := set_state u USER_ONLINE fd]> st).
    split; [done|]. split; [done|]. cbn [fst snd].
    rewrite (um_blocks_update mng mng' U k i) by done. cbn [with_sock u_groups]. lia.
Qed.

Lemma rep_IsLoggedIn mng st U S fd : um_rep mng st U S ->
  UserMng_IsLoggedIn (Some mng) fd = Some (match user_at U S fd with Some _ => 1 | None => 0 end).
Proof.
  intros R. unfold UserMng_IsLoggedIn. destruct (bad_socket fd) eqn:Hfd.
  - unfold user_at. destruct (S !! fd) as [k|] eqn:HS; [|done]. exfalso.
    pose proof (um_range _ _ _ _ R fd k HS) as Hr. apply bad_socket_range in Hr. congruence.
  - pose proof (user_at_rep mng st U S fd R Hfd) as K. destruct (user_at U S fd) as [[k i]|].
    + destruct K as (l & u & -> & _). done.
    + by destruct K as [-> _].
Qed.

(** The lists of a user, for the loops. *)
Lemma groups_rep_begin p gs : groups_rep p gs -> exists l xs, p = Some l /\ dl_rep l xs /\
  xs.*2 = Some <$> gs /\ ListItrBegin p = Some (Some (begin_of xs)) /\ ListItrEnd p = Some sentinel /\
  (length xs <= list_fuel p)%nat /\ length xs = length gs.
Proof.
  intros (l & xs & -> & Hl & Hx). exists l, xs. repeat (split; [done|]).
  split; [by apply rep_begin|]. split; [done|]. split; [cbn; rewrite (rep_size _ _ Hl); lia|].
  apply (f_equal length) in Hx. by rewrite !length_fmap in Hx.
Qed.

Lemma rep_UserJoin mng st U S fd g m : um_rep mng st U S -> bad_socket fd = false ->
  exists r st' m' U', UserMng_JoinGroup (Some mng) st fd (Some g) m = Some ((r, st'), m') /\
    um_rep mng st' U' S /\ live m' - um_blocks mng U' = live m - um_blocks mng U /\
    ((r, U') = spec_user_join U S fd g \/
     (r = ST_ERR_SERVER_FULL /\ U' = U /\ fst (spec_user_join U S fd g) = ST_OK /\ ~ alloc_ok m)) /\
    (alloc_ok m -> alloc_ok m').
Proof.
  intros R Hfd. unfold UserMng_JoinGroup, spec_user_join. rewrite Hfd.
  pose proof (user_at_rep mng st U S fd R Hfd) as K. destruct (user_at U S fd) as [[k i]|].
  2:{ destruct K as [-> _]. mlift. exists ST_ERR_NOT_LOGGED_IN, st, m, U. repeat (split; [done|]).
      split; [by left|done]. }
  destruct K as (l & u & Hg & Hl & Hn & HS & Hi & Hu & Hs). rewrite Hg. mlift. rewrite Hl. mlift.
  destruct (groups_rep_begin _ _ (ur_groups _ _ Hu)) as (dl & xs & Hj & Hdl & Hx & Hb & He & Hf & Hlen).
  rewrite Hb. mlift. rewrite He, Hj. rewrite Hj in Hf.
  rewrite (join_loop_spec dl g [] xs (u_groups i)) by done. mlift.
  destruct (bool_decide (g ∈ u_groups i)) eqn:D; bprop.
  { exists ST_ERR_ALREADY_IN_GROUP, st, m, U. repeat (split; [done|]). split; [by left|done]. }
  destruct (malloc_inv m) as (b & m1 & E1 & L1 & O1). mrun E1. destruct b; cbn [negb].
  2:{ exists ST_ERR_SERVER_FULL, st, m1, U. split; [done|]. split; [done|]. split; [lia|].
      split; [right|intros Ho; by destruct (O1 Ho)]. repeat (split; [done|]).
      intros Ho. by destruct (O1 Ho). }
  unfold strcpy. rewrite (proj2 (Z.ltb_lt _ _)) by lia. mlift.
  destruct (rep_push_tail dl xs (Some g) m1 Hdl) as (n & dl' & m2 & E2 & R2 & O2). mrun E2.
  destruct n as [a|].
  - destruct R2 as [Hdl' L2].
    eexists ST_OK, _, m2, (<[k := with_groups i (u_groups i ++ [g])]> U). split; [done|]. split; [|split].
    + eapply um_rep_groups; try done.
      * exists dl', (xs ++ [(a, Some g)]). split; [done|]. split; [done|]. rewrite !fmap_app. by f_equal.
      * apply NoDup_app. split; [by apply (um_groups _ _ _ _ R k)|]. split; [|apply NoDup_singleton].
        intros x Hx1 Hx2%list_elem_of_singleton. congruence.
    + rewrite (um_blocks_update mng mng U k i) by done. cbn [with_groups u_groups].
      rewrite length_app. cbn [length]. lia.
    + split; [by left|]. intros Ho. apply O2. by apply O1.
  - destruct R2 as [-> L2]. mfree. eexists ST_ERR_SERVER_FULL, _, _, U. split; [done|].
    split; [|split; [cbn [live]; lia|]].
    + rewrite <-Hj. replace (set_groups u (joinedGroups u)) with u by (by destruct u).
      by rewrite insert_id.
    + split; [right|intros Ho; by apply O2, O1]. repeat (split; [done|]).
      intros Ho. destruct (O1 Ho) as [_ Ho1]. by destruct (O2 Ho1).
Qed.

Lemma rep_UserLeave mng st U S fd g m : um_rep mng st U S -> bad_socket fd = false ->
  exists st' m', UserMng_LeaveGroup (Some mng) st fd (Some g) m
    = Some ((fst (spec_user_leave U S fd g), st'), m') /\
    um_rep mng st' (snd (spec_user_leave U S fd g)) S /\
    plan m' = plan m /\
    live m' - um_blocks mng (snd (spec_user_leave U S fd g)) = live m - um_blocks mng U.
Proof.
  intros R Hfd. unfold UserMng_LeaveGroup, spec_user_leave. rewrite Hfd.
  pose proof (user_at_rep mng st U S fd R Hfd) as K. destruct (user_at U S fd) as [[k i]|].
  2:{ destruct K as [-> _]. mlift. by exists st, m. }
  destruct K as (l & u & Hg & Hl & Hn & HS & Hi & Hu & Hs). rewrite Hg. mlift. rewrite Hl. mlift.
  destruct (groups_rep_begin _ _ (ur_groups _ _ Hu)) as (dl & xs & Hj & Hdl & Hx & Hb & He & Hf & Hlen).
  rewrite Hb. mlift. rewrite He, Hj. rewrite Hj in Hf.
  destruct (um_groups _ _ _ _ R k i Hi) as [Hnd _].
  pose proof (leave_loop_spec dl g [] xs [] (u_groups i) _ m Hdl eq_refl Hx Hnd (not_elem_of_nil _) Hf) as L.
  cbn [app] in L. destruct (bool_decide (g ∈ u_groups i)) eqn:D; bprop.
  - destruct L as (p & E & Hp). mrun E. eexists _, _. split; [done|]. split; [|split; [done|]].
    + eapply um_rep_groups; try done. apply NoDup_filter, Hnd.
    + cbn [snd live]. rewrite (um_blocks_update mng mng U k i) by done. cbn [with_groups u_groups].
      apply list_elem_of_split in D as (g1 & g2 & Eg). rewrite Eg in *.
      apply NoDup_app in Hnd as (_ & Hd & Hnd2). apply NoDup_cons in Hnd2 as [Hn2 _].
      rewrite without_middle; [rewrite !length_app; cbn [length]; lia| |done].
      intros Hin. apply (Hd g Hin). apply elem_of_cons. by left.
  - mrun L. by exists st, m.
Qed.

Lemma rep_Logout_none {C} mng st U S fd cb (c : C) m : um_rep mng st U S -> bad_socket fd = false ->
  user_at U S fd = None ->
  UserMng_Logout (Some mng) st fd cb c m = Some ((ST_ERR_NOT_LOGGED_IN, Some mng, st, c), m).
Proof.
  intros R Hfd Hat. pose proof (user_at_rep mng st U S fd R Hfd) as K. rewrite Hat in K.
  destruct K as [K _]. unfold UserMng_Logout. rewrite Hfd, K. by mlift.
Qed.

Lemma rep_Logout {C} mng st U S fd k i (cb : cstring -> C -> M C) P c m :
  (forall name rest c m, P (name :: rest) c m ->
    exists c' m', cb name c (Mem (plan m) (live m - 1)) = Some (c', m') /\
      P rest c' (Mem (plan m') (live m' - 1))) ->
  um_rep mng st U S -> bad_socket fd = false -> user_at U S fd = Some (k, i) -> P (u_groups i) c m ->
  exists mng' st' c' m',
    UserMng_Logout (Some mng) st fd (Some cb) c m = Some ((ST_OK, Some mng', st', c'), m') /\
    um_rep mng' st' (<[k := logged_out i]> U) (delete fd S) /\ P [] c' m' /\
    um_blocks mng' (<[k := logged_out i]> U) = um_blocks mng U - 2 * Z.of_nat (length (u_groups i)).
Proof.
  intros Hcb R Hfd Hat HP. pose proof (user_at_rep mng st U S fd R Hfd) as K. rewrite Hat in K.
  destruct K as (l & u & Hg & Hl & Hn & HS & Hi & Hu & Hs). unfold UserMng_Logout. rewrite Hfd, Hg.
  mlift. rewrite Hl. mlift.
  destruct (groups_rep_begin _ _ (ur_groups _ _ Hu)) as (dl & xs & Hj & Hdl & Hx & _ & _ & Hf & Hlen).
  rewrite Hj in *. destruct (logout_loop_spec cb P Hcb dl xs (u_groups i) (list_fuel (Some dl)) c m)
    as (p & c' & m' & E & Hp & HP'); [done..|]. mrun E.
  destruct (um_rep_logout mng st U S k l u i fd p R Hi Hl Hn Hu Hs) as (mng' & E' & Eh & R');
    [by apply bad_socket_range|done|].
  rewrite E'. mlift. eexists mng', _, c', m'. split; [done|]. split; [done|]. split; [done|].
  rewrite (um_blocks_update mng mng' U k i) by done. cbn [logged_out u_groups length]. lia.
Qed.

(** ** Registering *)

Lemma hm_rep_unique (h : HashMap cstring (ptr loc)) g1 g2 : hm_rep h g1 -> hm_rep h g2 -> g1 = g2.
Proof.
  intros [H1 (r1 & R1 & P1)] [H2 (r2 & R2 & P2)]. apply map_eq. intros k.
  pose proof (rep_Find h g1 k (Some NULL) (conj H1 (ex_intro _ r1 (conj R1 P1)))) as F1.
  pose proof (rep_Find h g2 k (Some NULL) (conj H2 (ex_intro _ r2 (conj R2 P2)))) as F2.
  rewrite F1 in F2. destruct (g1 !! k), (g2 !! k); congruence.
Qed.

Lemma um_rep_eta mng st U S : um_rep mng st U S ->
  exists h g, usersByName mng = Some h /\ mng = MkUserMng (Some h) (activeSockets mng) /\ hm_rep h g /\
    size g = size U /\ (forall k, is_Some (g !! k) <-> is_Some (U !! k)).
Proof.
  intros R. destruct (um_index _ _ _ _ R) as (h & g & G & Hh & Hr & I & HU).
  exists h, g. split; [done|]. split; [destruct mng; cbn in *; by subst|]. split; [done|].
  assert (forall k, is_Some (g !! k) <-> is_Some (U !! k)) as Hdom.
  { intros k. specialize (HU k). pose proof (index_lookup username g st G k I) as L.
    destruct HU as [u i|]; [destruct L as (l & -> & _)|rewrite L]; split; intros []; done || eauto. }
  split; [|done]. rewrite <-!size_dom. f_equal. apply set_eq. intros k. by rewrite !elem_of_dom.
Qed.

(** The table may grow buckets without changing its contents. *)
Lemma um_rep_table mng st U S h' g :
  um_rep mng st U S -> (exists h, usersByName mng = Some h /\ hm_rep h g) -> hm_rep h' g ->
  um_rep (MkUserMng (Some h') (activeSockets mng)) st U S.
Proof.
  intros R (h & Hh & Hr) Hr'. destruct (um_index _ _ _ _ R) as (h0 & g0 & G & Hh0 & Hr0 & I & HU).
  assert (h0 = h) as -> by congruence. rewrite (hm_rep_unique h g0 g Hr0 Hr) in I.
  destruct R. constructor; try done. by exists h', g, G.
Qed.

Lemma um_rep_new mng st U S h g h' k p l dl :
  um_rep mng st U S -> usersByName mng = Some h -> hm_rep h g -> hm_rep h' (<[k := Some l]> g) ->
  U !! k = None -> st !! l = None -> dl_rep dl [] ->
  um_rep (MkUserMng (Some h') (activeSockets mng))
    (<[l := MkUser k p USER_OFFLINE (-1) (Some dl)]> st) (<[k := MkInfo p None []]> U) S.
Proof.
  intros R Hh Hr Hr' Hk Hl Hdl. destruct (um_index _ _ _ _ R) as (h0 & g0 & G & Hh0 & Hr0 & I & HU).
  assert (h0 = h) as -> by congruence. rewrite (hm_rep_unique h g0 g Hr0 Hr) in I.
  assert (G !! k = None) as HG.
  { specialize (HU k). rewrite Hk in HU. by inversion HU. }
  set (u := MkUser k p USER_OFFLINE (-1) (Some dl)).
  assert (forall fd, S !! fd <> Some k) as HSk.
  { intros fd HS. apply (um_online _ _ _ _ R) in HS as (i & Hi & _). congruence. }
  constructor; cbn [usersByName activeSockets].
  - exists h', (<[k := Some l]> g), (<[k := u]> G). split; [done|]. split; [done|].
    split; [by apply index_insert|]. intros k'. destruct (decide (k = k')) as [<-|].
    + rewrite !lookup_insert_eq. constructor. constructor; [done|done|]. by exists dl, [].
    + by rewrite !lookup_insert_ne.
  - apply (um_slots _ _ _ _ R).
  - intros fd l'. change (sock_get _ fd) with (sock_get mng fd). rewrite (um_sockets _ _ _ _ R).
    unfold uname. destruct (decide (l = l')) as [<-|].
    + rewrite lookup_insert_eq, Hl. cbn. split; [by intros (? & ? & ?)|].
      intros (k' & [= <-] & HS). by destruct (HSk fd).
    + by rewrite lookup_insert_ne.
  - intros fd k'. rewrite (um_online _ _ _ _ R). destruct (decide (k = k')) as [<-|].
    + rewrite lookup_insert_eq, Hk. split; [by intros (? & ? & ?)|]. by intros (? & [= <-] & ?).
    + by rewrite lookup_insert_ne.
  - apply (um_range _ _ _ _ R).
  - intros k' i [[<- <-]|[_ Hi]]%lookup_insert_Some; [|by apply (um_groups _ _ _ _ R k')].
    split; [constructor|done].
Qed.

Lemma rep_Register mng st U S k p m :
  um_rep mng st U S -> strlen k <= CHAT_MAX_USERNAME_LEN -> strlen p <= CHAT_MAX_PASSWORD_LEN ->
  exists r mng' st' m' U',
    UserMng_Register (Some mng) st (Some k) (Some p) m = Some ((r, Some mng', st'), m') /\
    um_rep mng' st' U' S /\ live m' - um_blocks mng' U' = live m - um_blocks mng U /\
    ((r, U') = spec_register U k p \/
     (r = ST_ERR_SERVER_FULL /\ U' = U /\ U !! k = None /\ ~ alloc_ok m)) /\
    (alloc_ok m -> alloc_ok m').
Proof.
  intros R Lk Lp. unfold UserMng_Register, spec_register.
  destruct (um_rep_eta mng st U S R) as (h & g & Hh & Em & Hr & Hsz & Hdom).
  pose proof (um_find mng st U S k R) as F. destruct (U !! k) as [i|] eqn:Hk.
  { destruct F as (l & u & _ & _ & _ & F). rewrite F. mlift. rewrite decide_True by done.
    exists ST_ERR_USER_EXISTS, mng, st, m, U. repeat (split; [done|]). split; [by left|done]. }
  rewrite F. mlift. rewrite decide_False by done.
  destruct (malloc_inv m) as (b & m1 & E1 & L1 & O1). mrun E1. destruct b; cbn [negb].
  2:{ exists ST_ERR_SERVER_FULL, mng, st, m1, U. split; [done|]. split; [done|]. split; [lia|].
      split; [right|intros Ho; by destruct (O1 Ho)]. repeat (split; [done|]).
      intros Ho. by destruct (O1 Ho). }
  rewrite !strncpy_fits by done.
  set (l := fresh (dom st)). assert (st !! l = None) as Hl by (apply not_elem_of_dom, is_fresh).
  destruct (rep_create_list (A := cstring) m1) as (r & m2 & E2 & C2 & O2). mrun E2.
  destruct r as [dl|]; cycle 1.
  { mfree. rewrite delete_insert_id by done.
    eexists ST_ERR_SERVER_FULL, mng, st, _, U. split; [done|]. split; [done|]. cbn [live].
    split; [lia|]. split; [right|intros Ho; by apply O2, O1]. repeat (split; [done|]).
    intros Ho. destruct (O1 Ho) as [_ Ho1]. by destruct (O2 Ho1). }
  destruct C2 as [Hdl L2]. cbn [username]. rewrite Hh.
  assert (g !! k = None) as Hgk.
  { destruct (g !! k) eqn:E; [|done]. destruct (proj1 (Hdom k)) as [? ?]; [by eexists|congruence]. }
  pose proof (rep_Insert h g k (Some l) m2 Hr) as Ins. rewrite Hgk in Ins.
  destruct Ins as (r & h' & m3 & E3 & Hcase & O3). mrun E3. case_decide as Er.
  - destruct Hcase as [Hr' L3]. rewrite decide_False by (intros []; done).
    eexists ST_OK, _, _, m3, (<[k := MkInfo p None []]> U). split; [done|].
    split; [by eapply um_rep_new|]. split; [|split; [by left|intros Ho; by apply O3, O2, O1]].
    unfold um_blocks, blocks in *. cbn [usersByName]. rewrite Hh.
    rewrite msum_insert by done. unfold user_blocks at 1. cbn [u_groups length].
    rewrite map_size_insert_None in L3 by done. lia.
  - destruct Hcase as (-> & Hr' & L3). rewrite decide_True by done.
    assert (ListDestroy (Some (Some dl)) NULL m3 = Some (Some NULL, Mem (plan m3) (live m3 - 1))) as E4.
    { rewrite (rep_ListDestroy _ _ _ _ Hdl). cbn. mstep_ret. by mfree. }
    mrun E4. mfree. rewrite delete_insert_id by done.
    eexists ST_ERR_SERVER_FULL, _, st, _, U. split; [done|].
    split; [eapply um_rep_table; [done| |done]; by exists h|]. split; [|split].
    + unfold um_blocks, blocks in *. cbn [usersByName live]. rewrite Hh. lia.
    + right. repeat (split; [done|]). intros Ho.
      destruct (O3 (proj2 (O2 (proj2 (O1 Ho))))). done.
    + intros Ho. by apply O3, O2, O1.
Qed.

(** ** Lifecycle *)

Lemma rep_UserMng_Create m :
  exists r m', UserMng_Create m = Some (r, m') /\
  match r with
  | Some mng => um_rep mng ∅ ∅ ∅ /\ live m' = live m + um_blocks mng ∅
  | None => live m' = live m
  end /\ (alloc_ok m -> r <> None /\ alloc_ok m').
Proof.
  unfold UserMng_Create.
  destruct (malloc_inv m) as (b & m1 & E1 & L1 & O1). mrun E1. destruct b; cbn [negb]; cycle 1.
  { exists NULL, m1. split; [done|]. split; [done|]. intros Ho. by destruct (O1 Ho). }
  destruct (rep_Create_100 (V := ptr loc) m1) as (r & m2 & E2 & C2 & O2). mrun E2.
  destruct r as [h|]; cycle 1.
  { mfree. eexists NULL, _. split; [done|]. split; [cbn [live]; lia|].
    intros Ho. destruct (O1 Ho) as [_ Ho1]. by destruct (O2 Ho1). }
  destruct C2 as [Hr L2]. eexists (Some _), m2. split; [done|]. split; [split|].
  - constructor.
    + exists h, ∅, ∅. split; [done|]. split; [done|]. split; [apply index_empty|].
      intros k. rewrite !lookup_empty. constructor.
    + cbn [activeSockets]. rewrite length_replicate. done.
    + intros fd l. unfold sock_get. cbn [activeSockets]. split.
      * destruct (0 <=? fd); [|done]. by intros [[=] _]%lookup_replicate.
      * intros (k & _ & Hk). by rewrite lookup_empty in Hk.
    + intros fd k. rewrite lookup_empty. split; [done|]. intros (i & Hi & _). by rewrite lookup_empty in Hi.
    + intros fd k Hk. by rewrite lookup_empty in Hk.
    + intros k i Hi. by rewrite lookup_empty in Hi.
  - unfold um_blocks, blocks in *. cbn [usersByName]. rewrite msum_empty, map_size_empty in *. lia.
  - intros Ho. destruct (O1 Ho) as [_ Ho1]. by destruct (O2 Ho1).
Qed.

Lemma destroy_each_strings (gs : list cstring) m :
  destroy_each (Some free_string) (Some <$> gs) m
  = Some (tt, Mem (plan m) (live m - 2 * Z.of_nat (length gs))).
Proof.
  revert m. induction gs as [|x gs IH]; intros m.
  - destruct m. cbn. unfold mret, M_ret. do 3 f_equal. lia.
  - rewrite fmap_cons. cbn [destroy_each free_string]. mfree. mfree. rewrite IH.
    cbn [plan live length]. do 3 f_equal. lia.
Qed.

Lemma destroy_user_spec l st u i m : st !! l = Some u -> user_rep u i ->
  DestroyUserCallback (Some l) st m
  = Some (delete l st, Mem (plan m) (live m - 2 - 2 * Z.of_nat (length (u_groups i)))).
Proof.
  intros Hl Hu. unfold DestroyUserCallback. rewrite Hl. mlift.
  destruct (ur_groups _ _ Hu) as (dl & xs & Hj & Hdl & Hx). rewrite Hj.
  rewrite (M_bind_Some _ _ m tt (Mem (plan m) (live m - 1 - 2 * Z.of_nat (length (u_groups i))))).
  - mfree. cbn [plan live]. unfold mret, M_ret. do 3 f_equal. lia.
  - rewrite (M_bind_Some _ _ m (Some NULL) (Mem (plan m) (live m - 1 - 2 * Z.of_nat (length (u_groups i))))); [done|].
    rewrite (rep_ListDestroy _ _ _ _ Hdl), Hx.
    rewrite (M_bind_Some _ _ _ _ _ (destroy_each_strings _ _)). mfree. cbn [plan live].
    unfold mret, M_ret. do 3 f_equal. lia.
Qed.

Lemma rep_UserMng_Destroy mng st U S m : um_rep mng st U S ->
  UserMng_Destroy (Some (Some mng)) st m
  = Some ((Some NULL, ∅), Mem (plan m) (live m - um_blocks mng U)).
Proof.
  intros R. destruct (um_index _ _ _ _ R) as (h & g & G & Hh & Hr & I & HU).
  unfold UserMng_Destroy. rewrite Hh.
  set (w := fun k => match U !! k with Some i => user_blocks k i - 2 | None => 0 end).
  destruct (rep_Destroy NULL (Some DestroyUserCallback) (live_values G) (fun x => w x.1))
    with (h := h) (g := g) (c := st) (m := m) as (c' & m' & E & P & Pl & L).
  - intros kv rest c1 m1 HP. destruct (live_values_cons G kv rest c1 HP) as (l & x & Hv & Hl & HG & HP').
    pose proof (HU (key kv)) as Hk. rewrite HG in Hk. inversion Hk as [? i Hxi E1 E2|]; subst.
    eexists _, _. split; [|split; [exact HP'|]].
    + unfold callbacks. mstep_ret. rewrite Hv. by apply (destroy_user_spec l c1 x i).
    + split; [done|]. unfold w, as_pair. cbn [fst live]. rewrite <-E2. unfold user_blocks. lia.
  - done.
  - intros kvs Hp. by eapply index_live_values.
  - mrun E. mfree. apply live_values_nil in P as ->. rewrite Pl, L.
    unfold mret, M_ret. do 3 f_equal. unfold um_blocks, blocks. rewrite Hh.
    destruct (um_rep_eta mng st U S R) as (h0 & g0 & Hh0 & _ & Hr0 & Hsz & Hdom).
    assert (h0 = h) as -> by congruence. rewrite (hm_rep_unique h g0 g Hr0 Hr) in Hsz, Hdom.
    assert (zsum (fun x => w x.1) (map_to_list g) = msum user_blocks U - 2 * Z.of_nat (size U)) as ->; [|lia].
    change (zsum (fun x => w x.1) (map_to_list g)) with (msum (fun k (_ : ptr loc) => w k) g).
    rewrite (msum_dom w g U Hdom).
    rewrite (msum_ext (fun k _ => w k) (fun k i => user_blocks k i - 2) U).
    + unfold msum. rewrite <-length_map_to_list. induction (map_to_list U) as [|x xs IH]; [done|].
      rewrite !zsum_cons. cbn [length]. lia.
    + intros k i Hi. unfold w. by rewrite Hi.
Qed.

(** ** A concrete manager, for the witnesses: user ["a"] with password ["p"],
    registered and logged in on socket 4 by the code. *)

Definition demo_users : gmap cstring UInfo := {[ [97] := MkInfo [112] (Some 4) [] ]}.
Definition demo_socks : gmap Z cstring := {[ 4 := [97] ]}.

Lemma demo_user_manager : exists mng0 m0 mng1 st1 m1 mng st,
  UserMng_Create (Mem [] 0) = Some (Some mng0, m0) /\ um_rep mng0 ∅ ∅ ∅ /\
  UserMng_Register (Some mng0) ∅ (Some [97]) (Some [112]) m0 = Some ((ST_OK, Some mng1, st1), m1) /\
  um_rep mng1 st1 {[ [97] := MkInfo [112] None [] ]} ∅ /\
  UserMng_Login (Some mng1) st1 (Some [97]) (Some [112]) 4 = Some (ST_OK, Some mng, st) /\
  um_rep mng st demo_users demo_socks.
Proof.
  destruct (rep_UserMng_Create (Mem [] 0)) as (r & m0 & E0 & C0 & O0).
  destruct O0 as [Hs O0]; [constructor|]. destruct r as [mng0|]; [|by destruct Hs].
  destruct C0 as [R0 _].
  destruct (rep_Register mng0 ∅ ∅ ∅ [97] [112] m0 R0) as (r & mng1 & st1 & m1 & U1 & E1 & R1 & _ & Hc & _);
    [by vm_compute|by vm_compute|].
  destruct Hc as [Hc|(_ & _ & _ & Hbad)]; [|by destruct Hbad].
  unfold spec_register in Hc. rewrite lookup_empty in Hc. injection Hc as -> ->.
  destruct (rep_Login mng1 st1 _ ∅ [97] [112] 4 R1) as (mng & st & E2 & R2 & _); [by vm_compute|].
  assert (spec_login (<[ [97] := MkInfo [112] None [] ]> ∅) ∅ [97] [112] 4
          = (ST_OK, demo_users, demo_socks)) as Es by (vm_compute; reflexivity).
  rewrite Es in E2, R2.
  exists mng0, m0, mng1, st1, m1, mng, st.
  exact (conj E0 (conj R0 (conj E1 (conj R1 (conj E2 R2))))).
Qed.

(** ** Properties *)

(** C34: Registering a user, whatever allocations fail: a name that is taken is
    rejected and nothing changes; otherwise the user exists with exactly the
    given name and password, logged out and in no group, or memory ran out and
    no user was added; in every outcome the manager is consistent and its
    blocks account for the blocks allocated. *)
Theorem user_register_outcomes mng st U S k p m :
  um_rep mng st U S -> strlen k <= CHAT_MAX_USERNAME_LEN -> strlen p <= CHAT_MAX_PASSWORD_LEN ->
  exists r mng' st' m' U',
    UserMng_Register (Some mng) st (Some k) (Some p) m = Some ((r, Some mng', st'), m') /\
    um_rep mng' st' U' S /\ live m' - um_blocks mng' U' = live m - um_blocks mng U /\
    match U !! k with
    | Some _ => r = ST_ERR_USER_EXISTS /\ U' = U
    | None => (r = ST_OK /\ U' = <[k := MkInfo p None []]> U) \/
              (r = ST_ERR_SERVER_FULL /\ U' = U /\ ~ alloc_ok m)
    end.
Proof.
  intros R Lk Lp. destruct (rep_Register mng st U S k p m R Lk Lp)
    as (r & mng' & st' & m' & U' & E & R' & L & Hc & _).
  exists r, mng', st', m', U'. repeat (split; [done|]). unfold spec_register in Hc.
  destruct (U !! k); destruct Hc as [[= -> ->]|(-> & -> & Hk & Hm)]; [done|done|by left|by right].
Qed.

Lemma user_register_outcomes_witness : exists mng0 m0,
  UserMng_Create (Mem [] 0) = Some (Some mng0, m0) /\
  exists r mng' st' m' U',
    UserMng_Register (Some mng0) ∅ (Some [97]) (Some [112]) (Mem [true; false] 0)
      = Some ((r, Some mng', st'), m') /\
    um_rep mng' st' U' ∅ /\ live m' - um_blocks mng' U' = 0 - um_blocks mng0 ∅ /\
    ((r = ST_OK /\ U' = <[ [97] := MkInfo [112] None [] ]> ∅) \/
     (r = ST_ERR_SERVER_FULL /\ U' = ∅ /\ ~ alloc_ok (Mem [true; false] 0))).
Proof.
  destruct demo_user_manager as (mng0 & m0 & mng1 & st1 & m1 & mng & st & E0 & R0 & _).
  exists mng0, m0. split; [exact E0|].
  apply (user_register_outcomes mng0 ∅ ∅ ∅ [97] [112] (Mem [true; false] 0) R0); by vm_compute.
Defined.

(** C35: Logging in gives exactly the specified result: rejected when the socket
    already carries a session, when the name is unknown, when the password
    differs, or when the user has a session on another socket, in this order;
    otherwise the user is online on this socket and the socket carries this
    user.  It allocates nothing and never indexes the socket table out of
    bounds; a socket outside the table is a protocol error. *)
Theorem user_login_exact mng st U S k p fd (R : um_rep mng st U S) :
  if bad_socket fd
  then UserMng_Login (Some mng) st (Some k) (Some p) fd = Some (ST_ERR_PROTOCOL, Some mng, st)
  else exists mng' st', UserMng_Login (Some mng) st (Some k) (Some p) fd
      = Some (fst (fst (spec_login U S k p fd)), Some mng', st') /\
    um_rep mng' st' (snd (fst (spec_login U S k p fd))) (snd (spec_login U S k p fd)) /\
    um_blocks mng' (snd (fst (spec_login U S k p fd))) = um_blocks mng U.
Proof.
  destruct (bad_socket fd) eqn:Hfd; [|by apply rep_Login]. unfold UserMng_Login. by rewrite Hfd.
Qed.

Lemma user_login_exact_witness : exists mng st, um_rep mng st demo_users demo_socks /\
  exists mng' st', UserMng_Login (Some mng) st (Some [97]) (Some [112]) 5
      = Some (ST_ERR_ALREADY_LOGGED_IN, Some mng', st') /\
    um_rep mng' st' demo_users demo_socks /\ um_blocks mng' demo_users = um_blocks mng demo_users.
Proof.
  destruct demo_user_manager as (mng0 & m0 & mng1 & st1 & m1 & mng & st & _ & _ & _ & _ & _ & R).
  exists mng, st. split; [exact R|].
  exact (user_login_exact mng st demo_users demo_socks [97] [112] 5 R).
Defined.

(** Recording a group for the user on a socket and removing it are exact:
    joining appends the name unless nobody is logged in there or the name is
    already recorded (or memory runs out, and then nothing changes); leaving
    removes it or reports why not; and leaving right after a successful join
    restores the user's groups and releases exactly what the join allocated. *)
Theorem user_join_leave mng st U S fd g m :
  um_rep mng st U S -> bad_socket fd = false ->
  exists r st1 m1 U1, UserMng_JoinGroup (Some mng) st fd (Some g) m = Some ((r, st1), m1) /\
    um_rep mng st1 U1 S /\ live m1 - um_blocks mng U1 = live m - um_blocks mng U /\
    ((r, U1) = spec_user_join U S fd g \/ (r = ST_ERR_SERVER_FULL /\ U1 = U /\ ~ alloc_ok m)) /\
    exists st2 m2, UserMng_LeaveGroup (Some mng) st1 fd (Some g) m1
        = Some ((fst (spec_user_leave U1 S fd g), st2), m2) /\
      um_rep mng st2 (snd (spec_user_leave U1 S fd g)) S /\
      (r = ST_OK -> fst (spec_user_leave U1 S fd g) = ST_OK /\
         snd (spec_user_leave U1 S fd g) = U /\ live m2 = live m).
Proof.
  intros R Hfd. destruct (rep_UserJoin mng st U S fd g m R Hfd)
    as (r & st1 & m1 & U1 & E1 & R1 & L1 & Hc & _).
  exists r, st1, m1, U1. repeat (split; [done|]). split; [destruct Hc as [|(?&?&?&?)]; tauto|].
  destruct (rep_UserLeave mng st1 U1 S fd g m1 R1 Hfd) as (st2 & m2 & E2 & R2 & _ & L2).
  exists st2, m2. split; [done|]. split; [done|]. intros ->.
  destruct Hc as [Hc|(Hbad & _)]; [|done]. unfold spec_user_join in Hc.
  pose proof (user_at_rep mng st U S fd R Hfd) as K.
  destruct (user_at U S fd) as [[k i]|] eqn:Hat; [|done].
  destruct K as (_ & _ & _ & _ & _ & HS & Hi & _ & _).
  destruct (bool_decide (g ∈ u_groups i)) eqn:D; [done|]. bprop. injection Hc as ->.
  assert (spec_user_leave (<[k := with_groups i (u_groups i ++ [g])]> U) S fd g = (ST_OK, U)) as Es.
  { unfold spec_user_leave, user_at. rewrite HS, lookup_insert_eq. cbn [with_groups u_groups].
    rewrite bool_decide_eq_true_2 by (apply elem_of_app; right; by apply list_elem_of_singleton).
    rewrite without_middle, app_nil_r, insert_insert_eq by (done || apply not_elem_of_nil).
    unfold with_groups. cbn. rewrite insert_id; [done|]. rewrite Hi. by destruct i. }
  rewrite Es in *. cbn [fst snd] in *. split; [done|]. split; [done|]. lia.
Qed.

Lemma user_join_leave_witness : exists mng st, um_rep mng st demo_users demo_socks /\
  exists r st1 m1 U1, UserMng_JoinGroup (Some mng) st 4 (Some [103]) (Mem [] 0) = Some ((r, st1), m1) /\
    um_rep mng st1 U1 demo_socks /\ live m1 - um_blocks mng U1 = 0 - um_blocks mng demo_users /\
    ((r, U1) = spec_user_join demo_users demo_socks 4 [103] \/
     (r = ST_ERR_SERVER_FULL /\ U1 = demo_users /\ ~ alloc_ok (Mem [] 0))) /\
    exists st2 m2, UserMng_LeaveGroup (Some mng) st1 4 (Some [103]) m1
        = Some ((fst (spec_user_leave U1 demo_socks 4 [103]), st2), m2) /\
      um_rep mng st2 (snd (spec_user_leave U1 demo_socks 4 [103])) demo_socks /\
      (r = ST_OK -> fst (spec_user_leave U1 demo_socks 4 [103]) = ST_OK /\
         snd (spec_user_leave U1 demo_socks 4 [103]) = demo_users /\ live m2 = 0).
Proof.
  destruct demo_user_manager as (mng0 & m0 & mng1 & st1 & m1 & mng & st & _ & _ & _ & _ & _ & R).
  exists mng, st. split; [exact R|].
  apply (user_join_leave mng st demo_users demo_socks 4 [103] (Mem [] 0) R). by vm_compute.
Defined.

(** C36: Logging out hands every group of the user on the socket, in the order
    they were joined and each exactly once, to the leave callback, frees every
    name and node, and leaves the user registered, offline and in no group,
    and the socket free; with nobody on the socket it reports so and calls
    nothing. *)
Theorem user_logout_leaves_all (C : Type) mng st U S fd (f : cstring -> C -> C) c m :
  um_rep mng st U S -> bad_socket fd = false ->
  match user_at U S fd with
  | None => UserMng_Logout (Some mng) st fd (Some (fun g c => mret (f g c))) c m
            = Some ((ST_ERR_NOT_LOGGED_IN, Some mng, st, c), m)
  | Some (k, i) => exists mng' st' m',
      UserMng_Logout (Some mng) st fd (Some (fun g c => mret (f g c))) c m
        = Some ((ST_OK, Some mng', st', foldl (fun c g => f g c) c (u_groups i)), m') /\
      um_rep mng' st' (<[k := logged_out i]> U) (delete fd S) /\
      live m' - um_blocks mng' (<[k := logged_out i]> U) = live m - um_blocks mng U
  end.
Proof.
  intros R Hfd. destruct (user_at U S fd) as [[k i]|] eqn:Hat; [|by eapply rep_Logout_none].
  destruct (rep_Logout mng st U S fd k i (fun g c => mret (f g c))
    (fun rest c' m' => exists pre, u_groups i = pre ++ rest /\ c' = foldl (fun c g => f g c) c pre /\
       live m' = live m - 2 * Z.of_nat (length pre)) c m)
    as (mng' & st' & c' & m' & E & R' & (pre & Epre & -> & L) & B); [|done..| |].
  - intros g rest c1 m1 (pre & Epre & -> & L). eexists _, _. split; [done|].
    exists (pre ++ [g]). rewrite <-app_assoc, foldl_app, length_app. cbn [live length foldl app].
    split; [done|]. split; [done|]. lia.
  - exists []. cbn. split; [done|]. split; [done|lia].
  - rewrite app_nil_r in Epre. exists mng', st', m'. rewrite Epre in *.
    split; [done|]. split; [done|]. rewrite B. lia.
Qed.

Lemma user_logout_leaves_all_witness : exists mng st, um_rep mng st demo_users demo_socks /\
  exists mng' st' m',
    UserMng_Logout (Some mng) st 4 (Some (fun g c => mret (c ++ [g]))) [] (Mem [] 0)
      = Some ((ST_OK, Some mng', st', []), m') /\
    um_rep mng' st' (<[ [97] := MkInfo [112] None [] ]> demo_users) (delete 4 demo_socks) /\
    live m' - um_blocks mng' (<[ [97] := MkInfo [112] None [] ]> demo_users)
      = 0 - um_blocks mng demo_users.
Proof.
  destruct demo_user_manager as (mng0 & m0 & mng1 & st1 & m1 & mng & st & _ & _ & _ & _ & _ & R).
  exists mng, st. split; [exact R|].
  exact (user_logout_leaves_all (list cstring) mng st demo_users demo_socks 4
    (fun g c => c ++ [g]) [] (Mem [] 0) R eq_refl).
Defined.
