(* ===== verification/ServerNet.v ===== *)
(** * The network layer of the server: [server/server_net.h], [server/server_net.c]

    The listening socket; a table of client slots, each with a receive buffer
    of three maximal messages; the select loop; and the reassembly of TLV
    messages from the byte stream of each client.  What the kernel answers is
    an argument of the definitions that use it; what the server gives to the
    kernel (sent messages, closed descriptors) is an output log.  The
    layer above is only known through the interface [Handlers].  The file
    proves that messages are delivered exactly as they are framed in the byte
    stream however it is fragmented, that a buffer never fills up, and that the
    slot table, the descriptor set and the pending bytes stay consistent. *)

From S2P Require Import Prelude Protocol.

(** ** Output

    What the server hands to the kernel, oldest first. *)
Inductive output := Sent (fd : Z) (msg : bytes) | Closed (fd : Z).

(** The first result is the function's, given what [send] returns.  [Sent] is a
    call of [send]; that it may raise [SIGPIPE] and so end the process is part
    of what the process does ([server_process] in [ServerMain]). *)
Definition ServerNet_SendMessage (_sockfd : Z) (_buf : ptr bytes) (_len : Z) (out : list output)
  : option ((Z -> Z) * list output) :=
  match _buf with
  | Some b =>
      if (0 >? _sockfd) || (0 =? _len) then Some (fun _ => -1, out) else
      data ← buf_slice b 0 _len;
      Some (fun sent => sent, out ++ [Sent _sockfd data])
  | None => Some (fun _ => -1, out)
  end.

(** ** State *)

Definition MAX_CLIENTS : Z := 1024.
Definition RECV_BUFFER_SIZE : Z := CHAT_MAX_MSG_SIZE * 3.

Record ClientState := MkClient { fd : Z; buffer : bytes; len : Z }.

(** [struct ServerNet], without the handlers, which are parameters. *)
Record ServerNet := MkServerNet {
  listenFd : Z;
  maxFd : Z;
  masterSet : gset Z;
  clients : list ClientState
}.

(** [FD_SET(fd, &set)]: a descriptor outside the set is undefined. *)
Definition FD_SET (fd : Z) (s : gset Z) : option (gset Z) :=
  if (0 <=? fd) && (fd <? MAX_CLIENTS) then Some ({[fd]} ∪ s) else None.
Definition FD_CLR (fd : Z) (s : gset Z) : option (gset Z) :=
  if (0 <=? fd) && (fd <? MAX_CLIENTS) then Some (s ∖ {[fd]}) else None.
Definition FD_ISSET (fd : Z) (s : gset Z) : option bool :=
  if (0 <=? fd) && (fd <? MAX_CLIENTS) then Some (bool_decide (fd ∈ s)) else None.

Section net.
Context {W : Type}.

(** [OnMessageFn] and [OnDisconnectFn] on the state [W] of the layer above,
    which includes the output log. *)
Context (_onMsg : ptr (Z -> bytes -> Z -> W -> M (Z * W))) (_onDisc : ptr (Z -> W -> M W)).
(** [close(fd)] *)
Context (close : Z -> W -> W).

(** ** [ProcessBuffer] *)

Fixpoint ProcessBuffer_loop (fuel : nat) (_client : ClientState) (w : W) : M (ClientState * W) :=
  '(r, type, length) ← lift (chat_peek_header (Some (buffer _client)) (len _client) (Some 0) (Some 0));
  if -1 =? r then mret (_client, w) else
  length ← lift length;
  let totalMsgLen := 2 + length in
  if len _client <? totalMsgLen then mret (_client, w) else
  match fuel with
  | O => fault
  | S fuel =>
      w ← match _onMsg with
          | Some f => '(_, w) ← f (fd _client) (buffer _client) totalMsgLen w; mret w
          | None => mret w
          end;
      let len' := size_t (len _client - totalMsgLen) in
      buffer' ← (if len' >? 0
                 then lift (src ← buf_slice (buffer _client) totalMsgLen len';
                            buf_write (buffer _client) 0 src)
                 else mret (buffer _client));
      ProcessBuffer_loop fuel (MkClient (fd _client) buffer' len') w
  end.

(** Every message has at least two bytes. *)
Definition ProcessBuffer (_client : ClientState) (w : W) : M (ClientState * W) :=
  ProcessBuffer_loop (Z.to_nat (len _client)) _client w.

(** ** One client with data: [received] is what [recv] returned, [None] for a
    result that is not positive. *)
Definition HandleClientData (_client : ClientState) (_masterSet : gset Z) (received : option bytes)
    (w : W) : M (ClientState * gset Z * W) :=
  let spaceLeft := size_t (RECV_BUFFER_SIZE - len _client) in
  if spaceLeft =? 0 then mret (_client, _masterSet, w) else
  match received with
  | None =>
      let w := close (fd _client) w in
      set ← lift (FD_CLR (fd _client) _masterSet);
      w ← match _onDisc with Some f => f (fd _client) w | None => mret w end;
      mret (MkClient (-1) (buffer _client) 0, set, w)
  | Some data =>
      buffer' ← lift (buf_write (buffer _client) (len _client) data);
      '(c, w) ← ProcessBuffer
        (MkClient (fd _client) buffer' (size_t (len _client + blen data))) w;
      mret (c, _masterSet, w)
  end.

(** ** A new connection: [newFd] is what [accept] returned. *)
Fixpoint find_slot (_clients : list ClientState) (i : nat) : option nat :=
  match _clients with
  | [] => None
  | c :: cs => if -1 =? fd c then Some i else find_slot cs (S i)
  end.

Definition HandleNewConnection (net : ServerNet) (newFd : Z) (w : W) : option (ServerNet * W) :=
  if -1 =? newFd then Some (net, w) else
  match find_slot (clients net) 0 with
  | Some i =>
      c ← clients net !! i;
      let cs := <[i := MkClient newFd (buffer c) 0]> (clients net) in
      set ← FD_SET newFd (masterSet net);
      Some (MkServerNet (listenFd net) (if newFd >? maxFd net then newFd else maxFd net) set cs, w)
  | None => Some (net, close newFd w)
  end.

(** ** The select loop *)

(** What the kernel answers in one turn of the loop: the ready descriptors, the
    connection [accept] returns, and what [recv] returns on each descriptor. *)
Record wakeup := MkWakeup {
  readSet : gset Z;
  accepted : Z;
  received : Z -> option bytes
}.

Inductive select_result := SelectInterrupted | SelectFailed | SelectReady (k : wakeup).

(** The loop [for (i = 0; i < MAX_CLIENTS; ++i)], [n] slots left. *)
Fixpoint serve_clients (n : nat) (i : nat) (net : ServerNet) (k : wakeup) (w : W) : M (ServerNet * W) :=
  match n with
  | O => mret (net, w)
  | S n =>
      c ← lift (clients net !! i);
      ready ← (if -1 =? fd c then mret false else lift (FD_ISSET (fd c) (readSet k)));
      '(net, w) ← (if ready : bool then
                     '(c, set, w) ← HandleClientData c (masterSet net) (received k (fd c)) w;
                     mret (MkServerNet (listenFd net) (maxFd net) set (<[i := c]> (clients net)), w)
                   else mret (net, w));
      serve_clients n (S i) net k w
  end.

(** The flag [_keepRunning] points to is volatile: a handler may write it at any
    time.  [on_signal n v] is what the handler of signal [n] makes of the value
    [v], and a pass of the loop comes with the signals that are handled between
    its test of the flag and the next one; when in between makes no difference
    to the code, which does not read the flag there. *)
Context (on_signal : Z -> Z -> Z).

Record pass := MkPass { answer : select_result; signals : list Z }.

Definition flag_after (flag : Z) (sigs : list Z) : Z := foldl (fun v n => on_signal n v) flag sigs.

(** The [while] loop on the flag, [flag] its value.  The result is
    [None] while the last call of [select] has not returned. *)
Fixpoint ServerNet_Run_loop (_net : ServerNet) (flag : Z) (passes : list pass) (w : W)
  : M (option Z * ServerNet * W) :=
  if flag =? 0 then mret (Some 0, _net, w) else
  match passes with
  | [] => mret (None, _net, w)
  | p :: passes =>
      let flag := flag_after flag (signals p) in
      match answer p with
      | SelectInterrupted => ServerNet_Run_loop _net flag passes w
      | SelectFailed => mret (Some (-1), _net, w)
      | SelectReady k =>
          new ← lift (FD_ISSET (listenFd _net) (readSet k));
          '(_net, w) ← (if new : bool then lift (HandleNewConnection _net (accepted k) w) else mret (_net, w));
          '(_net, w) ← serve_clients (Z.to_nat MAX_CLIENTS) 0 _net k w;
          ServerNet_Run_loop _net flag passes w
      end
  end.

Definition ServerNet_Run (_net : ptr ServerNet) (_keepRunning : ptr Z) (passes : list pass) (w : W)
  : M (option Z * ptr ServerNet * W) :=
  match _net, _keepRunning with
  | Some net, Some flag =>
      '(r, net, w) ← ServerNet_Run_loop net flag passes w;
      mret (r, Some net, w)
  | _, _ => mret (Some (-1), _net, w)
  end.

(** ** Lifecycle

    What the kernel answers while the server starts to listen: [socket], and
    whether [setsockopt], [bind] at a port and [listen] succeed. *)
Record listen_answers := MkListen {
  listen_socket : Z; reuse_ok : bool; bind_ok : Z -> bool; listen_ok : bool
}.

Definition SetupListeningSocket (k : listen_answers) (_port : Z) (w : W) : Z * W :=
  let listenFd := listen_socket k in
  if -1 =? listenFd then (-1, w) else
  if negb (reuse_ok k) then (-1, close listenFd w) else
  if negb (bind_ok k (u16 _port)) then (-1, close listenFd w) else
  if negb (listen_ok k) then (-1, close listenFd w) else
  (listenFd, w).

(** [garbage] is what a fresh receive buffer holds. *)
Definition ServerNet_Create (k : listen_answers) (_port : Z) (garbage : bytes) (w : W)
  : M (ptr ServerNet * W) :=
  ok ← malloc;
  if negb ok then mret (NULL, w) else
  let '(listening, w) := SetupListeningSocket k _port w in
  if -1 =? listening then free;; mret (NULL, w) else
  set ← lift (FD_SET listening ∅);
  mret (Some (MkServerNet listening listening set
                (replicate (Z.to_nat MAX_CLIENTS) (MkClient (-1) garbage 0))), w).

Fixpoint close_clients (cs : list ClientState) (w : W) : W :=
  match cs with
  | [] => w
  | c :: cs => close_clients cs (if -1 =? fd c then w else close (fd c) w)
  end.

Definition ServerNet_Destroy (_net : ptr (ptr ServerNet)) (w : W) : M (ptr (ptr ServerNet) * W) :=
  match _net with
  | Some (Some net) =>
      let w := close_clients (clients net) w in
      let w := close (listenFd net) w in
      free;;
      mret (Some NULL, w)
  | _ => mret (_net, w)
  end.

End net.

(** ** Runs of the loop

    What [select] answers in the passes of a run: the loop ends when the flag is
    found cleared and when [select] fails. *)
Fixpoint answers_of (on_signal : Z -> Z -> Z) (flag : Z) (passes : list pass) : list select_result :=
  if flag =? 0 then [] else
  match passes with
  | [] => []
  | MkPass SelectFailed _ :: _ => [SelectFailed]
  | MkPass a sigs :: passes => a :: answers_of on_signal (flag_after on_signal flag sigs) passes
  end.

(** The run comes to its end. *)
Fixpoint run_ends (on_signal : Z -> Z -> Z) (flag : Z) (passes : list pass) : bool :=
  if flag =? 0 then true else
  match passes with
  | [] => false
  | MkPass SelectFailed _ :: _ => true
  | MkPass _ sigs :: passes => run_ends on_signal (flag_after on_signal flag sigs) passes
  end.

(** The answers worked off one after the other. *)
Fixpoint run_answers {W} onMsg onDisc close (_net : ServerNet) (answers : list select_result) (w : W)
  : M (Z * ServerNet * W) :=
  match answers with
  | [] => mret (0, _net, w)
  | SelectInterrupted :: answers => run_answers onMsg onDisc close _net answers w
  | SelectFailed :: _ => mret (-1, _net, w)
  | SelectReady k :: answers =>
      new ← lift (FD_ISSET (listenFd _net) (readSet k));
      '(_net, w) ← (if new : bool then lift (HandleNewConnection close _net (accepted k) w) else mret (_net, w));
      '(_net, w) ← serve_clients onMsg onDisc close (Z.to_nat MAX_CLIENTS) 0 _net k w;
      run_answers onMsg onDisc close _net answers w
  end.

(** The loop works off the answers it has seen; it has returned if the run has
    ended. *)
Lemma ServerNet_Run_loop_answers {W} onMsg onDisc close on_signal net flag passes (w : W) m :
  ServerNet_Run_loop onMsg onDisc close on_signal net flag passes w m
  = ('(r, net, w) ← run_answers onMsg onDisc close net (answers_of on_signal flag passes) w;
     mret (if run_ends on_signal flag passes then Some r else None, net, w)) m.
Proof.
  revert net flag w m. induction passes as [|[[| |k] sigs] passes IH]; intros net flag w m;
    cbn [ServerNet_Run_loop answers_of run_ends answer signals]; destruct (flag =? 0); try done.
  cbn [run_answers]. unfold mbind, M_bind.
  destruct (lift (FD_ISSET (listenFd net) (readSet k)) m) as [[new m1]|]; [|done].
  match goal with |- match ?x with _ => _ end = _ => destruct x as [[[net1 w1] m2]|]; [|done] end.
  destruct (serve_clients onMsg onDisc close (Z.to_nat MAX_CLIENTS) 0 net1 k w1 m2) as [[[net2 w2] m3]|]; [|done].
  apply IH.
Qed.

Lemma ServerNet_Run_answers {W} onMsg onDisc close on_signal net flag passes (w : W) m :
  ServerNet_Run onMsg onDisc close on_signal (Some net) (Some flag) passes w m
  = ('(r, net, w) ← run_answers onMsg onDisc close net (answers_of on_signal flag passes) w;
     mret (if run_ends on_signal flag passes then Some r else None, Some net, w)) m.
Proof.
  unfold ServerNet_Run, mbind at 1, M_bind at 1. rewrite ServerNet_Run_loop_answers. unfold mbind, M_bind.
  by destruct (run_answers _ _ _ _ _ _ _) as [[[[r net'] w'] m']|].
Qed.

Lemma answers_of_failed on_signal flag passes : SelectFailed ∈ answers_of on_signal flag passes ->
  run_ends on_signal flag passes = true /\ Exists (fun p => answer p = SelectFailed) passes.
Proof.
  revert flag. induction passes as [|[[| |k] sigs] passes IH]; intros flag; cbn [answers_of run_ends];
    destruct (flag =? 0); try (by intros ?%elem_of_nil).
  - intros [?|(H1 & H2)%IH]%elem_of_cons; [done|]. split; [done|]. by right.
  - intros _. split; [done|]. by left.
  - intros [?|(H1 & H2)%IH]%elem_of_cons; [done|]. split; [done|]. by right.
Qed.

(** ** Framing a byte stream

    The reference: the complete frames at the front of a byte string, and the
    rest, which holds no complete frame. *)
Fixpoint split_frames_fuel (fuel : nat) (b : bytes) : list bytes * bytes :=
  match fuel, b with
  | S fuel, t :: l :: body =>
      if l <=? blen body then
        let '(fs, rest) := split_frames_fuel fuel (drop (Z.to_nat l) body) in
        ((t :: l :: take (Z.to_nat l) body) :: fs, rest)
      else ([], b)
  | _, _ => ([], b)
  end.

Definition split_frames (b : bytes) : list bytes * bytes := split_frames_fuel (length b) b.

Lemma split_fuel_cons fuel t l body :
  split_frames_fuel (S fuel) (t :: l :: body)
  = if l <=? blen body
    then let '(fs, rest) := split_frames_fuel fuel (drop (Z.to_nat l) body) in
         ((t :: l :: take (Z.to_nat l) body) :: fs, rest)
    else ([], t :: l :: body).
Proof. done. Qed.

Lemma split_fuel_ge fuel b : (length b <= fuel)%nat -> split_frames_fuel fuel b = split_frames b.
Proof.
  unfold split_frames.
  enough (forall f1 f2 b, (length b <= f1)%nat -> (length b <= f2)%nat ->
    split_frames_fuel f1 b = split_frames_fuel f2 b) as Hg by (intros; by apply Hg).
  intros f1. induction f1 as [|f1 IH]; intros f2 b' H1 H2.
  - destruct b'; [|cbn in H1; lia]. by destruct f2.
  - destruct b' as [|t [|l body]]; [by destruct f2..|]. destruct f2 as [|f2]; [cbn in H2; lia|].
    rewrite !split_fuel_cons. destruct (l <=? blen body); [|done].
    rewrite (IH f2); [done| |]; rewrite length_drop; cbn in *; lia.
Qed.

Lemma split_frames_short b : (length b < 2)%nat -> split_frames b = ([], b).
Proof. destruct b as [|t [|l b]]; cbn; (done || lia). Qed.

Lemma split_frames_cons t l body :
  split_frames (t :: l :: body)
  = if l <=? blen body
    then let '(fs, rest) := split_frames (drop (Z.to_nat l) body) in
         ((t :: l :: take (Z.to_nat l) body) :: fs, rest)
    else ([], t :: l :: body).
Proof.
  rewrite <-(split_fuel_ge (S (length (l :: body)))) by done. rewrite split_fuel_cons.
  destruct (l <=? blen body); [|done]. rewrite split_fuel_ge; [done|]. rewrite length_drop. cbn. lia.
Qed.

(** Induction on the frames of a byte string. *)
Lemma split_frames_ind (P : bytes -> Prop) :
  (forall b, (length b < 2)%nat -> P b) ->
  (forall t l body, blen body < l -> P (t :: l :: body)) ->
  (forall t l body, l <= blen body -> P (drop (Z.to_nat l) body) -> P (t :: l :: body)) ->
  forall b, P b.
Proof.
  intros H1 H2 H3 b. remember (length b) as n eqn:En.
  revert b En. induction (lt_wf n) as [n _ IH]. intros b ->.
  destruct b as [|t [|l body]]; [apply H1; cbn; lia..|].
  destruct (Z_lt_ge_dec (blen body) l); [by apply H2|]. apply H3; [lia|].
  eapply IH; [|done]. rewrite length_drop. cbn. lia.
Qed.

Lemma split_frames_app b1 b2 :
  split_frames (b1 ++ b2)
  = let '(fs1, r1) := split_frames b1 in
    let '(fs2, r2) := split_frames (r1 ++ b2) in (fs1 ++ fs2, r2).
Proof.
  induction b1 as [b1 Hb|t l body Hl|t l body Hl IH] using split_frames_ind.
  - rewrite (split_frames_short b1 Hb). by destruct (split_frames (b1 ++ b2)).
  - rewrite (split_frames_cons t l body), (proj2 (Z.leb_gt _ _)) by done.
    by destruct (split_frames _).
  - cbn [app]. rewrite !split_frames_cons, blen_app. pose proof (blen_nonneg b2).
    rewrite !(proj2 (Z.leb_le _ _)) by lia.
    assert (Z.to_nat l <= length body)%nat by (unfold blen in *; lia).
    rewrite drop_app_le, take_app_le, IH by done.
    destruct (split_frames (drop _ body)) as [fs1 r1]. by destruct (split_frames (r1 ++ b2)).
Qed.

(** The frames and the rest are the bytes. *)
Lemma split_frames_concat b : concat (fst (split_frames b)) ++ snd (split_frames b) = b.
Proof.
  induction b as [b Hb|t l body Hl|t l body Hl IH] using split_frames_ind.
  - by rewrite split_frames_short.
  - by rewrite split_frames_cons, (proj2 (Z.leb_gt _ _)).
  - rewrite split_frames_cons, (proj2 (Z.leb_le _ _)) by done.
    destruct (split_frames (drop _ body)) as [fs r]. cbn [fst snd concat app] in *.
    rewrite <-app_assoc, IH. by rewrite take_drop.
Qed.

Definition incomplete (b : bytes) : Prop := split_frames b = ([], b).

Lemma split_frames_rest b : incomplete (snd (split_frames b)).
Proof.
  unfold incomplete. induction b as [b Hb|t l body Hl|t l body Hl IH] using split_frames_ind.
  - rewrite (split_frames_short b Hb). by apply split_frames_short.
  - rewrite split_frames_cons, (proj2 (Z.leb_gt _ _)) by done. cbn [snd].
    by rewrite split_frames_cons, (proj2 (Z.leb_gt _ _)).
  - rewrite split_frames_cons, (proj2 (Z.leb_le _ _)) by done.
    destruct (split_frames (drop _ body)) as [fs r]. exact IH.
Qed.

(** What is pending fits in a message: the buffer always has room. *)
Lemma incomplete_short b : is_byte_list b -> incomplete b -> blen b < CHAT_MAX_MSG_SIZE.
Proof.
  intros Hb Hi. unfold CHAT_MAX_MSG_SIZE, CHAT_MAX_PAYLOAD.
  destruct b as [|t [|l body]]; [done..|]. unfold incomplete in Hi.
  rewrite split_frames_cons in Hi. destruct (l <=? blen body) eqn:E.
  { by destruct (split_frames (drop _ body)). }
  bprop. unfold is_byte_list in Hb. rewrite !Forall_cons_iff in Hb. destruct Hb as (_ & Hl & _).
  unfold is_u8 in Hl. rewrite !blen_cons. lia.
Qed.

Lemma frames_bytes b f : is_byte_list b -> f ∈ fst (split_frames b) -> is_byte_list f /\ 2 <= blen f.
Proof.
  induction b as [b Hb|t l body Hl|t l body Hl IH] using split_frames_ind; intros Hbytes.
  - rewrite split_frames_short by done. by intros ?%elem_of_nil.
  - rewrite split_frames_cons, (proj2 (Z.leb_gt _ _)) by done. by intros ?%elem_of_nil.
  - rewrite split_frames_cons, (proj2 (Z.leb_le _ _)) by done.
    unfold is_byte_list in Hbytes. rewrite !Forall_cons_iff in Hbytes. destruct Hbytes as (Ht & Hlu & Hbody).
    destruct (split_frames (drop _ body)) as [fs r]. cbn [fst] in *.
    intros [->|Hin]%elem_of_cons; [|apply IH; [by apply Forall_drop|done]].
    split; [apply Forall_cons_2; [done|]; apply Forall_cons_2; [done|]; by apply Forall_take|].
    rewrite !blen_cons. pose proof (blen_nonneg (take (Z.to_nat l) body)). lia.
Qed.

Lemma rest_bytes b : is_byte_list b -> is_byte_list (snd (split_frames b)).
Proof.
  intros Hb. unfold is_byte_list in *. rewrite <-(split_frames_concat b) in Hb.
  by apply Forall_app in Hb as [_ Hb].
Qed.

(** ** The handlers of the layer above *)

(** What the network layer relies on of its handlers: a message handler reads
    only the message; with [Inv w m A] the state [w] is consistent and exactly
    the connections [A] carry a session; handling a message of a connection
    keeps the state consistent and may open or close a session on that
    connection only; a disconnect ends its session. *)
Class Handlers {W : Type} (onMsg : Z -> bytes -> Z -> W -> M (Z * W)) (onDisc : Z -> W -> M W)
    (close : Z -> W -> W) (Inv : W -> mem -> gset Z -> Prop) : Prop := {
  on_msg_local : forall fd b n w m, is_byte_list b -> 0 <= n <= blen b ->
    onMsg fd b n w m = onMsg fd (take (Z.to_nat n) b) n w m;
  on_msg_ok : forall fd f w m A, 0 <= fd < MAX_CLIENTS -> is_byte_list f -> 2 <= blen f -> Inv w m A ->
    exists r w' m' A', onMsg fd f (blen f) w m = Some ((r, w'), m') /\ Inv w' m' A' /\
      forall x, x <> fd -> (x ∈ A' <-> x ∈ A);
  on_disc_ok : forall fd w m A, 0 <= fd < MAX_CLIENTS -> Inv w m A ->
    exists w' m', onDisc fd w m = Some (w', m') /\ Inv w' m' (A ∖ {[fd]});
  close_ok : forall fd w m A, Inv w m A -> Inv (close fd w) m A
}.

Section delivery.
Context {W : Type} {onMsg : Z -> bytes -> Z -> W -> M (Z * W)} {onDisc : Z -> W -> M W}.
Context {close : Z -> W -> W} {Inv : W -> mem -> gset Z -> Prop}.
Context `{HH : !Handlers onMsg onDisc close Inv}.

(** The message handler on a sequence of messages. *)
Fixpoint deliver (fd : Z) (fs : list bytes) (w : W) : M W :=
  match fs with
  | [] => mret w
  | f :: fs => '(_, w) ← onMsg fd f (blen f) w; deliver fd fs w
  end.

Lemma deliver_app fd fs1 fs2 w m :
  deliver fd (fs1 ++ fs2) w m = (w ← deliver fd fs1 w; deliver fd fs2 w) m.
Proof.
  revert w m. induction fs1 as [|f fs1 IH]; intros w m; cbn [deliver app]; [by mstep_ret|].
  unfold mbind, M_bind in *. destruct (onMsg fd f (blen f) w m) as [[[r w'] m']|]; [|done]. apply IH.
Qed.

(** One frame at the front of the buffer. *)
Lemma front_frame t l body buf n : is_byte_list buf -> 0 <= n <= blen buf ->
  take (Z.to_nat n) buf = t :: l :: body ->
  n = 2 + blen body /\ is_u8 l /\ chat_peek_header (Some buf) n (Some 0) (Some 0) = Some (0, Some t, Some l) /\
  (l <= blen body -> take (Z.to_nat (2 + l)) buf = t :: l :: take (Z.to_nat l) body).
Proof.
  intros Hb Hn E.
  assert (n = 2 + blen body) as En.
  { apply (f_equal blen) in E. rewrite !blen_cons in E. unfold blen in *.
    rewrite length_take in E. lia. }
  destruct buf as [|t' [|l' rest]]; [by rewrite take_nil in E|by destruct (Z.to_nat n) as [|[|?]]|].
  assert (Z.to_nat n = S (S (length body))) as En2 by (unfold blen in *; lia).
  rewrite En2 in E. cbn [take] in E. injection E as -> -> E.
  unfold is_byte_list in Hb. rewrite !Forall_cons_iff in Hb. destruct Hb as (Ht & Hl & _).
  split; [done|]. split; [done|]. split.
  - unfold chat_peek_header. pose proof (blen_nonneg body). rewrite (proj2 (Z.ltb_ge _ _)) by lia. done.
  - intros Hle. unfold is_u8 in Hl. replace (Z.to_nat (2 + l)) with (S (S (Z.to_nat l))) by lia.
    cbn [take]. do 2 f_equal. rewrite <-E, take_take. f_equal. unfold blen in *. lia.
Qed.

(** The [memmove]: the rest of the pending bytes comes to the front. *)
Lemma move_rest buf l n' rest : is_byte_list buf -> 0 <= l -> 0 <= n' -> 2 + l + n' <= blen buf ->
  take (Z.to_nat n') (drop (Z.to_nat (2 + l)) buf) = rest ->
  exists b1, blen b1 = blen buf /\ is_byte_list b1 /\ take (Z.to_nat n') b1 = rest /\
    forall m, (if n' >? 0 then lift (src ← buf_slice buf (2 + l) n'; buf_write buf 0 src)
               else mret buf) m = Some (b1, m).
Proof.
  intros Hb Hl Hn Hle E. rewrite Z.gtb_ltb. destruct (0 <? n') eqn:E0; bprop.
  - rewrite buf_slice_Some by lia. cbn [mbind option_bind]. rewrite E.
    assert (length rest = Z.to_nat n') as Ld.
    { rewrite <-E, length_take, length_drop. unfold blen in *. lia. }
    unfold buf_write. rewrite !(proj2 (Z.leb_le _ _)) by (unfold blen in *; lia). cbn [andb].
    exists (rest ++ drop (Z.to_nat n') buf).
    split; [unfold blen in *; rewrite length_app, length_drop; lia|].
    split; [apply Forall_app; split; [rewrite <-E; by apply Forall_take, Forall_drop|by apply Forall_drop]|].
    split; [by rewrite <-Ld, take_app_length|].
    intros m. change (Z.to_nat 0) with 0%nat. by rewrite take_0, Ld.
  - exists buf. split; [done|]. split; [done|]. split; [|done].
    rewrite <-E. replace n' with 0 by lia. done.
Qed.

(** What processing a buffer does: the messages of the pending bytes are
    handled in order and the rest is moved to the front. *)
Definition processed (c : ClientState) (run : W -> M (ClientState * W)) : Prop :=
  let '(fs, rest) := split_frames (take (Z.to_nat (len c)) (buffer c)) in
  exists b', blen b' = blen (buffer c) /\ is_byte_list b' /\ take (length rest) b' = rest /\
    forall w m, run w m = (w ← deliver (fd c) fs w; mret (MkClient (fd c) b' (blen rest), w)) m.

Lemma pending_length c : 0 <= len c <= blen (buffer c) ->
  len c = blen (take (Z.to_nat (len c)) (buffer c)).
Proof. intros Hn. unfold blen in *. rewrite length_take. lia. Qed.

(** Nothing to handle: the buffer is as it was. *)
Lemma processed_nothing c run : is_byte_list (buffer c) -> 0 <= len c <= blen (buffer c) ->
  incomplete (take (Z.to_nat (len c)) (buffer c)) -> (forall w m, run w m = Some ((c, w), m)) -> processed c run.
Proof.
  intros Hb Hn Hi Hrun. unfold processed. rewrite Hi. exists (buffer c). split; [done|]. split; [done|].
  pose proof (pending_length c Hn) as E. split.
  - rewrite <-(Nat2Z.id (length _)). change (Z.of_nat (length ?x)) with (blen x). by rewrite <-E.
  - intros w m. cbn [deliver]. mstep_ret. rewrite Hrun, <-E. by destruct c.
Qed.

Lemma ProcessBuffer_loop_spec fuel c :
  is_byte_list (buffer c) -> 0 <= len c <= blen (buffer c) -> blen (buffer c) < 2 ^ 64 ->
  len c <= Z.of_nat fuel -> processed c (ProcessBuffer_loop (Some onMsg) fuel c).
Proof.
  revert c. induction fuel as [|fuel IH]; intros c Hb Hn Hmax Hf;
    destruct (decide (len c < 2)) as [Hs|Hs].
  1, 3: apply processed_nothing; [done|done| |];
    [apply split_frames_short; rewrite length_take; lia|];
    intros w m; cbn [ProcessBuffer_loop]; unfold chat_peek_header;
    rewrite (proj2 (Z.ltb_lt (len c) 2)) by lia; by mlift.
  - lia.
  - destruct (take (Z.to_nat (len c)) (buffer c)) as [|t [|l body]] eqn:E;
      [apply (f_equal length) in E; rewrite length_take in E; unfold blen in *; cbn in E; lia..|].
    destruct (front_frame t l body (buffer c) (len c) Hb Hn E) as (En & Hl & Hpeek & Hfr).
    unfold is_u8 in Hl. destruct (l <=? blen body) eqn:El; bprop; cycle 1.
    { apply processed_nothing; [done|done| |].
      - unfold incomplete. by rewrite E, split_frames_cons, (proj2 (Z.leb_gt _ _)).
      - intros w m. cbn [ProcessBuffer_loop]. rewrite Hpeek. mlift. cbn [Z.eqb]. mlift.
        by rewrite (proj2 (Z.ltb_lt _ _)) by lia. }
    unfold processed. rewrite E, split_frames_cons, (proj2 (Z.leb_le _ _)) by done.
    set (n' := len c - (2 + l)).
    destruct (move_rest (buffer c) l n' (drop (Z.to_nat l) body)) as (b1 & Lb1 & Hb1 & Eb1 & Emove);
      [done|lia|lia|lia| |].
    { rewrite take_drop_commute. replace (Z.to_nat (2 + l) + Z.to_nat n')%nat with (Z.to_nat (len c)) by lia.
      rewrite E. by replace (Z.to_nat (2 + l)) with (S (S (Z.to_nat l))) by lia. }
    pose proof (IH (MkClient (fd c) b1 n')) as IH1. unfold processed in IH1. cbn [buffer len fd] in IH1.
    rewrite Eb1 in IH1. destruct (split_frames (drop (Z.to_nat l) body)) as [fs rest].
    destruct IH1 as (b' & Lb' & Hb' & Erest & Erun); [done|lia|lia|lia|].
    exists b'. split; [congruence|]. split; [done|]. split; [done|].
    intros w m. cbn [ProcessBuffer_loop deliver]. rewrite Hpeek. mlift. cbn [Z.eqb]. mlift.
    rewrite (proj2 (Z.ltb_ge _ _)) by lia.
    assert (size_t (len c - (2 + l)) = n') as -> by (apply Z.mod_small; lia).
    pose proof (on_msg_local (fd c) (buffer c) (2 + l) w m Hb) as Hloc. rewrite Hfr in Hloc by lia.
    assert (blen (t :: l :: take (Z.to_nat l) body) = 2 + l) as Lf.
    { rewrite !blen_cons. unfold blen in *. rewrite length_take. lia. }
    rewrite Lf. rewrite !M_bind_assoc.
    destruct (onMsg (fd c) (t :: l :: take (Z.to_nat l) body) (2 + l) w m) as [[[r w'] m']|] eqn:Em.
    + mrun Em. rewrite (M_bind_Some _ _ m (r, w') m') by (apply Hloc; lia).
      mstep_ret. rewrite (M_bind_Some _ _ m' b1 m') by apply Emove. apply Erun.
    + rewrite !M_bind_None; [done|done|]. apply Hloc. lia.
Qed.

Lemma ProcessBuffer_spec c :
  is_byte_list (buffer c) -> 0 <= len c <= blen (buffer c) -> blen (buffer c) < 2 ^ 64 ->
  processed c (ProcessBuffer (Some onMsg) c).
Proof. intros Hb Hn Hmax. apply ProcessBuffer_loop_spec; (done || lia). Qed.

(** ** One client *)

Definition pending (c : ClientState) : bytes := take (Z.to_nat (len c)) (buffer c).

(** Between two turns a buffer holds at most the beginning of one message. *)
Record client_ok (c : ClientState) : Prop := {
  co_size : blen (buffer c) = RECV_BUFFER_SIZE;
  co_bytes : is_byte_list (buffer c);
  co_len : 0 <= len c <= RECV_BUFFER_SIZE;
  co_pending : incomplete (pending c)
}.

Lemma client_ok_fresh fd0 b : blen b = RECV_BUFFER_SIZE -> is_byte_list b -> client_ok (MkClient fd0 b 0).
Proof. intros Hl Hb. constructor; try done. Qed.

Lemma pending_blen c : client_ok c -> blen (pending c) = len c.
Proof. intros []. symmetry. apply pending_length. lia. Qed.

(** There is always room for another [recv]. *)
Lemma client_room c : client_ok c -> len c < CHAT_MAX_MSG_SIZE /\
  size_t (RECV_BUFFER_SIZE - len c) = RECV_BUFFER_SIZE - len c /\ 0 < RECV_BUFFER_SIZE - len c.
Proof.
  intros H. pose proof (incomplete_short (pending c)) as Hs. rewrite pending_blen in Hs by done.
  destruct H as [_ Hb Hl Hi]. specialize (Hs (Forall_take _ _ _ Hb) Hi).
  unfold RECV_BUFFER_SIZE in *. chat_consts. split; [lia|]. split; [apply Z.mod_small|]; lia.
Qed.

Lemma HandleClientData_data c set data :
  client_ok c -> is_byte_list data -> 0 < blen data <= RECV_BUFFER_SIZE - len c ->
  exists c', fd c' = fd c /\ client_ok c' /\ pending c' = snd (split_frames (pending c ++ data)) /\
    forall w m, HandleClientData (Some onMsg) (Some onDisc) close c set (Some data) w m
      = (w ← deliver (fd c) (fst (split_frames (pending c ++ data))) w; mret (c', set, w)) m.
Proof.
  intros H Hd Hlen. destruct (client_room c H) as (_ & Hsp & Hpos). destruct H as [Hsz Hb Hl Hi].
  set (b1 := take (Z.to_nat (len c)) (buffer c) ++ data ++ drop (Z.to_nat (len c) + length data) (buffer c)).
  assert (buf_write (buffer c) (len c) data = Some b1) as Ew.
  { unfold buf_write. by rewrite !(proj2 (Z.leb_le _ _)) by lia. }
  assert (size_t (len c + blen data) = len c + blen data) as Es.
  { apply Z.mod_small. unfold RECV_BUFFER_SIZE in *. chat_consts. lia. }
  assert (blen b1 = RECV_BUFFER_SIZE) as Lb1.
  { unfold b1. unfold blen in *. rewrite !length_app, length_take, length_drop. lia. }
  assert (is_byte_list b1) as Hb1.
  { apply Forall_app. split; [by apply Forall_take|]. apply Forall_app. split; [done|by apply Forall_drop]. }
  assert (take (Z.to_nat (len c + blen data)) b1 = pending c ++ data) as Ep.
  { unfold b1. rewrite app_assoc. apply take_app_length'. unfold pending.
    rewrite length_app, length_take. unfold blen in *. lia. }
  pose proof (ProcessBuffer_spec (MkClient (fd c) b1 (len c + blen data))) as P.
  unfold processed in P. cbn [buffer len fd] in P. rewrite Ep in P.
  pose proof (split_frames_rest (pending c ++ data)) as Hrest.
  pose proof (f_equal blen (split_frames_concat (pending c ++ data))) as Hcat.
  destruct (split_frames (pending c ++ data)) as [fs rest] eqn:Esp. cbn [fst snd] in *.
  destruct P as (b' & Lb' & Hb' & Er & Erun);
    [done|unfold blen in *; lia|rewrite Lb1; unfold RECV_BUFFER_SIZE; chat_consts; lia|].
  exists (MkClient (fd c) b' (blen rest)). split; [done|].
  assert (pending (MkClient (fd c) b' (blen rest)) = rest) as Epend.
  { unfold pending. cbn [len buffer]. unfold blen. by rewrite Nat2Z.id. }
  split; [|split; [done|]].
  - constructor; cbn [buffer len]; [congruence|done| |by rewrite Epend].
    rewrite !blen_app in Hcat. pose proof (blen_nonneg (concat fs)). pose proof (blen_nonneg rest).
    assert (blen (pending c) = len c) by (symmetry; apply pending_length; lia). lia.
  - intros w m. unfold HandleClientData. rewrite Hsp, (proj2 (Z.eqb_neq _ _)) by lia.
    rewrite Ew. mlift. rewrite Es. unfold mbind at 1, M_bind at 1. rewrite Erun.
    unfold mbind, M_bind. by destruct (deliver (fd c) fs w m) as [[w' m']|].
Qed.

(** [HandleClientData] on a sequence of chunks. *)
Fixpoint receive (c : ClientState) (set : gset Z) (chunks : list bytes) (w : W)
  : M (ClientState * gset Z * W) :=
  match chunks with
  | [] => mret (c, set, w)
  | data :: chunks =>
      '(c, set, w) ← HandleClientData (Some onMsg) (Some onDisc) close c set (Some data) w;
      receive c set chunks w
  end.

(** What [recv] may return with [p] pending: some bytes, at most as many as were
    asked for. *)
Fixpoint chunks_fit (p : bytes) (chunks : list bytes) : Prop :=
  match chunks with
  | [] => True
  | data :: chunks => is_byte_list data /\ 0 < blen data <= RECV_BUFFER_SIZE - blen p /\
      chunks_fit (snd (split_frames (p ++ data))) chunks
  end.

Lemma receive_spec chunks c set : client_ok c -> chunks_fit (pending c) chunks ->
  exists c', fd c' = fd c /\ client_ok c' /\
    pending c' = snd (split_frames (pending c ++ concat chunks)) /\
    forall w m, receive c set chunks w m
      = (w ← deliver (fd c) (fst (split_frames (pending c ++ concat chunks))) w; mret (c', set, w)) m.
Proof.
  revert c. induction chunks as [|data chunks IH]; intros c H Hfit; cbn [concat].
  - pose proof (co_pending c H) as Hi. exists c. rewrite app_nil_r, Hi.
    repeat (split; [done|]). intros w m. cbn [receive deliver fst]. by mstep_ret.
  - destruct Hfit as (Hd & Hlen & Hfit). rewrite pending_blen in Hlen by done.
    destruct (HandleClientData_data c set data H Hd Hlen) as (c1 & Hfd1 & H1 & Hp1 & E1).
    destruct (IH c1 H1) as (c' & Hfd' & H' & Hp' & E'); [by rewrite Hp1|].
    exists c'. split; [congruence|]. split; [done|].
    rewrite app_assoc, split_frames_app. rewrite Hp1 in Hp', E'.
    destruct (split_frames (pending c ++ data)) as [fs1 r1]. cbn [fst snd] in *.
    destruct (split_frames (r1 ++ concat chunks)) as [fs2 r2]. cbn [fst snd] in *.
    split; [done|]. intros w m. cbn [receive]. unfold mbind at 1, M_bind at 1. rewrite E1.
    unfold mbind at 2, M_bind at 2. rewrite deliver_app. unfold mbind, M_bind in E' |- *.
    destruct (deliver (fd c) fs1 w m) as [[w1 m1]|]; [|done].
    change (receive c1 set chunks w1 m1 = match deliver (fd c) fs2 w1 m1 with
      | Some (x, m') => (mret (c', set, x) : M _) m' | None => None end).
    rewrite E', Hfd1. done.
Qed.

(** ** Consistency of the whole table *)

(** [x] is the descriptor of a client. *)
Definition connected (cs : list ClientState) (x : Z) : Prop :=
  x <> -1 /\ exists i c, cs !! i = Some c /\ fd c = x.

Record net_inv (net : ServerNet) (A : gset Z) : Prop := {
  ni_slots : length (clients net) = Z.to_nat MAX_CLIENTS;
  ni_clients : Forall client_ok (clients net);
  ni_fds : forall i c, clients net !! i = Some c -> fd c <> -1 ->
    0 <= fd c < MAX_CLIENTS /\ fd c ∈ masterSet net /\ fd c <> listenFd net /\ fd c <= maxFd net;
  ni_distinct : forall i j c c', clients net !! i = Some c -> clients net !! j = Some c' ->
    fd c = fd c' -> fd c <> -1 -> i = j;
  ni_set : forall x, x ∈ masterSet net -> x <> listenFd net -> connected (clients net) x;
  ni_listen : 0 <= listenFd net < MAX_CLIENTS /\ listenFd net ∈ masterSet net /\ listenFd net <= maxFd net;
  ni_sessions : forall x, x ∈ A -> connected (clients net) x
}.

Lemma FD_ok (x : Z) : 0 <= x < MAX_CLIENTS -> (0 <=? x) && (x <? MAX_CLIENTS) = true.
Proof. intros H. by rewrite (proj2 (Z.leb_le _ _)), (proj2 (Z.ltb_lt _ _)) by lia. Qed.

Lemma deliver_ok d fs w m A : 0 <= d < MAX_CLIENTS -> Inv w m A ->
  (forall f, f ∈ fs -> is_byte_list f /\ 2 <= blen f) ->
  exists w' m' A', deliver d fs w m = Some (w', m') /\ Inv w' m' A' /\
    forall x, x <> d -> (x ∈ A' <-> x ∈ A).
Proof.
  intros Hd. revert w m A. induction fs as [|f fs IH]; intros w m A Hi Hfs.
  - exists w, m, A. done.
  - destruct (Hfs f) as [Hb Hl]; [apply elem_of_cons; by left|].
    destruct (on_msg_ok d f w m A Hd Hb Hl Hi) as (r & w1 & m1 & A1 & E1 & Hi1 & HA1).
    destruct (IH w1 m1 A1 Hi1) as (w2 & m2 & A2 & E2 & Hi2 & HA2).
    { intros f' Hf'. apply Hfs. apply elem_of_cons. by right. }
    exists w2, m2, A2. cbn [deliver]. mrun E1. split; [done|]. split; [done|].
    intros x Hx. by rewrite HA2, HA1.
Qed.

(** What [recv] may return on a client. *)
Definition recv_ok (c : ClientState) (r : option bytes) : Prop :=
  match r with
  | None => True
  | Some data => is_byte_list data /\ 0 < blen data <= RECV_BUFFER_SIZE - len c
  end.

Lemma net_inv_replace net A i c c' A' :
  net_inv net A -> clients net !! i = Some c -> fd c' = fd c -> client_ok c' -> fd c <> -1 ->
  (forall x, x <> fd c -> (x ∈ A' <-> x ∈ A)) ->
  net_inv (MkServerNet (listenFd net) (maxFd net) (masterSet net) (<[i := c']> (clients net))) A'.
Proof.
  intros N Hi Hfd Hc' Hne HA.
  assert (i < length (clients net))%nat as Hlt by (by eapply lookup_lt_Some).
  assert (forall j d, <[i := c']> (clients net) !! j = Some d ->
    exists d0, clients net !! j = Some d0 /\ fd d0 = fd d) as Hback.
  { intros j d Hd. destruct (decide (i = j)) as [<-|].
    - rewrite list_lookup_insert_eq in Hd by done. injection Hd as <-. by exists c.
    - rewrite list_lookup_insert_ne in Hd by done. by exists d. }
  assert (forall x, connected (clients net) x -> connected (<[i := c']> (clients net)) x) as Hforth.
  { intros x (Hx1 & j & d & Hd & Hx). split; [done|]. destruct (decide (i = j)) as [<-|].
    - exists i, c'. rewrite list_lookup_insert_eq by done. split; [done|]. congruence.
    - exists j, d. by rewrite list_lookup_insert_ne. }
  constructor; cbn [clients listenFd maxFd masterSet].
  - rewrite length_insert. apply (ni_slots _ _ N).
  - apply Forall_insert; [apply (ni_clients _ _ N)|done].
  - intros j d (d0 & Hd0 & E)%Hback. rewrite <-E. apply (ni_fds _ _ N j d0 Hd0).
  - intros j1 j2 d1 d2 (e1 & H1 & E1)%Hback (e2 & H2 & E2)%Hback. rewrite <-E1, <-E2.
    by apply (ni_distinct _ _ N j1 j2 e1 e2).
  - intros x Hx Hl. apply Hforth. by apply (ni_set _ _ N).
  - apply (ni_listen _ _ N).
  - intros x Hx. destruct (decide (x = fd c)) as [->|Hxc].
    + apply Hforth. split; [done|]. by exists i, c.
    + apply HA in Hx; [|done]. by apply Hforth, (ni_sessions _ _ N).
Qed.

Lemma net_inv_remove net A i c :
  net_inv net A -> clients net !! i = Some c -> fd c <> -1 ->
  net_inv (MkServerNet (listenFd net) (maxFd net) (masterSet net ∖ {[fd c]})
            (<[i := MkClient (-1) (buffer c) 0]> (clients net))) (A ∖ {[fd c]}).
Proof.
  intros N Hi Hne. assert (i < length (clients net))%nat as Hlt by (by eapply lookup_lt_Some).
  destruct (ni_fds _ _ N i c Hi Hne) as (Hr & Hm & Hl & Hx).
  assert (forall j d, <[i := MkClient (-1) (buffer c) 0]> (clients net) !! j = Some d -> fd d <> -1 ->
    j <> i /\ clients net !! j = Some d /\ fd d <> fd c) as Hback.
  { intros j d Hd Hdne. destruct (decide (i = j)) as [<-|].
    - rewrite list_lookup_insert_eq in Hd by done. by injection Hd as <-.
    - rewrite list_lookup_insert_ne in Hd by done. split; [done|]. split; [done|].
      intros E. apply n. symmetry. by apply (ni_distinct _ _ N j i d c). }
  assert (forall x, x <> fd c -> connected (clients net) x ->
    connected (<[i := MkClient (-1) (buffer c) 0]> (clients net)) x) as Hforth.
  { intros x Hxc (Hx1 & j & d & Hd & Hx'). split; [done|]. exists j, d. rewrite list_lookup_insert_ne; [done|].
    intros <-. congruence. }
  constructor; cbn [clients listenFd maxFd masterSet].
  - rewrite length_insert. apply (ni_slots _ _ N).
  - apply Forall_insert; [apply (ni_clients _ _ N)|].
    destruct (Forall_lookup_1 _ _ _ _ (ni_clients _ _ N) Hi). by apply client_ok_fresh.
  - intros j d Hd Hdne. destruct (Hback j d Hd Hdne) as (_ & Hd0 & Hdc).
    destruct (ni_fds _ _ N j d Hd0 Hdne) as (? & ? & ?). split; [done|]. split; [|done].
    apply elem_of_difference. split; [done|]. by rewrite elem_of_singleton.
  - intros j1 j2 d1 d2 H1 H2 E Hn. destruct (Hback j1 d1 H1 Hn) as (_ & H1' & _).
    destruct (Hback j2 d2 H2) as (_ & H2' & _); [congruence|]. by apply (ni_distinct _ _ N j1 j2 d1 d2).
  - intros x [Hx1 Hx2%not_elem_of_singleton]%elem_of_difference Hxl. apply Hforth; [done|]. by apply (ni_set _ _ N).
  - destruct (ni_listen _ _ N) as (? & ? & ?). split; [done|]. split; [|done].
    apply elem_of_difference. split; [done|]. rewrite elem_of_singleton. congruence.
  - intros x [Hx1 Hx2%not_elem_of_singleton]%elem_of_difference.
    apply Hforth; [done|]. by apply (ni_sessions _ _ N).
Qed.

Lemma HandleClientData_ok net A i c r w m :
  net_inv net A -> Inv w m A -> clients net !! i = Some c -> fd c <> -1 -> recv_ok c r ->
  exists c' set w' m' A',
    HandleClientData (Some onMsg) (Some onDisc) close c (masterSet net) r w m = Some ((c', set, w'), m') /\
    net_inv (MkServerNet (listenFd net) (maxFd net) set (<[i := c']> (clients net))) A' /\ Inv w' m' A'.
Proof.
  intros N HI Hi Hne Hr. pose proof (Forall_lookup_1 _ _ _ _ (ni_clients _ _ N) Hi) as Hc.
  destruct (ni_fds _ _ N i c Hi Hne) as (Hrange & _). destruct r as [data|].
  - destruct Hr as [Hd Hlen].
    destruct (HandleClientData_data c (masterSet net) data Hc Hd Hlen) as (c' & Hfd & Hc' & _ & E).
    assert (is_byte_list (pending c ++ data)) as Hpd.
    { apply Forall_app. split; [|done]. apply Forall_take. by destruct Hc. }
    destruct (deliver_ok (fd c) (fst (split_frames (pending c ++ data))) w m A Hrange HI)
      as (w' & m' & A' & E' & HI' & HA); [intros f Hf; by eapply frames_bytes|].
    exists c', (masterSet net), w', m', A'. rewrite E. mrun E'. split; [done|]. split; [|done].
    by apply (net_inv_replace net A i c c' A').
  - destruct (client_room c Hc) as (_ & Hsp & Hpos). unfold HandleClientData.
    rewrite Hsp, (proj2 (Z.eqb_neq _ _)) by lia. unfold FD_CLR. rewrite FD_ok by done. mlift.
    destruct (on_disc_ok (fd c) (close (fd c) w) m A Hrange) as (w' & m' & E & HI'); [by apply close_ok|].
    mrun E. eexists _, _, w', m', _. split; [done|]. split; [by apply net_inv_remove|done].
Qed.

(** ** Accepting *)

Lemma find_slot_spec cs i j : find_slot cs i = Some j -> (i <= j)%nat /\ exists c, cs !! (j - i)%nat = Some c /\ fd c = -1.
Proof.
  revert i. induction cs as [|c cs IH]; intros i; cbn [find_slot]; [done|].
  destruct (-1 =? fd c) eqn:E; bprop.
  - intros [= <-]. split; [lia|]. exists c. by rewrite Nat.sub_diag.
  - intros (Hle & d & Hd & Hfd)%IH. split; [lia|]. exists d.
    by replace (j - i)%nat with (S (j - S i))%nat by lia.
Qed.

(** What [accept] may return: -1, or a descriptor that is not open yet.  How
    large it may be is not said: the process may have other descriptors. *)
Definition accept_ok (net : ServerNet) (newFd : Z) : Prop :=
  newFd = -1 \/ (0 <= newFd /\ newFd ∉ masterSet net).

Lemma find_slot_None cs i : find_slot cs i = None -> Forall (fun c => fd c <> -1) cs.
Proof.
  revert i. induction cs as [|c cs IH]; intros i; cbn [find_slot]; [constructor|].
  destruct (-1 =? fd c) eqn:E; bprop; [done|]. intros H. constructor; [by intros ?; apply E|by eapply IH].
Qed.

(** There is always a free slot: as many slots as descriptors that fit into an
    [fd_set], and the listening socket has one of these. *)
Lemma net_inv_room net A : net_inv net A -> exists i, find_slot (clients net) 0 = Some i.
Proof.
  intros N. destruct (find_slot (clients net) 0) as [i|] eqn:E; [by exists i|exfalso].
  apply find_slot_None in E. rewrite Forall_lookup in E.
  assert (NoDup (listenFd net :: (fd <$> clients net))) as Hd.
  { apply NoDup_cons. split.
    - intros (c & Hl & (i & Hi)%list_elem_of_lookup)%list_elem_of_fmap.
      destruct (ni_fds _ _ N i c Hi (E _ _ Hi)) as (_ & _ & Hne & _). congruence.
    - apply NoDup_alt. intros i j x Hi Hj. rewrite list_lookup_fmap in Hi, Hj.
      destruct (clients net !! i) as [c|] eqn:Hci; [|done]. destruct (clients net !! j) as [c'|] eqn:Hcj; [|done].
      cbn in Hi, Hj. apply (ni_distinct _ _ N i j c c' Hci Hcj); [congruence|by apply (E i)]. }
  assert (listenFd net :: (fd <$> clients net) ⊆ seqZ 0 MAX_CLIENTS) as Hsub.
  { intros x [->|(c & -> & (i & Hi)%list_elem_of_lookup)%list_elem_of_fmap]%elem_of_cons; apply elem_of_seqZ.
    - apply (ni_listen _ _ N).
    - apply (ni_fds _ _ N i c Hi (E _ _ Hi)). }
  apply (NoDup_submseteq _ _ Hd), submseteq_length in Hsub. cbn [length] in Hsub.
  rewrite length_fmap, (ni_slots _ _ N), length_seqZ in Hsub. lia.
Qed.

Lemma slot_insert_inv (l : list ClientState) i j c d : (i < length l)%nat -> <[i := c]> l !! j = Some d ->
  (j = i /\ d = c) \/ (j <> i /\ l !! j = Some d).
Proof.
  intros Hi Hd. destruct (decide (i = j)) as [<-|].
  - rewrite list_lookup_insert_eq in Hd by done. injection Hd as <-. by left.
  - rewrite list_lookup_insert_ne in Hd by done. by right.
Qed.

(** A new connection in a free slot. *)
Lemma net_inv_add net A newFd i c : net_inv net A -> 0 <= newFd < MAX_CLIENTS -> newFd ∉ masterSet net ->
  clients net !! i = Some c -> fd c = -1 ->
  net_inv (MkServerNet (listenFd net) (if newFd >? maxFd net then newFd else maxFd net) ({[newFd]} ∪ masterSet net)
    (<[i := MkClient newFd (buffer c) 0]> (clients net))) A.
Proof.
  intros [N1 N2 N3 N4 N5 N6 N7] Hr Hnew Hi Hc. assert (i < length (clients net))%nat as Hlt by (by eapply lookup_lt_Some).
  assert (forall j d, <[i := MkClient newFd (buffer c) 0]> (clients net) !! j = Some d ->
    (j = i /\ d = MkClient newFd (buffer c) 0) \/ (j <> i /\ clients net !! j = Some d)) as Hback
    by (intros j d Hd; by eapply slot_insert_inv).
  assert (forall x, connected (clients net) x ->
    connected (<[i := MkClient newFd (buffer c) 0]> (clients net)) x) as Hforth.
  { intros x (Hx & j & d & Hd & Hx'). split; [done|]. exists j, d. rewrite list_lookup_insert_ne; [done|].
    intros <-. congruence. }
  assert (forall j d, clients net !! j = Some d -> fd d = newFd -> False) as Hfresh.
  { intros j d Hd Hfd. destruct (N3 j d Hd) as (_ & Hin & _); [rewrite Hfd; lia|]. by rewrite Hfd in Hin. }
  assert (maxFd net <= (if newFd >? maxFd net then newFd else maxFd net) /\
    newFd <= (if newFd >? maxFd net then newFd else maxFd net)) as [Hm1 Hm2].
  { destruct (newFd >? maxFd net) eqn:Eg; rewrite Z.gtb_ltb in Eg; bprop; lia. }
  constructor; cbn [clients listenFd maxFd masterSet].
  - by rewrite length_insert.
  - apply Forall_insert; [done|]. destruct (Forall_lookup_1 _ _ _ _ N2 Hi). by apply client_ok_fresh.
  - intros j d [[-> ->]|[_ Hd]]%Hback Hne; cbn [fd] in *.
    + split; [done|]. split; [set_solver|]. split; [intros ->; by apply Hnew, N6|done].
    + destruct (N3 j d Hd Hne) as (? & ? & ? & ?). split; [done|]. split; [set_solver|]. split; [done|lia].
  - intros j1 j2 d1 d2 [[-> ->]|[Hn1 H1]]%Hback [[-> ->]|[Hn2 H2]]%Hback Hfd Hne; cbn [fd] in *;
      [done|exfalso; by eapply Hfresh|exfalso; by eapply Hfresh|by apply (N4 j1 j2 d1 d2)].
  - intros x [->%elem_of_singleton|Hx]%elem_of_union Hl; [|by apply Hforth, N5].
    split; [lia|]. exists i, (MkClient newFd (buffer c) 0). by rewrite list_lookup_insert_eq.
  - destruct N6 as (? & ? & ?). split; [done|]. split; [set_solver|lia].
  - intros x Hx. by apply Hforth, N7.
Qed.

Lemma HandleNewConnection_ok net A newFd w m :
  net_inv net A -> Inv w m A -> accept_ok net newFd -> newFd < MAX_CLIENTS ->
  exists net' w', HandleNewConnection close net newFd w = Some (net', w') /\
    net_inv net' A /\ Inv w' m A /\ listenFd net' = listenFd net /\ masterSet net ⊆ masterSet net' /\
    forall i c, clients net' !! i = Some c -> fd c ∈ masterSet net -> clients net !! i = Some c.
Proof.
  intros N HI Hacc Hlt. unfold HandleNewConnection. destruct (-1 =? newFd) eqn:E1; bprop.
  { exists net, w. done. }
  destruct Hacc as [->|[H0 Hnew]]; [done|]. assert (0 <= newFd < MAX_CLIENTS) as Hr by done.
  destruct (net_inv_room net A N) as [i Ef]. rewrite Ef.
  apply find_slot_spec in Ef as (_ & c & Hi & Hc). rewrite Nat.sub_0_r in Hi. rewrite Hi.
  cbn [mbind option_bind]. unfold FD_SET. rewrite FD_ok by done. cbn [mbind option_bind].
  eexists _, w. split; [done|]. cbn [masterSet clients].
  split; [by apply net_inv_add|]. split; [done|]. split; [done|]. split; [by apply union_subseteq_r|].
  intros j d Hd Hin. apply slot_insert_inv in Hd as [[-> ->]|[_ Hd]]; [done|done|by eapply lookup_lt_Some].
Qed.

(** A descriptor that does not fit into an [fd_set] is put into it all the same. *)
Lemma HandleNewConnection_overflow net A newFd w : net_inv net A -> MAX_CLIENTS <= newFd ->
  HandleNewConnection close net newFd w = None.
Proof.
  intros N Hfd. unfold MAX_CLIENTS in Hfd. unfold HandleNewConnection. rewrite (proj2 (Z.eqb_neq _ _)) by lia.
  destruct (net_inv_room net A N) as [i E]. rewrite E.
  apply find_slot_spec in E as (_ & c & Hi & _). rewrite Nat.sub_0_r in Hi. rewrite Hi.
  cbn [mbind option_bind]. unfold FD_SET, MAX_CLIENTS. by rewrite (proj2 (Z.ltb_ge _ _)), andb_false_r by lia.
Qed.

(** ** The loop *)

(** The answers the kernel may give in one turn. *)
Record kernel_ok (net : ServerNet) (k : wakeup) : Prop := {
  ko_ready : readSet k ⊆ masterSet net;
  ko_accept : accept_ok net (accepted k);
  ko_recv : forall i c, clients net !! i = Some c -> fd c ∈ readSet k -> recv_ok c (received k (fd c))
}.

Lemma serve_clients_ok k n i net A w m :
  net_inv net A -> Inv w m A -> (i + n = Z.to_nat MAX_CLIENTS)%nat ->
  (forall j c, (i <= j)%nat -> clients net !! j = Some c -> fd c ∈ readSet k -> recv_ok c (received k (fd c))) ->
  exists net' w' m' A', serve_clients (Some onMsg) (Some onDisc) close n i net k w m = Some ((net', w'), m') /\
    net_inv net' A' /\ Inv w' m' A' /\ listenFd net' = listenFd net.
Proof.
  revert i net A w m. induction n as [|n IH]; intros i net A w m N HI Hn Hk; cbn [serve_clients].
  { by exists net, w, m, A. }
  destruct (lookup_lt_is_Some_2 (clients net) i) as [c Hi]; [rewrite (ni_slots _ _ N); lia|].
  rewrite Hi. mlift. destruct (-1 =? fd c) eqn:Ec; bprop.
  { mstep_ret. mstep_ret. apply (IH (S i) net A); [done|done|lia|].
    intros j d Hj. apply (Hk j d). lia. }
  destruct (ni_fds _ _ N i c Hi) as (Hr & _); [congruence|].
  unfold FD_ISSET. rewrite FD_ok by done. mlift. destruct (bool_decide (fd c ∈ readSet k)) eqn:Er; bprop.
  2:{ mstep_ret. apply (IH (S i) net A); [done|done|lia|]. intros j d Hj. apply (Hk j d). lia. }
  destruct (HandleClientData_ok net A i c (received k (fd c)) w m N HI Hi) as (c' & set & w' & m' & A' & E & N' & HI');
    [congruence|by apply (Hk i)|].
  rewrite M_bind_assoc. mrun E. mstep_ret. destruct (IH (S i) _ A' w' m' N' HI') as (net2 & w2 & m2 & A2 & H);
    [lia| |by exists net2, w2, m2, A2].
  intros j d Hj Hd. cbn [clients] in Hd. rewrite list_lookup_insert_ne in Hd by lia. apply (Hk j d); (lia || done).
Qed.

(** In this turn a connection arrives whose descriptor does not fit into an
    [fd_set]. *)
Definition overflow_turn (listening : Z) (k : wakeup) : bool :=
  bool_decide (listening ∈ readSet k) && (MAX_CLIENTS <=? accepted k).

(** One turn of the loop of [ServerNet_Run]. *)
Definition turn (_net : ServerNet) (k : wakeup) (w : W) : M (ServerNet * W) :=
  new ← lift (FD_ISSET (listenFd _net) (readSet k));
  '(_net, w) ← (if new : bool then lift (HandleNewConnection close _net (accepted k) w) else mret (_net, w));
  serve_clients (Some onMsg) (Some onDisc) close (Z.to_nat MAX_CLIENTS) 0 _net k w.

Lemma turn_ok k net A w m : net_inv net A -> Inv w m A -> kernel_ok net k ->
  if overflow_turn (listenFd net) k then turn net k w m = None else
  exists net' w' m' A', turn net k w m = Some ((net', w'), m') /\ net_inv net' A' /\ Inv w' m' A' /\
    listenFd net' = listenFd net.
Proof.
  intros N HI [K1 K2 K3]. unfold turn, overflow_turn. destruct (ni_listen _ _ N) as (Hl & _). unfold FD_ISSET.
  rewrite FD_ok by done. destruct (bool_decide (listenFd net ∈ readSet k)); cbn [andb].
  - destruct (MAX_CLIENTS <=? accepted k) eqn:Eo; bprop.
    { mlift. by rewrite (HandleNewConnection_overflow net A) by done. }
    destruct (HandleNewConnection_ok net A (accepted k) w m N HI K2) as (net1 & w1 & E & N1 & HI1 & Hl1 & Hsub & Hback);
      [lia|]. mlift. rewrite E. mlift. rewrite <-Hl1. apply (serve_clients_ok k _ 0 net1 A); [done|done|lia|].
    intros j c _ Hj Hin. apply (K3 j c); [|done]. apply Hback; [done|]. by apply K1.
  - mlift. mstep_ret. apply (serve_clients_ok k _ 0 net A); [done|done|lia|]. intros j c _ Hj. by apply (K3 j c).
Qed.

Lemma run_answers_ready net k answers w m :
  run_answers (Some onMsg) (Some onDisc) close net (SelectReady k :: answers) w m
  = ('(net, w) ← turn net k w;
     run_answers (Some onMsg) (Some onDisc) close net answers w) m.
Proof.
  cbn [run_answers]. unfold turn. rewrite M_bind_assoc. unfold mbind, M_bind.
  destruct (lift (FD_ISSET (listenFd net) (readSet k)) m) as [[[] m1]|]; [|done..].
  by destruct (lift (HandleNewConnection close net (accepted k) w) m1) as [[[net1 w1] m2]|].
Qed.

(** In one of the turns of a run. *)
Fixpoint overflows (listening : Z) (answers : list select_result) : bool :=
  match answers with
  | [] => false
  | SelectInterrupted :: answers => overflows listening answers
  | SelectFailed :: _ => false
  | SelectReady k :: answers => overflow_turn listening k || overflows listening answers
  end.

(** The kernel keeps its contract in every turn of a run. *)
Fixpoint kernel_run (net : ServerNet) (answers : list select_result) (w : W) (m : mem) : Prop :=
  match answers with
  | [] => True
  | SelectInterrupted :: answers => kernel_run net answers w m
  | SelectFailed :: _ => True
  | SelectReady k :: answers => kernel_ok net k /\
      forall net' w' m', turn net k w m = Some ((net', w'), m') -> kernel_run net' answers w' m'
  end.

(** A descriptor that does not fit makes the run undefined. *)
Lemma run_answers_ok answers net A w m : net_inv net A -> Inv w m A -> kernel_run net answers w m ->
  if overflows (listenFd net) answers
  then run_answers (Some onMsg) (Some onDisc) close net answers w m = None
  else exists r net' w' m' A', run_answers (Some onMsg) (Some onDisc) close net answers w m
      = Some ((r, net', w'), m') /\ net_inv net' A' /\ Inv w' m' A' /\
    (r = 0 \/ (r = -1 /\ SelectFailed ∈ answers)).
Proof.
  revert net A w m. induction answers as [|a answers IH]; intros net A w m N HI Hk; cbn [overflows].
  { exists 0, net, w, m, A. split; [done|]. split; [done|]. split; [done|by left]. }
  destruct a as [| |k].
  - specialize (IH net A w m N HI Hk). destruct (overflows (listenFd net) answers); [done|].
    destruct IH as (r & net' & w' & m' & A' & E & N' & HI' & Hr).
    exists r, net', w', m', A'. split; [done|]. split; [done|]. split; [done|].
    destruct Hr as [|[? ?]]; [by left|right]. split; [done|]. by apply elem_of_cons; right.
  - exists (-1), net, w, m, A. split; [done|]. split; [done|]. split; [done|right].
    split; [done|]. by apply elem_of_cons; left.
  - destruct Hk as [Hk Hnext]. rewrite run_answers_ready.
    pose proof (turn_ok k net A w m N HI Hk) as Ht.
    destruct (overflow_turn (listenFd net) k); cbn [orb]; [by unfold mbind, M_bind; rewrite Ht|].
    destruct Ht as (net1 & w1 & m1 & A1 & E1 & N1 & HI1 & Hl1). mrun E1.
    specialize (IH net1 A1 w1 m1 N1 HI1 (Hnext _ _ _ E1)). rewrite Hl1 in IH.
    destruct (overflows (listenFd net) answers); [done|].
    destruct IH as (r & net' & w' & m' & A' & E & N' & HI' & Hr).
    exists r, net', w', m', A'. split; [done|]. split; [done|]. split; [done|].
    destruct Hr as [|[? ?]]; [by left|right]. split; [done|]. by apply elem_of_cons; right.
Qed.

(** ** Lifecycle *)

Lemma net_inv_create listening garbage :
  0 <= listening < MAX_CLIENTS -> blen garbage = RECV_BUFFER_SIZE -> is_byte_list garbage ->
  net_inv (MkServerNet listening listening ({[listening]} ∪ ∅)
             (replicate (Z.to_nat MAX_CLIENTS) (MkClient (-1) garbage 0))) ∅.
Proof.
  intros Hl Hg Hb. constructor; cbn [clients listenFd maxFd masterSet].
  - apply length_replicate.
  - apply Forall_replicate. by apply client_ok_fresh.
  - by intros i c [-> _]%lookup_replicate.
  - by intros i j c c' [-> _]%lookup_replicate _ _ ?.
  - intros x Hx Hne. rewrite union_empty_r_L, elem_of_singleton in Hx. done.
  - split; [done|]. split; [apply elem_of_union; left; by apply elem_of_singleton|lia].
  - intros x Hx. by apply not_elem_of_empty in Hx.
Qed.

End delivery.

(** ** Properties *)

(** C11: TCP fragmentation is invisible: for a client between two turns and any
    sequence of non-empty chunks that [recv] may return for it, the messages
    handed to the handler, in order, are exactly the frames of the byte stream
    (what was pending, then the chunks), each with exactly its bytes; what is
    pending afterwards is the incomplete rest, which is shorter than a maximal
    message, so the buffer never fills up and the branch that would drop data
    is never taken. *)
Theorem stream_framing (W : Type) (onMsg : Z -> bytes -> Z -> W -> M (Z * W)) onDisc close Inv
    `{!Handlers onMsg onDisc close Inv} c set chunks :
  client_ok c -> chunks_fit (pending c) chunks ->
  exists c', fd c' = fd c /\ client_ok c' /\ len c' < CHAT_MAX_MSG_SIZE /\
    size_t (RECV_BUFFER_SIZE - len c') <> 0 /\
    concat (fst (split_frames (pending c ++ concat chunks))) ++ pending c' = pending c ++ concat chunks /\
    forall w m, receive (onMsg := onMsg) (onDisc := onDisc) (close := close) c set chunks w m
      = (w ← deliver (onMsg := onMsg) (fd c) (fst (split_frames (pending c ++ concat chunks))) w;
         mret (c', set, w)) m.
Proof.
  intros H Hfit. destruct (receive_spec chunks c set H Hfit) as (c' & Hfd & H' & Hp & E).
  exists c'. split; [done|]. split; [done|]. destruct (client_room c' H') as (Hl & Hsp & Hpos).
  split; [done|]. split; [lia|]. split; [|done]. rewrite Hp. apply split_frames_concat.
Qed.

(** A trivial layer above, for the witnesses: it logs the messages. *)
Definition log_msg (d : Z) (b : bytes) (n : Z) (w : list (Z * bytes)) : M (Z * list (Z * bytes)) :=
  mret (0, w ++ [(d, take (Z.to_nat n) b)]).
Definition log_disc (d : Z) (w : list (Z * bytes)) : M (list (Z * bytes)) := mret w.

#[export] Instance log_Handlers :
  Handlers log_msg log_disc (fun _ w => w) (fun _ _ A => A = ∅).
Proof.
  constructor.
  - intros d b n w m Hb Hn. unfold log_msg. rewrite take_take. by rewrite Nat.min_id.
  - intros d f w m A Hd Hb Hl ->. eexists _, _, m, ∅. done.
  - intros d w m A Hd ->. exists w, m. split; [done|]. set_solver.
  - done.
Qed.

Lemma stream_framing_witness :
  let c := MkClient 7 (5 :: replicate 770 0) 1 in
  exists c', fd c' = 7 /\ client_ok c' /\ len c' < CHAT_MAX_MSG_SIZE /\
    size_t (RECV_BUFFER_SIZE - len c') <> 0 /\
    concat [[5; 0]; [11; 2; 1; 103]] ++ pending c' = [5; 0; 11; 2; 1; 103; 1] /\
    forall w m, receive (onMsg := log_msg) (onDisc := log_disc) (close := fun _ w => w) c {[7]}
        [[0; 11; 2]; [1; 103; 1]] w m
      = (w ← deliver (onMsg := log_msg) 7 [[5; 0]; [11; 2; 1; 103]] w; mret (c', {[7]}, w)) m.
Proof.
  apply (stream_framing (list (Z * bytes)) log_msg log_disc (fun _ w => w) (fun _ _ A => A = ∅)
    (MkClient 7 (5 :: replicate 770 0) 1) {[7]} [[0; 11; 2]; [1; 103; 1]]).
  - constructor; cbn [buffer len].
    + by vm_compute.
    + apply Forall_cons_2; [done|]. apply Forall_replicate. done.
    + done.
    + done.
  - split; [by repeat constructor|]. split; [done|]. split; [by repeat constructor|]. by split.
Defined.

(** C13: The select loop, against any layer above that keeps its part of the
    interface and any kernel that keeps its own ([accept] returns a descriptor
    that is not open yet, [recv] at most as many bytes as asked for).  A new
    descriptor at or above [FD_SETSIZE] makes it undefined, [FD_SET] being
    executed out of bounds, and nothing else does: as long as none arrives it
    has no undefined behaviour and keeps its tables consistent.  Every client
    has its own slot and its descriptor in the set, the set holds nothing else
    but the listening socket, pending data is less than a message, and every
    session of the layer above belongs to a connected client, so none outlives
    its connection.  That holds whenever the loop waits in [select] as well as
    when it has ended.  It ends when the flag is found cleared, with 0, or when
    [select] fails, with -1, and not before; what signals do to the flag is
    left open. *)
Theorem server_loop_safe (W : Type) (onMsg : Z -> bytes -> Z -> W -> M (Z * W)) onDisc close Inv
    `{!Handlers onMsg onDisc close Inv} on_signal flag passes net A w m :
  net_inv net A -> Inv w m A ->
  kernel_run (onMsg := onMsg) (onDisc := onDisc) (close := close) net (answers_of on_signal flag passes) w m ->
  if overflows (listenFd net) (answers_of on_signal flag passes)
  then ServerNet_Run (Some onMsg) (Some onDisc) close on_signal (Some net) (Some flag) passes w m = None
  else exists r net' w' m' A',
    ServerNet_Run (Some onMsg) (Some onDisc) close on_signal (Some net) (Some flag) passes w m
      = Some ((r, Some net', w'), m') /\ net_inv net' A' /\ Inv w' m' A' /\
    (forall x, x ∈ A' -> connected (clients net') x) /\
    match r with
    | None => run_ends on_signal flag passes = false
    | Some r => run_ends on_signal flag passes = true /\
        (r = 0 \/ (r = -1 /\ Exists (fun p => answer p = SelectFailed) passes))
    end.
Proof.
  intros N HI Hk. pose proof (run_answers_ok _ net A w m N HI Hk) as H. rewrite ServerNet_Run_answers.
  destruct (overflows _ _); [by unfold mbind, M_bind; rewrite H|].
  destruct H as (r & net' & w' & m' & A' & E & N' & HI' & Hr).
  eexists _, net', w', m', A'. mrun E. split; [done|]. split; [done|]. split; [done|].
  split; [apply (ni_sessions _ _ N')|]. destruct (run_ends on_signal flag passes); [|done]. split; [done|].
  destruct Hr as [|[? H%answers_of_failed]]; [by left|right]. split; [done|apply H].
Qed.

(** Every signal clears the flag in the witnesses. *)
Definition demo_passes : list pass :=
  [MkPass SelectInterrupted []; MkPass (SelectReady (MkWakeup {[3]} 4 (fun _ => None))) [2]; MkPass SelectFailed []].

(** The same run with a descriptor that does not fit. *)
Definition demo_overflow : list pass :=
  [MkPass (SelectReady (MkWakeup {[3]} 1024 (fun _ => None))) []].

Lemma demo_net_inv : net_inv
  (MkServerNet 3 3 ({[3]} ∪ ∅) (replicate (Z.to_nat MAX_CLIENTS) (MkClient (-1) (replicate 771 0) 0))) ∅.
Proof. apply net_inv_create; [done|by vm_compute|]. by apply Forall_replicate. Qed.

Lemma server_loop_safe_witness :
  let net := MkServerNet 3 3 ({[3]} ∪ ∅) (replicate (Z.to_nat MAX_CLIENTS) (MkClient (-1) (replicate 771 0) 0)) in
  run_ends (fun _ _ => 0) 1 (take 1 demo_passes) = false /\ run_ends (fun _ _ => 0) 1 (take 2 demo_passes) = true /\
  ServerNet_Run (Some log_msg) (Some log_disc) (fun _ w => w) (fun _ _ => 0) (Some net) (Some 1) demo_overflow [] (Mem [] 0)
    = None /\
  exists r net' w' m' A',
    ServerNet_Run (Some log_msg) (Some log_disc) (fun _ w => w) (fun _ _ => 0) (Some net) (Some 1) demo_passes [] (Mem [] 0)
      = Some ((r, Some net', w'), m') /\ net_inv net' A' /\ A' = ∅ /\
    (forall x, x ∈ A' -> connected (clients net') x) /\
    match r with
    | None => run_ends (fun _ _ => 0) 1 demo_passes = false
    | Some r => run_ends (fun _ _ => 0) 1 demo_passes = true /\
        (r = 0 \/ (r = -1 /\ Exists (fun p => answer p = SelectFailed) demo_passes))
    end.
Proof.
  split; [by vm_compute|]. split; [by vm_compute|]. split.
  - apply (server_loop_safe (list (Z * bytes)) log_msg log_disc (fun _ w => w) (fun _ _ A => A = ∅)
      (fun _ _ => 0) 1 demo_overflow _ ∅ [] (Mem [] 0) demo_net_inv eq_refl).
    split; [|done]. constructor; cbn [readSet accepted received masterSet].
    + by rewrite union_empty_r_L.
    + right. split; [done|]. intros [E|E]%elem_of_union; [by apply elem_of_singleton in E|by apply not_elem_of_empty in E].
    + done.
  - apply (server_loop_safe (list (Z * bytes)) log_msg log_disc (fun _ w => w) (fun _ _ A => A = ∅)
      (fun _ _ => 0) 1 demo_passes _ ∅ [] (Mem [] 0) demo_net_inv eq_refl).
    split; [|done]. constructor; cbn [readSet accepted received masterSet].
    + by rewrite union_empty_r_L.
    + right. split; [done|]. intros [E|E]%elem_of_union; [by apply elem_of_singleton in E|by apply not_elem_of_empty in E].
    + done.
Defined.

(** A descriptor outside the set is not guarded against: when [accept]
    returns one at or above [FD_SETSIZE] while a slot is free, as always
    ([net_inv_room]), [HandleNewConnection] executes [FD_SET] out of
    bounds, which is undefined behaviour; the branch for a full table, which
    would close the connection, is never taken. *)
Theorem accept_overflows_fd_set (W : Type) (close : Z -> W -> W) net newFd w :
  MAX_CLIENTS <= newFd ->
  match find_slot (clients net) 0 with
  | Some _ => HandleNewConnection close net newFd w = None
  | None => HandleNewConnection close net newFd w = Some (net, close newFd w)
  end.
Proof.
  intros Hfd. unfold MAX_CLIENTS in Hfd. unfold HandleNewConnection. rewrite (proj2 (Z.eqb_neq _ _)) by lia.
  destruct (find_slot (clients net) 0) as [i|] eqn:E; [|done].
  apply find_slot_spec in E as (_ & c & Hi & _). rewrite Nat.sub_0_r in Hi. rewrite Hi.
  cbn [mbind option_bind]. unfold FD_SET, MAX_CLIENTS. by rewrite (proj2 (Z.ltb_ge _ _)), andb_false_r by lia.
Qed.

Lemma accept_overflows_fd_set_witness :
  HandleNewConnection (fun _ w => w) (MkServerNet 3 3 {[3]} [MkClient (-1) [] 0]) 1024 tt = None.
Proof.
  exact (accept_overflows_fd_set unit (fun _ w => w) (MkServerNet 3 3 {[3]} [MkClient (-1) [] 0]) 1024 tt
    ltac:(done)).
Defined.
