(* ===== verification/NetSpec.v ===== *)
(** * The network layer as a function of what arrives

    The abstract view of the slot table of [ServerNet]: per slot nothing, or a
    connection with the bytes of a message that is not complete yet.  On this
    view a turn of the select loop is a pure function of what the kernel
    answers, with the events it passes to the layer above: the new connection,
    then the slots in order, each with the frames its bytes complete.  The file
    proves that the select loop is this function followed by the handlers, for
    every layer above that implements [Handlers], and that the contract of the
    kernel can be stated on the view alone ([honest]). *)

From S2P Require Import Prelude Protocol ServerNet.

(** ** The view *)

(** A connection: its descriptor and the bytes pending on it. *)
Definition slot : Type := option (Z * bytes).

Definition slot_of (c : ClientState) : slot := if fd c =? -1 then None else Some (fd c, pending c).
Definition slots_of (net : ServerNet) : list slot := slot_of <$> clients net.

(** The descriptors in use. *)
Definition slot_fds (l : list slot) : list Z := omap (fun s => fst <$> s) l.

(** ** What the layer above is told *)

Inductive net_event := Message (d : Z) (msg : bytes) | HungUp (d : Z).

(** The handling of the events: a connection that was closed is closed here as
    well and then reported. *)
Section perform.
Context {W : Type} (onMsg : Z -> bytes -> Z -> W -> M (Z * W)) (onDisc : Z -> W -> M W) (close : Z -> W -> W).

Definition perform (e : net_event) (w : W) : M W :=
  match e with
  | Message d f => '(_, w) ← onMsg d f (blen f) w; mret w
  | HungUp d => onDisc d (close d w)
  end.

Fixpoint performs (es : list net_event) (w : W) : M W :=
  match es with
  | [] => mret w
  | e :: es => w ← perform e w; performs es w
  end.

Lemma performs_app es1 es2 w m :
  performs (es1 ++ es2) w m = (w ← performs es1 w; performs es2 w) m.
Proof.
  revert w m. induction es1 as [|e es1 IH]; intros w m; cbn [performs app]; [by mstep_ret|].
  rewrite M_bind_assoc. unfold mbind, M_bind. destruct (perform e w m) as [[w1 m1]|]; [|done]. apply IH.
Qed.

Lemma performs_messages d fs w m :
  performs (Message d <$> fs) w m = deliver (onMsg := onMsg) d fs w m.
Proof.
  revert w m. induction fs as [|f fs IH]; intros w m; [done|].
  cbn [fmap list_fmap performs perform deliver]. rewrite M_bind_assoc. unfold mbind, M_bind.
  destruct (onMsg d f (blen f) w m) as [[[r w1] m1]|]; [|done]. apply IH.
Qed.

End perform.

(** ** A turn of the loop *)

Definition free_slot (l : list slot) : option nat := fst <$> list_find (fun s => s = None) l.

(** A new connection takes the first free slot; there always is one. *)
Definition spec_accept (l : list slot) (newFd : Z) : list slot :=
  if newFd =? -1 then l else
  match free_slot l with
  | Some i => <[i := Some (newFd, [])]> l
  | None => l
  end.

(** What one slot becomes, and what it reports. *)
Definition spec_serve (k : wakeup) (s : slot) : slot * list net_event :=
  match s with
  | Some (d, p) =>
      if bool_decide (d ∈ readSet k) then
        match received k d with
        | Some data => let '(fs, rest) := split_frames (p ++ data) in (Some (d, rest), Message d <$> fs)
        | None => (None, [HungUp d])
        end
      else (s, [])
  | None => (s, [])
  end.

Definition serve_all (k : wakeup) (l : list slot) : list slot * list net_event :=
  (fst ∘ spec_serve k <$> l, concat (snd ∘ spec_serve k <$> l)).

Definition spec_turn (listening : Z) (l : list slot) (k : wakeup) : list slot * list net_event :=
  serve_all k (if bool_decide (listening ∈ readSet k) then spec_accept l (accepted k) else l).

(** A run: the result of [ServerNet_Run] if it ends, the slots, all events. *)
Fixpoint spec_net (listening : Z) (l : list slot) (answers : list select_result) : Z * list slot * list net_event :=
  match answers with
  | [] => (0, l, [])
  | SelectInterrupted :: answers => spec_net listening l answers
  | SelectFailed :: _ => (-1, l, [])
  | SelectReady k :: answers =>
      let '(l, e1) := spec_turn listening l k in
      let '(r, l, e2) := spec_net listening l answers in (r, l, e1 ++ e2)
  end.

(** ** The contract of the kernel

    Only descriptors that are watched are ready; a new connection has a
    descriptor that is not in use, of whatever size; [recv] returns
    bytes, at least one and not more than there is room for.  After a descriptor
    that does not fit into the [fd_set] nothing is known. *)
Definition honest_recv (k : wakeup) (s : slot) : Prop :=
  match s with
  | Some (d, p) =>
      match (if bool_decide (d ∈ readSet k) then received k d else None) with
      | Some data => is_byte_list data /\ 0 < blen data <= RECV_BUFFER_SIZE - blen p
      | None => True
      end
  | None => True
  end.

Definition honest_turn (listening : Z) (l : list slot) (k : wakeup) : Prop :=
  Forall (fun x => x = listening \/ x ∈ slot_fds l) (elements (readSet k)) /\
  (accepted k = -1 \/ (0 <= accepted k /\ accepted k <> listening /\ accepted k ∉ slot_fds l)) /\
  Forall (honest_recv k) l.

#[export] Instance honest_recv_dec k s : Decision (honest_recv k s).
Proof. unfold honest_recv, is_byte_list, is_u8. repeat case_match; apply _. Defined.
#[export] Instance honest_turn_dec listening l k : Decision (honest_turn listening l k).
Proof. unfold honest_turn. apply _. Defined.

Fixpoint honest (listening : Z) (l : list slot) (answers : list select_result) : Prop :=
  match answers with
  | [] => True
  | SelectInterrupted :: answers => honest listening l answers
  | SelectFailed :: _ => True
  | SelectReady k :: answers => honest_turn listening l k /\
      (overflow_turn listening k = false -> honest listening (spec_turn listening l k).1 answers)
  end.

#[export] Instance honest_dec listening l answers : Decision (honest listening l answers).
Proof. revert l. induction answers as [|[| |k] answers IH]; intros l; cbn [honest]; apply _. Defined.

(** ** The loop is the view and the handlers *)

Lemma slot_of_Some c d p : slot_of c = Some (d, p) <-> fd c <> -1 /\ d = fd c /\ p = pending c.
Proof.
  unfold slot_of. destruct (fd c =? -1) eqn:E; bprop; [by split; [|intros []]|].
  split; [by intros [= <- <-]|by intros (_ & -> & ->)].
Qed.

Lemma slot_of_None c : slot_of c = None <-> fd c = -1.
Proof. unfold slot_of. destruct (fd c =? -1) eqn:E; bprop; by split. Qed.

Lemma slot_fds_elem l x : x ∈ slot_fds l <-> exists p, Some (x, p) ∈ l.
Proof.
  unfold slot_fds. rewrite list_elem_of_omap. split.
  - intros ([[d p]|] & Hin & [= <-]). by exists p.
  - intros [p Hin]. by exists (Some (x, p)).
Qed.

(** The descriptors of the view are those of the table. *)
Lemma slot_fds_connected net x : x ∈ slot_fds (slots_of net) <-> connected (clients net) x.
Proof.
  rewrite slot_fds_elem. unfold slots_of, connected. split.
  - intros [p Hin]. apply list_elem_of_fmap in Hin as (c & E & Hc). symmetry in E.
    apply slot_of_Some in E as (Hne & -> & _). split; [done|]. by apply list_elem_of_lookup in Hc as [i Hi]; exists i, c.
  - intros (Hne & i & c & Hi & <-). exists (pending c). apply list_elem_of_fmap. exists c.
    split; [by symmetry; apply slot_of_Some|by eapply list_elem_of_lookup_2].
Qed.

Lemma find_slot_free cs i : find_slot cs i = Nat.add i <$> free_slot (slot_of <$> cs).
Proof.
  unfold free_slot. revert i. induction cs as [|c cs IH]; intros i; [done|].
  cbn [find_slot fmap list_fmap list_find]. rewrite (Z.eqb_sym (-1)). case_decide as D.
  - apply slot_of_None in D. rewrite (proj2 (Z.eqb_eq _ _) D). cbn. by rewrite Nat.add_0_r.
  - rewrite slot_of_None in D. rewrite (proj2 (Z.eqb_neq _ _) D), IH.
    unfold prod_map. destruct (list_find _ _) as [[j s]|]; cbn; [by rewrite Nat.add_succ_r|done].
Qed.

Section exact.
Context {W : Type} {onMsg : Z -> bytes -> Z -> W -> M (Z * W)} {onDisc : Z -> W -> M W}.
Context {close : Z -> W -> W} {Inv : W -> mem -> gset Z -> Prop}.
Context `{HH : !Handlers onMsg onDisc close Inv}.

(** A computation is the handling of some events, with a result of its own. *)
Definition performing {R} (run : W -> M (R * W)) (es : list net_event) (r : R) : Prop :=
  forall w m, run w m = (w ← performs onMsg onDisc close es w; mret (r, w)) m.

Lemma performing_ret {R} (r : R) : performing (fun w => mret (r, w)) [] r.
Proof. intros w m. cbn [performs]. by mstep_ret. Qed.

Lemma performing_bind {A B} (run : W -> M (A * W)) (f : A -> W -> M (B * W)) es1 es2 a b :
  performing run es1 a -> performing (f a) es2 b -> performing (fun w => '(a, w) ← run w; f a w) (es1 ++ es2) b.
Proof.
  intros H1 H2 w m. unfold mbind at 1, M_bind at 1. rewrite H1. unfold mbind, M_bind. rewrite performs_app.
  unfold mbind, M_bind. destruct (performs onMsg onDisc close es1 w m) as [[w1 m1]|]; [|done]. apply H2.
Qed.

(** One client that is ready. *)
Lemma client_exact k c set : client_ok c -> 0 <= fd c < MAX_CLIENTS -> fd c ∈ readSet k ->
  recv_ok c (received k (fd c)) ->
  let '(s, es) := spec_serve k (slot_of c) in
  exists c' set', client_ok c' /\ slot_of c' = s /\
    ((fd c' = fd c /\ set' = set) \/ (c' = MkClient (-1) (buffer c) 0 /\ set' = set ∖ {[fd c]})) /\
    performing (HandleClientData (Some onMsg) (Some onDisc) close c set (received k (fd c))) es (c', set').
Proof.
  intros Hc Hr Hin Hk. assert (slot_of c = Some (fd c, pending c)) as -> by (apply slot_of_Some; split; [lia|done]).
  cbn [spec_serve]. rewrite bool_decide_eq_true_2 by done. destruct (received k (fd c)) as [data|].
  - destruct Hk as [Hd Hl]. destruct (HandleClientData_data c set data Hc Hd Hl) as (c' & Hfd & Hc' & Hp & E).
    destruct (split_frames (pending c ++ data)) as [fs rest]. cbn [fst snd] in *.
    exists c', set. split; [done|]. split; [apply slot_of_Some; rewrite Hfd; split; [lia|done]|].
    split; [by left|]. intros w m. rewrite E. unfold mbind, M_bind. by rewrite performs_messages.
  - exists (MkClient (-1) (buffer c) 0), (set ∖ {[fd c]}). destruct (client_room c Hc) as (_ & Hsp & Hpos).
    split; [destruct Hc; by apply client_ok_fresh|]. split; [done|]. split; [by right|].
    intros w m. unfold HandleClientData. rewrite Hsp, (proj2 (Z.eqb_neq _ _)) by lia.
    unfold FD_CLR. rewrite FD_ok by done. mlift. cbn [performs perform]. rewrite M_bind_assoc.
    unfold mbind, M_bind. by destruct (onDisc _ _ m) as [[??]|].
Qed.

Lemma performing_ext {R} (run run' : W -> M (R * W)) es r : (forall w m, run w m = run' w m) ->
  performing run' es r -> performing run es r.
Proof. intros E H w m. by rewrite E. Qed.

Lemma client_inv net i c c' set' : net_inv net ∅ -> clients net !! i = Some c -> fd c <> -1 -> client_ok c' ->
  ((fd c' = fd c /\ set' = masterSet net) \/ (c' = MkClient (-1) (buffer c) 0 /\ set' = masterSet net ∖ {[fd c]})) ->
  net_inv (MkServerNet (listenFd net) (maxFd net) set' (<[i := c']> (clients net))) ∅.
Proof.
  intros N Hi Hne Hc' [[Hfd ->]|[-> ->]].
  - by apply (net_inv_replace net ∅ i c c' ∅).
  - pose proof (net_inv_remove net ∅ i c N Hi Hne) as H. by replace (∅ ∖ {[fd c]}) with (∅ : gset Z) in H by set_solver.
Qed.

(** One slot. *)
Definition serve_slot (k : wakeup) (net : ServerNet) (i : nat) (c : ClientState) (w : W) : M (ServerNet * W) :=
  ready ← (if -1 =? fd c then mret false else lift (FD_ISSET (fd c) (readSet k)));
  if ready : bool then
    '(c, set, w) ← HandleClientData (Some onMsg) (Some onDisc) close c (masterSet net) (received k (fd c)) w;
    mret (MkServerNet (listenFd net) (maxFd net) set (<[i := c]> (clients net)), w)
  else mret (net, w).

Lemma slot_exact k net i c : net_inv net ∅ -> clients net !! i = Some c ->
  (fd c ∈ readSet k -> recv_ok c (received k (fd c))) ->
  exists net', net_inv net' ∅ /\ listenFd net' = listenFd net /\
    slots_of net' = <[i := (spec_serve k (slot_of c)).1]> (slots_of net) /\
    (forall j, j <> i -> clients net' !! j = clients net !! j) /\
    performing (serve_slot k net i c) (spec_serve k (slot_of c)).2 net'.
Proof.
  intros N Hi Hk. assert (slots_of net !! i = Some (slot_of c)) as Hsi by (unfold slots_of; by rewrite list_lookup_fmap, Hi).
  assert (spec_serve k (slot_of c) = (slot_of c, []) -> performing (serve_slot k net i c) [] net ->
    exists net', net_inv net' ∅ /\ listenFd net' = listenFd net /\
    slots_of net' = <[i := (spec_serve k (slot_of c)).1]> (slots_of net) /\
    (forall j, j <> i -> clients net' !! j = clients net !! j) /\
    performing (serve_slot k net i c) (spec_serve k (slot_of c)).2 net') as Hsame.
  { intros -> P. exists net. cbn [fst snd]. by rewrite list_insert_id. }
  destruct (decide (fd c = -1)) as [E|E].
  { assert (slot_of c = None) as Es by by apply slot_of_None. apply Hsame; [by rewrite Es|].
    apply (performing_ext _ (fun w => mret (net, w))); [|apply performing_ret].
    intros w m. unfold serve_slot. rewrite E. cbn [Z.eqb Pos.eqb]. by mstep_ret. }
  destruct (ni_fds _ _ N i c Hi E) as (Hr & _).
  assert (forall w m, serve_slot k net i c w m = (if bool_decide (fd c ∈ readSet k) then
    '(c, set, w) ← HandleClientData (Some onMsg) (Some onDisc) close c (masterSet net) (received k (fd c)) w;
    mret (MkServerNet (listenFd net) (maxFd net) set (<[i := c]> (clients net)), w) else mret (net, w)) m) as Eb.
  { intros w m. unfold serve_slot. rewrite (Z.eqb_sym (-1)), (proj2 (Z.eqb_neq _ _) E).
    unfold FD_ISSET. rewrite FD_ok by done. by mlift. }
  destruct (decide (fd c ∈ readSet k)) as [Hin|Hin].
  - rewrite bool_decide_eq_true_2 in Eb by done.
    pose proof (client_exact k c (masterSet net) (Forall_lookup_1 _ _ _ _ (ni_clients _ _ N) Hi) Hr Hin (Hk Hin)) as H.
    destruct (spec_serve k (slot_of c)) as [s es]. destruct H as (c' & set' & Hc' & Hs & Hcase & P).
    exists (MkServerNet (listenFd net) (maxFd net) set' (<[i := c']> (clients net))).
    split; [by apply (client_inv net i c)|]. split; [done|]. cbn [fst snd].
    split; [unfold slots_of; cbn [clients]; by rewrite list_fmap_insert, Hs|].
    split; [intros j Hj; cbn [clients]; by rewrite list_lookup_insert_ne by done|].
    intros w m. rewrite Eb. unfold mbind, M_bind. rewrite P. unfold mbind, M_bind.
    by destruct (performs onMsg onDisc close es w m) as [[w1 m1]|].
  - rewrite bool_decide_eq_false_2 in Eb by done. apply Hsame.
    + assert (slot_of c = Some (fd c, pending c)) as -> by by apply slot_of_Some.
      cbn [spec_serve]. by rewrite bool_decide_eq_false_2.
    + apply (performing_ext _ (fun w => mret (net, w))); [done|apply performing_ret].
Qed.

(** All slots from the [i]-th on. *)
Lemma serve_exact k n i net : net_inv net ∅ -> (i + n = Z.to_nat MAX_CLIENTS)%nat ->
  (forall j c, (i <= j)%nat -> clients net !! j = Some c -> fd c ∈ readSet k -> recv_ok c (received k (fd c))) ->
  exists net', net_inv net' ∅ /\ listenFd net' = listenFd net /\
    slots_of net' = take i (slots_of net) ++ (serve_all k (drop i (slots_of net))).1 /\
    performing (serve_clients (Some onMsg) (Some onDisc) close n i net k)
      (serve_all k (drop i (slots_of net))).2 net'.
Proof.
  revert i net. induction n as [|n IH]; intros i net N Hn Hk.
  - assert (length (slots_of net) = i) as Hlen by (unfold slots_of; rewrite length_fmap, (ni_slots _ _ N); lia).
    exists net. split; [done|]. split; [done|]. rewrite drop_ge, take_ge by lia. cbn [serve_all fst snd fmap list_fmap concat].
    split; [by rewrite app_nil_r|]. apply performing_ret.
  - destruct (lookup_lt_is_Some_2 (clients net) i) as [c Hi]; [rewrite (ni_slots _ _ N); lia|].
    assert (slots_of net !! i = Some (slot_of c)) as Hsi by (unfold slots_of; by rewrite list_lookup_fmap, Hi).
    destruct (slot_exact k net i c N Hi (Hk i c (le_n i) Hi)) as (net1 & N1 & Hl1 & Hs1 & Hsame & P1).
    assert (drop (S i) (slots_of net1) = drop (S i) (slots_of net)) as Hd by (rewrite Hs1, drop_insert_lt by lia; done).
    assert (drop i (slots_of net) = slot_of c :: drop (S i) (slots_of net)) as Hd0 by (by apply drop_S).
    destruct (IH (S i) net1 N1) as (net2 & N2 & Hl2 & Hs2 & P2); [lia| |].
    { intros j d Hj Hd'. rewrite Hsame in Hd' by lia. apply (Hk j d); [lia|done]. }
    exists net2. split; [done|]. split; [congruence|]. rewrite Hd in *. rewrite Hd0. cbn [serve_all fmap list_fmap concat fst snd compose].
    split.
    + rewrite Hs2, Hs1. assert (i < length (slots_of net))%nat as Hlt by (by eapply lookup_lt_Some).
      rewrite (take_S_r _ i (spec_serve k (slot_of c)).1) by by rewrite list_lookup_insert_eq.
      rewrite take_insert_ge by lia. by rewrite <-app_assoc.
    + intros w m. cbn [serve_clients]. rewrite Hi. mlift.
      pose proof (performing_bind (serve_slot k net i c)
        (fun net' w => serve_clients (Some onMsg) (Some onDisc) close n (S i) net' k w) _ _ net1 net2 P1 P2 w m) as E.
      etransitivity; [|exact E]. unfold serve_slot. unfold mbind, M_bind.
      destruct ((if -1 =? fd c then mret false else lift (FD_ISSET (fd c) (readSet k))) m) as [[[] m1]|]; [|done..].
      done.
Qed.

(** A new connection. *)
Lemma accept_exact net x : net_inv net ∅ -> x < MAX_CLIENTS ->
  x = -1 \/ (0 <= x /\ x <> listenFd net /\ x ∉ slot_fds (slots_of net)) ->
  exists net', net_inv net' ∅ /\ listenFd net' = listenFd net /\
    slots_of net' = spec_accept (slots_of net) x /\
    (forall j c, clients net' !! j = Some c -> clients net !! j = Some c \/ fd c = x) /\
    forall w, HandleNewConnection close net x w = Some (net', w).
Proof.
  intros N Hlt Hx. unfold spec_accept, HandleNewConnection. rewrite (Z.eqb_sym (-1)).
  destruct (x =? -1) eqn:E1; bprop.
  { exists net. do 3 (split; [done|]). split; [by left|done]. }
  destruct Hx as [->|(H0 & Hl & Hn)]; [done|].
  destruct (net_inv_room net ∅ N) as [i Ef]. rewrite Ef.
  apply find_slot_spec in Ef as Hs. destruct Hs as (_ & c & Hi & Hc). rewrite Nat.sub_0_r in Hi.
  assert (free_slot (slots_of net) = Some i) as ->.
  { rewrite find_slot_free in Ef. by destruct (free_slot (slot_of <$> clients net)) eqn:E; cbn in Ef; simplify_eq. }
  rewrite Hi. cbn [mbind option_bind]. unfold FD_SET. rewrite FD_ok by lia. cbn [mbind option_bind].
  eexists. split; [apply (net_inv_add net ∅ x i c N); [lia| |done|done]|].
  { intros Hm. apply Hn, slot_fds_connected. by apply (ni_set _ _ N). }
  split; [done|]. split; [|split; [|done]].
  - unfold slots_of. cbn [clients]. rewrite list_fmap_insert. f_equal. apply slot_of_Some. done.
  - cbn [clients]. intros j d Hd. destruct (decide (j = i)) as [->|Hj]; [right|left].
    + rewrite list_lookup_insert_eq in Hd by (by eapply lookup_lt_Some). by injection Hd as <-.
    + by rewrite list_lookup_insert_ne in Hd.
Qed.

(** What a kernel that keeps the contract reports, on the table itself. *)
Lemma honest_kernel_ok k net : net_inv net ∅ -> honest_turn (listenFd net) (slots_of net) k -> kernel_ok net k.
Proof.
  intros N (Hready & Hacc & Hrecv). rewrite Forall_forall in Hready. constructor.
  - intros x Hx. destruct (Hready x) as [->|Hc]; [by apply elem_of_elements|apply (ni_listen _ _ N)|].
    apply slot_fds_connected in Hc as (Hne & i & c & Hi & <-). by apply (ni_fds _ _ N i c).
  - destruct Hacc as [?|(H0 & Hl & Hn)]; [by left|right]. split; [done|]. intros Hm.
    apply Hn, slot_fds_connected. by apply (ni_set _ _ N).
  - intros j c Hj Hc. assert (fd c <> -1) as Hne.
    { destruct (Hready (fd c)) as [->|Hf]; [by apply elem_of_elements|destruct (ni_listen _ _ N); lia|].
      by apply slot_fds_connected in Hf as [? _]. }
    unfold slots_of in Hrecv. rewrite Forall_fmap, Forall_forall in Hrecv.
    specialize (Hrecv c (list_elem_of_lookup_2 _ _ _ Hj)). unfold compose in Hrecv.
    rewrite (proj2 (slot_of_Some c (fd c) (pending c))) in Hrecv by done. cbn [honest_recv] in Hrecv.
    rewrite bool_decide_eq_true_2 in Hrecv by done. rewrite pending_blen in Hrecv; [done|].
    by apply (Forall_lookup_1 _ _ _ _ (ni_clients _ _ N) Hj).
Qed.

(** One turn of the loop. *)
Lemma turn_exact k net : net_inv net ∅ -> honest_turn (listenFd net) (slots_of net) k ->
  if overflow_turn (listenFd net) k
  then forall w m, turn (onMsg := onMsg) (onDisc := onDisc) (close := close) net k w m = None
  else exists net', net_inv net' ∅ /\ listenFd net' = listenFd net /\
    slots_of net' = (spec_turn (listenFd net) (slots_of net) k).1 /\
    performing (turn (onMsg := onMsg) (onDisc := onDisc) (close := close) net k)
      (spec_turn (listenFd net) (slots_of net) k).2 net'.
Proof.
  intros N Hh. destruct (honest_kernel_ok k net N Hh) as [_ _ Hok]. destruct Hh as (Hready & Hacc & _).
  rewrite Forall_forall in Hready.
  assert (forall x, x ∈ readSet k -> x = listenFd net \/ x ∈ slot_fds (slots_of net)) as Hin
    by (intros x Hx; by apply Hready, elem_of_elements).
  assert (forall x, x ∈ readSet k -> x <> -1) as Hpos.
  { intros x [->|Hx]%Hin; [destruct (ni_listen _ _ N); lia|]. by apply slot_fds_connected in Hx as [? _]. }
  unfold overflow_turn, spec_turn, turn, FD_ISSET. rewrite FD_ok by apply (ni_listen _ _ N).
  destruct (bool_decide (listenFd net ∈ readSet k)); cbn [andb].
  - destruct (MAX_CLIENTS <=? accepted k) eqn:Eo; bprop.
    { intros w m. mlift. by rewrite (HandleNewConnection_overflow net ∅) by done. }
    destruct (accept_exact net (accepted k) N Eo Hacc) as (net1 & N1 & Hl1 & Hs1 & Hc & E1).
    destruct (serve_exact k (Z.to_nat MAX_CLIENTS) 0 net1 N1) as (net2 & N2 & Hl2 & Hs2 & P2); [lia| |].
    { intros j c _ Hj Hc'. destruct (Hc j c Hj) as [Hj'|E]; [apply (Hok j c); auto|].
      exfalso. rewrite E in Hc'. destruct Hacc as [E2|(_ & H2 & H3)]; [by apply (Hpos _ Hc')|].
      by destruct (Hin _ Hc'). }
    rewrite drop_0, take_0, Hs1 in *. cbn [app] in Hs2. exists net2. split; [done|]. split; [congruence|].
    split; [done|]. intros w m. rewrite <-P2. mlift. rewrite E1. by mlift.
  - destruct (serve_exact k (Z.to_nat MAX_CLIENTS) 0 net N) as (net2 & N2 & Hl2 & Hs2 & P2);
      [lia|intros j c _ Hj Hc; apply (Hok j c); auto|].
    rewrite drop_0, take_0 in *. cbn [app] in Hs2. exists net2. split; [done|]. split; [congruence|].
    split; [done|]. intros w m. rewrite <-P2. mlift. by mstep_ret.
Qed.

(** The contract on the view is the contract on the run. *)
Lemma honest_kernel_run answers net w m : net_inv net ∅ -> honest (listenFd net) (slots_of net) answers ->
  kernel_run (onMsg := onMsg) (onDisc := onDisc) (close := close) net answers w m.
Proof.
  revert net w m. induction answers as [|[| |k] answers IH]; intros net w m N H; cbn [honest kernel_run] in *;
    [done|by apply IH|done|].
  destruct H as [Hk H]. split; [by apply honest_kernel_ok|]. intros net1 w1 m1 E.
  pose proof (turn_exact k net N Hk) as Ht. destruct (overflow_turn (listenFd net) k); [by rewrite Ht in E|].
  destruct Ht as (net' & N' & Hl & Hs & P). rewrite P in E. apply M_bind_inv in E as (w' & m' & _ & E).
  injection E as <- _ _. apply IH; [done|]. rewrite Hl, Hs. by apply H.
Qed.

(** The whole loop. *)
Lemma loop_exact answers net : net_inv net ∅ -> honest (listenFd net) (slots_of net) answers ->
  if overflows (listenFd net) answers
  then forall w m, run_answers (Some onMsg) (Some onDisc) close net answers w m = None
  else exists net', net_inv net' ∅ /\ listenFd net' = listenFd net /\
    slots_of net' = (spec_net (listenFd net) (slots_of net) answers).1.2 /\
    performing (run_answers (Some onMsg) (Some onDisc) close net answers)
      (spec_net (listenFd net) (slots_of net) answers).2
      ((spec_net (listenFd net) (slots_of net) answers).1.1, net').
Proof.
  revert net. induction answers as [|[| |k] answers IH]; intros net N H; cbn [honest spec_net overflows] in *.
  - exists net. do 3 (split; [done|]). apply (performing_ret (0, net)).
  - by apply IH.
  - exists net. do 3 (split; [done|]). apply (performing_ret (-1, net)).
  - destruct H as [Hk H]. pose proof (turn_exact k net N Hk) as Ht.
    destruct (overflow_turn (listenFd net) k); cbn [orb].
    { intros w m. rewrite run_answers_ready. unfold mbind, M_bind. by rewrite Ht. }
    destruct Ht as (net1 & N1 & Hl1 & Hs1 & P1). specialize (H eq_refl).
    destruct (spec_turn (listenFd net) (slots_of net) k) as [l1 e1]. cbn [fst snd] in *.
    specialize (IH net1 N1). rewrite Hl1, Hs1 in IH. specialize (IH H).
    destruct (overflows (listenFd net) answers).
    { intros w m. rewrite run_answers_ready. unfold mbind, M_bind. rewrite P1. unfold mbind, M_bind.
      destruct (performs onMsg onDisc close e1 w m) as [[w1 m1]|]; [|done]. apply IH. }
    destruct IH as (net2 & N2 & Hl2 & Hs2 & P2).
    destruct (spec_net (listenFd net) l1 answers) as [[r l2] e2]. cbn [fst snd] in *.
    exists net2. split; [done|]. split; [done|]. split; [done|].
    pose proof (performing_bind _ (fun net => run_answers (Some onMsg) (Some onDisc) close net answers) _ _ _ _ P1 P2) as P.
    intros w m. rewrite <-P. apply run_answers_ready.
Qed.

End exact.

(** ** The events are what the layer above may be given *)

Definition slot_ok (s : slot) : Prop :=
  match s with Some (d, p) => 0 <= d < MAX_CLIENTS /\ is_byte_list p | None => True end.

Definition net_event_ok (e : net_event) : Prop :=
  match e with
  | Message d f => 0 <= d < MAX_CLIENTS /\ is_byte_list f /\ 2 <= blen f
  | HungUp d => 0 <= d < MAX_CLIENTS
  end.

Lemma spec_accept_ok l x : Forall slot_ok l -> x = -1 \/ 0 <= x -> x < MAX_CLIENTS ->
  Forall slot_ok (spec_accept l x).
Proof.
  intros Hl Hx Hlt. unfold spec_accept. destruct (x =? -1) eqn:E; bprop; [done|].
  destruct (free_slot l); [|done]. apply Forall_insert; [done|]. split; [lia|constructor].
Qed.

Lemma spec_serve_ok k s : slot_ok s -> honest_recv k s ->
  slot_ok (spec_serve k s).1 /\ Forall net_event_ok (spec_serve k s).2.
Proof.
  destruct s as [[d p]|]; [|by split; [|constructor]]. intros [Hd Hp] Hk. cbn [spec_serve honest_recv] in *.
  destruct (bool_decide (d ∈ readSet k)); [|by split; [|constructor]].
  destruct (received k d) as [data|]; [|by split; [|repeat constructor; lia]].
  assert (is_byte_list (p ++ data)) as Hb by (apply Forall_app; by split; [|apply Hk]).
  pose proof (frames_bytes (p ++ data)) as Hf. pose proof (rest_bytes _ Hb) as Hr.
  destruct (split_frames (p ++ data)) as [fs rest]. cbn [fst snd] in *. split; [done|].
  apply Forall_fmap, Forall_forall. intros f Hin. by destruct (Hf f Hb Hin).
Qed.

Lemma spec_turn_ok listening l k : Forall slot_ok l -> honest_turn listening l k ->
  overflow_turn listening k = false ->
  Forall slot_ok (spec_turn listening l k).1 /\ Forall net_event_ok (spec_turn listening l k).2.
Proof.
  intros Hl (Hready & Hacc & Hrecv) Ho. rewrite Forall_forall in Hready. unfold overflow_turn in Ho. unfold spec_turn.
  set (l1 := if bool_decide _ then _ else _). assert (Forall slot_ok l1 /\ Forall (honest_recv k) l1) as [H1 H3].
  { subst l1. destruct (bool_decide (listening ∈ readSet k)); [|done]. cbn [andb] in Ho. bprop.
    split; [apply spec_accept_ok; [done|tauto|lia]|].
    unfold spec_accept. destruct (accepted k =? -1) eqn:E; bprop; [done|]. destruct (free_slot l); [|done].
    apply Forall_insert; [done|]. cbn [honest_recv]. rewrite bool_decide_eq_false_2; [done|].
    intros Hin%elem_of_elements%Hready. destruct Hacc as [?|(_ & ? & ?)]; [done|]. by destruct Hin. }
  clearbody l1. unfold serve_all. cbn [fst snd]. split.
  - apply Forall_fmap. rewrite Forall_forall in *. intros s Hs. apply (spec_serve_ok k s); auto.
  - apply Forall_concat, Forall_fmap. rewrite Forall_forall in *.
    intros s Hs. apply (spec_serve_ok k s); auto.
Qed.

Lemma spec_net_ok listening l answers : Forall slot_ok l -> honest listening l answers ->
  overflows listening answers = false ->
  Forall slot_ok (spec_net listening l answers).1.2 /\ Forall net_event_ok (spec_net listening l answers).2.
Proof.
  revert l. induction answers as [|[| |k] answers IH]; intros l Hl H Ho; cbn [honest spec_net overflows] in *;
    [by split; [|constructor]|by apply IH|by split; [|constructor]|].
  apply orb_false_iff in Ho as [Ho1 Ho2]. destruct H as [Hk H].
  destruct (spec_turn_ok listening l k Hl Hk Ho1) as [H1 H2]. specialize (H Ho1).
  destruct (spec_turn listening l k) as [l1 e1]. cbn [fst snd] in *. destruct (IH l1 H1 H Ho2) as [H3 H4].
  destruct (spec_net listening l1 answers) as [[r l2] e2]. split; [done|]. by apply Forall_app.
Qed.

(** A fresh table. *)
Definition no_slots : list slot := replicate (Z.to_nat MAX_CLIENTS) None.

Lemma no_slots_ok : Forall slot_ok no_slots.
Proof. by apply Forall_replicate. Qed.

Lemma slots_of_create listening set garbage :
  slots_of (MkServerNet listening listening set (replicate (Z.to_nat MAX_CLIENTS) (MkClient (-1) garbage 0))) = no_slots.
Proof. unfold slots_of. cbn [clients]. by rewrite fmap_replicate. Qed.

(** ** Properties *)

(** C12: The select loop is a function of what arrives.  For every layer above
    that implements the interface, every consistent table, every effect of
    signals on the flag and every list of passes in which the kernel keeps its
    contract, [ServerNet_Run] hands exactly the events of [spec_net] to the
    handlers, in this order, and does nothing else: in each turn first the new
    connection, put into the first free slot, then
    for every slot in order the complete messages of what has arrived on it, or
    the end of its connection.  There always is a free slot, so that no
    connection is ever refused; but a new descriptor at or above [FD_SETSIZE]
    makes the run undefined.  It returns when the flag is found cleared or
    [select] fails, -1 exactly in the second case; a signal that comes while a
    pass is worked off cuts nothing short.  The slots hold the connections
    that were not closed, each with the bytes of its last, incomplete message. *)
Theorem select_loop_exact (W : Type) (onMsg : Z -> bytes -> Z -> W -> M (Z * W)) onDisc close Inv
    `{!Handlers onMsg onDisc close Inv} on_signal flag passes net :
  net_inv net ∅ -> honest (listenFd net) (slots_of net) (answers_of on_signal flag passes) ->
  if overflows (listenFd net) (answers_of on_signal flag passes)
  then forall w m, ServerNet_Run (Some onMsg) (Some onDisc) close on_signal (Some net) (Some flag) passes w m = None
  else
  let '(r, l, es) := spec_net (listenFd net) (slots_of net) (answers_of on_signal flag passes) in
  exists net', net_inv net' ∅ /\ listenFd net' = listenFd net /\ slots_of net' = l /\
    forall w m, ServerNet_Run (Some onMsg) (Some onDisc) close on_signal (Some net) (Some flag) passes w m
      = (w ← performs onMsg onDisc close es w;
         mret (if run_ends on_signal flag passes then Some r else None, Some net', w)) m.
Proof.
  intros N H. pose proof (loop_exact (onMsg := onMsg) (onDisc := onDisc) (close := close) _ net N H) as HL.
  destruct (overflows _ _).
  { intros w m. rewrite ServerNet_Run_answers. unfold mbind, M_bind. by rewrite HL. }
  destruct HL as (net' & N' & Hl & Hs & P).
  destruct (spec_net (listenFd net) (slots_of net) _) as [[r l] es]. cbn [fst snd] in *.
  exists net'. do 3 (split; [done|]). intros w m. rewrite ServerNet_Run_answers. unfold mbind, M_bind. rewrite P.
  unfold mbind, M_bind. by destruct (performs onMsg onDisc close es w m) as [[w1 m1]|].
Qed.

(** Two connections, a message in two pieces, a connection that ends; the signal
    that clears the flag comes in the third pass. *)
Definition demo_run : list pass :=
  [MkPass (SelectReady (MkWakeup {[3]} 4 (fun _ => None))) []; MkPass SelectInterrupted [];
   MkPass (SelectReady (MkWakeup {[3; 4]} 5 (fun _ => Some [5; 0; 7; 2; 1]))) [];
   MkPass (SelectReady (MkWakeup {[4; 5]} (-1) (fun d => if d =? 4 then Some [103; 5] else None))) [2];
   MkPass (SelectReady (MkWakeup {[4; 5]} (-1) (fun _ => None))) []].

Lemma select_loop_exact_witness :
  let net := MkServerNet 3 3 ({[3]} ∪ ∅) (replicate (Z.to_nat MAX_CLIENTS) (MkClient (-1) (replicate 771 0) 0)) in
  let '(r, l, es) := spec_net 3 (slots_of net) (answers_of (fun _ _ => 0) 1 demo_run) in
  es = [Message 4 [5; 0]; Message 4 [7; 2; 1; 103]; HungUp 5] /\
  (forall w m, ServerNet_Run (Some log_msg) (Some log_disc) (fun _ w => w) (fun _ _ => 0) (Some net) (Some 1)
     (take 1 demo_run ++ demo_overflow) w m = None) /\
  exists net', net_inv net' ∅ /\ listenFd net' = 3 /\ slots_of net' = l /\
    forall w m, ServerNet_Run (Some log_msg) (Some log_disc) (fun _ w => w) (fun _ _ => 0) (Some net) (Some 1) demo_run w m
      = (w ← performs log_msg log_disc (fun _ w => w) es w; mret (Some r, Some net', w)) m.
Proof.
  intros net.
  pose proof (fun passes => select_loop_exact (list (Z * bytes)) log_msg log_disc (fun _ w => w) (fun _ _ A => A = ∅)
    (fun _ _ => 0) 1 passes net demo_net_inv) as H.
  change (listenFd net) with 3 in H. pose proof (H (take 1 demo_run ++ demo_overflow)) as H2. specialize (H demo_run).
  set (answers := answers_of (fun _ _ => 0) 1 demo_run) in *.
  set (answers2 := answers_of (fun _ _ => 0) 1 (take 1 demo_run ++ demo_overflow)) in *.
  assert (honest 3 (slots_of net) answers) as Hh by (apply (bool_decide_eq_true_1 _); by vm_compute).
  assert (honest 3 (slots_of net) answers2) as Hh2 by (apply (bool_decide_eq_true_1 _); by vm_compute).
  specialize (H2 Hh2). assert (overflows 3 answers2 = true) as E2 by by vm_compute. rewrite E2 in H2.
  specialize (H Hh). assert (overflows 3 answers = false) as E1 by by vm_compute. rewrite E1 in H.
  change (run_ends (fun _ _ => 0) 1 demo_run) with true in H.
  assert ((spec_net 3 (slots_of net) answers).2 = [Message 4 [5; 0]; Message 4 [7; 2; 1; 103]; HungUp 5]) as E
    by by vm_compute.
  destruct (spec_net 3 (slots_of net) answers) as [[r l] es]. cbn [snd] in E. split; [done|]. split; [exact H2|exact H].
Defined.
