(* ===== verification/ServerMng.v ===== *)
(** * The management layer of the server: [server/server_mng.h], [server/server_mng.c]

    The three managers as global state, one handler per request, and the
    disconnect handler.  The file proves that the concrete state refines an
    abstract one ([sv_rep]): users, sessions, groups and free addresses, with
    the invariants that tie the managers together (a group's member count is
    the number of users who have joined it; every address is free or held by
    one group), that every message on every connection keeps it, and that
    handling a message is, as long as memory does not run out, exactly the
    specified step on the abstract state ([spec_request]).  It implements the
    interface [Handlers] of the network layer. *)

From S2P Require Import Prelude Protocol GenQueue GenDlist HashMap HashUtils.
From S2P Require Import FreeMcQueue Index GroupMng UserMng ServerNet.

(** The global variables, the heap objects they lead to, and the output. *)
Record server := MkServer {
  g_userMng : ptr UserMng;
  g_groupMng : ptr GroupMng;
  g_mcQueue : ptr unit;
  users : gmap loc User;
  gh : gheap;
  out : list output
}.

Definition set_users (s : server) (um : ptr UserMng) (st : gmap loc User) : server :=
  MkServer um (g_groupMng s) (g_mcQueue s) st (gh s) (out s).
Definition set_gm (s : server) (gm : ptr GroupMng) (hp : gheap) : server :=
  MkServer (g_userMng s) gm (g_mcQueue s) (users s) hp (out s).
Definition set_out (s : server) (o : list output) : server :=
  MkServer (g_userMng s) (g_groupMng s) (g_mcQueue s) (users s) (gh s) o.

(** The pointer to the group manager and the heap it works on, the memory
    behind the context of the leave callback. *)
Definition OnUserImplicitLeave (_groupName : cstring) (_ctx : ptr GroupMng * gheap)
  : M (ptr GroupMng * gheap) :=
  '(_, gm, hp) ← GroupMng_LeaveGroup (fst _ctx) (snd _ctx) (Some _groupName);
  mret (gm, hp).

(** ** Lifecycle *)

(** [g_mcQueue] and [FreeMcQueue_Create]/[FreeMcQueue_Destroy]: the one pool. *)
Definition destroy_pool (hp : gheap) : M gheap :=
  '_ ← FreeMcQueue_Destroy (Some (mcq hp));
  mret (MkGheap (groups hp) None).

Definition ServerMng_Init (s : server) : M (Z * server) :=
  q ← FreeMcQueue_Create;
  match q with
  | None => mret (-1, MkServer (g_userMng s) (g_groupMng s) NULL (users s) (gh s) (out s))
  | Some _ =>
      let hp := MkGheap (groups (gh s)) q in
      gm ← GroupMng_Create (Some tt);
      match gm with
      | None =>
          hp ← destroy_pool hp;
          mret (-1, MkServer (g_userMng s) NULL NULL (users s) hp (out s))
      | Some _ =>
          um ← UserMng_Create;
          match um with
          | None =>
              '(gm, hp) ← GroupMng_Destroy (Some gm) hp;
              hp ← destroy_pool hp;
              mret (-1, MkServer NULL (default NULL gm) NULL (users s) hp (out s))
          | Some _ => mret (0, MkServer um gm (Some tt) (users s) hp (out s))
          end
      end
  end.

Definition ServerMng_Destroy (s : server) : M server :=
  s ← (match g_userMng s with
       | Some _ =>
           '(um, st) ← UserMng_Destroy (Some (g_userMng s)) (users s);
           mret (set_users s (default NULL um) st)
       | None => mret s
       end);
  s ← (match g_groupMng s with
       | Some _ =>
           '(gm, hp) ← GroupMng_Destroy (Some (g_groupMng s)) (gh s);
           mret (set_gm s (default NULL gm) hp)
       | None => mret s
       end);
  match g_mcQueue s with
  | Some _ =>
      hp ← destroy_pool (gh s);
      mret (MkServer (g_userMng s) (g_groupMng s) NULL (users s) hp (out s))
  | None => mret s
  end.

(** ** Request handlers *)

(** [uint8_t repBuf[CHAT_MAX_MSG_SIZE]] and the zeroed string buffers. *)
Definition repBuf : ptr bytes := Some (replicate (Z.to_nat CHAT_MAX_MSG_SIZE) 0).
Definition zeros (n : Z) : ptr bytes := Some (replicate (Z.to_nat (n + 1)) 0).

(** The string in a local [char] buffer. *)
Definition read_str (b : ptr bytes) : option cstring := b ≫= c_str.

(** [if (repLen > 0) ServerNet_SendMessage(_sockfd, repBuf, (size_t)repLen)] *)
Definition send_reply (s : server) (_sockfd : Z) (rep : Z * ptr bytes) : option server :=
  if fst rep >? 0 then '(_, o) ← ServerNet_SendMessage _sockfd (snd rep) (fst rep) (out s); Some (set_out s o)
  else Some s.

Definition HandleRegisterReq (_sockfd : Z) (_msg : bytes) (_len : Z) (s : server) : M server :=
  '(r, ou, op) ← lift (chat_decode_user_pass (Some _msg) _len
    (zeros CHAT_MAX_USERNAME_LEN) (zeros CHAT_MAX_PASSWORD_LEN));
  if 0 =? r then
    user ← lift (read_str ou);
    pass ← lift (read_str op);
    '(status, um, st) ← UserMng_Register (g_userMng s) (users s) (Some user) (Some pass);
    let s := set_users s um st in
    rep ← lift (chat_encode_status_rep repBuf OP_REG_REP status);
    lift (send_reply s _sockfd rep)
  else mret s.

Definition HandleLoginReq (_sockfd : Z) (_msg : bytes) (_len : Z) (s : server) : M server :=
  '(r, ou, op) ← lift (chat_decode_user_pass (Some _msg) _len
    (zeros CHAT_MAX_USERNAME_LEN) (zeros CHAT_MAX_PASSWORD_LEN));
  if 0 =? r then
    user ← lift (read_str ou);
    pass ← lift (read_str op);
    '(status, um, st) ← lift (UserMng_Login (g_userMng s) (users s) (Some user) (Some pass) _sockfd);
    let s := set_users s um st in
    rep ← lift (chat_encode_status_rep repBuf OP_LOGIN_REP status);
    lift (send_reply s _sockfd rep)
  else mret s.

(** The case [OP_LOGOUT_REQ] of [ServerMng_HandleMessage]. *)
Definition HandleLogoutReq (_sockfd : Z) (s : server) : M server :=
  '(status, um, st, ctx) ← UserMng_Logout (g_userMng s) (users s) _sockfd (Some OnUserImplicitLeave)
    (g_groupMng s, gh s);
  let s := set_gm (set_users s um st) (fst ctx) (snd ctx) in
  rep ← lift (chat_encode_status_rep repBuf OP_LOGOUT_REP status);
  lift (send_reply s _sockfd rep).

Definition HandleCreateGroupReq (_sockfd : Z) (_msg : bytes) (_len : Z) (s : server) : M server :=
  '(r, og) ← lift (chat_decode_groupname (Some _msg) _len (zeros CHAT_MAX_GROUPNAME_LEN));
  if 0 =? r then
    groupName ← lift (read_str og);
    logged ← lift (UserMng_IsLoggedIn (g_userMng s) _sockfd);
    if logged =? 0 then
      rep ← lift (chat_encode_status_rep repBuf OP_CREATE_GROUP_REP ST_ERR_NOT_LOGGED_IN);
      lift (send_reply s _sockfd rep)
    else
    '(status, newGroup, gm, hp) ← GroupMng_CreateGroup (g_groupMng s) (gh s) (Some groupName) (Some NULL);
    let s := set_gm s gm hp in
    newGroup ← lift newGroup;
    match (if decide (status = ST_OK) then newGroup else NULL) with
    | Some l =>
        '(status, st) ← UserMng_JoinGroup (g_userMng s) (users s) _sockfd (Some groupName);
        let s := set_users s (g_userMng s) st in
        if decide (ST_OK <> status) then
          '(_, gm, hp) ← GroupMng_LeaveGroup (g_groupMng s) (gh s) (Some groupName);
          let s := set_gm s gm hp in
          rep ← lift (chat_encode_status_rep repBuf OP_CREATE_GROUP_REP ST_ERR_SERVER_FULL);
          lift (send_reply s _sockfd rep)
        else
          grp ← lift (groups (gh s) !! l);
          rep ← lift (chat_encode_group_rep_ok repBuf OP_CREATE_GROUP_REP
                        (Some (mcast_ip grp)) (mcast_port grp));
          lift (send_reply s _sockfd rep)
    | None =>
        rep ← lift (chat_encode_status_rep repBuf OP_CREATE_GROUP_REP status);
        lift (send_reply s _sockfd rep)
    end
  else mret s.

Definition HandleJoinGroupReq (_sockfd : Z) (_msg : bytes) (_len : Z) (s : server) : M server :=
  '(r, og) ← lift (chat_decode_groupname (Some _msg) _len (zeros CHAT_MAX_GROUPNAME_LEN));
  if 0 =? r then
    groupName ← lift (read_str og);
    logged ← lift (UserMng_IsLoggedIn (g_userMng s) _sockfd);
    if logged =? 0 then
      rep ← lift (chat_encode_status_rep repBuf OP_JOIN_GROUP_REP ST_ERR_NOT_LOGGED_IN);
      lift (send_reply s _sockfd rep)
    else
    '(status, group, hp) ← lift (GroupMng_JoinGroup (g_groupMng s) (gh s) (Some groupName) (Some NULL));
    let s := set_gm s (g_groupMng s) hp in
    group ← lift group;
    match (if decide (status = ST_OK) then group else NULL) with
    | Some l =>
        '(userStatus, st) ← UserMng_JoinGroup (g_userMng s) (users s) _sockfd (Some groupName);
        let s := set_users s (g_userMng s) st in
        if decide (ST_OK = userStatus) then
          grp ← lift (groups (gh s) !! l);
          rep ← lift (chat_encode_group_rep_ok repBuf OP_JOIN_GROUP_REP
                        (Some (mcast_ip grp)) (mcast_port grp));
          lift (send_reply s _sockfd rep)
        else
          '(_, gm, hp) ← GroupMng_LeaveGroup (g_groupMng s) (gh s) (Some groupName);
          let s := set_gm s gm hp in
          rep ← lift (chat_encode_status_rep repBuf OP_JOIN_GROUP_REP userStatus);
          lift (send_reply s _sockfd rep)
    | None =>
        rep ← lift (chat_encode_status_rep repBuf OP_JOIN_GROUP_REP status);
        lift (send_reply s _sockfd rep)
    end
  else mret s.

Definition HandleLeaveGroupReq (_sockfd : Z) (_msg : bytes) (_len : Z) (s : server) : M server :=
  '(r, og) ← lift (chat_decode_groupname (Some _msg) _len (zeros CHAT_MAX_GROUPNAME_LEN));
  if 0 =? r then
    groupName ← lift (read_str og);
    '(status, st) ← UserMng_LeaveGroup (g_userMng s) (users s) _sockfd (Some groupName);
    let s := set_users s (g_userMng s) st in
    '(status, s) ← (if decide (ST_OK = status) then
        '(status, gm, hp) ← GroupMng_LeaveGroup (g_groupMng s) (gh s) (Some groupName);
        mret (status, set_gm s gm hp)
      else mret (status, s));
    rep ← lift (chat_encode_status_rep repBuf OP_LEAVE_GROUP_REP status);
    lift (send_reply s _sockfd rep)
  else mret s.

Definition ServerMng_HandleMessage (_sockfd : Z) (_msg : bytes) (_len : Z) (s : server) : M (Z * server) :=
  '(r, type, _) ← lift (chat_peek_header (Some _msg) _len (Some 0) (Some 0));
  if -1 =? r then mret (-1, s) else
  type ← lift type;
  s ← (if type =? opcode OP_REG_REQ then HandleRegisterReq _sockfd _msg _len s
       else if type =? opcode OP_LOGIN_REQ then HandleLoginReq _sockfd _msg _len s
       else if type =? opcode OP_LOGOUT_REQ then HandleLogoutReq _sockfd s
       else if type =? opcode OP_CREATE_GROUP_REQ then HandleCreateGroupReq _sockfd _msg _len s
       else if type =? opcode OP_JOIN_GROUP_REQ then HandleJoinGroupReq _sockfd _msg _len s
       else if type =? opcode OP_LEAVE_GROUP_REQ then HandleLeaveGroupReq _sockfd _msg _len s
       else mret s);
  mret (0, s).

Definition ServerMng_OnDisconnect (_sockfd : Z) (s : server) : M server :=
  match g_userMng s with
  | Some _ =>
      '(um, st, ctx) ← UserMng_Disconnect (g_userMng s) (users s) _sockfd (Some OnUserImplicitLeave)
        (g_groupMng s, gh s);
      mret (set_gm (set_users s um st) (fst ctx) (snd ctx))
  | None => mret s
  end.

(** [close(fd)] *)
Definition server_close (fd : Z) (s : server) : server := set_out s (out s ++ [Closed fd]).

(** ** The abstract state of the server *)

Record astate := MkA {
  aU : gmap cstring UInfo;
  aS : gmap Z cstring;
  aG : gmap cstring Group;
  aP : list McastPair
}.

(** How many users have joined a group, and the count the group holds. *)
Definition is_member (g : cstring) (i : UInfo) : Z := if bool_decide (g ∈ u_groups i) then 1 else 0.
Definition members (U : gmap cstring UInfo) (g : cstring) : Z := msum (fun _ i => is_member g i) U.
Definition count (G : gmap cstring Group) (g : cstring) : Z :=
  match G !! g with Some grp => member_count grp | None => 0 end.

Record sv_rep (s : server) (a : astate) : Prop := {
  sv_um : exists um, g_userMng s = Some um /\ um_rep um (users s) (aU a) (aS a);
  sv_gm : exists gm, g_groupMng s = Some gm /\ gm_rep gm (gh s) (aG a) (aP a);
  sv_mcq : g_mcQueue s = Some tt;
  sv_members : forall g, count (aG a) g = members (aU a) g
}.

(** Heap blocks of the whole server. *)
Definition sv_blocks (s : server) (a : astate) : Z :=
  match g_userMng s with Some um => um_blocks um (aU a) | None => 0 end
  + match g_groupMng s with Some gm => gm_blocks gm (aG a) (aP a) | None => 0 end.

(** ** The requests and their effect *)

Inductive request :=
| RRegister (u p : cstring)
| RLogin (u p : cstring)
| RLogout
| RCreate (g : cstring)
| RJoin (g : cstring)
| RLeave (g : cstring)
| RIgnored.

Definition parse_user_pass (fr : bytes) : option (cstring * cstring) :=
  match parse_frame fr with
  | None => None
  | Some (_, _, body) =>
      match parse_field CHAT_MAX_USERNAME_LEN body with
      | None => None
      | Some (u, r) =>
          match parse_field CHAT_MAX_PASSWORD_LEN r with
          | None => None
          | Some (p, _) => Some (c_prefix u, c_prefix p)
          end
      end
  end.

Definition parse_group (fr : bytes) : option cstring := c_prefix <$> parse_groupname fr.

(** A message as the server reads it; what it cannot decode it ignores. *)
Definition parse_request (fr : bytes) : request :=
  match fr with
  | t :: _ :: _ =>
      if t =? opcode OP_REG_REQ
      then match parse_user_pass fr with Some (u, p) => RRegister u p | None => RIgnored end
      else if t =? opcode OP_LOGIN_REQ
      then match parse_user_pass fr with Some (u, p) => RLogin u p | None => RIgnored end
      else if t =? opcode OP_LOGOUT_REQ then RLogout
      else if t =? opcode OP_CREATE_GROUP_REQ
      then match parse_group fr with Some g => RCreate g | None => RIgnored end
      else if t =? opcode OP_JOIN_GROUP_REQ
      then match parse_group fr with Some g => RJoin g | None => RIgnored end
      else if t =? opcode OP_LEAVE_GROUP_REQ
      then match parse_group fr with Some g => RLeave g | None => RIgnored end
      else RIgnored
  | _ => RIgnored
  end.

(** A member leaves a group: the last one takes the group away, and its address
    goes to the back of the pool. *)
Definition drop_member (gp : gmap cstring Group * list McastPair) (g : cstring)
  : gmap cstring Group * list McastPair :=
  match gp.1 !! g with
  | Some grp =>
      if member_count grp =? 1 then (delete g gp.1, gp.2 ++ [pair_of grp])
      else (<[g := left_by_one grp]> gp.1, gp.2)
  | None => gp
  end.

Definition set_member (a : astate) (k : cstring) (i : UInfo) (gs : list cstring)
    (gp : gmap cstring Group * list McastPair) : astate :=
  MkA (<[k := with_groups i gs]> (aU a)) (aS a) gp.1 gp.2.

Definition spec_request (a : astate) (fd : Z) (r : request) : astate * list bytes :=
  match r with
  | RRegister u p =>
      let '(st, U) := spec_register (aU a) u p in
      (MkA U (aS a) (aG a) (aP a), [status_frame OP_REG_REP st])
  | RLogin u p =>
      let '(st, U, sk) := spec_login (aU a) (aS a) u p fd in
      (MkA U sk (aG a) (aP a), [status_frame OP_LOGIN_REP st])
  | RLogout =>
      match user_at (aU a) (aS a) fd with
      | None => (a, [status_frame OP_LOGOUT_REP ST_ERR_NOT_LOGGED_IN])
      | Some (k, i) =>
          let gp := foldl drop_member (aG a, aP a) (u_groups i) in
          (MkA (<[k := logged_out i]> (aU a)) (delete fd (aS a)) gp.1 gp.2,
           [status_frame OP_LOGOUT_REP ST_OK])
      end
  | RCreate g =>
      match user_at (aU a) (aS a) fd with
      | None => (a, [status_frame OP_CREATE_GROUP_REP ST_ERR_NOT_LOGGED_IN])
      | Some (k, i) =>
          match aG a !! g, aP a with
          | Some _, _ => (a, [status_frame OP_CREATE_GROUP_REP ST_ERR_GROUP_EXISTS])
          | None, [] => (a, [status_frame OP_CREATE_GROUP_REP ST_ERR_SERVER_FULL])
          | None, p :: ps =>
              (set_member a k i (u_groups i ++ [g]) (<[g := new_group g p]> (aG a), ps),
               [group_ok_frame OP_CREATE_GROUP_REP (ip p) (port p)])
          end
      end
  | RJoin g =>
      match user_at (aU a) (aS a) fd with
      | None => (a, [status_frame OP_JOIN_GROUP_REP ST_ERR_NOT_LOGGED_IN])
      | Some (k, i) =>
          match aG a !! g with
          | None => (a, [status_frame OP_JOIN_GROUP_REP ST_ERR_GROUP_NOT_FOUND])
          | Some grp =>
              if bool_decide (g ∈ u_groups i)
              then (a, [status_frame OP_JOIN_GROUP_REP ST_ERR_ALREADY_IN_GROUP])
              else (set_member a k i (u_groups i ++ [g]) (<[g := joined grp]> (aG a), aP a),
                    [group_ok_frame OP_JOIN_GROUP_REP (mcast_ip grp) (mcast_port grp)])
          end
      end
  | RLeave g =>
      match user_at (aU a) (aS a) fd with
      | None => (a, [status_frame OP_LEAVE_GROUP_REP ST_ERR_NOT_LOGGED_IN])
      | Some (k, i) =>
          if bool_decide (g ∈ u_groups i)
          then (set_member a k i (without g (u_groups i)) (drop_member (aG a, aP a) g),
                [status_frame OP_LEAVE_GROUP_REP ST_OK])
          else (a, [status_frame OP_LEAVE_GROUP_REP ST_ERR_NOT_IN_GROUP])
      end
  | RIgnored => (a, [])
  end.

(** A disconnect is a logout without a reply. *)
Definition spec_disconnect (a : astate) (fd : Z) : astate := (spec_request a fd RLogout).1.

(** ** Reading requests *)

Lemma c_str_stored_prefix s b : c_str (stored s b) = Some (c_prefix s) /\ strlen (c_prefix s) <= blen s.
Proof.
  unfold stored. generalize (drop (S (length s)) b). intros rest.
  induction s as [|c s [IH1 IH2]]; [done|]. cbn [app c_str c_prefix].
  destruct (c =? 0); [split; [done|unfold strlen, blen; cbn; lia]|].
  rewrite IH1. split; [done|]. unfold strlen, blen in *. cbn [length]. lia.
Qed.

Lemma decode_user_pass_any b n ou0 op0 : is_byte_list b -> 0 <= n <= blen b -> 33 <= blen ou0 -> 33 <= blen op0 ->
  match parse_user_pass (take (Z.to_nat n) b) with
  | None => exists ou op, chat_decode_user_pass (Some b) n (Some ou0)
      (Some op0) = Some (-1, ou, op)
  | Some (u, p) => exists ou op, chat_decode_user_pass (Some b) n (Some ou0)
      (Some op0) = Some (0, Some ou, Some op) /\
      c_str ou = Some u /\ c_str op = Some p /\
      strlen u <= CHAT_MAX_USERNAME_LEN /\ strlen p <= CHAT_MAX_PASSWORD_LEN
  end.
Proof.
  intros Hb Hn Hou Hop. rewrite decode_user_pass_spec by done.
  assert (is_byte_list (take (Z.to_nat n) b)) as Hfr by (by apply Forall_take).
  unfold user_pass_outcome, parse_user_pass, parse_frame.
  destruct (take (Z.to_nat n) b) as [|t [|l body]]; [by do 2 eexists..|].
  destruct (l <=? blen body); [|by do 2 eexists].
  unfold is_byte_list in Hfr. rewrite !Forall_cons_iff in Hfr. destruct Hfr as (_ & _ & Hbody).
  pose proof (parse_field_spec CHAT_MAX_USERNAME_LEN body Hbody) as Hu.
  destruct (parse_field CHAT_MAX_USERNAME_LEN body) as [[u r]|]; [|by do 2 eexists].
  destruct Hu as [-> Hu]. apply Forall_cons_1 in Hbody as [_ [_ Hr]%Forall_app].
  pose proof (parse_field_spec CHAT_MAX_PASSWORD_LEN r Hr) as Hp.
  destruct (parse_field CHAT_MAX_PASSWORD_LEN r) as [[p r']|]; do 2 eexists; [|done]. split; [done|].
  destruct (c_str_stored_prefix u ou0) as [-> ?].
  destruct (c_str_stored_prefix p op0) as [-> ?].
  split; [done|]. split; [done|]. lia.
Qed.

Lemma decode_user_pass_server b n : is_byte_list b -> 0 <= n <= blen b ->
  match parse_user_pass (take (Z.to_nat n) b) with
  | None => exists ou op, chat_decode_user_pass (Some b) n (zeros CHAT_MAX_USERNAME_LEN)
      (zeros CHAT_MAX_PASSWORD_LEN) = Some (-1, ou, op)
  | Some (u, p) => exists ou op, chat_decode_user_pass (Some b) n (zeros CHAT_MAX_USERNAME_LEN)
      (zeros CHAT_MAX_PASSWORD_LEN) = Some (0, Some ou, Some op) /\
      c_str ou = Some u /\ c_str op = Some p /\
      strlen u <= CHAT_MAX_USERNAME_LEN /\ strlen p <= CHAT_MAX_PASSWORD_LEN
  end.
Proof. intros Hb Hn. by apply decode_user_pass_any. Qed.

Lemma decode_groupname_server b n : is_byte_list b -> 0 <= n <= blen b ->
  match parse_group (take (Z.to_nat n) b) with
  | None => exists og, chat_decode_groupname (Some b) n (zeros CHAT_MAX_GROUPNAME_LEN) = Some (-1, og)
  | Some g => exists og, chat_decode_groupname (Some b) n (zeros CHAT_MAX_GROUPNAME_LEN) = Some (0, Some og) /\
      c_str og = Some g /\ strlen g <= CHAT_MAX_GROUPNAME_LEN
  end.
Proof.
  intros Hb Hn. unfold zeros. rewrite decode_groupname_spec by done.
  assert (is_byte_list (take (Z.to_nat n) b)) as Hfr by (by apply Forall_take).
  unfold groupname_outcome, parse_group, parse_groupname, parse_frame.
  destruct (take (Z.to_nat n) b) as [|t [|l body]]; [by eexists..|].
  destruct (l <=? blen body); cbn [mbind option_bind fmap option_fmap option_map]; [|by eexists].
  destruct (l <? 1); [by eexists|].
  unfold is_byte_list in Hfr. rewrite !Forall_cons_iff in Hfr. destruct Hfr as (_ & _ & Hbody).
  pose proof (parse_field_spec CHAT_MAX_GROUPNAME_LEN body Hbody) as Hu.
  destruct (parse_field CHAT_MAX_GROUPNAME_LEN body) as [[g r]|];
    cbn [mbind option_bind fmap option_fmap option_map]; [|by eexists].
  destruct Hu as [-> Hu]. eexists. split; [done|].
  destruct (c_str_stored_prefix g (replicate (Z.to_nat (CHAT_MAX_GROUPNAME_LEN + 1)) 0)) as [-> ?].
  split; [done|]. lia.
Qed.

(** ** Replying *)

Lemma sv_rep_out s a o : sv_rep s a -> sv_rep (set_out s o) a.
Proof. by intros []. Qed.

Lemma send_frame s fd msg rest : 0 <= fd -> 0 < blen msg ->
  send_reply s fd (blen msg, Some (msg ++ rest)) = Some (set_out s (out s ++ [Sent fd msg])).
Proof.
  intros Hfd Hm. unfold send_reply. cbn [fst snd]. rewrite Z.gtb_ltb, (proj2 (Z.ltb_lt _ _)) by done.
  unfold ServerNet_SendMessage. rewrite Z.gtb_ltb, (proj2 (Z.ltb_ge _ _)), (proj2 (Z.eqb_neq _ _)) by lia.
  cbn [orb]. change (msg ++ rest) with ([] ++ msg ++ rest). by rewrite buf_slice_mid.
Qed.

(** Encoding and sending a reply. *)
Lemma send_status s fd op st m : 0 <= fd ->
  (rep ← lift (chat_encode_status_rep repBuf op st); lift (send_reply s fd rep)) m
  = Some (set_out s (out s ++ [Sent fd (status_frame op st)]), m).
Proof.
  intros Hfd. unfold repBuf. rewrite encode_status_spec by done. mlift. by rewrite send_frame.
Qed.

Lemma send_group_ok s fd op grp m : 0 <= fd -> strlen (mcast_ip grp) < CHAT_MAX_IP_STR_LEN ->
  is_u16 (mcast_port grp) ->
  (rep ← lift (chat_encode_group_rep_ok repBuf op (Some (mcast_ip grp)) (mcast_port grp));
   lift (send_reply s fd rep)) m
  = Some (set_out s (out s ++ [Sent fd (group_ok_frame op (mcast_ip grp) (mcast_port grp))]), m).
Proof.
  intros Hfd Hip Hport. unfold repBuf. rewrite encode_group_ok_spec by done. mlift.
  rewrite send_frame; [done|done|]. unfold group_ok_frame. rewrite frame_len.
  pose proof (blen_nonneg (status_code ST_OK :: field (mcast_ip grp) ++
    field [mcast_port grp / 256; mcast_port grp mod 256])). lia.
Qed.

(** What may happen to a request when memory runs out: it takes its specified
    effect, except that addresses that should go back to the pool are lost, or
    it is refused, in a reply of its kind, and nothing has changed, except that
    an address was moved to the end of the pool or lost. *)
Definition served (spec : astate * list bytes) (a' : astate) (reps : list bytes) : Prop :=
  aU a' = aU spec.1 /\ aS a' = aS spec.1 /\ aG a' = aG spec.1 /\ aP a' ⊆+ aP spec.1 /\ reps = spec.2.

Definition refused (a : astate) (spec : astate * list bytes) (a' : astate) (reps : list bytes) : Prop :=
  aU a' = aU a /\ aS a' = aS a /\ aG a' = aG a /\ aP a' ⊆+ aP a /\
  exists op st, reps = [status_frame op st] /\ (st = ST_ERR_SERVER_FULL \/ st = ST_ERR_PROTOCOL) /\
    take 1 <$> spec.2 = [[opcode op]].

(** The effect of a request, [alloc] telling whether memory lasts. *)
Definition effect (alloc : Prop) (a : astate) (spec : astate * list bytes) (a' : astate) (reps : list bytes) : Prop :=
  served spec a' reps \/ (~ alloc /\ refused a spec a' reps).

Lemma effect_exact alloc a spec a' reps : spec = (a', reps) -> effect alloc a spec a' reps.
Proof. intros ->. by left. Qed.

(** What a handler does: the abstract step, if memory does not run out, and
    otherwise one of the two effects above; in any case a consistent state
    without a leak, and no other connection's session is touched. *)
Definition handled (s : server) (a : astate) (fd : Z) (spec : astate * list bytes) (m : mem)
    (o : option (server * mem)) : Prop :=
  exists s' m' a', o = Some (s', m') /\ sv_rep s' a' /\
    live m' - sv_blocks s' a' = live m - sv_blocks s a /\
    (forall x, x <> fd -> aS a' !! x = aS a !! x) /\
    (exists reps, out s' = out s ++ (Sent fd <$> reps) /\ effect (alloc_ok m) a spec a' reps) /\
    (alloc_ok m -> alloc_ok m' /\ a' = spec.1 /\ out s' = out s ++ (Sent fd <$> spec.2)).

(** A request that is ignored. *)
Lemma handled_nothing s a fd m : sv_rep s a -> handled s a fd (a, []) m (Some (s, m)).
Proof.
  intros R. exists s, m, a. split; [done|]. split; [done|]. split; [done|]. split; [done|].
  split; [exists []; split; [symmetry; apply app_nil_r|by apply effect_exact]|].
  intros Hm. split; [done|]. split; [done|]. symmetry. apply app_nil_r.
Qed.

Lemma handled_status s0 s a a' fd op st m m' :
  0 <= fd -> sv_rep s a' -> out s = out s0 ->
  live m' - sv_blocks s a' = live m - sv_blocks s0 a ->
  (forall x, x <> fd -> aS a' !! x = aS a !! x) ->
  forall spec, effect (alloc_ok m) a spec a' [status_frame op st] ->
  (alloc_ok m -> alloc_ok m' /\ spec = (a', [status_frame op st])) ->
  handled s0 a fd spec m
    ((rep ← lift (chat_encode_status_rep repBuf op st); lift (send_reply s fd rep)) m').
Proof.
  intros Hfd R Ho L HS spec He Hspec. rewrite send_status by done. eexists _, m', a'.
  split; [done|]. split; [by apply sv_rep_out|]. split; [done|]. split; [done|].
  split; [eexists [_]; cbn [set_out out]; by rewrite Ho|].
  intros Hm. destruct (Hspec Hm) as [Hm' ->]. cbn [set_out out]. by rewrite Ho.
Qed.

(** ** Counting members *)

Lemma members_update (U : gmap cstring UInfo) k i i' g : U !! k = Some i ->
  members (<[k := i']> U) g = members U g - is_member g i + is_member g i'.
Proof. intros Hk. unfold members. by rewrite (msum_update _ _ _ _ _ Hk). Qed.

Lemma members_new U k i g : U !! k = None -> u_groups i = [] -> members (<[k := i]> U) g = members U g.
Proof.
  intros Hk Hg. unfold members. rewrite msum_insert by done. unfold is_member at 1. rewrite Hg.
  by rewrite bool_decide_eq_false_2 by apply not_elem_of_nil.
Qed.

Lemma is_member_range g i : 0 <= is_member g i <= 1.
Proof. unfold is_member. case_bool_decide; lia. Qed.

Lemma members_pos U k i g : U !! k = Some i -> g ∈ u_groups i -> 0 < members U g.
Proof.
  intros Hk Hg. unfold members. rewrite (msum_delete _ _ _ _ Hk).
  assert (is_member g i = 1) as -> by (unfold is_member; by rewrite bool_decide_eq_true_2).
  assert (0 <= msum (fun _ i => is_member g i) (delete k U)); [|lia].
  apply msum_nonneg. intros ? x _. pose proof (is_member_range g x). lia.
Qed.

Lemma is_member_snoc g x i gs : is_member g (with_groups i (gs ++ [x]))
  = if decide (g = x) then 1 else is_member g (with_groups i gs).
Proof.
  unfold is_member. cbn [with_groups u_groups]. case_decide as D.
  - subst. rewrite bool_decide_eq_true_2; [done|]. apply elem_of_app. right. by apply list_elem_of_singleton.
  - erewrite bool_decide_ext; [done|]. rewrite elem_of_app, list_elem_of_singleton. tauto.
Qed.

Lemma is_member_without g x i gs : is_member g (with_groups i (without x gs))
  = if decide (g = x) then 0 else is_member g (with_groups i gs).
Proof.
  unfold is_member. cbn [with_groups u_groups]. unfold without. case_decide as D.
  - subst. rewrite bool_decide_eq_false_2; [done|]. by intros [? _]%list_elem_of_filter.
  - erewrite bool_decide_ext; [done|]. rewrite list_elem_of_filter. tauto.
Qed.

Lemma with_groups_eta i : with_groups i (u_groups i) = i.
Proof. by destruct i. Qed.

(** The sockets of the users who are logged in are distinct. *)
Lemma socket_list (um : UserMng) (st : gmap loc User) (U : gmap cstring UInfo) (sk : gmap Z cstring) : um_rep um st U sk ->
  forall l : list (cstring * UInfo), NoDup l.*1 -> (forall x, x ∈ l -> U !! x.1 = Some x.2) ->
  NoDup (omap (fun x => u_sock x.2) l) /\
  forall fd, fd ∈ omap (fun x => u_sock x.2) l -> exists x, x ∈ l /\ sk !! fd = Some x.1.
Proof.
  intros R l. induction l as [|[k i] l IH]; intros N Hin; [split; [constructor|by intros ? ?%elem_of_nil]|].
  rewrite fmap_cons in N. apply NoDup_cons in N as [Hni N].
  destruct IH as [IH1 IH2]; [done|intros x Hx; apply Hin; apply elem_of_cons; by right|].
  assert (U !! k = Some i) as Hk by (apply (Hin (k, i)); apply elem_of_cons; by left).
  cbn [omap list_omap snd]. destruct (u_sock i) as [fd|] eqn:Hs.
  - assert (sk !! fd = Some k) as Hfd by (apply (um_online _ _ _ _ R); by exists i).
    split.
    + apply NoDup_cons. split; [|done]. intros (x & Hx & E)%IH2. apply Hni.
      assert (k = x.1) as -> by congruence. cbn [fst]. by apply (list_elem_of_fmap_2 fst).
    + intros fd' [->|Hfd']%elem_of_cons; [exists (k, i); split; [apply elem_of_cons; by left|done]|].
      destruct (IH2 fd' Hfd') as (x & Hx & E). exists x. split; [apply elem_of_cons; by right|done].
  - split; [done|]. intros fd' Hfd'. destruct (IH2 fd' Hfd') as (x & Hx & E).
    exists x. split; [apply elem_of_cons; by right|done].
Qed.

Lemma members_le_sockets g (l : list (cstring * UInfo)) :
  (forall x, x ∈ l -> u_sock x.2 = None -> u_groups x.2 = []) ->
  zsum (fun x => is_member g x.2) l <= Z.of_nat (length (omap (fun x => u_sock x.2) l)).
Proof.
  induction l as [|[k i] l IH]; intros Hoff; [done|]. rewrite zsum_cons. cbn [omap list_omap snd].
  assert (zsum (fun x => is_member g x.2) l <= Z.of_nat (length (omap (fun x => u_sock x.2) l))) as L.
  { apply IH. intros x Hx. apply Hoff. apply elem_of_cons. by right. }
  pose proof (is_member_range g i). destruct (u_sock i) as [fd|] eqn:Hs; [cbn [length]; lia|].
  assert (is_member g i = 0); [|lia]. unfold is_member. rewrite bool_decide_eq_false_2; [done|].
  assert (u_groups i = []) as ->; [|apply not_elem_of_nil]. apply (Hoff (k, i)); [apply elem_of_cons; by left|done].
Qed.

(** Only users who are logged in are members, so no count can overflow. *)
Lemma members_bound (um : UserMng) (st : gmap loc User) (U : gmap cstring UInfo) (sk : gmap Z cstring) g : um_rep um st U sk -> members U g <= FD_SETSIZE.
Proof.
  intros R. unfold members, msum.
  etrans; [apply (members_le_sockets g (map_to_list U))|].
  - intros [k i] Hx%elem_of_map_to_list Hs. by apply (um_groups _ _ _ _ R k).
  - destruct (socket_list um st U sk R (map_to_list U)) as [N Hr].
    + apply NoDup_fst_map_to_list.
    + intros [k i] Hx. by apply elem_of_map_to_list.
    + assert (omap (fun x => u_sock x.2) (map_to_list U) ⊆+ seqZ 0 FD_SETSIZE) as Hsub.
      { apply NoDup_submseteq; [done|]. intros fd (x & _ & Hfd)%Hr.
        apply (um_range _ _ _ _ R) in Hfd. apply elem_of_seqZ. lia. }
      apply submseteq_length in Hsub. rewrite length_seqZ in Hsub. unfold FD_SETSIZE in *. lia.
Qed.

(** ** A member leaves *)

Lemma rep_drop_member mng hp G ps g grp m : gm_rep mng hp G ps -> G !! g = Some grp ->
  exists mng' hp' m' ps',
    GroupMng_LeaveGroup (Some mng) hp (Some g) m = Some ((ST_OK, Some mng', hp'), m') /\
    gm_rep mng' hp' (drop_member (G, ps) g).1 ps' /\
    live m' - gm_blocks mng' (drop_member (G, ps) g).1 ps' = live m - gm_blocks mng G ps /\
    ps' ⊆+ (drop_member (G, ps) g).2 /\
    (alloc_ok m -> alloc_ok m' /\ ps' = (drop_member (G, ps) g).2).
Proof.
  intros R Hg. unfold drop_member. cbn [fst snd]. rewrite Hg.
  destruct (member_count grp =? 1) eqn:E; bprop; cbn [fst snd].
  - destruct (rep_LeaveGroup_last mng hp G ps g grp m R Hg E) as (mng' & hp' & m' & ps' & E' & R' & Hps & L & O).
    exists mng', hp', m', ps'. do 3 (split; [done|]).
    split; [destruct Hps as [->|[-> _]]; [done|by apply submseteq_inserts_r]|].
    intros Hm. split; [by apply O|]. destruct Hps; tauto.
  - destruct (rep_LeaveGroup_more mng hp G ps g grp m R Hg E) as (hp' & E' & R').
    exists mng, hp', m, ps. split; [done|]. split; [done|]. split; [|by split].
    unfold gm_blocks. rewrite (size_update_old _ _ _ _ Hg). lia.
Qed.

(** The groups that are left do not depend on the pool, and it only grows. *)
Lemma drop_members_pool gs G ps : foldl drop_member (G, ps) gs
  = ((foldl drop_member (G, []) gs).1, ps ++ (foldl drop_member (G, []) gs).2).
Proof.
  revert G ps. induction gs as [|g gs IH]; intros G ps; cbn [foldl]; [by rewrite app_nil_r|].
  assert (drop_member (G, ps) g = ((drop_member (G, []) g).1, ps ++ (drop_member (G, []) g).2)) as ->.
  { unfold drop_member. cbn [fst snd]. destruct (G !! g) as [grp|]; [|by rewrite app_nil_r].
    destruct (member_count grp =? 1); cbn [fst snd]; [done|by rewrite app_nil_r]. }
  destruct (drop_member (G, []) g) as [G1 ps1]. cbn [fst snd]. rewrite IH, (IH G1 ps1). cbn [fst snd]. by rewrite app_assoc.
Qed.

Lemma drop_members_mono gs G ps ps' : ps ⊆+ ps' ->
  (foldl drop_member (G, ps) gs).1 = (foldl drop_member (G, ps') gs).1 /\
  (foldl drop_member (G, ps) gs).2 ⊆+ (foldl drop_member (G, ps') gs).2.
Proof.
  intros H. rewrite (drop_members_pool gs G ps), (drop_members_pool gs G ps'). cbn [fst snd]. split; [done|].
  by apply submseteq_skips_r.
Qed.

Lemma count_drop G ps g grp x : G !! g = Some grp ->
  count (drop_member (G, ps) g).1 x = count G x - (if decide (x = g) then 1 else 0).
Proof.
  intros Hg. unfold drop_member, count. cbn [fst snd]. rewrite Hg.
  destruct (member_count grp =? 1) eqn:E; bprop; cbn [fst]; case_decide as D.
  - subst. rewrite lookup_delete_eq, Hg. lia.
  - rewrite lookup_delete_ne by done. lia.
  - subst. rewrite lookup_insert_eq, Hg. cbn. lia.
  - rewrite lookup_insert_ne by done. lia.
Qed.

Lemma count_some mng hp G ps g : gm_rep mng hp G ps -> 0 < count G g -> exists grp, G !! g = Some grp.
Proof. intros R. unfold count. destruct (G !! g) as [grp|]; [by exists grp|lia]. Qed.

(** ** The handlers *)

Lemma sv_users_changed (s : server) (a : astate) (um : UserMng) (st : gmap loc User) (U : gmap cstring UInfo) (sk : gmap Z cstring) :
  sv_rep s a -> um_rep um st U sk -> (forall g, members U g = members (aU a) g) ->
  sv_rep (set_users s (Some um) st) (MkA U sk (aG a) (aP a)).
Proof.
  intros [_ Hg Hq Hm] R E. constructor; cbn; [by exists um|done|done|].
  intros g. by rewrite E, Hm.
Qed.

Lemma handle_register s a fd b n m : sv_rep s a -> is_byte_list b -> 0 <= n <= blen b -> 0 <= fd ->
  handled s a fd
    (match parse_user_pass (take (Z.to_nat n) b) with
     | Some (u, p) => spec_request a fd (RRegister u p) | None => (a, []) end) m
    (HandleRegisterReq fd b n s m).
Proof.
  intros R Hb Hn Hfd. pose proof (decode_user_pass_server b n Hb Hn) as D. unfold HandleRegisterReq.
  destruct (parse_user_pass (take (Z.to_nat n) b)) as [[u p]|].
  2:{ destruct D as (ou & op & ->). mlift. cbn [Z.eqb]. by apply handled_nothing. }
  destruct D as (ou & op & -> & Eu & Ep & Lu & Lp). mlift. cbn [Z.eqb read_str mbind option_bind].
  rewrite Eu, Ep. mlift. mlift. destruct (sv_um _ _ R) as (um & Hum & Rum). rewrite Hum.
  destruct (rep_Register um (users s) (aU a) (aS a) u p m Rum Lu Lp)
    as (r & um' & st' & m' & U' & E & R' & L & Hc & O). mrun E.
  apply (handled_status s _ a (MkA U' (aS a) (aG a) (aP a))); [done| |done| |done| |].
  - apply sv_users_changed; [done|done|]. intros g.
    destruct Hc as [Hc|(_ & -> & _)]; [|done]. unfold spec_register in Hc.
    destruct (aU a !! u) eqn:Hu; injection Hc as -> ->; [done|]. by apply members_new.
  - unfold sv_blocks. cbn. rewrite Hum. lia.
  - cbn [spec_request]. destruct Hc as [<-|(-> & -> & Hu & Hbad)]; [by apply effect_exact|right].
    split; [done|]. do 4 (split; [done|]). exists OP_REG_REP, ST_ERR_SERVER_FULL. split; [done|]. split; [by left|].
    unfold spec_register. by rewrite Hu.
  - intros Hm. split; [by apply O|]. cbn [spec_request].
    destruct Hc as [<-|(_ & _ & _ & Hbad)]; [done|]. done.
Qed.

Lemma handle_login s a fd b n m : sv_rep s a -> is_byte_list b -> 0 <= n <= blen b -> 0 <= fd < FD_SETSIZE ->
  handled s a fd
    (match parse_user_pass (take (Z.to_nat n) b) with
     | Some (u, p) => spec_request a fd (RLogin u p) | None => (a, []) end) m
    (HandleLoginReq fd b n s m).
Proof.
  intros R Hb Hn Hfd. pose proof (decode_user_pass_server b n Hb Hn) as D. unfold HandleLoginReq.
  destruct (parse_user_pass (take (Z.to_nat n) b)) as [[u p]|].
  2:{ destruct D as (ou & op & ->). mlift. cbn [Z.eqb]. by apply handled_nothing. }
  destruct D as (ou & op & -> & Eu & Ep & Lu & Lp). mlift. cbn [Z.eqb read_str mbind option_bind].
  rewrite Eu, Ep. mlift. mlift. destruct (sv_um _ _ R) as (um & Hum & Rum). rewrite Hum.
  destruct (rep_Login um (users s) (aU a) (aS a) u p fd Rum) as (um' & st' & E & R' & B);
    [by apply bad_socket_range|].
  rewrite E. mlift. cbn [spec_request].
  destruct (spec_login (aU a) (aS a) u p fd) as [[st U'] sk'] eqn:Es. cbn [fst snd] in *.
  unfold spec_login in Es.
  apply (handled_status s _ a (MkA U' sk' (aG a) (aP a))); [lia| |done| | |by apply effect_exact|done].
  - apply sv_users_changed; [done|done|]. intros g.
    destruct (aS a !! fd) as [?|]; [by injection Es as <- <- <-|].
    destruct (aU a !! u) as [i|] eqn:Hu; [|by injection Es as <- <- <-].
    destruct (negb _); [by injection Es as <- <- <-|].
    destruct (u_sock i); injection Es as <- <- <-; [done|].
    rewrite (members_update _ _ _ _ _ Hu). unfold is_member. cbn [with_sock u_groups]. lia.
  - unfold sv_blocks. cbn. rewrite Hum. lia.
  - intros x Hx. cbn [aS]. destruct (aS a !! fd) as [?|]; [by injection Es as <- <- <-|].
    destruct (aU a !! u) as [i|]; [|by injection Es as <- <- <-].
    destruct (negb _); [by injection Es as <- <- <-|].
    destruct (u_sock i); injection Es as <- <- <-; [done|]. by rewrite lookup_insert_ne.
Qed.

Lemma sv_make um st U sk gm hp G ps o :
  um_rep um st U sk -> gm_rep gm hp G ps -> (forall g, count G g = members U g) ->
  sv_rep (MkServer (Some um) (Some gm) (Some tt) st hp o) (MkA U sk G ps).
Proof. intros. constructor; cbn; [by exists um|by exists gm|done|done]. Qed.

Lemma members_nonneg U g : 0 <= members U g.
Proof. apply msum_nonneg. intros k i _. pose proof (is_member_range g i). lia. Qed.

(** While a user logs out, the groups still to leave are counted one more. *)
Definition leaving (U' : gmap cstring UInfo) (final : gmap cstring Group * list McastPair) (L0 : Z) (m0 : mem)
    (rest : list cstring) (c : ptr GroupMng * gheap) (m : mem) : Prop :=
  exists gm G ps, c.1 = Some gm /\ gm_rep gm c.2 G ps /\ NoDup rest /\
    (forall g, count G g = members U' g + (if bool_decide (g ∈ rest) then 1 else 0)) /\
    live m - gm_blocks gm G ps = L0 + 2 * Z.of_nat (length rest) /\
    (foldl drop_member (G, ps) rest).1 = final.1 /\ (foldl drop_member (G, ps) rest).2 ⊆+ final.2 /\
    (alloc_ok m0 -> alloc_ok m /\ foldl drop_member (G, ps) rest = final).

Lemma leaving_step U' final L0 m0 name rest c m :
  leaving U' final L0 m0 (name :: rest) c m ->
  exists c' m', OnUserImplicitLeave name c (Mem (plan m) (live m - 1)) = Some (c', m') /\
    leaving U' final L0 m0 rest c' (Mem (plan m') (live m' - 1)).
Proof.
  intros (gm & G & ps & Ec & R & N & Hcount & L & HG & HP & O). apply NoDup_cons in N as [Hni N].
  destruct (count_some gm c.2 G ps name R) as [grp Hg].
  { rewrite Hcount, bool_decide_eq_true_2 by (apply elem_of_cons; by left).
    pose proof (members_nonneg U' name). lia. }
  destruct (rep_drop_member gm c.2 G ps name grp (Mem (plan m) (live m - 1)) R Hg)
    as (gm' & hp' & m' & ps' & E & R' & L' & Hsub & O'). cbn [live] in L'.
  exists (Some gm', hp'), m'. unfold OnUserImplicitLeave. rewrite Ec. mrun E. split; [done|].
  exists gm', (drop_member (G, ps) name).1, ps'. split; [done|]. split; [done|]. split; [done|].
  destruct (drop_members_mono rest (drop_member (G, ps) name).1 _ _ Hsub) as [HG' HP'].
  rewrite <-surjective_pairing in HG', HP'. cbn [foldl] in HG, HP.
  split; [|split; [cbn [length live] in *; lia|split; [by rewrite HG'|split; [by etrans|]]]].
  - intros g. rewrite (count_drop G ps name grp g Hg), Hcount. case_decide as D.
    + subst. rewrite (bool_decide_eq_true_2 (name ∈ name :: rest)) by (apply elem_of_cons; by left).
      rewrite (bool_decide_eq_false_2 (name ∈ rest)) by done. lia.
    + rewrite (bool_decide_ext (g ∈ name :: rest) (g ∈ rest)); [lia|]. rewrite elem_of_cons. tauto.
  - intros Hm. destruct (O Hm) as [Hm1 Hf]. destruct (O' Hm1) as [Hm' ->]. split; [done|].
    rewrite <-surjective_pairing. exact Hf.
Qed.

Lemma rep_server_logout s a fd k i m : sv_rep s a -> 0 <= fd < FD_SETSIZE ->
  user_at (aU a) (aS a) fd = Some (k, i) ->
  exists um' st' gm' hp' m' G' ps',
    UserMng_Logout (g_userMng s) (users s) fd (Some OnUserImplicitLeave) (g_groupMng s, gh s) m
      = Some ((ST_OK, Some um', st', (Some gm', hp')), m') /\
    sv_rep (MkServer (Some um') (Some gm') (Some tt) st' hp' (out s))
      (MkA (<[k := logged_out i]> (aU a)) (delete fd (aS a)) G' ps') /\
    live m' - sv_blocks (MkServer (Some um') (Some gm') (Some tt) st' hp' (out s))
                (MkA (<[k := logged_out i]> (aU a)) (delete fd (aS a)) G' ps')
      = live m - sv_blocks s a /\
    G' = (foldl drop_member (aG a, aP a) (u_groups i)).1 /\ ps' ⊆+ (foldl drop_member (aG a, aP a) (u_groups i)).2 /\
    (alloc_ok m -> alloc_ok m' /\ (G', ps') = foldl drop_member (aG a, aP a) (u_groups i)).
Proof.
  intros [(um & Hum & Rum) (gm & Hgm & Rgm) Hq Hmem] Hfd Hat.
  assert (bad_socket fd = false) as Hbs by (by apply bad_socket_range).
  pose proof (user_at_rep um (users s) (aU a) (aS a) fd Rum Hbs) as K. rewrite Hat in K.
  destruct K as (_ & _ & _ & _ & _ & _ & Hi & _ & _).
  destruct (um_groups _ _ _ _ Rum k i Hi) as [Hnd _].
  set (U' := <[k := logged_out i]> (aU a)).
  set (L0 := live m - gm_blocks gm (aG a) (aP a) - 2 * Z.of_nat (length (u_groups i))).
  destruct (rep_Logout um (users s) (aU a) (aS a) fd k i OnUserImplicitLeave
    (leaving U' (foldl drop_member (aG a, aP a) (u_groups i)) L0 m) (Some gm, gh s) m)
    as (um' & st' & [gm1 hp'] & m' & E & R' & (gm' & G' & ps' & Ec & Rg & _ & Hc & L & HG & HP & O) & B); try done.
  - apply leaving_step.
  - exists gm, (aG a), (aP a). split; [done|]. split; [done|]. split; [done|].
    split; [|split; [unfold L0; lia|by split]].
    intros g. unfold U'. rewrite (members_update _ _ _ _ _ Hi), Hmem. unfold is_member at 2.
    cbn [logged_out u_groups]. rewrite (bool_decide_eq_false_2 (g ∈ [])) by apply not_elem_of_nil.
    unfold is_member. lia.
  - cbn [fst snd] in *. subst gm1. rewrite Hum, Hgm.
    exists um', st', gm', hp', m', G', ps'. split; [exact E|]. split; [|split].
    + apply sv_make; [done|done|]. intros g. rewrite Hc.
      rewrite bool_decide_eq_false_2 by apply not_elem_of_nil. lia.
    + unfold sv_blocks. cbn [g_userMng g_groupMng aU aG aP]. rewrite Hum, Hgm.
      cbn [length] in L. unfold L0, U' in *. lia.
    + exact (conj HG (conj HP O)).
Qed.

Lemma handle_logout s a fd m : sv_rep s a -> 0 <= fd < FD_SETSIZE ->
  handled s a fd (spec_request a fd RLogout) m (HandleLogoutReq fd s m).
Proof.
  intros R Hfd. unfold HandleLogoutReq. cbn [spec_request].
  destruct (user_at (aU a) (aS a) fd) as [[k i]|] eqn:Hat.
  - destruct (rep_server_logout s a fd k i m R Hfd Hat) as (um' & st' & gm' & hp' & m' & G' & ps' & E & R' & L & HG & HP & O).
    mrun E. unfold set_gm, set_users. cbn [g_userMng g_mcQueue users out fst snd]. rewrite (sv_mcq _ _ R).
    eapply handled_status; [lia|exact R'|done|exact L| |by left; subst G'|].
    + intros x Hx. cbn [aS]. by rewrite lookup_delete_ne.
    + intros Hm. destruct (O Hm) as [Hm' <-]. done.
  - destruct (sv_um _ _ R) as (um & Hum & Rum). rewrite Hum.
    rewrite (M_bind_Some _ _ _ _ _ (rep_Logout_none um (users s) (aU a) (aS a) fd _ _ m Rum
      (proj2 (bad_socket_range fd) Hfd) Hat)).
    replace (set_gm (set_users s (Some um) (users s)) _ _) with s
      by (destruct s; cbn in *; by subst).
    by apply (handled_status s s a a); [lia|try apply effect_exact..].
Qed.

Lemma handle_leave s a fd b n m : sv_rep s a -> is_byte_list b -> 0 <= n <= blen b -> 0 <= fd < FD_SETSIZE ->
  handled s a fd
    (match parse_group (take (Z.to_nat n) b) with Some g => spec_request a fd (RLeave g) | None => (a, []) end) m
    (HandleLeaveGroupReq fd b n s m).
Proof.
  intros R Hb Hn Hfd. pose proof (decode_groupname_server b n Hb Hn) as D. unfold HandleLeaveGroupReq.
  destruct (parse_group (take (Z.to_nat n) b)) as [g|].
  2:{ destruct D as (og & ->). mlift. by apply handled_nothing. }
  destruct D as (og & -> & Eg & Lg). mlift. cbn [Z.eqb read_str mbind option_bind]. rewrite Eg. mlift.
  destruct R as [(um & Hum & Rum) (gm & Hgm & Rgm) Hq Hmem]. rewrite Hum.
  assert (bad_socket fd = false) as Hbs by (by apply bad_socket_range).
  destruct (rep_UserLeave um (users s) (aU a) (aS a) fd g m Rum Hbs) as (st' & m' & E & R' & Pl & L). mrun E.
  assert (sv_rep s a) as R by (constructor; eauto).
  unfold spec_user_leave in *. cbn [spec_request].
  destruct (user_at (aU a) (aS a) fd) as [[k i]|] eqn:Hat; cycle 1.
  { cbn [fst snd] in *. rewrite decide_False by done. mstep_ret.
    apply (handled_status s _ a a); [lia| |done| |done|by apply effect_exact|].
    - pose proof (sv_users_changed s a um st' (aU a) (aS a) R R' (fun _ => eq_refl)) as R1. by destruct a.
    - unfold sv_blocks. cbn. rewrite Hum. lia.
    - intros Hm. split; [|done]. unfold alloc_ok in *. by rewrite Pl. }
  pose proof (user_at_rep um (users s) (aU a) (aS a) fd Rum Hbs) as K. rewrite Hat in K.
  destruct K as (_ & _ & _ & _ & _ & _ & Hi & _ & _).
  destruct (bool_decide (g ∈ u_groups i)) eqn:Dg; cbn [fst snd] in *; cycle 1.
  { rewrite decide_False by done. mstep_ret.
    apply (handled_status s _ a a); [lia| |done| |done|by apply effect_exact|].
    - pose proof (sv_users_changed s a um st' (aU a) (aS a) R R' (fun _ => eq_refl)) as R1. by destruct a.
    - unfold sv_blocks. cbn. rewrite Hum. lia.
    - intros Hm. split; [|done]. unfold alloc_ok in *. by rewrite Pl. }
  bprop. rewrite decide_True by done.
  destruct (count_some gm (gh s) (aG a) (aP a) g Rgm) as [grp Hg].
  { rewrite Hmem. by eapply members_pos. }
  destruct (rep_drop_member gm (gh s) (aG a) (aP a) g grp m' Rgm Hg) as (gm' & hp' & m2 & ps' & E2 & R2 & L2 & Hsub & O2).
  rewrite (M_bind_Some _ _ m' (ST_OK, set_gm (set_users s (Some um) st') (Some gm') hp') m2).
  2:{ cbn [set_users g_groupMng gh]. rewrite Hgm. mrun E2. done. }
  unfold set_gm, set_users. cbn [g_userMng g_mcQueue users out]. rewrite Hq.
  apply (handled_status s _ a (MkA (<[k := with_groups i (without g (u_groups i))]> (aU a)) (aS a)
    (drop_member (aG a, aP a) g).1 ps')); [lia| |done| |done|by left|].
  - apply sv_make; [done|done|]. intros x. rewrite (count_drop _ _ _ _ _ Hg), Hmem.
    rewrite (members_update _ _ _ _ _ Hi), is_member_without, with_groups_eta. case_decide as Dx; [|lia].
    subst. unfold is_member. rewrite bool_decide_eq_true_2 by done. lia.
  - unfold sv_blocks. cbn [g_userMng g_groupMng aU aG aP]. rewrite Hum, Hgm. lia.
  - intros Hm. destruct O2 as [Hm2 ->]; [unfold alloc_ok in *; by rewrite Pl|]. done.
Qed.

Lemma group_wire_ok gm hp G ps g grp : gm_rep gm hp G ps -> G !! g = Some grp ->
  strlen (mcast_ip grp) < CHAT_MAX_IP_STR_LEN /\ is_u16 (mcast_port grp).
Proof.
  intros R Hg. assert (pair_of grp ∈ initial_pairs) as Hin.
  { eapply elem_of_submseteq; [|apply (gm_addresses _ _ _ _ R)]. apply elem_of_app. right.
    apply list_elem_of_fmap. exists (g, grp). split; [done|]. by apply elem_of_map_to_list. }
  by destruct (initial_good _ Hin) as (? & _ & ?).
Qed.

Lemma handled_group s0 s a a' fd op grp m m' :
  0 <= fd -> sv_rep s a' -> out s = out s0 ->
  strlen (mcast_ip grp) < CHAT_MAX_IP_STR_LEN /\ is_u16 (mcast_port grp) ->
  live m' - sv_blocks s a' = live m - sv_blocks s0 a ->
  (forall x, x <> fd -> aS a' !! x = aS a !! x) ->
  forall spec, spec = (a', [group_ok_frame op (mcast_ip grp) (mcast_port grp)]) -> (alloc_ok m -> alloc_ok m') ->
  handled s0 a fd spec m
    ((rep ← lift (chat_encode_group_rep_ok repBuf op (Some (mcast_ip grp)) (mcast_port grp));
      lift (send_reply s fd rep)) m').
Proof.
  intros Hfd R Ho [Hip Hport] L HS spec -> Hm'. rewrite send_group_ok by done. eexists _, m', a'.
  split; [done|]. split; [by apply sv_rep_out|]. split; [done|]. split; [done|]. cbn [set_out out]. rewrite Ho.
  split; [eexists [_]; split; [done|by apply effect_exact]|]. intros Hm. split; [by apply Hm'|done].
Qed.

(** A user on this socket, with what the invariants say about a group. *)
Lemma session_facts s a um fd k i g : sv_rep s a -> g_userMng s = Some um -> um_rep um (users s) (aU a) (aS a) ->
  0 <= fd < FD_SETSIZE -> user_at (aU a) (aS a) fd = Some (k, i) ->
  aU a !! k = Some i /\ count (aG a) g <= FD_SETSIZE /\ (aG a !! g = None -> g ∉ u_groups i).
Proof.
  intros R Hum Rum Hfd Hat. pose proof (user_at_rep um (users s) (aU a) (aS a) fd Rum
    (proj2 (bad_socket_range fd) Hfd)) as K. rewrite Hat in K.
  destruct K as (_ & _ & _ & _ & _ & _ & Hi & _ & _). split; [done|]. split.
  - rewrite (sv_members _ _ R). by eapply members_bound.
  - intros Hg Hin. pose proof (members_pos (aU a) k i g Hi Hin) as Hp.
    rewrite <-(sv_members _ _ R) in Hp. unfold count in Hp. rewrite Hg in Hp. lia.
Qed.

Lemma count_insert G g grp x : count (<[g := grp]> G) x = if decide (x = g) then member_count grp else count G x.
Proof.
  unfold count. case_decide as D; [subst; by rewrite lookup_insert_eq|by rewrite lookup_insert_ne].
Qed.

(** The membership invariant when a user joins. *)
Lemma members_join a k i g grp' : (forall x, count (aG a) x = members (aU a) x) ->
  aU a !! k = Some i -> g ∉ u_groups i -> member_count grp' = count (aG a) g + 1 ->
  forall x, count (<[g := grp']> (aG a)) x = members (<[k := with_groups i (u_groups i ++ [g])]> (aU a)) x.
Proof.
  intros Hmem Hi Hni Hc x. rewrite count_insert, (members_update _ _ _ _ _ Hi), is_member_snoc, with_groups_eta.
  rewrite <-Hmem. case_decide as D; [|lia]. subst x. rewrite Hc. unfold is_member.
  rewrite bool_decide_eq_false_2 by done. lia.
Qed.

(** The user joined a group that exists. *)
Lemma join_member s a fd k i g grp m (R : sv_rep s a) (Hfd : 0 <= fd < FD_SETSIZE)
    (Hat : user_at (aU a) (aS a) fd = Some (k, i)) (Hg : aG a !! g = Some grp) :
  forall um gm hp1 l, g_userMng s = Some um -> g_groupMng s = Some gm ->
  groups hp1 !! l = Some (joined grp) -> gm_rep gm hp1 (<[g := joined grp]> (aG a)) (aP a) ->
  handled s a fd (spec_request a fd (RJoin g)) m
    (('(userStatus, st) ← UserMng_JoinGroup (Some um) (users s) fd (Some g);
      let s := set_users (set_gm s (Some gm) hp1) (Some um) st in
      if decide (ST_OK = userStatus) then
        grp ← lift (groups (gh s) !! l);
        rep ← lift (chat_encode_group_rep_ok repBuf OP_JOIN_GROUP_REP (Some (mcast_ip grp)) (mcast_port grp));
        lift (send_reply s fd rep)
      else
        '(_, gm, hp) ← GroupMng_LeaveGroup (g_groupMng s) (gh s) (Some g);
        let s := set_gm s gm hp in
        rep ← lift (chat_encode_status_rep repBuf OP_JOIN_GROUP_REP userStatus);
        lift (send_reply s fd rep)) m).
Proof.
  intros um gm hp1 l Hum Hgm Hl Rg1. destruct (sv_um _ _ R) as (um0 & Hum0 & Rum).
  assert (um0 = um) as -> by congruence.
  destruct (session_facts s a um fd k i g R Hum Rum Hfd Hat) as (Hi & Hbound & _).
  destruct (rep_UserJoin um (users s) (aU a) (aS a) fd g m Rum (proj2 (bad_socket_range fd) Hfd))
    as (r & st' & m' & U' & E & R' & L & Hc & O). mrun E. cbv zeta.
  unfold spec_user_join in Hc. rewrite Hat in Hc. cbn [spec_request]. rewrite Hat, Hg.
  unfold set_users, set_gm. cbn [g_userMng g_groupMng g_mcQueue users gh out].
  rewrite (sv_mcq _ _ R). destruct (decide (ST_OK = r)) as [Dr|Dr]; cycle 1.
  - (* the join is undone *)
    assert (U' = aU a) as ->.
    { destruct Hc as [Hc|(_ & -> & _)]; [|done]. destruct (bool_decide (g ∈ u_groups i)); injection Hc as -> ->; [done|by destruct Dr]. }
    pose proof (gm_members _ _ _ _ Rg1 g (joined grp) (lookup_insert_eq _ _ _)) as Hm1.
    destruct (sv_gm _ _ R) as (gm0 & Hgm0 & Rgm).
    pose proof (gm_members _ _ _ _ Rgm g grp Hg) as Hm0.
    destruct (rep_LeaveGroup_more gm hp1 _ (aP a) g (joined grp) m' Rg1 (lookup_insert_eq _ _ _))
      as (hp2 & E2 & R2); [cbn; lia|].
    mrun E2. cbn [g_userMng g_mcQueue users out].
    assert (<[g := left_by_one (joined grp)]> (<[g := joined grp]> (aG a)) = aG a) as EG.
    { rewrite insert_insert_eq. apply insert_id. rewrite Hg. unfold left_by_one. cbn.
      replace (member_count grp + 1 - 1) with (member_count grp) by lia. by destruct grp. }
    rewrite EG in R2. apply (handled_status s _ a a); [lia| |done| |done| |].
    + destruct a as [U sk G ps]. apply sv_make; [done|done|]. apply (sv_members _ _ R).
    + unfold sv_blocks. cbn [g_userMng g_groupMng]. rewrite Hum, Hgm. lia.
    + destruct Hc as [Hc|(-> & _ & Hfst & Hbad)].
      * apply effect_exact. destruct (bool_decide _); injection Hc as ->; done.
      * right. split; [done|]. do 4 (split; [done|]). exists OP_JOIN_GROUP_REP, ST_ERR_SERVER_FULL.
        split; [done|]. split; [by left|]. by destruct (bool_decide _).
    + intros Hm. split; [by apply O|]. destruct Hc as [Hc|(_ & _ & _ & Hbad)]; [|done].
      destruct (bool_decide _); injection Hc as ->; done.
  - (* the user is in *)
    destruct Hc as [Hc|(-> & _)]; [|done].
    destruct (bool_decide (g ∈ u_groups i)) eqn:Dg; injection Hc as -> ->; [done|]. bprop.
    rewrite Hl. mlift.
    apply (handled_group s _ a (set_member a k i (u_groups i ++ [g]) (<[g := joined grp]> (aG a), aP a)));
      [lia| |done| | |done|done|exact O].
    + apply sv_make; [done|done|]. apply members_join; [apply (sv_members _ _ R)|done|done|].
      unfold count. by rewrite Hg.
    + apply (group_wire_ok gm hp1 _ (aP a) g (joined grp) Rg1), lookup_insert_eq.
    + unfold sv_blocks, set_member. cbn [g_userMng g_groupMng aU aG aP fst snd]. rewrite Hum, Hgm.
      unfold gm_blocks. rewrite (size_update_old _ _ _ _ Hg). lia.
Qed.

Lemma handle_join s a fd b n m : sv_rep s a -> is_byte_list b -> 0 <= n <= blen b -> 0 <= fd < FD_SETSIZE ->
  handled s a fd
    (match parse_group (take (Z.to_nat n) b) with Some g => spec_request a fd (RJoin g) | None => (a, []) end) m
    (HandleJoinGroupReq fd b n s m).
Proof.
  intros R Hb Hn Hfd. pose proof (decode_groupname_server b n Hb Hn) as D. unfold HandleJoinGroupReq.
  destruct (parse_group (take (Z.to_nat n) b)) as [g|].
  2:{ destruct D as (og & ->). mlift. by apply handled_nothing. }
  destruct D as (og & -> & Eg & Lg). mlift. cbn [Z.eqb read_str mbind option_bind]. rewrite Eg. mlift.
  destruct (sv_um _ _ R) as (um & Hum & Rum), (sv_gm _ _ R) as (gm & Hgm & Rgm).
  rewrite Hum, (rep_IsLoggedIn um _ _ _ fd Rum). mlift.
  destruct (user_at (aU a) (aS a) fd) as [[k i]|] eqn:Hat; cbn [Z.eqb].
  2:{ cbn [spec_request]. rewrite Hat. by apply (handled_status s s a a); [lia|try apply effect_exact..]. }
  destruct (session_facts s a um fd k i g R Hum Rum Hfd Hat) as (Hi & Hbound & _).
  pose proof (rep_JoinGroup gm (gh s) (aG a) (aP a) g NULL Rgm) as J. rewrite Hgm.
  destruct (aG a !! g) as [grp|] eqn:Hg.
  - destruct J as (l & E & Hl & R1).
    { unfold count in Hbound. rewrite Hg in Hbound. unfold FD_SETSIZE in Hbound. lia. }
    rewrite E. mlift. mlift. rewrite decide_True by done.
    cbn [set_gm g_userMng users]. rewrite Hum. by eapply join_member.
  - rewrite J. mlift. mlift. rewrite decide_False by done. cbn [spec_request]. rewrite Hat, Hg.
    replace (set_gm s (Some gm) (gh s)) with s by (destruct s; cbn in *; by subst).
    by apply (handled_status s s a a); [lia|try apply effect_exact..].
Qed.

(** An address that was taken goes to the back of the pool, or is lost. *)
Lemma moved_or_lost (p : McastPair) ps ps' : ps' = ps ++ [p] \/ ps' = ps -> ps' ⊆+ p :: ps.
Proof. intros [->| ->]; [by rewrite (Permutation_app_comm ps)|by apply submseteq_cons]. Qed.

(** The group was created; its creator joins it. *)
Lemma create_member s a fd k i g p ps m (R : sv_rep s a) (Hfd : 0 <= fd < FD_SETSIZE)
    (Hat : user_at (aU a) (aS a) fd = Some (k, i)) (Hg : aG a !! g = None) (HP : aP a = p :: ps) :
  forall um gm0 gm hp1 l m1, g_userMng s = Some um -> g_groupMng s = Some gm0 ->
  groups hp1 !! l = Some (new_group g p) -> gm_rep gm hp1 (<[g := new_group g p]> (aG a)) ps ->
  live m1 - gm_blocks gm (<[g := new_group g p]> (aG a)) ps = live m - gm_blocks gm0 (aG a) (aP a) ->
  (alloc_ok m -> alloc_ok m1) ->
  handled s a fd (spec_request a fd (RCreate g)) m
    (('(status, st) ← UserMng_JoinGroup (Some um) (users s) fd (Some g);
      let s := set_users (set_gm s (Some gm) hp1) (Some um) st in
      if decide (ST_OK <> status) then
        '(_, gm, hp) ← GroupMng_LeaveGroup (g_groupMng s) (gh s) (Some g);
        let s := set_gm s gm hp in
        rep ← lift (chat_encode_status_rep repBuf OP_CREATE_GROUP_REP ST_ERR_SERVER_FULL);
        lift (send_reply s fd rep)
      else
        grp ← lift (groups (gh s) !! l);
        rep ← lift (chat_encode_group_rep_ok repBuf OP_CREATE_GROUP_REP (Some (mcast_ip grp)) (mcast_port grp));
        lift (send_reply s fd rep)) m1).
Proof.
  intros um gm0 gm hp1 l m1 Hum Hgm0 Hl Rg1 L1 O1. destruct (sv_um _ _ R) as (um0 & Hum0 & Rum).
  assert (um0 = um) as -> by congruence.
  destruct (session_facts s a um fd k i g R Hum Rum Hfd Hat) as (Hi & _ & Hni). specialize (Hni Hg).
  destruct (rep_UserJoin um (users s) (aU a) (aS a) fd g m1 Rum (proj2 (bad_socket_range fd) Hfd))
    as (r & st' & m' & U' & E & R' & L & Hc & O). mrun E. cbv zeta.
  unfold spec_user_join in Hc. rewrite Hat, (bool_decide_eq_false_2 _ Hni) in Hc.
  cbn [spec_request]. rewrite Hat, Hg, HP.
  unfold set_users, set_gm. cbn [g_userMng g_groupMng g_mcQueue users gh out].
  rewrite (sv_mcq _ _ R). destruct (decide (ST_OK <> r)) as [Dr|Dr].
  - (* the group is taken away again *)
    destruct Hc as [Hc|(_ & -> & _ & Hbad)]; [injection Hc as -> ->; by destruct Dr|].
    destruct (rep_LeaveGroup_last gm hp1 _ ps g (new_group g p) m' Rg1 (lookup_insert_eq _ _ _) eq_refl)
      as (gm2 & hp2 & m2 & ps2 & E2 & R2 & Hps2 & L2 & O2).
    mrun E2. cbn [g_userMng g_mcQueue users out]. rewrite delete_insert_id in R2, L2 by done.
    apply (handled_status s _ a (MkA (aU a) (aS a) (aG a) ps2)); [lia| |done| |done| |].
    + apply sv_make; [done|done|]. apply (sv_members _ _ R).
    + unfold sv_blocks. cbn [g_userMng g_groupMng aU aG aP]. rewrite Hum, Hgm0. lia.
    + right. split; [by intros Hm; apply Hbad, O1|]. do 3 (split; [done|]). rewrite HP. cbn [aP].
      split; [by apply (moved_or_lost p); rewrite pair_of_new in Hps2; destruct Hps2 as [->|[-> _]]; [left|right]|].
      exists OP_CREATE_GROUP_REP, ST_ERR_SERVER_FULL. split; [done|]. by split; [left|].
    + intros Hm. by destruct Hbad; apply O1.
  - destruct Hc as [Hc|(-> & _)]; [|by destruct Dr]. injection Hc as -> ->. rewrite Hl. mlift.
    apply (handled_group s _ a (set_member a k i (u_groups i ++ [g]) (<[g := new_group g p]> (aG a), ps)));
      [lia| |done| | |done|done|by intros Hm; apply O, O1].
    + apply sv_make; [done|done|]. apply members_join; [apply (sv_members _ _ R)|done|done|].
      unfold count. by rewrite Hg.
    + apply (group_wire_ok gm hp1 _ ps g (new_group g p) Rg1), lookup_insert_eq.
    + unfold sv_blocks, set_member. cbn [g_userMng g_groupMng aU aG aP fst snd]. rewrite Hum, Hgm0. lia.
Qed.

Lemma handle_create s a fd b n m : sv_rep s a -> is_byte_list b -> 0 <= n <= blen b -> 0 <= fd < FD_SETSIZE ->
  handled s a fd
    (match parse_group (take (Z.to_nat n) b) with Some g => spec_request a fd (RCreate g) | None => (a, []) end) m
    (HandleCreateGroupReq fd b n s m).
Proof.
  intros R Hb Hn Hfd. pose proof (decode_groupname_server b n Hb Hn) as D. unfold HandleCreateGroupReq.
  destruct (parse_group (take (Z.to_nat n) b)) as [g|].
  2:{ destruct D as (og & ->). mlift. by apply handled_nothing. }
  destruct D as (og & -> & Eg & Lg). mlift. cbn [Z.eqb read_str mbind option_bind]. rewrite Eg. mlift.
  destruct (sv_um _ _ R) as (um & Hum & Rum), (sv_gm _ _ R) as (gm & Hgm & Rgm).
  rewrite Hum, (rep_IsLoggedIn um _ _ _ fd Rum). mlift.
  destruct (user_at (aU a) (aS a) fd) as [[k i]|] eqn:Hat; cbn [Z.eqb].
  2:{ cbn [spec_request]. rewrite Hat. by apply (handled_status s s a a); [lia|try apply effect_exact..]. }
  rewrite Hgm. destruct (rep_CreateGroup gm (gh s) (aG a) (aP a) g NULL m Rgm Lg)
    as (st & o & gm' & hp' & m' & G' & ps' & E & R' & Hres & Hout & L & O).
  mrun E. cbv zeta. mlift. unfold create_result in Hres.
  destruct (decide (st = ST_OK)) as [->|Hst].
  - destruct Hout as (l & grp & -> & HG' & Hl).
    destruct (aG a !! g) as [?|] eqn:Hg; [by destruct Hres as [? _]|].
    destruct (aP a) as [|p ps] eqn:HP; [by destruct Hres as [? _]|].
    destruct Hres as [(_ & -> & ->)|(? & _)]; [|done].
    rewrite lookup_insert_eq in HG'. injection HG' as <-.
    cbn [set_gm g_userMng users]. rewrite Hum. eapply create_member; try done.
    by rewrite HP.
  - subst o. unfold set_gm. rewrite (sv_mcq _ _ R).
    apply (handled_status s _ a (MkA (aU a) (aS a) G' ps')); [lia| |done| |done| |].
    + rewrite Hum. apply sv_make; [done|done|]. intros x. rewrite <-(sv_members _ _ R).
      destruct (aG a !! g) as [?|]; [by destruct Hres as (_ & -> & _)|].
      destruct (aP a) as [|p ps]; [by destruct Hres as (_ & -> & _)|].
      by destruct Hres as [(? & _)|(_ & -> & _)].
    + unfold sv_blocks. cbn [g_userMng g_groupMng aU aG aP]. rewrite Hgm. lia.
    + cbn [spec_request]. rewrite Hat. destruct a as [U sk G P]. cbn [aU aS aG aP] in *.
      destruct (G !! g) as [?|]; [destruct Hres as (-> & -> & ->); by apply effect_exact|].
      destruct P as [|p ps]; [destruct Hres as (-> & -> & ->); by apply effect_exact|].
      destruct Hres as [(? & _)|(-> & -> & Hps & Hbad)]; [done|right]. split; [done|]. do 3 (split; [done|]).
      split; [by apply moved_or_lost|]. exists OP_CREATE_GROUP_REP, ST_ERR_PROTOCOL. split; [done|]. by split; [right|].
    + intros Hm. split; [by apply O|]. cbn [spec_request]. rewrite Hat.
      destruct (aG a !! g) as [?|]; [destruct Hres as (-> & -> & ->); by destruct a|].
      destruct a as [U sk G [|p ps]]; cbn in *; [by destruct Hres as (-> & -> & ->)|].
      destruct Hres as [(? & _)|(_ & _ & _ & Hbad)]; [done|]. by destruct Hbad.
Qed.

(** ** Every message *)

Lemma parse_request_cons t l body :
  parse_request (t :: l :: body)
  = if t =? opcode OP_REG_REQ
    then match parse_user_pass (t :: l :: body) with Some (u, p) => RRegister u p | None => RIgnored end
    else if t =? opcode OP_LOGIN_REQ
    then match parse_user_pass (t :: l :: body) with Some (u, p) => RLogin u p | None => RIgnored end
    else if t =? opcode OP_LOGOUT_REQ then RLogout
    else if t =? opcode OP_CREATE_GROUP_REQ
    then match parse_group (t :: l :: body) with Some g => RCreate g | None => RIgnored end
    else if t =? opcode OP_JOIN_GROUP_REQ
    then match parse_group (t :: l :: body) with Some g => RJoin g | None => RIgnored end
    else if t =? opcode OP_LEAVE_GROUP_REQ
    then match parse_group (t :: l :: body) with Some g => RLeave g | None => RIgnored end
    else RIgnored.
Proof. done. Qed.

Lemma handled_return s a fd spec m (c : M server) : handled s a fd spec m (c m) ->
  exists s' m' a', (s' ← c; mret (0, s')) m = Some ((0, s'), m') /\ sv_rep s' a' /\
    live m' - sv_blocks s' a' = live m - sv_blocks s a /\
    (forall x, x <> fd -> aS a' !! x = aS a !! x) /\
    (exists reps, out s' = out s ++ (Sent fd <$> reps) /\ effect (alloc_ok m) a spec a' reps) /\
    (alloc_ok m -> alloc_ok m' /\ a' = spec.1 /\ out s' = out s ++ (Sent fd <$> spec.2)).
Proof.
  intros (s' & m' & a' & E & H). exists s', m', a'. split; [by mrun E|done].
Qed.

Lemma take_two b n : is_byte_list b -> 2 <= n <= blen b ->
  exists t l body, take (Z.to_nat n) b = t :: l :: body /\
    chat_peek_header (Some b) n (Some 0) (Some 0) = Some (0, Some t, Some l).
Proof.
  intros Hb Hn. destruct (take (Z.to_nat n) b) as [|t [|l body]] eqn:E;
    [apply (f_equal length) in E; rewrite length_take in E; unfold blen in *; cbn in E; lia..|].
  exists t, l, body. split; [done|]. by destruct (front_frame t l body b n Hb ltac:(lia) E) as (_ & _ & -> & _).
Qed.

Lemma rep_HandleMessage s a fd b n m : sv_rep s a -> is_byte_list b -> 2 <= n <= blen b -> 0 <= fd < FD_SETSIZE ->
  exists s' m' a', ServerMng_HandleMessage fd b n s m = Some ((0, s'), m') /\ sv_rep s' a' /\
    live m' - sv_blocks s' a' = live m - sv_blocks s a /\
    (forall x, x <> fd -> aS a' !! x = aS a !! x) /\
    (exists reps, out s' = out s ++ (Sent fd <$> reps) /\
       effect (alloc_ok m) a (spec_request a fd (parse_request (take (Z.to_nat n) b))) a' reps) /\
    (alloc_ok m -> alloc_ok m' /\ a' = (spec_request a fd (parse_request (take (Z.to_nat n) b))).1 /\
       out s' = out s ++ (Sent fd <$> (spec_request a fd (parse_request (take (Z.to_nat n) b))).2)).
Proof.
  intros R Hb Hn Hfd. destruct (take_two b n Hb Hn) as (t & l & body & E & Hpeek).
  unfold ServerMng_HandleMessage. rewrite Hpeek. mlift. cbn [Z.eqb]. mlift.
  assert (0 <= n <= blen b) as Hn0 by lia.
  apply handled_return. rewrite E, parse_request_cons, <-E.
  destruct (t =? opcode OP_REG_REQ).
  { pose proof (handle_register s a fd b n m R Hb Hn0 ltac:(lia)) as H.
    by destruct (parse_user_pass _) as [[u p]|]. }
  destruct (t =? opcode OP_LOGIN_REQ).
  { pose proof (handle_login s a fd b n m R Hb Hn0 Hfd) as H.
    by destruct (parse_user_pass _) as [[u p]|]. }
  destruct (t =? opcode OP_LOGOUT_REQ); [by apply handle_logout|].
  destruct (t =? opcode OP_CREATE_GROUP_REQ).
  { pose proof (handle_create s a fd b n m R Hb Hn0 Hfd) as H. by destruct (parse_group _). }
  destruct (t =? opcode OP_JOIN_GROUP_REQ).
  { pose proof (handle_join s a fd b n m R Hb Hn0 Hfd) as H. by destruct (parse_group _). }
  destruct (t =? opcode OP_LEAVE_GROUP_REQ).
  { pose proof (handle_leave s a fd b n m R Hb Hn0 Hfd) as H. by destruct (parse_group _). }
  by apply handled_nothing.
Qed.

Lemma rep_OnDisconnect s a fd m : sv_rep s a -> 0 <= fd < FD_SETSIZE ->
  exists s' m' a', ServerMng_OnDisconnect fd s m = Some (s', m') /\ sv_rep s' a' /\
    live m' - sv_blocks s' a' = live m - sv_blocks s a /\ out s' = out s /\
    aS a' = delete fd (aS a) /\
    served (spec_disconnect a fd, []) a' [] /\
    (alloc_ok m -> alloc_ok m' /\ a' = spec_disconnect a fd).
Proof.
  intros R Hfd. destruct (sv_um _ _ R) as (um & Hum & Rum).
  unfold ServerMng_OnDisconnect, spec_disconnect, UserMng_Disconnect. cbn [spec_request].
  destruct (user_at (aU a) (aS a) fd) as [[k i]|] eqn:Hat.
  - destruct (rep_server_logout s a fd k i m R Hfd Hat) as (um' & st' & gm' & hp' & m' & G' & ps' & E & R' & L & HG & HP & O).
    rewrite Hum in *. rewrite M_bind_assoc. mrun E. mstep_ret. unfold set_gm, set_users.
    cbn [g_userMng g_mcQueue users out fst snd]. rewrite (sv_mcq _ _ R).
    eexists _, m', _. split; [done|]. split; [exact R'|]. split; [exact L|]. split; [done|].
    split; [done|]. split; [by subst G'|]. intros Hm. destruct (O Hm) as [Hm' <-]. done.
  - rewrite Hum, M_bind_assoc.
    rewrite (M_bind_Some _ _ _ _ _ (rep_Logout_none um (users s) (aU a) (aS a) fd _ _ m Rum
      (proj2 (bad_socket_range fd) Hfd) Hat)).
    mstep_ret. cbn [fst snd].
    replace (set_gm (set_users s (Some um) (users s)) (g_groupMng s) (gh s)) with s
      by (destruct s; cbn in *; by subst).
    exists s, m, a. split; [done|]. split; [done|]. split; [done|]. split; [done|]. split; [|by split].
    symmetry. apply delete_id.
    pose proof (user_at_rep um (users s) (aU a) (aS a) fd Rum (proj2 (bad_socket_range fd) Hfd)) as K.
    rewrite Hat in K. by destruct K.
Qed.

(** ** The managers implement the interface of the network layer *)

(** The invariant the network layer carries around: a consistent state whose
    blocks are all accounted for, [base] being what the rest of the program
    has allocated; the connections with a session are [A]. *)
Definition server_inv (base : Z) (s : server) (m : mem) (A : gset Z) : Prop :=
  exists a, sv_rep s a /\ live m = base + sv_blocks s a /\ A = dom (aS a).

Lemma HandleMessage_local fd b n s m : is_byte_list b -> 0 <= n <= blen b ->
  ServerMng_HandleMessage fd b n s m = ServerMng_HandleMessage fd (take (Z.to_nat n) b) n s m.
Proof.
  intros Hb Hn. assert (is_byte_list (take (Z.to_nat n) b)) as Hb' by (by apply Forall_take).
  assert (blen (take (Z.to_nat n) b) = n) as Ln by (unfold blen in *; rewrite length_take; lia).
  unfold ServerMng_HandleMessage. destruct (decide (n < 2)) as [Hs|Hs].
  { unfold chat_peek_header. by rewrite (proj2 (Z.ltb_lt n 2)). }
  destruct (take_two b n Hb) as (t & l & body & E & ->); [lia|].
  destruct (take_two (take (Z.to_nat n) b) n Hb') as (t' & l' & body' & E' & ->); [lia|].
  rewrite take_take, Nat.min_id in E'. rewrite E in E'. injection E' as <- <- <-.
  unfold HandleRegisterReq, HandleLoginReq, HandleCreateGroupReq, HandleJoinGroupReq, HandleLeaveGroupReq, zeros.
  rewrite !(decode_user_pass_spec b n), !(decode_groupname_spec b n) by done.
  rewrite !(decode_user_pass_spec (take (Z.to_nat n) b) n), !(decode_groupname_spec (take (Z.to_nat n) b) n)
    by (done || lia).
  by rewrite !take_take, !Nat.min_id.
Qed.

#[export] Instance server_Handlers base :
  Handlers ServerMng_HandleMessage ServerMng_OnDisconnect server_close (server_inv base).
Proof.
  constructor.
  - intros fd b n s m Hb Hn. by apply HandleMessage_local.
  - intros fd f s m A Hfd Hf Hl (a & R & L & ->).
    destruct (rep_HandleMessage s a fd f (blen f) m R Hf) as (s' & m' & a' & E & R' & L' & HS & _);
      [lia|done|].
    exists 0, s', m', (dom (aS a')). split; [done|]. split.
    + exists a'. split; [done|]. split; [lia|done].
    + intros x Hx. by rewrite !elem_of_dom, HS.
  - intros fd s m A Hfd (a & R & L & ->).
    destruct (rep_OnDisconnect s a fd m R Hfd) as (s' & m' & a' & E & R' & L' & _ & HS & _).
    exists s', m'. split; [done|]. exists a'. split; [done|]. split; [lia|].
    by rewrite HS, dom_delete_L.
  - intros fd s m A (a & R & L & ->). exists a. split; [by apply sv_rep_out|]. done.
Qed.

(** ** Lifecycle *)

(** The globals before [ServerMng_Init] and after [ServerMng_Destroy]. *)
Definition stopped (o : list output) : server := MkServer NULL NULL NULL ∅ (MkGheap ∅ None) o.

(** The state [ServerMng_Init] sets up, with the addresses it could allocate. *)
Definition fresh (ps : list McastPair) : astate := MkA ∅ ∅ ∅ ps.

Lemma rep_Init o m : exists r s' m', ServerMng_Init (stopped o) m = Some ((r, s'), m') /\
  ((r = 0 /\ out s' = o /\ exists ps, sublist ps initial_pairs /\ sv_rep s' (fresh ps) /\
      live m' = live m + sv_blocks s' (fresh ps) /\ (alloc_ok m -> ps = initial_pairs)) \/
   (r = -1 /\ s' = stopped o /\ live m' = live m /\ ~ alloc_ok m)) /\
  (alloc_ok m -> alloc_ok m').
Proof.
  unfold ServerMng_Init, stopped.
  destruct (rep_pool_create m) as (q & m1 & E1 & C1 & O1). mrun E1. destruct q as [q|]; cycle 1.
  { eexists _, _, m1. split; [done|]. split; [|tauto].
    right. split; [done|]. split; [done|]. split; [done|]. intros Hm. by destruct (O1 Hm). }
  destruct C1 as (ps & Rq & Hps & L1 & Ops). cbn [groups gh].
  destruct (rep_GroupMng_Create q ps m1 Rq) as (gm & m2 & E2 & C2 & O2);
    [by apply sublist_submseteq|]. mrun E2.
  destruct gm as [gm|]; cycle 1.
  { unfold destroy_pool. rewrite M_bind_assoc. cbn [mcq]. mrun (rep_pool_destroy q ps m2 Rq).
    mstep_ret. eexists _, _, _. split; [done|]. split; cbn [plan live].
    - right. split; [done|]. split; [done|]. split; [lia|]. intros Hm.
      destruct (O1 Hm) as [_ Hm1]. by destruct (O2 Hm1).
    - intros Hm. destruct (O1 Hm) as [_ Hm1]. by destruct (O2 Hm1). }
  destruct C2 as [Rg L2]. destruct (rep_UserMng_Create m2) as (um & m3 & E3 & C3 & O3). mrun E3.
  destruct um as [um|]; cycle 1.
  { mrun (rep_GroupMng_Destroy gm _ ∅ ps m3 Rg). unfold destroy_pool. rewrite M_bind_assoc. cbn [mcq].
    mrun (rep_pool_destroy q ps (Mem (plan m3) (live m3 - gm_blocks gm ∅ ps + pool_blocks ps)) Rq).
    mstep_ret. eexists _, _, _. split; [done|]. split; cbn [plan live].
    - right. split; [done|]. split; [done|]. split; [lia|]. intros Hm.
      destruct (O1 Hm) as [_ Hm1]. destruct (O2 Hm1) as [_ Hm2]. by destruct (O3 Hm2).
    - intros Hm. destruct (O1 Hm) as [_ Hm1]. destruct (O2 Hm1) as [_ Hm2]. by destruct (O3 Hm2). }
  destruct C3 as [Ru L3]. eexists _, _, m3. split; [done|]. split.
  - left. split; [done|]. split; [done|]. exists ps. split; [done|]. split; [|split; [|done]].
    + apply sv_make; [done|done|]. done.
    + unfold sv_blocks. cbn [g_userMng g_groupMng fresh aU aG aP]. lia.
  - intros Hm. destruct (O1 Hm) as [_ Hm1]. destruct (O2 Hm1) as [_ Hm2]. by destruct (O3 Hm2).
Qed.

Lemma rep_Destroy_stopped o m : ServerMng_Destroy (stopped o) m = Some (stopped o, m).
Proof. done. Qed.

Lemma rep_ServerDestroy s a m : sv_rep s a ->
  ServerMng_Destroy s m = Some (stopped (out s), Mem (plan m) (live m - sv_blocks s a)).
Proof.
  intros [(um & Hum & Ru) (gm & Hgm & Rg) Hq _]. unfold ServerMng_Destroy. rewrite Hum.
  rewrite M_bind_assoc. mrun (rep_UserMng_Destroy um (users s) (aU a) (aS a) m Ru). mstep_ret.
  unfold set_users. cbn [g_groupMng gh default]. rewrite Hgm, M_bind_assoc.
  mrun (rep_GroupMng_Destroy gm (gh s) (aG a) (aP a) (Mem (plan m) (live m - um_blocks um (aU a))) Rg).
  mstep_ret. unfold set_gm. cbn [g_mcQueue default]. rewrite Hq. unfold destroy_pool.
  destruct (gm_pool _ _ _ _ Rg) as (_ & q & Hmq & Rq). cbn [gh mcq]. rewrite Hmq, M_bind_assoc.
  erewrite M_bind_Some by apply (rep_pool_destroy q (aP a) _ Rq). mstep_ret.
  cbn [plan live groups out]. unfold sv_blocks, stopped. rewrite Hum, Hgm. unfold mret, M_ret.
  cbn. do 3 f_equal. lia.
Qed.

Lemma take_all_bytes (b : bytes) : take (Z.to_nat (blen b)) b = b.
Proof. unfold blen. rewrite Nat2Z.id. by apply take_ge. Qed.

(** ** Runs *)

(** What the network layer reports to the managers, and its handling. *)
Inductive event := EMessage (fd : Z) (msg : bytes) | EDisconnect (fd : Z).

Definition event_ok (e : event) : Prop :=
  match e with
  | EMessage fd msg => 0 <= fd < FD_SETSIZE /\ is_byte_list msg /\ 2 <= blen msg
  | EDisconnect fd => 0 <= fd < FD_SETSIZE
  end.

Definition handle_event (e : event) (s : server) : M server :=
  match e with
  | EMessage fd msg => '(_, s) ← ServerMng_HandleMessage fd msg (blen msg) s; mret s
  | EDisconnect fd => ServerMng_OnDisconnect fd s
  end.

Fixpoint run_events (es : list event) (s : server) : M server :=
  match es with
  | [] => mret s
  | e :: es => s ← handle_event e s; run_events es s
  end.

(** The specification of a run: the final state and everything sent. *)
Definition spec_event (a : astate) (e : event) : astate * list output :=
  match e with
  | EMessage fd msg =>
      let '(a, reps) := spec_request a fd (parse_request msg) in (a, Sent fd <$> reps)
  | EDisconnect fd => (spec_disconnect a fd, [])
  end.

Fixpoint spec_run (es : list event) (a : astate) : astate * list output :=
  match es with
  | [] => (a, [])
  | e :: es =>
      let '(a, o1) := spec_event a e in
      let '(a, o2) := spec_run es a in (a, o1 ++ o2)
  end.

(** The effect of an event when memory may run out; a disconnect has its
    specified effect, but addresses may be lost. *)
Definition event_effect (alloc : Prop) (a : astate) (e : event) (a' : astate) (o : list output) : Prop :=
  match e with
  | EMessage fd msg => exists reps, o = (Sent fd <$> reps) /\
      effect alloc a (spec_request a fd (parse_request msg)) a' reps
  | EDisconnect fd => o = [] /\ served (spec_disconnect a fd, []) a' []
  end.

(** A run in which memory may run out: every event has its specified effect, or
    is a request that is refused. *)
Inductive run_effect (alloc : Prop) : list event -> astate -> astate -> list output -> Prop :=
| run_effect_nil a : run_effect alloc [] a a []
| run_effect_cons e es a a1 a2 o1 o2 : event_effect alloc a e a1 o1 -> run_effect alloc es a1 a2 o2 ->
    run_effect alloc (e :: es) a a2 (o1 ++ o2).

Lemma event_effect_weaken (P Q : Prop) a e a' o : (Q -> P) -> event_effect P a e a' o -> event_effect Q a e a' o.
Proof.
  intros H. destruct e as [fd msg|fd]; cbn [event_effect]; [|done].
  intros (reps & Ho & [He|[Hp He]]); exists reps; (split; [done|]); [by left|right]. split; [by intros Hq; apply Hp, H|done].
Qed.

Lemma run_effect_weaken (P Q : Prop) es a a' o : (Q -> P) -> run_effect P es a a' o -> run_effect Q es a a' o.
Proof. intros H. induction 1; econstructor; [|done]. by eapply event_effect_weaken. Qed.

Lemma rep_event e s a m : sv_rep s a -> event_ok e ->
  exists s' m' a', handle_event e s m = Some (s', m') /\ sv_rep s' a' /\
    live m' - sv_blocks s' a' = live m - sv_blocks s a /\
    (exists o, out s' = out s ++ o /\ event_effect (alloc_ok m) a e a' o) /\
    (alloc_ok m -> alloc_ok m' /\ a' = (spec_event a e).1 /\ out s' = out s ++ (spec_event a e).2).
Proof.
  intros R He. destruct e as [fd msg|fd]; cbn [event_ok handle_event spec_event event_effect] in *.
  - destruct He as (Hfd & Hb & Hl).
    destruct (rep_HandleMessage s a fd msg (blen msg) m R Hb) as (s' & m' & a' & E & R' & L & _ & (reps & Ho & He) & O);
      [lia|done|].
    exists s', m', a'. mrun E. split; [done|]. split; [done|]. split; [done|].
    rewrite take_all_bytes in O, He. split; [by exists (Sent fd <$> reps); split; [|exists reps]|].
    by destruct (spec_request a fd (parse_request msg)).
  - destruct (rep_OnDisconnect s a fd m R He) as (s' & m' & a' & E & R' & L & Ho & _ & Hs & O).
    exists s', m', a'. split; [done|]. split; [done|]. split; [done|]. split.
    + exists []. rewrite app_nil_r. by do 2 (split; [done|]).
    + intros Hm. cbn [fst snd]. rewrite app_nil_r. by destruct (O Hm).
Qed.

Lemma rep_events es s a m : sv_rep s a -> Forall event_ok es ->
  exists s' m' a', run_events es s m = Some (s', m') /\ sv_rep s' a' /\
    live m' - sv_blocks s' a' = live m - sv_blocks s a /\
    (exists o, out s' = out s ++ o /\ run_effect (alloc_ok m) es a a' o) /\
    (alloc_ok m -> alloc_ok m' /\ a' = (spec_run es a).1 /\ out s' = out s ++ (spec_run es a).2).
Proof.
  intros R Hes. revert s a m R. induction Hes as [|e es He Hes IH]; intros s a m R.
  - exists s, m, a. split; [done|]. split; [done|]. split; [done|].
    split; [exists []; split; [by rewrite app_nil_r|constructor]|]. intros Hm.
    split; [done|]. split; [done|]. symmetry. apply app_nil_r.
  - destruct (rep_event e s a m R He) as (s1 & m1 & a1 & E1 & R1 & L1 & (o1 & Eo1 & F1) & O1).
    destruct (IH s1 a1 m1 R1) as (s2 & m2 & a2 & E2 & R2 & L2 & (o2 & Eo2 & F2) & O2).
    exists s2, m2, a2. cbn [run_events spec_run]. mrun E1. split; [done|]. split; [done|].
    split; [lia|]. split.
    { exists (o1 ++ o2). split; [by rewrite Eo2, Eo1, app_assoc|]. econstructor; [exact F1|].
      by eapply run_effect_weaken; [|exact F2]; intros Hm; apply O1. }
    intros Hm. destruct (O1 Hm) as (Hm1 & -> & Ho1). destruct (O2 Hm1) as (Hm2 & -> & Ho2).
    destruct (spec_event a e) as [a1 o1']. cbn [fst snd] in *.
    destruct (spec_run es a1) as [a2 o2']. cbn [fst snd] in *. split; [done|]. split; [done|].
    by rewrite Ho2, Ho1, app_assoc.
Qed.

(** ** The addresses *)

(** Every address is free or held by one group. *)
Definition conserved (a : astate) : Prop := aP a ++ pairs_of (aG a) ≡ₚ initial_pairs.

Lemma conserved_drop gp g : (drop_member gp g).2 ++ pairs_of (drop_member gp g).1 ≡ₚ gp.2 ++ pairs_of gp.1.
Proof.
  unfold drop_member. destruct gp as [G ps]. cbn [fst snd]. destruct (G !! g) as [grp|] eqn:Hg; [|done].
  destruct (member_count grp =? 1); cbn [fst snd].
  - rewrite (pairs_of_delete G g grp Hg), <-app_assoc. done.
  - by rewrite (pairs_of_update G g grp) by done.
Qed.

Lemma conserved_foldl gs gp : let gp' := foldl drop_member gp gs in
  gp'.2 ++ pairs_of gp'.1 ≡ₚ gp.2 ++ pairs_of gp.1.
Proof.
  revert gp. induction gs as [|g gs IH]; intros gp; cbn [foldl]; [done|].
  cbn zeta in *. by rewrite IH, conserved_drop.
Qed.

Lemma conserved_request a fd r : conserved a -> conserved (spec_request a fd r).1.
Proof.
  unfold conserved. intros H. destruct r as [u p|u p| |g|g|g|]; cbn [spec_request].
  - by destruct (spec_register (aU a) u p).
  - by destruct (spec_login (aU a) (aS a) u p fd) as [[??]?].
  - destruct (user_at (aU a) (aS a) fd) as [[k i]|]; [|done]. cbn [fst aP aG].
    by rewrite conserved_foldl.
  - destruct (user_at (aU a) (aS a) fd) as [[k i]|]; [|done].
    destruct (aG a !! g) as [grp|] eqn:Hg; [done|]. destruct (aP a) as [|p ps] eqn:HP; [by cbn; rewrite HP|].
    cbn [fst snd set_member aP aG]. rewrite pairs_of_insert by done. rewrite <-Permutation_middle.
    by destruct p.
  - destruct (user_at (aU a) (aS a) fd) as [[k i]|]; [|done].
    destruct (aG a !! g) as [grp|] eqn:Hg; [|done]. destruct (bool_decide _); [done|].
    cbn [fst snd set_member aP aG]. by rewrite (pairs_of_update _ g grp).
  - destruct (user_at (aU a) (aS a) fd) as [[k i]|]; [|done]. destruct (bool_decide _); [|done].
    cbn [fst snd set_member aP aG]. by rewrite conserved_drop.
  - done.
Qed.

Lemma conserved_run es a : conserved a -> conserved (spec_run es a).1.
Proof.
  revert a. induction es as [|e es IH]; intros a Ha; [done|]. cbn [spec_run].
  assert (conserved (spec_event a e).1) as H1.
  { destruct e as [fd msg|fd]; cbn [spec_event].
    - pose proof (conserved_request a fd (parse_request msg) Ha). by destruct (spec_request a fd _).
    - by apply conserved_request. }
  destruct (spec_event a e) as [a1 o1]. specialize (IH a1 H1). by destruct (spec_run es a1).
Qed.

Lemma group_address_own s a g grp : sv_rep s a -> aG a !! g = Some grp ->
  pair_of grp ∈ initial_pairs /\ (pair_of grp ∉ aP a) /\
  (forall g' grp', aG a !! g' = Some grp' -> pair_of grp = pair_of grp' -> g = g').
Proof.
  intros R Hg. destruct (sv_gm _ _ R) as (gm & _ & Rg). pose proof (gm_addresses _ _ _ _ Rg) as S.
  assert (pair_of grp ∈ pairs_of (aG a)) as Hin.
  { unfold pairs_of. apply list_elem_of_fmap. exists (g, grp). split; [done|]. by apply elem_of_map_to_list. }
  pose proof (submseteq_NoDup _ _ S initial_pairs_NoDup) as N.
  apply NoDup_app in N as (_ & N1 & N2). split; [|split].
  - eapply elem_of_submseteq; [|exact S]. apply elem_of_app. by right.
  - intros Hp. by apply (N1 _ Hp).
  - intros g' grp' Hg' E. destruct (decide (g = g')) as [|Hne]; [done|]. exfalso.
    rewrite (pairs_of_delete (aG a) g grp Hg) in N2. apply NoDup_cons in N2 as [N2 _]. apply N2. rewrite E.
    rewrite (pairs_of_delete (delete g (aG a)) g' grp') by (by rewrite lookup_delete_ne).
    apply elem_of_cons. by left.
Qed.

(** ** Properties *)

(** C1: Handling a message refines the specification.  In every consistent
    state of the server and for every message of at least two bytes on every
    possible connection, [ServerMng_HandleMessage] returns 0 without undefined
    behaviour, in a consistent state, with every allocated block accounted for
    (also on the error paths, where a half-done create or join is undone), and
    with the sessions of all other connections as they were.  If memory does
    not run out, the new state and the reply (one to a message that can be
    decoded, none to one that cannot) are exactly those of the specified step.
    If it does, the request still has its specified effect and reply, except
    that addresses may not find their way back to the pool ([served]), or it is
    refused with an error of its kind and nothing has changed, except that an
    address may have moved to the back of the pool or be lost ([refused]).  A
    message shorter than a header is refused and changes nothing. *)
Theorem handle_message_refines s a fd b n m : sv_rep s a -> is_byte_list b -> 0 <= n <= blen b ->
  0 <= fd < FD_SETSIZE ->
  let spec := spec_request a fd (parse_request (take (Z.to_nat n) b)) in
  if n <? 2 then ServerMng_HandleMessage fd b n s m = Some ((-1, s), m) else
  exists s' m' a' reps, ServerMng_HandleMessage fd b n s m = Some ((0, s'), m') /\ sv_rep s' a' /\
    live m' - sv_blocks s' a' = live m - sv_blocks s a /\
    (forall x, x <> fd -> aS a' !! x = aS a !! x) /\
    out s' = out s ++ (Sent fd <$> reps) /\
    (served spec a' reps \/ (~ alloc_ok m /\ refused a spec a' reps)) /\
    (alloc_ok m -> (a', reps) = spec).
Proof.
  intros R Hb Hn Hfd spec. destruct (n <? 2) eqn:E2; bprop.
  { unfold ServerMng_HandleMessage, chat_peek_header. by rewrite (proj2 (Z.ltb_lt n 2)). }
  destruct (rep_HandleMessage s a fd b n m R Hb) as (s' & m' & a' & E & R' & L & HS & (reps & Ho & He) & O);
    [lia|done|].
  exists s', m', a', reps. do 6 (split; [done|]). fold spec in He, O. intros Hm. destruct (O Hm) as (_ & -> & _).
  destruct He as [(_ & _ & _ & _ & ->)|[? _]]; [by destruct spec|done].
Qed.

(** A server with one session: [a] with password [p] on descriptor 4. *)
Definition demo_events : list event :=
  [EMessage 4 [1; 4; 1; 97; 1; 112]; EMessage 4 [3; 4; 1; 97; 1; 112]].

Lemma demo_events_ok : Forall event_ok demo_events.
Proof.
  apply Forall_cons_2; [|apply Forall_cons_2; [|by apply Forall_nil_2]];
    (split; [by vm_compute|]; split; [unfold is_byte_list, is_u8; by repeat constructor|by vm_compute]).
Qed.

(** A run of a new server while memory lasts. *)
Lemma demo_run es : Forall event_ok es ->
  exists s0 m0 s m, ServerMng_Init (stopped []) (Mem [] 0) = Some ((0, s0), m0) /\
  run_events es s0 m0 = Some (s, m) /\ sv_rep s (spec_run es (fresh initial_pairs)).1 /\ alloc_ok m.
Proof.
  intros Hes. destruct (rep_Init [] (Mem [] 0)) as (r & s0 & m0 & E0 & C0 & O0).
  assert (alloc_ok (Mem [] 0)) as Hm by constructor.
  destruct C0 as [(-> & _ & ps & _ & R0 & _ & Hps)|(_ & _ & _ & Hbad)]; [|by destruct Hbad].
  rewrite (Hps Hm) in R0.
  destruct (rep_events es s0 _ m0 R0 Hes) as (s & m & a & E & R & _ & _ & O).
  destruct (O (O0 Hm)) as (Hm1 & Ha & _). rewrite Ha in R.
  exists s0, m0, s, m. exact (conj E0 (conj E (conj R Hm1))).
Qed.

Lemma demo_server : exists s0 m0 s m, ServerMng_Init (stopped []) (Mem [] 0) = Some ((0, s0), m0) /\
  run_events demo_events s0 m0 = Some (s, m) /\
  sv_rep s (MkA demo_users demo_socks ∅ initial_pairs) /\ alloc_ok m.
Proof. exact (demo_run demo_events demo_events_ok). Qed.

(** With a second session, [b] on descriptor 5, and a group [g] that [a] has
    created, that [b] has joined and a second one, [h], of [b]. *)
Definition demo_group_events : list event :=
  demo_events ++
  [EMessage 5 [1; 4; 1; 98; 1; 112]; EMessage 5 [3; 4; 1; 98; 1; 112];
   EMessage 4 [7; 2; 1; 103]; EMessage 5 [9; 2; 1; 103]; EMessage 5 [7; 2; 1; 104]].

Lemma demo_group_events_ok : Forall event_ok demo_group_events.
Proof.
  repeat (apply Forall_cons_2; [split; [by vm_compute|];
    split; [unfold is_byte_list, is_u8; by repeat constructor|by vm_compute]|]).
  by apply Forall_nil_2.
Qed.

(** How many members each group has. *)
Definition group_sizes (a : astate) : list (cstring * Z) :=
  (fun p => (p.1, member_count p.2)) <$> map_to_list (aG a).

Lemma handle_message_refines_witness : exists s, sv_rep s (MkA demo_users demo_socks ∅ initial_pairs) /\
  let a := MkA demo_users demo_socks ∅ initial_pairs in
  let spec := spec_request a 4 (RCreate [103]) in
  exists s' m' a' reps, ServerMng_HandleMessage 4 [7; 2; 1; 103; 99] 4 s (Mem [true; false] 5) = Some ((0, s'), m') /\
    sv_rep s' a' /\ live m' - sv_blocks s' a' = 5 - sv_blocks s a /\
    (forall x, x <> 4 -> aS a' !! x = demo_socks !! x) /\
    out s' = out s ++ (Sent 4 <$> reps) /\
    (served spec a' reps \/ (~ alloc_ok (Mem [true; false] 5) /\ refused a spec a' reps)) /\
    (alloc_ok (Mem [true; false] 5) -> (a', reps) = spec).
Proof.
  destruct demo_server as (s0 & m0 & s & m & _ & _ & R & _). exists s. split; [exact R|].
  apply (handle_message_refines s _ 4 [7; 2; 1; 103; 99] 4 (Mem [true; false] 5) R);
    [by unfold is_byte_list, is_u8; repeat constructor|by vm_compute|by vm_compute].
Defined.

(** C2: The server, from start to stop, refines the specification of a run and
    leaks nothing.  Whatever allocations fail, [ServerMng_Init] either fails
    cleanly, with nothing allocated, or sets up a consistent state; from there
    every sequence of messages and disconnects runs without undefined behaviour
    and keeps the state consistent, and [ServerMng_Destroy] then frees exactly
    what was allocated (a second call does nothing).  If memory does not run out
    [ServerMng_Init] succeeds, and the final state and everything that was sent
    are those of the specified run on a server with all 255 addresses.  If it
    does, the server starts with some of the addresses, and the state and all
    replies are those of a run in which every request has its specified effect
    or is refused and changes nothing, but for addresses that are lost
    ([run_effect]). *)
Theorem server_run_refines es m : Forall event_ok es ->
  exists r s m1, ServerMng_Init (stopped []) m = Some ((r, s), m1) /\
  ((r = -1 /\ s = stopped [] /\ live m1 = live m /\ ~ alloc_ok m) \/
   (r = 0 /\ exists ps s' m2 a', sublist ps initial_pairs /\
      run_events es s m1 = Some (s', m2) /\ sv_rep s' a' /\
      run_effect (alloc_ok m) es (fresh ps) a' (out s') /\
      (alloc_ok m -> (a', out s') = spec_run es (fresh initial_pairs)) /\
      ServerMng_Destroy s' m2 = Some (stopped (out s'), Mem (plan m2) (live m)) /\
      forall m3, ServerMng_Destroy (stopped (out s')) m3 = Some (stopped (out s'), m3))).
Proof.
  intros Hes. destruct (rep_Init [] m) as (r & s & m1 & E & C & O1). exists r, s, m1. split; [done|].
  destruct C as [(-> & Ho & ps & Hsub & R & L & Hps)|?]; [right|by left]. split; [done|].
  destruct (rep_events es s _ m1 R Hes) as (s' & m2 & a' & E2 & R2 & L2 & (o & Eo & F) & O2). rewrite Ho in *. cbn [app] in *.
  exists ps, s', m2, a'. do 3 (split; [done|]). split; [|split; [|split; [|done]]].
  - rewrite Eo. by eapply run_effect_weaken; [exact O1|].
  - intros Hm. destruct (O2 (O1 Hm)) as (_ & -> & Ho2). rewrite Ho2, (Hps Hm). symmetry. apply surjective_pairing.
  - rewrite (rep_ServerDestroy s' a' m2 R2). by replace (live m2 - sv_blocks s' a') with (live m) by lia.
Qed.

Lemma server_run_refines_witness :
  exists r s m1, ServerMng_Init (stopped []) (Mem [] 5) = Some ((r, s), m1) /\
  ((r = -1 /\ s = stopped [] /\ live m1 = 5 /\ ~ alloc_ok (Mem [] 5)) \/
   (r = 0 /\ exists ps s' m2 a', sublist ps initial_pairs /\
      run_events demo_events s m1 = Some (s', m2) /\ sv_rep s' a' /\
      run_effect (alloc_ok (Mem [] 5)) demo_events (fresh ps) a' (out s') /\
      (alloc_ok (Mem [] 5) -> (a', out s') = spec_run demo_events (fresh initial_pairs)) /\
      ServerMng_Destroy s' m2 = Some (stopped (out s'), Mem (plan m2) 5) /\
      forall m3, ServerMng_Destroy (stopped (out s')) m3 = Some (stopped (out s'), m3))).
Proof.
  exact (server_run_refines demo_events (Mem [] 5) demo_events_ok).
Defined.

Lemma reply_return s fd op st m (c : M server) :
  c m = Some (set_out s (out s ++ [Sent fd (status_frame op st)]), m) ->
  (s' ← c; mret (0, s')) m = Some ((0, set_out s (out s ++ [Sent fd (status_frame op st)])), m).
Proof. intros E. by mrun E. Qed.

Lemma leave_group_none (um : UserMng) (st : gmap loc User) (U : gmap cstring UInfo) (sk : gmap Z cstring) fd g m :
  um_rep um st U sk -> bad_socket fd = false -> user_at U sk fd = None ->
  UserMng_LeaveGroup (Some um) st fd (Some g) m = Some ((ST_ERR_NOT_LOGGED_IN, st), m).
Proof.
  intros R Hbs Hat. pose proof (user_at_rep um st U sk fd R Hbs) as K. rewrite Hat in K.
  destruct K as [K _]. unfold UserMng_LeaveGroup. rewrite Hbs, K. by mlift.
Qed.

(** The opcode of the reply to a request that needs a session. *)
Definition needs_session (r : request) : option ChatOpcode :=
  match r with
  | RLogout => Some OP_LOGOUT_REP
  | RCreate _ => Some OP_CREATE_GROUP_REP
  | RJoin _ => Some OP_JOIN_GROUP_REP
  | RLeave _ => Some OP_LEAVE_GROUP_REP
  | _ => None
  end.

(** C14: Groups are only for users who are logged in.  On a connection without
    a session, a request to create, join or leave a group or to log out is
    answered with [ST_ERR_NOT_LOGGED_IN] and has no other effect at all: no
    user, group, address or byte of memory changes. *)
Theorem unauthenticated_rejected s a fd b op m : sv_rep s a -> is_byte_list b -> 2 <= blen b ->
  0 <= fd < FD_SETSIZE -> aS a !! fd = None -> needs_session (parse_request b) = Some op ->
  ServerMng_HandleMessage fd b (blen b) s m
  = Some ((0, set_out s (out s ++ [Sent fd (status_frame op ST_ERR_NOT_LOGGED_IN)])), m).
Proof.
  intros R Hb Hn Hfd HS Hop. assert (user_at (aU a) (aS a) fd = None) as Hat by (unfold user_at; by rewrite HS).
  destruct (take_two b (blen b) Hb) as (t & l & body & E & Hpeek); [lia|].
  rewrite take_all_bytes in E.
  destruct (sv_um _ _ R) as (um & Hum & Rum). pose proof (proj2 (bad_socket_range fd) Hfd) as Hbs.
  pose proof (decode_groupname_server b (blen b) Hb) as D.
  rewrite take_all_bytes in D. specialize (D ltac:(lia)).
  unfold ServerMng_HandleMessage. rewrite Hpeek. mlift. cbn [Z.eqb]. mlift.
  rewrite E, parse_request_cons, <-E in Hop.
  destruct (t =? opcode OP_REG_REQ); [by destruct (parse_user_pass b) as [[??]|]|].
  destruct (t =? opcode OP_LOGIN_REQ); [by destruct (parse_user_pass b) as [[??]|]|].
  destruct (t =? opcode OP_LOGOUT_REQ).
  { injection Hop as <-. apply reply_return. unfold HandleLogoutReq. rewrite Hum.
    mrun (rep_Logout_none um (users s) (aU a) (aS a) fd (Some OnUserImplicitLeave) (g_groupMng s, gh s) m Rum Hbs Hat).
    replace (set_gm (set_users s (Some um) (users s)) _ _) with s by (destruct s; cbn in *; by subst).
    apply send_status. lia. }
  destruct (parse_group b) as [g|]; [|by repeat case_match].
  destruct D as (og & D & Eg & _). pose proof (rep_IsLoggedIn um (users s) (aU a) (aS a) fd Rum) as L.
  rewrite Hat in L.
  destruct (t =? opcode OP_CREATE_GROUP_REQ).
  { injection Hop as <-. apply reply_return. unfold HandleCreateGroupReq. rewrite D. mlift.
    cbn [Z.eqb read_str mbind option_bind]. rewrite Eg. mlift. rewrite Hum, L. mlift. apply send_status. lia. }
  destruct (t =? opcode OP_JOIN_GROUP_REQ).
  { injection Hop as <-. apply reply_return. unfold HandleJoinGroupReq. rewrite D. mlift.
    cbn [Z.eqb read_str mbind option_bind]. rewrite Eg. mlift. rewrite Hum, L. mlift. apply send_status. lia. }
  destruct (t =? opcode OP_LEAVE_GROUP_REQ); [|done].
  injection Hop as <-. apply reply_return. unfold HandleLeaveGroupReq. rewrite D. mlift.
  cbn [Z.eqb read_str mbind option_bind]. rewrite Eg. mlift. rewrite Hum.
  mrun (leave_group_none um (users s) (aU a) (aS a) fd g m Rum Hbs Hat).
  rewrite decide_False by done. mstep_ret.
  replace (set_users s (Some um) (users s)) with s by (destruct s; cbn in *; by subst).
  apply send_status. lia.
Qed.

Lemma unauthenticated_rejected_witness :
  exists s m, sv_rep s (MkA demo_users demo_socks ∅ initial_pairs) /\
  ServerMng_HandleMessage 5 [7; 2; 1; 103] 4 s m
  = Some ((0, set_out s (out s ++ [Sent 5 (status_frame OP_CREATE_GROUP_REP ST_ERR_NOT_LOGGED_IN)])), m).
Proof.
  destruct demo_server as (s0 & m0 & s & m & _ & _ & R & _). exists s, m. split; [exact R|].
  apply (unauthenticated_rejected s _ 5 [7; 2; 1; 103] OP_CREATE_GROUP_REP m R);
    [by unfold is_byte_list, is_u8; repeat constructor|by vm_compute|by vm_compute|by vm_compute|by vm_compute].
Defined.

(** C9: Multicast addresses are never shared or made up, and not lost while
    memory lasts.  After any run
    of the server: a group's address belongs to no other group and is not in
    the pool; the address is one of the 255 the pool was filled with; the
    member count of a group is the number of users who have joined it and is
    never zero, so no empty group keeps an address; every member is logged in;
    and if no allocation fails every one of the 255 addresses is either
    free or held by exactly one group.  (If the pool cannot take an address back
    for lack of memory the address is lost: see [group_leave_reclaims].) *)
Theorem addresses_conserved es m s m1 s' m2 : Forall event_ok es ->
  ServerMng_Init (stopped []) m = Some ((0, s), m1) -> run_events es s m1 = Some (s', m2) ->
  exists a, sv_rep s' a /\
    (forall g grp, aG a !! g = Some grp ->
       pair_of grp ∈ initial_pairs /\ (pair_of grp ∉ aP a) /\
       (forall g' grp', aG a !! g' = Some grp' -> pair_of grp = pair_of grp' -> g = g') /\
       member_count grp = members (aU a) g /\ 1 <= member_count grp) /\
    (forall k i g, aU a !! k = Some i -> g ∈ u_groups i -> is_Some (aG a !! g) /\ is_Some (u_sock i)) /\
    (alloc_ok m -> aP a ++ pairs_of (aG a) ≡ₚ initial_pairs).
Proof.
  intros Hes E1 E2. destruct (rep_Init [] m) as (r & s0 & m0 & E & C & O1).
  rewrite E1 in E. injection E as <- <- <-.
  destruct C as [(_ & _ & ps & _ & R & _ & Hps)|(? & _)]; [|done].
  destruct (rep_events es s _ m1 R Hes) as (s2 & m3 & a & E & R' & _ & _ & O). rewrite E2 in E. injection E as <- <-.
  exists a. split; [done|]. split; [|split].
  - intros g grp Hg. destruct (group_address_own s' a g grp R' Hg) as (H1 & H2 & H3).
    split; [done|]. split; [done|]. split; [done|].
    destruct (sv_gm _ _ R') as (gm & _ & Rg). pose proof (gm_members _ _ _ _ Rg g grp Hg).
    split; [|lia]. rewrite <-(sv_members _ _ R'). unfold count. by rewrite Hg.
  - intros k i g Hk Hin. destruct (sv_um _ _ R') as (um & _ & Ru). split.
    + pose proof (members_pos _ _ _ _ Hk Hin) as Hp. rewrite <-(sv_members _ _ R') in Hp. unfold count in Hp.
      by destruct (aG a !! g); [|lia].
    + destruct (u_sock i) eqn:Hs; [done|]. destruct (um_groups _ _ _ _ Ru k i Hk) as [_ Hnil].
      rewrite (Hnil Hs) in Hin. by apply elem_of_nil in Hin.
  - intros Hm. destruct (O (O1 Hm)) as (_ & -> & _). apply conserved_run.
    unfold conserved, fresh. cbn [aP aG]. unfold pairs_of. by rewrite map_to_list_empty, app_nil_r, (Hps Hm).
Qed.

Lemma addresses_conserved_witness : exists s0 m0 s m, ServerMng_Init (stopped []) (Mem [] 0) = Some ((0, s0), m0) /\
  run_events demo_group_events s0 m0 = Some (s, m) /\
  (exists a, sv_rep s a /\ group_sizes a = [([104], 1); ([103], 2)]) /\
  exists a, sv_rep s a /\
    (forall g grp, aG a !! g = Some grp ->
       pair_of grp ∈ initial_pairs /\ (pair_of grp ∉ aP a) /\
       (forall g' grp', aG a !! g' = Some grp' -> pair_of grp = pair_of grp' -> g = g') /\
       member_count grp = members (aU a) g /\ 1 <= member_count grp) /\
    (forall k i g, aU a !! k = Some i -> g ∈ u_groups i -> is_Some (aG a !! g) /\ is_Some (u_sock i)) /\
    (alloc_ok (Mem [] 0) -> aP a ++ pairs_of (aG a) ≡ₚ initial_pairs).
Proof.
  destruct (demo_run demo_group_events demo_group_events_ok) as (s0 & m0 & s & m & E0 & E & R & _).
  exists s0, m0, s, m. split; [exact E0|]. split; [exact E|].
  split; [exists (spec_run demo_group_events (fresh initial_pairs)).1; split; [exact R|by vm_compute]|].
  exact (addresses_conserved demo_group_events (Mem [] 0) s0 m0 s m demo_group_events_ok E0 E).
Defined.
