(* ===== verification/ServerMain.v ===== *)
(** * The server program: [server/server_main.c]

    [SigIntHandler] and [main]: the managers are set up, the network layer is
    created with their handlers and runs until the flag is cleared, and
    everything is torn down.  What the kernel answers, and when it delivers the
    signal, is an argument.  The file proves, by putting the network layer and
    its handlers together through the interface [Handlers], that the whole
    server runs without undefined behaviour on whatever its clients send unless
    a descriptor does not fit into an [fd_set], that it goes on until it is
    interrupted, or killed by the [SIGPIPE] of one of its sends, and that it
    returns everything it has allocated when it ends. *)

From S2P Require Import Prelude Protocol HashMap HashUtils GroupMng UserMng FreeMcQueue ServerNet NetSpec ServerMng.

Definition EXIT_SUCCESS : Z := 0.
Definition EXIT_FAILURE : Z := 1.

(** The flag, and the handler: what it makes of the flag. *)
Definition g_keepRunning : Z := 1.
Definition SigIntHandler (_sig : Z) (_ : Z) : Z := 0.

(** [k] is what the kernel answers while the listening socket is set up,
    [garbage] what a fresh receive buffer holds, [early] the signals handled
    before the loop starts, [passes] what [select], [accept] and [recv] answer
    and the signals handled in the passes of the loop.  The result is [None]
    while [main] waits in [select]. *)
Definition main (k : listen_answers) (garbage : bytes) (early : list Z) (passes : list pass) (s : server)
  : M (option Z * server) :=
  '(r, s) ← ServerMng_Init s;
  if negb (0 =? r) then mret (Some EXIT_FAILURE, s) else
  '(net, s) ← ServerNet_Create server_close k CHAT_TCP_PORT garbage s;
  match net with
  | None =>
      s ← ServerMng_Destroy s;
      mret (Some EXIT_FAILURE, s)
  | Some net =>
      '(exit_code, net, s) ← ServerNet_Run (Some ServerMng_HandleMessage) (Some ServerMng_OnDisconnect)
        server_close SigIntHandler (Some net) (Some (flag_after SigIntHandler g_keepRunning early)) passes s;
      match exit_code with
      | None => mret (None, s)
      | Some _ =>
          s ← ServerMng_Destroy s;
          '(_, s) ← ServerNet_Destroy server_close (Some net) s;
          s ← ServerMng_Destroy s;
          mret (Some EXIT_SUCCESS, s)
      end
  end.

(** ** The process

    [send] is called without [MSG_NOSIGNAL] and [SIGPIPE] has no handler: a send
    on a connection the other side has reset ends the process at once, and
    nothing that the code would do afterwards happens.  [pipe n] says whether the
    [n]-th send of the run is such a one. *)
Fixpoint until_pipe (pipe : nat -> bool) (n : nat) (o : list output) : option (list output) :=
  match o with
  | [] => None
  | Sent d b :: o => if pipe n then Some [] else cons (Sent d b) <$> until_pipe pipe (S n) o
  | Closed d :: o => cons (Closed d) <$> until_pipe pipe n o
  end.

(** It was killed after what is logged; it has ended with an exit code; or it
    waits in [select]. *)
Inductive process := Killed (o : list output) | Exited (code : Z) (s : server) (m : mem) | Waiting (s : server) (m : mem).

(** The passes one after the other: those that have been [handled], those to
    come. *)
Fixpoint server_process (pipe : nat -> bool) (k : listen_answers) (garbage : bytes) (early : list Z)
    (handled passes : list pass) (s : server) (m : mem) : option process :=
  '((r, s'), m') ← main k garbage early handled s m;
  match until_pipe pipe 0 (out s') with
  | Some o => Some (Killed o)
  | None =>
      match passes with
      | [] => Some (match r with Some code => Exited code s' m' | None => Waiting s' m' end)
      | p :: passes => server_process pipe k garbage early (handled ++ [p]) passes s m
      end
  end.

(** The number of sends in a log. *)
Fixpoint sends (o : list output) : nat :=
  match o with
  | [] => 0
  | Sent _ _ :: o => S (sends o)
  | Closed _ :: o => sends o
  end.

(** None of the sends of [o] raises the signal. *)
Definition no_pipe (pipe : nat -> bool) (o : list output) : Prop :=
  forall o1 d b o2, o = o1 ++ Sent d b :: o2 -> pipe (sends o1) = false.

Lemma until_pipe_spec_from pipe n o :
  match until_pipe pipe n o with
  | Some o1 => exists d b o2, o = o1 ++ Sent d b :: o2 /\ pipe (n + sends o1)%nat = true /\
      no_pipe (fun i => pipe (n + i)%nat) o1
  | None => no_pipe (fun i => pipe (n + i)%nat) o
  end.
Proof.
  revert n. induction o as [|e o IH]; intros n; cbn [until_pipe]; [by intros [|??] ??? [=]|].
  destruct e as [d b|d].
  - destruct (pipe n) eqn:E.
    { exists d, b, o. cbn [sends app]. rewrite Nat.add_0_r. split; [done|]. split; [done|]. by intros [|??] ??? [=]. }
    specialize (IH (S n)). destruct (until_pipe pipe (S n) o) as [o1|]; cbn [fmap option_fmap option_map].
    + destruct IH as (d' & b' & o2 & -> & Hp & Hno). exists d', b', o2. cbn [sends app]. rewrite Nat.add_succ_r.
      split; [done|]. split; [done|]. intros [|e' o1'] d0 b0 o2'; intros [= <- Ho]; cbn [sends];
        [by rewrite Nat.add_0_r|]. rewrite Nat.add_succ_r. by eapply Hno.
    + intros [|e' o1'] d0 b0 o2'; intros [= <- Ho]; cbn [sends]; [by rewrite Nat.add_0_r|].
      rewrite Nat.add_succ_r. by eapply IH.
  - specialize (IH n). destruct (until_pipe pipe n o) as [o1|]; cbn [fmap option_fmap option_map].
    + destruct IH as (d' & b' & o2 & -> & Hp & Hno). exists d', b', o2. split; [done|]. split; [done|].
      intros [|e' o1'] d0 b0 o2'; intros [= <- Ho]; cbn [sends]. by eapply Hno.
    + intros [|e' o1'] d0 b0 o2'; intros [= <- Ho]; cbn [sends]. by eapply IH.
Qed.

Lemma until_pipe_spec pipe o :
  match until_pipe pipe 0 o with
  | Some o1 => exists d b o2, o = o1 ++ Sent d b :: o2 /\ pipe (sends o1) = true /\ no_pipe pipe o1
  | None => no_pipe pipe o
  end.
Proof. exact (until_pipe_spec_from pipe 0 o). Qed.

Lemma until_pipe_never pipe n o : (forall i, pipe i = false) -> until_pipe pipe n o = None.
Proof.
  intros H. revert n. induction o as [|[d b|d] o IH]; intros n; cbn [until_pipe]; [done|by rewrite H, IH|by rewrite IH].
Qed.

(** ** Runs of the program

    What [select] answers in a run of the program, and whether it comes to its
    end. *)
Definition answers_seen (early : list Z) (passes : list pass) : list select_result :=
  answers_of SigIntHandler (flag_after SigIntHandler g_keepRunning early) passes.
Definition ends (early : list Z) (passes : list pass) : bool :=
  run_ends SigIntHandler (flag_after SigIntHandler g_keepRunning early) passes.

Lemma flag_after_SigInt flag sigs : flag_after SigIntHandler flag sigs = (if sigs is [] then flag else 0).
Proof. destruct sigs as [|x sigs]; [done|]. cbn. induction sigs; [done|]. assumption. Qed.

(** The server runs on exactly as long as it is not interrupted and [select]
    does not fail. *)
Lemma runs_on early passes : ends early passes = false <->
  early = [] /\ Forall (fun p => signals p = [] /\ answer p <> SelectFailed) passes.
Proof.
  unfold ends. rewrite flag_after_SigInt. destruct early as [|x early]; cycle 1.
  { split; [by destruct passes|by intros [? _]]. }
  transitivity (Forall (fun p => signals p = [] /\ answer p <> SelectFailed) passes); [|naive_solver].
  induction passes as [|[a sigs] passes IH]; [by split; [constructor|]|].
  rewrite Forall_cons, <-IH. cbn [run_ends answer signals]. change (g_keepRunning =? 0) with false.
  rewrite flag_after_SigInt. destruct a, sigs as [|y sigs]; try (by naive_solver);
    (split; [by destruct passes|by intros [[? _] _]]).
Qed.

(** The listening socket stays the same. *)
Section listen.
Context {W : Type} (onMsg : ptr (Z -> bytes -> Z -> W -> M (Z * W))) (onDisc : ptr (Z -> W -> M W)).
Context (close : Z -> W -> W).

Lemma HandleNewConnection_listen net x w net' w' :
  HandleNewConnection close net x w = Some (net', w') -> listenFd net' = listenFd net.
Proof.
  unfold HandleNewConnection. destruct (-1 =? x); [by intros [= <- _]|].
  destruct (find_slot _ _) as [i|]; [|by intros [= <- _]].
  destruct (clients net !! i); [|done]. unfold FD_SET. cbn [mbind option_bind].
  destruct (_ && _); [|done]. by intros [= <- _].
Qed.

Lemma serve_clients_listen k n i net w m net' w' m' :
  serve_clients onMsg onDisc close n i net k w m = Some ((net', w'), m') -> listenFd net' = listenFd net.
Proof.
  revert i net w m. induction n as [|n IH]; intros i net w m; cbn [serve_clients]; [by intros [= <- _ _]|].
  intros (c & m1 & _ & (b & m2 & _ & ([net1 w1] & m3 & E & ->%IH)%M_bind_inv)%M_bind_inv)%M_bind_inv.
  destruct b.
  - apply M_bind_inv in E as ([[c' set] w2] & m4 & _ & E). by injection E as <- _ _.
  - by injection E as <- _ _.
Qed.

Lemma run_answers_listen answers net w m r net' w' m' :
  run_answers onMsg onDisc close net answers w m = Some ((r, net', w'), m') -> listenFd net' = listenFd net.
Proof.
  revert net w m. induction answers as [|[| |k] answers IH]; intros net w m; cbn [run_answers];
    [by intros [= _ <- _ _]|by apply IH|by intros [= _ <- _ _]|].
  intros (b & m1 & _ & ([net1 w1] & m2 & E & ([net2 w2] & m3 & E2%serve_clients_listen & ->%IH)%M_bind_inv)
    %M_bind_inv)%M_bind_inv. rewrite E2. destruct b.
  - unfold lift in E. destruct (HandleNewConnection close net (accepted k) w) as [[??]|] eqn:E1; [|done].
    injection E as <- _ _. by apply HandleNewConnection_listen in E1.
  - by injection E as <- _ _.
Qed.

End listen.

(** The descriptors [ServerNet_Destroy] closes. *)
Definition open_clients (cs : list ClientState) : list Z :=
  filter (fun x => x <> -1) (fd <$> cs).

Lemma close_clients_log cs o :
  close_clients server_close cs (stopped o) = stopped (o ++ (Closed <$> open_clients cs)).
Proof.
  revert o. induction cs as [|c cs IH]; intros o; cbn [close_clients]; [by rewrite app_nil_r|].
  unfold open_clients. rewrite fmap_cons. destruct (-1 =? fd c) eqn:E; bprop.
  - rewrite filter_cons_False by (intros H; by apply H). apply IH.
  - rewrite filter_cons_True by congruence.
    change (server_close (fd c) (stopped o)) with (stopped (o ++ [Closed (fd c)])).
    rewrite IH. by rewrite <-app_assoc.
Qed.

Lemma rep_NetDestroy net o m :
  ServerNet_Destroy server_close (Some (Some net)) (stopped o) m
  = Some ((Some NULL, stopped (o ++ (Closed <$> open_clients (clients net)) ++ [Closed (listenFd net)])),
          Mem (plan m) (live m - 1)).
Proof.
  unfold ServerNet_Destroy. cbv zeta. rewrite close_clients_log. mfree.
  unfold server_close, set_out, stopped. cbn. unfold mret, M_ret. by rewrite <-app_assoc.
Qed.

(** The kernel lets the server listen at a port. *)
Definition listens (k : listen_answers) (port : Z) : bool :=
  negb (listen_socket k =? -1) && reuse_ok k && bind_ok k (u16 port) && listen_ok k.

(** A socket that cannot listen is closed. *)
Lemma SetupListeningSocket_exact k port s :
  SetupListeningSocket server_close k port s =
  (if listens k port then (listen_socket k, s) else
   (-1, if listen_socket k =? -1 then s else server_close (listen_socket k) s)).
Proof.
  unfold SetupListeningSocket, listens. rewrite (Z.eqb_sym (-1)). destruct (listen_socket k =? -1); [done|].
  cbn [negb andb]. by destruct (reuse_ok k), (bind_ok k (u16 port)), (listen_ok k).
Qed.

(** What a start that fails leaves in the log. *)
Definition start_log (k : listen_answers) (port : Z) : list output :=
  if (listen_socket k =? -1) || listens k port then [] else [Closed (listen_socket k)].

(** [ServerNet_Create]: a network layer with the listening socket, or nothing
    allocated and the socket closed. *)
Lemma rep_NetCreate k port garbage s m : (listens k port = true -> 0 <= listen_socket k < MAX_CLIENTS) ->
  exists r o m', ServerNet_Create server_close k port garbage s m = Some ((r, set_out s (out s ++ o)), m') /\
  match r with
  | Some net => net = MkServerNet (listen_socket k) (listen_socket k) ({[listen_socket k]} ∪ ∅)
        (replicate (Z.to_nat MAX_CLIENTS) (MkClient (-1) garbage 0)) /\ live m' = live m + 1 /\
      o = [] /\ 0 <= listen_socket k < MAX_CLIENTS
  | None => live m' = live m /\ (o = [] \/ o = start_log k port)
  end /\ (alloc_ok m -> listens k port = true -> r <> None) /\ (listens k port = false -> r = None) /\
  (alloc_ok m -> alloc_ok m').
Proof.
  intros Hl. unfold ServerNet_Create. destruct (malloc_inv m) as (b & m1 & E & L & O). mrun E.
  assert (set_out s (out s ++ []) = s) as Es by (rewrite app_nil_r; by destruct s).
  destruct b; cbn [negb]; cycle 1.
  { exists NULL, [], m1. rewrite Es. split; [done|]. split; [split; [lia|by left]|].
    split; [|split; [done|]]; intros Ho; by destruct (O Ho). }
  rewrite SetupListeningSocket_exact. destruct (listens k port) eqn:Ek.
  - specialize (Hl eq_refl). rewrite (proj2 (Z.eqb_neq (-1) _)) by lia. unfold FD_SET. rewrite FD_ok by lia. mlift.
    eexists (Some _), [], m1. rewrite Es. split; [done|]. split; [split; [done|]; split; [lia|]; split; [done|lia]|].
    split; [done|]. split; [done|]. intros Hm. by apply O.
  - cbn [Z.eqb Pos.eqb]. mfree. exists NULL, (start_log k port), (Mem (plan m1) (live m1 - 1)).
    split; [|split; [split; [cbn [live]; lia|by right]|split; [done|split; [done|]]]]; [|intros Hm; by apply alloc_ok_free, O].
    unfold start_log. rewrite Ek, orb_false_r. destruct (listen_socket k =? -1); [by rewrite Es|done].
Qed.

(** A listening socket that does not fit into an [fd_set]. *)
Lemma NetCreate_overflow k port garbage s m : listens k port = true -> MAX_CLIENTS <= listen_socket k ->
  ServerNet_Create server_close k port garbage s m = None \/
  (~ alloc_ok m /\ exists m', ServerNet_Create server_close k port garbage s m = Some ((NULL, s), m') /\ live m' = live m).
Proof.
  intros Hk Hl. unfold ServerNet_Create. destruct (malloc_inv m) as (b & m1 & E & L & O). mrun E.
  destruct b; cbn [negb]; cycle 1.
  { right. split; [by intros Hm; destruct (O Hm)|]. exists m1. split; [done|lia]. }
  left. rewrite SetupListeningSocket_exact, Hk. unfold MAX_CLIENTS in Hl. rewrite (proj2 (Z.eqb_neq (-1) _)) by lia.
  unfold FD_SET, MAX_CLIENTS. by rewrite (proj2 (Z.ltb_ge _ _)), andb_false_r by lia.
Qed.

(** Longer runs. *)
Lemma answers_of_app on_signal flag p1 p2 :
  answers_of on_signal flag p1 `prefix_of` answers_of on_signal flag (p1 ++ p2).
Proof.
  revert flag. induction p1 as [|[[| |k] sigs] p1 IH]; intros flag; cbn [answers_of app];
    (destruct (flag =? 0); [apply prefix_nil|]).
  - apply prefix_nil.
  - by apply prefix_cons.
  - done.
  - by apply prefix_cons.
Qed.

Lemma overflows_prefix listening a1 a2 : a1 `prefix_of` a2 -> overflows listening a1 = true ->
  overflows listening a2 = true.
Proof.
  intros [a ->]. induction a1 as [|[| |k] a1 IH]; cbn [overflows app]; try done.
  intros [->|H%IH]%orb_true_iff; [done|]. by rewrite H, orb_true_r.
Qed.

Lemma honest_prefix listening l a1 a2 : a1 `prefix_of` a2 -> honest listening l a2 -> honest listening l a1.
Proof.
  intros [a ->]. revert l. induction a1 as [|[| |k] a1 IH]; intros l; cbn [honest app]; try done; [apply IH|].
  intros [H1 H2]. split; [done|]. intros Ho. by apply IH, H2.
Qed.

(** A descriptor does not fit into an [fd_set]: that of the listening socket, or
    one that [accept] returns. *)
Definition undefined (k : listen_answers) (early : list Z) (passes : list pass) : bool :=
  listens k CHAT_TCP_PORT &&
  ((MAX_CLIENTS <=? listen_socket k) || overflows (listen_socket k) (answers_seen early passes)).

Section run.
Context (k : listen_answers) (garbage : bytes) (early : list Z) (passes : list pass).

(** The server after it has stopped. *)
Definition finished (code : Z) (s' : server) (m m' : mem) : Prop :=
  s' = stopped (out s') /\ live m' = live m /\
  (code = EXIT_SUCCESS /\ last (out s') = Some (Closed (listen_socket k)) \/
   code = EXIT_FAILURE /\ (out s' = [] \/ out s' = start_log k CHAT_TCP_PORT)).

Lemma finished_failure o m m' : live m' = live m -> (o = [] \/ o = start_log k CHAT_TCP_PORT) ->
  finished EXIT_FAILURE (stopped o) m m'.
Proof. intros L Ho. split; [done|]. split; [done|]. by right. Qed.

(** The server that has stopped, or waits for its clients. *)
Definition outcome (r : option Z) (s' : server) (m m' : mem) : Prop :=
  match r with
  | Some code => finished code s' m m' /\ (code = EXIT_SUCCESS -> ends early passes = true)
  | None => ends early passes = false /\ exists a, sv_rep s' a
  end /\
  (alloc_ok m -> (r = Some EXIT_FAILURE <-> listens k CHAT_TCP_PORT = false)).

Lemma outcome_failure o m m' : live m' = live m -> (o = [] \/ o = start_log k CHAT_TCP_PORT) ->
  (alloc_ok m -> listens k CHAT_TCP_PORT = false) -> outcome (Some EXIT_FAILURE) (stopped o) m m'.
Proof. intros L Ho H. split; [by split; [apply finished_failure|]|]. intros Hm. by split; [intros _; apply H|]. Qed.

(** The program either runs as it should or, if a descriptor does not fit, has
    undefined behaviour; only the lack of memory can keep it from that. *)
Lemma main_outcome m : listen_socket k = -1 \/ 0 <= listen_socket k ->
  blen garbage = RECV_BUFFER_SIZE -> is_byte_list garbage ->
  honest (listen_socket k) no_slots (answers_seen early passes) ->
  match main k garbage early passes (stopped []) m with
  | None => undefined k early passes = true
  | Some ((r, s'), m') => outcome r s' m m' /\
      (undefined k early passes = true -> ~ alloc_ok m /\ r = Some EXIT_FAILURE)
  end.
Proof.
  intros Hlis Hg Hgb HK.
  destruct (rep_Init [] m) as (r & s & m1 & E1 & C1 & O1). unfold main. mrun E1.
  destruct C1 as [(-> & Ho & ps & _ & R & L1 & _)|(-> & -> & L1 & Hbad)]; cbn [Z.eqb negb]; cycle 1.
  { split; [by apply outcome_failure; [|left|intros ?%Hbad]|]. by intros _. }
  assert (set_out s [] = s) as Es by (rewrite <-Ho; by destruct s).
  unfold undefined. destruct (listens k CHAT_TCP_PORT && (MAX_CLIENTS <=? listen_socket k)) eqn:Eo.
  { apply andb_true_iff in Eo as [Hk Eo]. rewrite Hk, Eo. cbn [andb orb]. apply Z.leb_le in Eo. destruct (NetCreate_overflow k CHAT_TCP_PORT garbage s m1 Hk Eo) as [E2|(Hbad & m2 & E2 & L2)].
    - unfold mbind, M_bind. by rewrite E2.
    - mrun E2. mrun (rep_ServerDestroy _ _ m2 R). split; [|by intros _; split; [intros Hm; apply Hbad, O1|]].
      rewrite Ho. apply outcome_failure; [cbn [live]; lia|by left|]. intros Hm. by destruct (Hbad (O1 Hm)). }
  destruct (rep_NetCreate k CHAT_TCP_PORT garbage s m1) as (net & o & m2 & E2 & C2 & O2 & F2 & _).
  { intros Hk. rewrite Hk in Eo. cbn [andb] in Eo. apply Z.leb_gt in Eo. unfold listens in Hk. bprop. lia. }
  mrun E2. rewrite Ho in *. cbn [app] in *.
  destruct net as [net|]; cycle 1.
  { destruct C2 as [L2 Co]. mrun (rep_ServerDestroy _ _ m2 (sv_rep_out _ _ o R)). split.
    - apply outcome_failure; [cbn [live]; unfold sv_blocks in *; cbn in *; lia|done|].
      intros Hm. destruct (listens k CHAT_TCP_PORT); [by destruct (O2 (O1 Hm) eq_refl)|done].
    - intros H. split; [|done]. intros Hm. destruct (listens k CHAT_TCP_PORT); [by destruct (O2 (O1 Hm) eq_refl)|done]. }
  destruct C2 as (-> & L2 & -> & Hsock). rewrite Es in *.
  assert (listens k CHAT_TCP_PORT = true) as Hk
    by (destruct (listens k CHAT_TCP_PORT); [done|by discriminate (F2 eq_refl)]).
  rewrite Hk in *. cbn [andb] in *. rewrite Eo. cbn [orb].
  pose proof (net_inv_create (listen_socket k) garbage Hsock Hg Hgb) as N0.
  pose proof (run_answers_ok (Inv := server_inv (live m + 1)) (answers_seen early passes) _ ∅ s m2 N0) as H.
  cbn [listenFd] in H.
  assert (server_inv (live m + 1) s m2 ∅) as HI
    by (exists (fresh ps); split; [done|]; split; [lia|symmetry; apply dom_empty_L]).
  specialize (H HI). specialize (H (honest_kernel_run (Inv := server_inv (live m + 1)) _ _ s m2 N0
    (eq_rect_r (fun l => honest _ l _) HK (slots_of_create _ _ garbage)))).
  unfold mbind at 1, M_bind at 1. rewrite ServerNet_Run_answers. fold (answers_seen early passes) (ends early passes).
  destruct (overflows (listen_socket k) (answers_seen early passes)); [by unfold mbind, M_bind; rewrite H|].
  destruct H as (rc & net' & s' & m3 & A & E3 & N' & (a & R' & L3 & _) & _).
  rewrite (M_bind_Some _ _ _ _ _ E3). destruct (ends early passes) eqn:Hends; cbn [mret M_ret]; cycle 1.
  { split; [|done]. split; [|by rewrite Hk]. split; [done|]. by exists a. }
  mrun (rep_ServerDestroy s' a m3 R').
  mrun (rep_NetDestroy net' (out s') (Mem (plan m3) (live m3 - sv_blocks s' a))).
  erewrite M_bind_Some by apply rep_Destroy_stopped. split; [|done].
  apply run_answers_listen in E3 as Hlf. cbn [listenFd] in Hlf.
  assert (forall x y z : list output, out (stopped (x ++ y ++ z)) = (x ++ y) ++ z) as Eo'
    by (intros; apply app_assoc).
  split; [|by rewrite Hk]. split; [|done]. split; [done|]. split; [cbn [live]; lia|].
  left. split; [done|]. rewrite Eo', last_snoc. by rewrite Hlf.
Qed.

End run.

(** ** The process *)

(** What a process can have come to. *)
Definition process_outcome (pipe : nat -> bool) (k : listen_answers) (garbage : bytes) (early : list Z)
    (passes : list pass) (m : mem) (p : option process) : Prop :=
  match p with
  | None => undefined k early passes = true
  | Some (Killed o) => exists n r s' m' d b o2,
      main k garbage early (take n passes) (stopped []) m = Some ((r, s'), m') /\
      out s' = o ++ Sent d b :: o2 /\ pipe (sends o) = true /\ no_pipe pipe o
  | Some (Exited code s' m') => finished k code s' m m' /\ no_pipe pipe (out s') /\
      (code = EXIT_SUCCESS -> ends early passes = true) /\
      (alloc_ok m -> (code = EXIT_FAILURE <-> listens k CHAT_TCP_PORT = false))
  | Some (Waiting s' m') => (exists a, sv_rep s' a) /\ no_pipe pipe (out s') /\ ends early passes = false
  end.

Lemma process_ok pipe k garbage early handled passes m : listen_socket k = -1 \/ 0 <= listen_socket k ->
  blen garbage = RECV_BUFFER_SIZE -> is_byte_list garbage ->
  honest (listen_socket k) no_slots (answers_seen early (handled ++ passes)) ->
  let p := server_process pipe k garbage early handled passes (stopped []) m in
  process_outcome pipe k garbage early (handled ++ passes) m p /\
  (alloc_ok m -> undefined k early (handled ++ passes) = true -> (forall n, pipe n = false) -> p = None).
Proof.
  intros Hl Hg Hgb. revert handled.
  induction passes as [|x passes IH]; intros handled Hh; cbn [server_process]; cbv zeta.
  - rewrite app_nil_r in *. pose proof (main_outcome k garbage early handled m Hl Hg Hgb Hh) as H.
    destruct (main k garbage early handled (stopped []) m) as [[[r s'] m']|] eqn:E; cbn [mbind option_bind]; [|by split].
    destruct H as [[Ho Hf] Hu]. pose proof (until_pipe_spec pipe (out s')) as Hp.
    split; [|by intros Hm Hun; destruct (Hu Hun) as [? _]].
    destruct (until_pipe pipe 0 (out s')) as [o|]; [|by destruct r as [code|]; cbn; naive_solver].
    destruct Hp as (d & b & o2 & Eo & Hp). exists (length handled), r, s', m', d, b, o2. by rewrite take_ge.
  - assert (honest (listen_socket k) no_slots (answers_seen early handled)) as Hh'
      by (eapply honest_prefix, Hh; apply answers_of_app).
    pose proof (main_outcome k garbage early handled m Hl Hg Hgb Hh') as H.
    destruct (main k garbage early handled (stopped []) m) as [[[r s'] m']|] eqn:E; cbn [mbind option_bind]; cycle 1.
    { split; [|done]. cbn [process_outcome]. unfold undefined in *. destruct (listens k CHAT_TCP_PORT); [|done].
      cbn [andb] in *. apply orb_true_iff in H as [H|H]; apply orb_true_iff; [by left|right].
      eapply overflows_prefix, H. apply answers_of_app. }
    pose proof (until_pipe_spec pipe (out s')) as Hp.
    destruct (until_pipe pipe 0 (out s')) as [o|] eqn:Eu.
    + split; [|by intros _ _ Hn; rewrite (until_pipe_never pipe 0 (out s') Hn) in Eu].
      destruct Hp as (d & b & o2 & Eo & Hp). exists (length handled), r, s', m', d, b, o2. by rewrite take_app_length.
    + specialize (IH (handled ++ [x])). rewrite <-app_assoc in IH. by apply IH.
Qed.

(** A port where the kernel lets a program listen, and one where it does not. *)
Definition demo_listen (port : Z) : listen_answers := MkListen 3 true (fun p => p =? port) true.

(** Two clients at once: the first registers and logs in, in pieces; the second
    tries the same name, and asks for a group without logging in; the first
    hangs up, the second is still there at the end.  The signal comes during
    the last pass. *)
Definition demo_traffic (last_signals : list Z) : list pass :=
  let reg := user_pass_frame OP_REG_REQ [97] [112] in
  let login := user_pass_frame OP_LOGIN_REQ [97] [112] in
  [MkPass (SelectReady (MkWakeup {[3]} 4 (fun _ => None))) [];
   MkPass (SelectReady (MkWakeup {[3; 4]} 5 (fun _ => Some (reg ++ take 3 login)))) [];
   MkPass (SelectReady (MkWakeup {[4; 5]} (-1) (fun d => Some (if d =? 4 then drop 3 login else login)))) [];
   MkPass SelectInterrupted [];
   MkPass (SelectReady (MkWakeup {[4; 5]} (-1)
     (fun d => if d =? 4 then None else Some (groupname_frame OP_CREATE_GROUP_REQ [103])))) last_signals].

(** ** Properties *)

(** C8: The whole server process.  Whatever allocations fail, whatever bytes, in
    whatever fragments, the clients send, whenever they reset their connections
    and whenever [SIGINT] comes, the process comes to one of four things.
    A descriptor at or above [FD_SETSIZE] - that of the listening socket, or one
    [accept] returns - is its only undefined behaviour, and always is.  The
    first send that raises [SIGPIPE] kills it, after exactly what [main] has
    done up to this send.  Otherwise it waits in [select], with its managers
    consistent, exactly as long as no [SIGINT] has been handled and [select] has
    not failed; or [main] has ended, with all managers destroyed and every
    heap block freed, also on each failure path of the start.  When it ends with
    [EXIT_SUCCESS] the listening socket has been closed last; when the start
    fails, a socket that was opened has been closed and nothing else has
    happened.  While memory lasts the start fails exactly if the kernel does not
    let it listen.  The kernel is assumed to keep its contract ([honest]). *)
Theorem main_safe pipe k garbage early passes m : listen_socket k = -1 \/ 0 <= listen_socket k ->
  blen garbage = RECV_BUFFER_SIZE -> is_byte_list garbage ->
  honest (listen_socket k) no_slots (answers_seen early passes) ->
  match server_process pipe k garbage early [] passes (stopped []) m with
  | None => undefined k early passes = true
  | Some (Killed o) => exists n r s' m' d b o2,
      main k garbage early (take n passes) (stopped []) m = Some ((r, s'), m') /\
      out s' = o ++ Sent d b :: o2 /\ pipe (sends o) = true /\ no_pipe pipe o
  | Some (Exited code s' m') => s' = stopped (out s') /\ live m' = live m /\ no_pipe pipe (out s') /\
        (code = EXIT_SUCCESS /\ last (out s') = Some (Closed (listen_socket k)) /\
           ~ (early = [] /\ Forall (fun p => signals p = [] /\ answer p <> SelectFailed) passes) \/
         code = EXIT_FAILURE /\ (out s' = [] \/ out s' = start_log k CHAT_TCP_PORT)) /\
        (alloc_ok m -> (code = EXIT_FAILURE <-> listens k CHAT_TCP_PORT = false))
  | Some (Waiting s' m') => (exists a, sv_rep s' a) /\ no_pipe pipe (out s') /\
        early = [] /\ Forall (fun p => signals p = [] /\ answer p <> SelectFailed) passes
  end /\
  (alloc_ok m -> undefined k early passes = true -> (forall n, pipe n = false) ->
   server_process pipe k garbage early [] passes (stopped []) m = None).
Proof.
  intros Hl Hg Hb Hk. destruct (process_ok pipe k garbage early [] passes m Hl Hg Hb Hk) as [H Hu].
  split; [|done]. cbn [app] in H. pose proof (runs_on early passes) as Hr.
  destruct (server_process pipe k garbage early [] passes (stopped []) m) as [[o|code s' m'|s' m']|]; try done.
  - destruct H as ((Hs & L & Hc) & Hp & He & Hf). do 3 (split; [done|]). split; [|done].
    destruct Hc as [[Hc Ho]|Hc]; [left|by right]. split; [done|]. split; [done|]. rewrite <-Hr, (He Hc). done.
  - cbn [process_outcome] in H. naive_solver.
Qed.

(** In the witness the third send, to the second client, raises [SIGPIPE]; a
    third connection whose descriptor is 1024 would have come later. *)
Definition demo_end : list pass :=
  demo_traffic [] ++ [MkPass (SelectReady (MkWakeup {[3]} 1024 (fun _ => None))) []].

Lemma main_safe_witness :
  undefined (demo_listen 5000) [] demo_end = true /\
  match server_process (fun n => Nat.eqb n 2) (demo_listen 5000) (replicate 771 0) [] [] demo_end (stopped []) (Mem [] 0) with
  | None => undefined (demo_listen 5000) [] demo_end = true
  | Some (Killed o) => exists n r s' m' d b o2,
      main (demo_listen 5000) (replicate 771 0) [] (take n demo_end) (stopped []) (Mem [] 0) = Some ((r, s'), m') /\
      out s' = o ++ Sent d b :: o2 /\ Nat.eqb (sends o) 2 = true /\ no_pipe (fun n => Nat.eqb n 2) o
  | Some (Exited code s' m') => s' = stopped (out s') /\ live m' = 0 /\ no_pipe (fun n => Nat.eqb n 2) (out s') /\
        (code = EXIT_SUCCESS /\ last (out s') = Some (Closed 3) /\
           ~ ([] = [] :> list Z /\ Forall (fun p => signals p = [] /\ answer p <> SelectFailed) demo_end) \/
         code = EXIT_FAILURE /\ (out s' = [] \/ out s' = start_log (demo_listen 5000) CHAT_TCP_PORT)) /\
        (alloc_ok (Mem [] 0) -> (code = EXIT_FAILURE <-> listens (demo_listen 5000) CHAT_TCP_PORT = false))
  | Some (Waiting s' m') => (exists a, sv_rep s' a) /\ no_pipe (fun n => Nat.eqb n 2) (out s') /\
        [] = [] :> list Z /\ Forall (fun p => signals p = [] /\ answer p <> SelectFailed) demo_end
  end /\
  (alloc_ok (Mem [] 0) -> undefined (demo_listen 5000) [] demo_end = true -> (forall n, Nat.eqb n 2 = false) ->
   server_process (fun n => Nat.eqb n 2) (demo_listen 5000) (replicate 771 0) [] [] demo_end (stopped []) (Mem [] 0) = None).
Proof.
  split; [by vm_compute|].
  apply (main_safe (fun n => Nat.eqb n 2) (demo_listen 5000) (replicate 771 0) [] demo_end (Mem [] 0)).
  - right. by vm_compute.
  - by vm_compute.
  - by apply Forall_replicate.
  - apply (bool_decide_eq_true_1 _). by vm_compute.
Defined.

Example killed_by_pipe :
  server_process (fun n => Nat.eqb n 2) (demo_listen 5000) (replicate 771 0) [] [] demo_end (stopped []) (Mem [] 0)
  = Some (Killed [Sent 4 (status_frame OP_REG_REP ST_OK); Sent 4 (status_frame OP_LOGIN_REP ST_OK)]).
Proof. vm_compute. reflexivity. Qed.
