(* ===== verification/ServerExact.v ===== *)
(** * The server program as a function of what arrives

    [main] of [server/server_main.c] put together from the view of the network
    layer ([NetSpec]) and the specification of the managers ([ServerMng]): what
    the server sends and closes, and the order it does so in, is computed from
    what the kernel answers.  Several clients may be connected; their messages
    are handled in the order of the turns and, within a turn, of the slots. *)

From S2P Require Import Prelude Protocol FreeMcQueue ServerNet NetSpec ServerMng ServerMain.

(** ** The specified effect of the events *)

Definition spec_net_event (a : astate) (e : net_event) : astate * list output :=
  match e with
  | Message d f => spec_event a (EMessage d f)
  | HungUp d => ((spec_event a (EDisconnect d)).1, [Closed d])
  end.

Fixpoint spec_net_events (es : list net_event) (a : astate) : astate * list output :=
  match es with
  | [] => (a, [])
  | e :: es =>
      let '(a, o1) := spec_net_event a e in
      let '(a, o2) := spec_net_events es a in (a, o1 ++ o2)
  end.

(** The server from its start to the end of the loop, and what it closes then. *)
Definition spec_server (listening : Z) (answers : list select_result) : astate * list output :=
  spec_net_events (spec_net listening no_slots answers).2 (fresh initial_pairs).

Definition closing_log (listening : Z) (answers : list select_result) : list output :=
  (Closed <$> slot_fds (spec_net listening no_slots answers).1.2) ++ [Closed listening].

(** The effect of the events when memory may run out: requests may be refused
    and addresses lost ([run_effect]); connections are handled all the same. *)
Definition net_event_effect (alloc : Prop) (a : astate) (e : net_event) (a' : astate) (o : list output) : Prop :=
  match e with
  | Message d f => event_effect alloc a (EMessage d f) a' o
  | HungUp d => o = [Closed d] /\ served (spec_disconnect a d, []) a' []
  end.

Inductive net_run_effect (alloc : Prop) : list net_event -> astate -> astate -> list output -> Prop :=
| net_run_nil a : net_run_effect alloc [] a a []
| net_run_cons e es a a1 a2 o1 o2 : net_event_effect alloc a e a1 o1 -> net_run_effect alloc es a1 a2 o2 ->
    net_run_effect alloc (e :: es) a a2 (o1 ++ o2).

Lemma net_run_effect_weaken (P Q : Prop) es a a' o : (Q -> P) -> net_run_effect P es a a' o -> net_run_effect Q es a a' o.
Proof.
  intros H. induction 1 as [|e es a a1 a2 o1 o2 He _ IH]; econstructor; [|done].
  destruct e; cbn [net_event_effect] in *; [|done..]. by eapply event_effect_weaken.
Qed.

(** ** The managers handle the events as specified *)

Abbreviation server_performs := (performs ServerMng_HandleMessage ServerMng_OnDisconnect server_close).

Lemma rep_perform e s a m : sv_rep s a -> net_event_ok e ->
  exists s' m' a', perform ServerMng_HandleMessage ServerMng_OnDisconnect server_close e s m = Some (s', m') /\
    sv_rep s' a' /\ live m' - sv_blocks s' a' = live m - sv_blocks s a /\
    (exists o, out s' = out s ++ o /\ net_event_effect (alloc_ok m) a e a' o) /\
    (alloc_ok m -> alloc_ok m' /\ a' = (spec_net_event a e).1 /\ out s' = out s ++ (spec_net_event a e).2).
Proof.
  intros R He. destruct e as [d f|d]; cbn [perform spec_net_event net_event_effect].
  - exact (rep_event (EMessage d f) s a m R He).
  - destruct (rep_event (EDisconnect d) (server_close d s) a m (sv_rep_out _ _ _ R) He)
      as (s' & m' & a' & E & R' & L & (o & Eo & -> & F) & O).
    exists s', m', a'. split; [done|]. split; [done|]. split; [exact L|]. rewrite app_nil_r in Eo.
    split; [by exists [Closed d]|]. intros Hm. by destruct (O Hm) as (Hm' & -> & _).
Qed.

Lemma rep_performs es s a m : sv_rep s a -> Forall net_event_ok es ->
  exists s' m' a', server_performs es s m = Some (s', m') /\
    sv_rep s' a' /\ live m' - sv_blocks s' a' = live m - sv_blocks s a /\
    (exists o, out s' = out s ++ o /\ net_run_effect (alloc_ok m) es a a' o) /\
    (alloc_ok m -> alloc_ok m' /\ a' = (spec_net_events es a).1 /\ out s' = out s ++ (spec_net_events es a).2).
Proof.
  intros R Hes. revert s a m R. induction Hes as [|e es He Hes IH]; intros s a m R.
  - exists s, m, a. do 3 (split; [done|]). split; [exists []; split; [by rewrite app_nil_r|constructor]|].
    intros Hm. split; [done|]. split; [done|]. symmetry. apply app_nil_r.
  - destruct (rep_perform e s a m R He) as (s1 & m1 & a1 & E1 & R1 & L1 & (o1 & Eo1 & F1) & O1).
    destruct (IH s1 a1 m1 R1) as (s2 & m2 & a2 & E2 & R2 & L2 & (o2 & Eo2 & F2) & O2).
    exists s2, m2, a2. cbn [performs spec_net_events]. mrun E1. split; [done|]. split; [done|].
    split; [lia|]. split.
    { exists (o1 ++ o2). split; [by rewrite Eo2, Eo1, app_assoc|]. econstructor; [exact F1|].
      by eapply net_run_effect_weaken; [|exact F2]; intros Hm; apply O1. }
    intros Hm. destruct (O1 Hm) as (Hm1 & -> & Ho1). destruct (O2 Hm1) as (Hm2 & -> & Ho2).
    destruct (spec_net_event a e) as [a1 o1']. cbn [fst snd] in *.
    destruct (spec_net_events es a1) as [a2 o2']. cbn [fst snd] in *. split; [done|]. split; [done|].
    by rewrite Ho2, Ho1, app_assoc.
Qed.

(** ** The whole program *)

Lemma open_clients_slots net : open_clients (clients net) = slot_fds (slots_of net).
Proof.
  unfold open_clients, slots_of, slot_fds. induction (clients net) as [|c cs IH]; [done|].
  cbn [fmap list_fmap omap list_omap]. unfold slot_of at 1. destruct (fd c =? -1) eqn:E; bprop.
  - rewrite filter_cons_False by (intros H; by apply H). apply IH.
  - rewrite filter_cons_True by done. cbn [fmap option_fmap option_map fst]. f_equal. apply IH.
Qed.

(** What the program has done: it could not start, for lack of memory, or it
    has handled the events so far, in which case it waits in [select], in a
    state that represents [a'], or has ended. *)
Definition exact_outcome (listening : Z) (early : list Z) (passes : list pass) (m : mem)
  (r : option Z) (s' : server) (m' : mem) : Prop :=
  let answers := answers_seen early passes in
  (r = Some EXIT_FAILURE /\ ~ alloc_ok m /\ live m' = live m /\ s' = stopped (out s')) \/
  exists ps a' o, sublist ps initial_pairs /\
    net_run_effect (alloc_ok m) (spec_net listening no_slots answers).2 (fresh ps) a' o /\
    (alloc_ok m -> (a', o) = spec_server listening answers) /\
    if ends early passes
    then r = Some EXIT_SUCCESS /\ s' = stopped (o ++ closing_log listening answers) /\ live m' = live m
    else r = None /\ sv_rep s' a' /\ out s' = o.

(** The start: the managers and the network layer. *)
Definition started (k : listen_answers) (garbage : bytes) (m : mem) (s : server) (m2 : mem) (ps : list McastPair) : Prop :=
  (forall f : ServerNet -> server -> M (option Z * server),
     ('(r, s) ← ServerMng_Init (stopped []);
      if negb (0 =? r) then mret (Some EXIT_FAILURE, s) else
      '(net, s) ← ServerNet_Create server_close k CHAT_TCP_PORT garbage s;
      match net with
      | None => s ← ServerMng_Destroy s; mret (Some EXIT_FAILURE, s)
      | Some net => f net s
      end) m
     = f (MkServerNet (listen_socket k) (listen_socket k) ({[listen_socket k]} ∪ ∅)
            (replicate (Z.to_nat MAX_CLIENTS) (MkClient (-1) garbage 0))) s m2) /\
  out s = [] /\ sublist ps initial_pairs /\ sv_rep s (fresh ps) /\
  live m2 = live m + sv_blocks s (fresh ps) + 1 /\ (alloc_ok m -> alloc_ok m2 /\ ps = initial_pairs).

Lemma rep_start k garbage m : listens k CHAT_TCP_PORT = true -> 0 <= listen_socket k < MAX_CLIENTS ->
  (exists s m2 ps, started k garbage m s m2 ps) \/
  (~ alloc_ok m /\ forall f, exists o m',
     ('(r, s) ← ServerMng_Init (stopped []);
      if negb (0 =? r) then mret (Some EXIT_FAILURE, s) else
      '(net, s) ← ServerNet_Create server_close k CHAT_TCP_PORT garbage s;
      match net with
      | None => s ← ServerMng_Destroy s; mret (Some EXIT_FAILURE, s)
      | Some net => f net s
      end) m = Some ((Some EXIT_FAILURE, stopped o), m') /\ live m' = live m).
Proof.
  intros Hk Hsock. destruct (rep_Init [] m) as (r & s & m1 & E1 & C1 & O1).
  destruct C1 as [(-> & Ho & ps & Hsub & R & L1 & Hps)|(-> & -> & L1 & Hbad)]; cycle 1.
  { right. split; [done|]. intros f. mrun E1. by exists [], m1. }
  destruct (rep_NetCreate k CHAT_TCP_PORT garbage s m1 (fun _ => Hsock)) as (net & o & m2 & E2 & C2 & O2 & _ & Om2).
  rewrite Ho in *. cbn [app] in *. destruct net as [net|]; cycle 1.
  { right. split; [by intros Hm; destruct (O2 (O1 Hm) Hk)|]. intros f. mrun E1. cbn [Z.eqb negb]. mrun E2.
    destruct C2 as [L2 _]. mrun (rep_ServerDestroy _ _ m2 (sv_rep_out _ _ o R)). eexists _, _. split; [done|].
    cbn [live]. unfold sv_blocks in *. cbn in *. lia. }
  destruct C2 as (-> & L2 & -> & _). left. assert (set_out s [] = s) as Es by (rewrite <-Ho; by destruct s).
  rewrite Es in *. exists s, m2, ps. split; [intros f; mrun E1; cbn [Z.eqb negb]; by mrun E2|].
  split; [done|]. split; [done|]. split; [done|]. split; [lia|]. intros Hm. split; [by apply Om2, O1|by apply Hps].
Qed.

(** [main] when it can listen. *)
Lemma rep_main k garbage early passes m : listens k CHAT_TCP_PORT = true -> 0 <= listen_socket k ->
  blen garbage = RECV_BUFFER_SIZE -> is_byte_list garbage ->
  honest (listen_socket k) no_slots (answers_seen early passes) ->
  if undefined k early passes
  then main k garbage early passes (stopped []) m = None \/
    (~ alloc_ok m /\ exists o m', main k garbage early passes (stopped []) m = Some ((Some EXIT_FAILURE, stopped o), m') /\
       live m' = live m)
  else exists r s' m', main k garbage early passes (stopped []) m = Some ((r, s'), m') /\
    exact_outcome (listen_socket k) early passes m r s' m'.
Proof.
  intros Hk Hs0 Hg Hgb Hh. destruct (undefined k early passes) eqn:Hu.
  { pose proof (main_outcome k garbage early passes m (or_intror Hs0) Hg Hgb Hh) as H.
    destruct (main k garbage early passes (stopped []) m) as [[[r s'] m']|]; [right|by left].
    destruct H as [[H _] Hbad]. destruct (Hbad Hu) as [Hm ->]. split; [done|]. destruct H as ((Hs & L & _) & _).
    exists (out s'), m'. by rewrite <-Hs. }
  unfold undefined in Hu. rewrite Hk in Hu. cbn [andb] in Hu. apply orb_false_iff in Hu as [Hs1 Hov].
  apply Z.leb_gt in Hs1. assert (0 <= listen_socket k < MAX_CLIENTS) as Hsock by done.
  unfold main.
  destruct (rep_start k garbage m Hk Hsock) as [(s & m2 & ps & Hrun & Ho & Hsub & R & L2 & Hm2)|(Hbad & Hrun)]; cycle 1.
  { edestruct Hrun as (o & m' & E & L). rewrite E. eexists _, _, m'. split; [done|]. by left. }
  rewrite Hrun. clear Hrun. set (net := MkServerNet _ _ _ _) in *.
  assert (slots_of net = no_slots) as Hslots by apply slots_of_create.
  set (answers := answers_seen early passes) in *.
  pose proof (loop_exact (onMsg := ServerMng_HandleMessage) (onDisc := ServerMng_OnDisconnect) (close := server_close)
    (HH := server_Handlers 0) answers net) as HL.
  rewrite Hslots in *. change (listenFd net) with (listen_socket k) in *. rewrite Hov in HL.
  destruct HL as (net' & N' & Hl & Hs' & P); [by apply net_inv_create|done|].
  destruct (spec_net_ok (listen_socket k) no_slots answers no_slots_ok Hh Hov) as [_ Hev].
  destruct (rep_performs _ s _ m2 R Hev) as (s' & m3 & a' & E3 & R' & L3 & (o & Eo & F) & O3).
  pose proof (P s m2) as E4. rewrite (M_bind_Some _ _ _ _ _ E3) in E4. rewrite Ho in *. cbn [app] in *.
  assert (alloc_ok m -> (a', o) = spec_server (listen_socket k) answers) as Hspec.
  { intros Hm. destruct (Hm2 Hm) as [Hm' ->]. destruct (O3 Hm') as (_ & -> & Ho3). rewrite Eo in Ho3. rewrite Ho3.
    symmetry. apply surjective_pairing. }
  apply (net_run_effect_weaken _ (alloc_ok m)) in F; [|by intros Hm; apply Hm2].
  unfold mbind at 1, M_bind at 1. rewrite ServerNet_Run_answers. fold (answers_seen early passes) (ends early passes).
  fold answers. rewrite (M_bind_Some _ _ _ _ _ E4). unfold exact_outcome. fold answers.
  destruct (ends early passes) eqn:Hends; cbn [mret M_ret]; cycle 1.
  { exists None, s', m3. split; [done|]. right. by exists ps, a', o. }
  mrun (rep_ServerDestroy s' a' m3 R').
  mrun (rep_NetDestroy net' (out s') (Mem (plan m3) (live m3 - sv_blocks s' a'))).
  erewrite M_bind_Some by apply rep_Destroy_stopped. eexists _, _, _. split; [done|]. right.
  exists ps, a', o. do 4 (split; [done|]). split; [|cbn [live]; lia].
  unfold stopped, closing_log. by rewrite Eo, open_clients_slots, Hs', Hl.
Qed.

(** ** Properties *)

(** C3: The whole server program, exactly.  For every sequence of passes in
    which the kernel keeps its contract - any number of clients, their messages
    cut and interleaved in any way, connections lost at any time - either a
    descriptor at or above [FD_SETSIZE] arrives, and the program has undefined
    behaviour, or it does what its specification does with
    the messages in the order of their completion.  As long as it has not been
    interrupted, its state represents the specified one, and what it has sent
    and closed, on which descriptor and in which order, is exactly what the
    specification answers, with a [close] for every connection that ended.
    When [SIGINT] has been handled, the pass in progress is worked off
    and [main] ends with [EXIT_SUCCESS]; every connection still open and the
    listening socket have then been closed as well, and everything allocated has
    been freed.  If memory runs out, [main] may fail to start, and requests may
    be refused, which changes nothing but that addresses may be lost; all the
    rest remains true.  This is the program as long as none of its sends raises
    [SIGPIPE]; the first that does ends it there ([main_safe]). *)
Theorem server_program_exact k garbage early passes m : listens k CHAT_TCP_PORT = true ->
  0 <= listen_socket k -> blen garbage = RECV_BUFFER_SIZE -> is_byte_list garbage ->
  honest (listen_socket k) no_slots (answers_seen early passes) ->
  let answers := answers_seen early passes in
  if undefined k early passes
  then main k garbage early passes (stopped []) m = None \/
    (~ alloc_ok m /\ exists o m', main k garbage early passes (stopped []) m = Some ((Some EXIT_FAILURE, stopped o), m') /\
       live m' = live m)
  else exists r s' m', main k garbage early passes (stopped []) m = Some ((r, s'), m') /\
    ((r = Some EXIT_FAILURE /\ ~ alloc_ok m /\ live m' = live m /\ s' = stopped (out s')) \/
     exists ps a' o, sublist ps initial_pairs /\
       net_run_effect (alloc_ok m) (spec_net (listen_socket k) no_slots answers).2 (fresh ps) a' o /\
       (alloc_ok m -> (a', o) = spec_server (listen_socket k) answers) /\
       if ends early passes
       then r = Some EXIT_SUCCESS /\ s' = stopped (o ++ closing_log (listen_socket k) answers) /\ live m' = live m
       else r = None /\ sv_rep s' a' /\ out s' = o).
Proof. apply rep_main. Qed.

Lemma server_program_exact_witness :
  let answers := answers_seen [] (demo_traffic [2]) in
  ends [] (demo_traffic []) = false /\ ends [] (demo_traffic [2]) = true /\
  undefined (demo_listen 5000) [] (demo_traffic [2]) = false /\
  (spec_server 3 answers).2 =
    [Sent 4 (status_frame OP_REG_REP ST_OK); Sent 4 (status_frame OP_LOGIN_REP ST_OK);
     Sent 5 (status_frame OP_LOGIN_REP ST_ERR_ALREADY_LOGGED_IN); Closed 4;
     Sent 5 (status_frame OP_CREATE_GROUP_REP ST_ERR_NOT_LOGGED_IN)] /\
  closing_log 3 answers = [Closed 5; Closed 3] /\
  exists r s' m', main (demo_listen 5000) (replicate 771 0) [] (demo_traffic [2]) (stopped []) (Mem [] 0)
      = Some ((r, s'), m') /\
    ((r = Some EXIT_FAILURE /\ ~ alloc_ok (Mem [] 0) /\ live m' = 0 /\ s' = stopped (out s')) \/
     exists ps a' o, sublist ps initial_pairs /\
       net_run_effect (alloc_ok (Mem [] 0)) (spec_net 3 no_slots answers).2 (fresh ps) a' o /\
       (alloc_ok (Mem [] 0) -> (a', o) = spec_server 3 answers) /\
       if ends [] (demo_traffic [2])
       then r = Some EXIT_SUCCESS /\ s' = stopped (o ++ closing_log 3 answers) /\ live m' = 0
       else r = None /\ sv_rep s' a' /\ out s' = o).
Proof.
  split; [by vm_compute|]. split; [by vm_compute|]. split; [by vm_compute|]. split; [by vm_compute|].
  split; [by vm_compute|].
  pose proof (server_program_exact (demo_listen 5000) (replicate 771 0) [] (demo_traffic [2]) (Mem [] 0)) as H.
  assert (undefined (demo_listen 5000) [] (demo_traffic [2]) = false) as E by by vm_compute. rewrite E in H.
  apply H; [by vm_compute|by vm_compute|by vm_compute|by apply Forall_replicate|].
  apply (bool_decide_eq_true_1 _). by vm_compute.
Defined.
