(* ===== verification/ClientNet.v ===== *)
(** * The transport of the client: [client/client_net.h], [client/client_net.c]

    Blocking sends and receives of exact numbers of bytes over one TCP
    connection.  The other end of the connection is an argument ([peer]), and
    so is the kernel: how many bytes each [send] accepts and each [recv]
    returns, and which calls fail.  The file proves that what is sent arrives
    complete and in order, that one receive takes exactly one frame off the
    stream, however the kernel splits both, and that every outcome is reported.
    A call that never returns is recorded in the connection. *)

From S2P Require Import Prelude Protocol.

(** ** Connecting *)

(** What the kernel and [inet_pton] answer: a descriptor from [socket] or -1,
    whether the address can be parsed, whether [connect] succeeds. *)
Record connect_answers := MkConnect { socket_fd : Z; pton_ok : bool; connect_ok : bool }.

(** The descriptor, and the descriptors that were closed. *)
Definition client_net_connect (k : connect_answers) (ip : ptr cstring) (port : Z) : Z * list Z :=
  match ip with
  | None => (-1, [])
  | Some _ =>
      let fd := socket_fd k in
      if fd <? 0 then (-1, []) else
      if negb (pton_ok k) then (-1, [fd]) else
      if negb (connect_ok k) then (-1, [fd]) else
      (fd, [])
  end.

Definition client_net_close (fd : Z) (closed : list Z) : list Z :=
  if fd >=? 0 then closed ++ [fd] else closed.

Section net.
Context {P : Type}.

(** What the other end does when bytes arrive, and what it sends back; [None]
    is undefined behaviour there. *)
Context (peer : P -> bytes -> option (P * bytes)).

(** ** The connection

    [incoming] has arrived and is not read yet.  The kernel's choices are
    streams: a negative number is a failing call, another one bounds how many
    bytes the call transfers.  The other end answers at once, or never: when
    there is nothing to read, 0 says that it has closed the connection, and any
    other choice that it stays silent, so that [recv] waits for ever.  A [send]
    with a choice below -1 does not return either: it raises [SIGPIPE], for which
    there is no handler, or waits for room that never comes.
    After a call that does not return the connection is [halted]: what the code
    would do then, if the call had failed, is no part of the run. *)
Record socket := MkSocket {
  remote : P;
  incoming : bytes;
  send_plan : nat -> Z;
  recv_plan : nat -> Z;
  halted : bool
}.

(** [send(fd, data, length data, 0)] *)
Definition sys_send (data : bytes) (s : socket) : option (Z * socket) :=
  let k := send_plan s 0%nat in
  let plan := fun i => send_plan s (S i) in
  if k <? 0 then Some (-1, MkSocket (remote s) (incoming s) plan (recv_plan s) (halted s || (k <? -1))) else
  let n := Z.min k (blen data) in
  if n =? 0 then Some (0, MkSocket (remote s) (incoming s) plan (recv_plan s) (halted s)) else
  '(p, r) ← peer (remote s) (take (Z.to_nat n) data);
  Some (n, MkSocket p (incoming s ++ r) plan (recv_plan s) (halted s)).

(** [recv(fd, dst, need, 0)]: the result and the bytes. *)
Definition sys_recv (need : Z) (s : socket) : Z * bytes * socket :=
  let k := recv_plan s 0%nat in
  let plan := fun i => recv_plan s (S i) in
  if k <? 0 then (-1, [], MkSocket (remote s) (incoming s) (send_plan s) plan (halted s)) else
  let n := Z.to_nat (Z.min (Z.max 1 k) need) in
  let data := take n (incoming s) in
  (blen data, data, MkSocket (remote s) (drop n (incoming s)) (send_plan s) plan
     (halted s || ((blen (incoming s) =? 0) && (k >? 0)))).

(** ** Sending

    Every turn sends at least a byte: the fuel is the number of bytes. *)
Fixpoint send_loop (fuel : nat) (buf : bytes) (len sent : Z) (s : socket) : option (Z * socket) :=
  if sent <? len then
    match fuel with
    | O => None
    | S fuel =>
        data ← buf_slice buf sent (len - sent);
        '(n, s) ← sys_send data s;
        if n <? 0 then Some (-1, s) else
        if n =? 0 then Some (-1, s) else
        send_loop fuel buf len (size_t (sent + n)) s
    end
  else Some (0, s).

Definition client_net_send_all (fd : Z) (buf : ptr bytes) (len : Z) (s : socket) : option (Z * socket) :=
  match buf with
  | Some b => if fd <? 0 then Some (-1, s) else send_loop (Z.to_nat len) b len 0 s
  | None => Some (-1, s)
  end.

(** ** Receiving

    [off] is where the pointer [buf] of the caller points into its buffer. *)
Fixpoint recv_loop (fuel : nat) (buf : bytes) (off need got : Z) (s : socket)
  : option (Z * bytes * socket) :=
  if got <? need then
    match fuel with
    | O => None
    | S fuel =>
        let '(n, data, s) := sys_recv (need - got) s in
        if n <? 0 then Some (-1, buf, s) else
        if n =? 0 then Some (-1, buf, s) else
        buf ← buf_write buf (off + got) data;
        recv_loop fuel buf off need (size_t (got + n)) s
    end
  else Some (0, buf, s).

Definition recv_exact (buf : bytes) (off need : Z) (s : socket) : option (Z * bytes * socket) :=
  recv_loop (Z.to_nat need) buf off need 0 s.

Definition client_net_recv_msg (fd : Z) (buf : ptr bytes) (out_len : ptr Z) (s : socket)
  : option (Z * ptr bytes * ptr Z * socket) :=
  match buf, out_len with
  | Some b, Some _ =>
      if fd <? 0 then Some (-1, buf, out_len, s) else
      '(r, b, s) ← recv_exact b 0 2 s;
      if negb (r =? 0) then Some (-1, Some b, out_len, s) else
      '(r, _, len) ← chat_peek_header (Some b) 2 (Some 0) (Some 0);
      if negb (r =? 0) then Some (-1, Some b, out_len, s) else
      len ← len;
      '(r, b, s) ← (if len >? 0 then recv_exact b 2 len s else Some (0, b, s));
      if negb (r =? 0) then Some (-1, Some b, out_len, s) else
      Some (0, Some b, Some (size_t (2 + len)), s)
  | _, _ => Some (-1, buf, out_len, s)
  end.

End net.
Arguments MkSocket {P}. Arguments remote {P}. Arguments incoming {P}.
Arguments send_plan {P}. Arguments recv_plan {P}. Arguments halted {P}.

(** ** The other end *)

(** What a connection relies on: in a state of the other end that satisfies
    [PI], any bytes up to a message can arrive; they lead to such a state. *)
Class Peer {P : Type} (peer : P -> bytes -> option (P * bytes)) (PI : P -> Prop) : Prop := {
  peer_ok : forall p b, PI p -> is_byte_list b -> 0 < blen b <= CHAT_MAX_MSG_SIZE ->
    exists p' r, peer p b = Some (p', r) /\ PI p' /\ is_byte_list r
}.

(** The other end on a sequence of chunks, with all its answers. *)
Fixpoint feed {P} (peer : P -> bytes -> option (P * bytes)) (p : P) (chunks : list bytes)
  : option (P * bytes) :=
  match chunks with
  | [] => Some (p, [])
  | c :: chunks =>
      '(p, r1) ← peer p c;
      '(p, r2) ← feed peer p chunks;
      Some (p, r1 ++ r2)
  end.

Section spec.
Context {P : Type} {peer : P -> bytes -> option (P * bytes)} {PI : P -> Prop} `{HP : !Peer peer PI}.

(** No call fails. *)
Definition reliable (s : socket (P := P)) : Prop :=
  (forall i, 0 < send_plan s i) /\ (forall i, 0 <= recv_plan s i).

Definition conn_ok (s : socket (P := P)) : Prop := PI (remote s) /\ is_byte_list (incoming s).

(** Exactly [chunks] were sent. *)
Record sent (s : socket) (chunks : list bytes) (s' : socket) : Prop := {
  sent_feed : exists r, feed peer (remote s) chunks = Some (remote s', r) /\ incoming s' = incoming s ++ r;
  sent_full : Forall (fun c => 0 < blen c) chunks;
  sent_ok : conn_ok s';
  sent_reliable : reliable s -> reliable s';
  sent_halted : halted s = true -> halted s' = true
}.

Lemma sent_cons s c s1 chunks s2 r : peer (remote s) c = Some (remote s1, r) -> incoming s1 = incoming s ++ r ->
  0 < blen c -> (reliable s -> reliable s1) -> halted s1 = halted s -> sent s1 chunks s2 -> sent s (c :: chunks) s2.
Proof.
  intros E Hi Hc Hr Hh [(r2 & E2 & Hi2) F O R Hm]. constructor.
  - exists (r ++ r2). cbn [feed]. rewrite E. cbn. rewrite E2. cbn. split; [done|].
    by rewrite Hi2, Hi, app_assoc.
  - by apply Forall_cons_2.
  - done.
  - tauto.
  - by rewrite <-Hh.
Qed.

(** A failing call. *)
Lemma sent_nothing s plan b : conn_ok s -> (reliable s -> forall i, 0 < plan i) ->
  sent s [] (MkSocket (remote s) (incoming s) plan (recv_plan s) (halted s || b)).
Proof.
  intros O H. constructor; cbn; [exists []; by rewrite app_nil_r|done|done| |by intros ->].
  intros Hr. split; [by apply H|apply Hr].
Qed.

Lemma sent_none s : conn_ok s -> sent s [] s.
Proof. intros O. constructor; [exists []; by rewrite app_nil_r|constructor|done..]. Qed.

Lemma sys_send_spec data s : conn_ok s -> is_byte_list data -> 0 < blen data <= CHAT_MAX_MSG_SIZE ->
  exists n s', sys_send peer data s = Some (n, s') /\ n <= blen data /\ conn_ok s' /\
    (reliable s -> reliable s' /\ 0 < n) /\
    (n <= 0 -> sent s [] s') /\
    (0 < n -> halted s' = halted s) /\
    (0 < n -> forall chunks s2, sent s' chunks s2 -> sent s (take (Z.to_nat n) data :: chunks) s2).
Proof.
  intros Hc Hd Hl. pose proof Hc as [Hp Hi]. unfold sys_send.
  destruct (send_plan s 0%nat <? 0) eqn:E0; bprop.
  { eexists (-1), _. split; [done|]. split; [lia|]. split; [done|].
    assert (reliable s -> False) by (intros [H _]; specialize (H 0%nat); lia).
    split; [tauto|]. split; [|lia]. intros _. apply sent_nothing; [done|tauto]. }
  destruct (Z.min (send_plan s 0%nat) (blen data) =? 0) eqn:E1; bprop.
  { eexists 0, _. split; [done|]. split; [lia|]. split; [done|].
    assert (reliable s -> False) by (intros [H _]; specialize (H 0%nat); lia).
    split; [tauto|]. split; [|lia]. intros _. pose proof (sent_nothing s (fun i => send_plan s (S i)) false Hc) as Hs.
    rewrite orb_false_r in Hs. apply Hs. tauto. }
  set (n := Z.min (send_plan s 0%nat) (blen data)) in *.
  assert (blen (take (Z.to_nat n) data) = n) as Ln.
  { unfold blen in *. rewrite length_take. lia. }
  destruct (peer_ok (remote s) (take (Z.to_nat n) data) Hp) as (p' & r & E & Hp' & Hr);
    [by apply Forall_take|lia|].
  rewrite E. cbn [mbind option_bind]. eexists n, _. split; [done|]. split; [lia|].
  assert (conn_ok (MkSocket p' (incoming s ++ r) (fun i => send_plan s (S i)) (recv_plan s) (halted s))) as O.
  { split; [done|]. by apply Forall_app. }
  split; [done|]. split; [|split; [lia|split; [done|]]].
  - intros [R1 R2]. split; [split; [intros i; apply R1|done]|]. specialize (R1 0%nat). lia.
  - intros _ chunks s2 Hs.
    apply (sent_cons s _ (MkSocket p' (incoming s ++ r) (fun i => send_plan s (S i)) (recv_plan s) (halted s)) chunks s2 r);
      [done|done|lia| |done|done].
    intros [R1 R2]. split; [intros i; apply R1|done].
Qed.

Lemma send_loop_spec fuel b len n s : conn_ok s -> is_byte_list b ->
  0 <= n <= len -> len <= blen b -> len <= CHAT_MAX_MSG_SIZE -> len - n <= Z.of_nat fuel ->
  exists r s' chunks, send_loop peer fuel b len n s = Some (r, s') /\ sent s chunks s' /\
    ((r = 0 /\ concat chunks = drop (Z.to_nat n) (take (Z.to_nat len) b) /\ halted s' = halted s) \/
     (r = -1 /\ concat chunks `prefix_of` drop (Z.to_nat n) (take (Z.to_nat len) b) /\
      blen (concat chunks) < len - n /\ ~ reliable s)).
Proof.
  intros O Hb Hn Hl Hmax. revert n s O Hn. induction fuel as [|fuel IH]; intros n s O Hn Hf.
  - assert (n = len) as -> by lia. cbn [send_loop]. rewrite Z.ltb_irrefl.
    exists 0, s, []. split; [done|]. split; [by apply sent_none|left].
    split; [done|]. split; [|done]. symmetry. apply drop_ge. rewrite length_take. lia.
  - cbn [send_loop]. destruct (n <? len) eqn:E; bprop; cycle 1.
    { assert (n = len) as -> by lia. exists 0, s, []. split; [done|]. split; [by apply sent_none|left].
      split; [done|]. split; [|done]. symmetry. apply drop_ge. rewrite length_take. lia. }
    rewrite buf_slice_Some by lia. cbn [mbind option_bind].
    set (data := take (Z.to_nat (len - n)) (drop (Z.to_nat n) b)).
    assert (drop (Z.to_nat n) (take (Z.to_nat len) b) = data) as Ed.
    { unfold data. rewrite take_drop_commute. do 2 f_equal. lia. }
    assert (blen data = len - n) as Ld.
    { unfold data, blen in *. rewrite length_take, length_drop. lia. }
    destruct (sys_send_spec data s O) as (k & s1 & E1 & Hk & O1 & R1 & H0 & Hh & H1);
      [by apply Forall_take, Forall_drop|lia|].
    rewrite E1. cbn [mbind option_bind]. rewrite Ed.
    assert (k <= 0 -> exists r s' chunks, Some (-1, s1) = Some (r, s') /\ sent s chunks s' /\
      ((r = 0 /\ concat chunks = data /\ halted s' = halted s) \/ (r = -1 /\ concat chunks `prefix_of` data /\ blen (concat chunks) < len - n /\ ~ reliable s)))
      as Hfail.
    { intros Hk0. exists (-1), s1, []. split; [done|]. split; [by apply H0|]. right. split; [done|].
      split; [apply prefix_nil|]. split; [unfold blen; cbn [concat length]; lia|].
      intros Hr. destruct (R1 Hr). lia. }
    destruct (k <? 0) eqn:E2; bprop; [apply Hfail; lia|].
    destruct (k =? 0) eqn:E3; bprop; [apply Hfail; lia|].
    assert (size_t (n + k) = n + k) as -> by (apply Z.mod_small; revert Hmax; chat_consts; lia).
    destruct (IH (n + k) s1 O1) as (r & s' & chunks & E' & S' & Hr); [lia|lia|].
    exists r, s', (take (Z.to_nat k) data :: chunks). split; [done|]. split; [apply H1; [lia|done]|].
    assert (drop (Z.to_nat (n + k)) (take (Z.to_nat len) b) = drop (Z.to_nat k) data) as Ed2.
    { rewrite <-Ed, drop_drop. f_equal. lia. }
    rewrite Ed2 in Hr. cbn [concat]. destruct Hr as [(-> & -> & Hh')|(-> & Hp & Hlt & Hnr)]; [left|right].
    + split; [done|]. rewrite take_drop. split; [done|]. rewrite Hh', Hh by lia. done.
    + split; [done|]. split; [|split; [|tauto]].
      * rewrite <-(take_drop (Z.to_nat k) data) at 2. by apply prefix_app.
      * rewrite blen_app. enough (blen (take (Z.to_nat k) data) <= k) by lia.
        unfold blen. rewrite length_take. lia.
Qed.

(** ** Receiving *)

(** The bytes [data] were read off the connection. *)
Record read_off (s : socket) (data : bytes) (s' : socket) : Prop := {
  ro_stream : incoming s = data ++ incoming s';
  ro_remote : remote s' = remote s;
  ro_reliable : reliable s -> reliable s';
  ro_halted : halted s = true -> halted s' = true
}.

Lemma read_off_ok s data s' : conn_ok s -> read_off s data s' -> conn_ok s' /\ is_byte_list data.
Proof.
  intros [Hp Hi] [E R _ _]. unfold conn_ok, is_byte_list in *. rewrite R. rewrite E in Hi.
  apply Forall_app in Hi as [? ?]. done.
Qed.

Lemma read_off_nil s : read_off s [] s.
Proof. by constructor. Qed.

Lemma read_off_app s d1 s1 d2 s2 : read_off s d1 s1 -> read_off s1 d2 s2 -> read_off s (d1 ++ d2) s2.
Proof. intros [E1 R1 H1 M1] [E2 R2 H2 M2]. constructor; [by rewrite E1, E2, app_assoc|congruence|tauto|tauto]. Qed.

Lemma sys_recv_spec need s : 0 < need ->
  exists n data s', sys_recv need s = (n, data, s') /\ read_off s data s' /\ blen data <= need /\
    (n < 0 -> data = [] /\ ~ reliable s) /\ (0 <= n -> n = blen data) /\
    (n = 0 -> data = [] /\ incoming s' = []) /\ (0 < n -> halted s' = halted s).
Proof.
  intros Hn. unfold sys_recv. destruct (recv_plan s 0%nat <? 0) eqn:E; bprop.
  - eexists (-1), [], _. split; [done|]. split; [|split; [unfold blen; cbn [length]; lia|]].
    + constructor; [done|done| |done]. intros [R1 R2]. split; [done|]. intros i. apply R2.
    + split; [|split; [lia|split; [done|lia]]]. intros _. split; [done|]. intros [_ R2]. specialize (R2 0%nat). lia.
  - eexists _, _, _. split; [done|]. split; [|split; [|split; [|split; [done|split]]]].
    + constructor; cbn; [by rewrite take_drop|done| |by intros ->]. intros [R1 R2]. split; [done|]. intros i. apply R2.
    + unfold blen. rewrite length_take. lia.
    + intros H. pose proof (blen_nonneg (take (Z.to_nat (Z.min (Z.max 1 (recv_plan s 0)) need)) (incoming s))). lia.
    + intros H. cbn. destruct (incoming s) as [|c rest]; [by rewrite take_nil, drop_nil|].
      exfalso. unfold blen in H. rewrite length_take in H. cbn [length] in H. lia.
    + cbn [halted]. intros H. rewrite (proj2 (Z.eqb_neq (blen (incoming s)) 0)); [by rewrite orb_false_r|].
      unfold blen in *. rewrite length_take in H. lia.
Qed.

(** The buffer after [data] was stored at [i]. *)
Definition stored_at (b : bytes) (i : Z) (data : bytes) : bytes :=
  take (Z.to_nat i) b ++ data ++ drop (Z.to_nat i + length data) b.

Lemma stored_at_length b i data : 0 <= i -> i + blen data <= blen b -> blen (stored_at b i data) = blen b.
Proof. intros. unfold stored_at, blen in *. rewrite !length_app, length_take, length_drop. lia. Qed.

Lemma stored_at_bytes b i data : is_byte_list b -> is_byte_list data -> is_byte_list (stored_at b i data).
Proof.
  intros. apply Forall_app. split; [by apply Forall_take|]. apply Forall_app. split; [done|by apply Forall_drop].
Qed.

Lemma stored_at_app b i d1 d2 : 0 <= i -> i + blen d1 <= blen b ->
  stored_at (stored_at b i d1) (i + blen d1) d2 = stored_at b i (d1 ++ d2).
Proof.
  intros Hi Hl. unfold stored_at, blen in *. rewrite length_app.
  replace (Z.to_nat (i + Z.of_nat (length d1))) with (length (take (Z.to_nat i) b ++ d1))
    by (rewrite length_app, length_take; lia).
  rewrite (app_assoc (take _ b)), take_app_length, <-!app_assoc. do 3 f_equal.
  rewrite (app_assoc (take _ b)), drop_app_add, drop_drop. f_equal. lia.
Qed.

Lemma stored_at_nil b i : stored_at b i [] = b.
Proof. unfold stored_at. cbn [app length]. by rewrite Nat.add_0_r, take_drop. Qed.

Lemma recv_loop_spec fuel b off need got s : conn_ok s ->
  0 <= off -> 0 <= got <= need -> off + need <= blen b -> need <= CHAT_MAX_MSG_SIZE ->
  need - got <= Z.of_nat fuel ->
  exists r s' data, recv_loop fuel b off need got s = Some (r, stored_at b (off + got) data, s') /\
    read_off s data s' /\
    ((r = 0 /\ blen data = need - got /\ halted s' = halted s) \/
     (r = -1 /\ blen data < need - got /\ (reliable s -> incoming s' = []))).
Proof.
  intros O Hoff Hg Hl Hmax. revert b got s O Hg Hl.
  induction fuel as [|fuel IH]; intros b got s O Hg Hl Hf; cbn [recv_loop];
    destruct (got <? need) eqn:E; bprop; try lia.
  1, 3: exists 0, s, []; rewrite stored_at_nil; split; [done|]; split; [apply read_off_nil|left];
    split; [done|split; [unfold blen; cbn [length]; lia|done]].
  destruct (sys_recv_spec (need - got) s) as (n & data & s1 & -> & R1 & Hd & Hneg & Hpos & Hz & Hh); [lia|].
  destruct (n <? 0) eqn:E1; bprop.
  { destruct (Hneg E1) as [-> Hnr]. exists (-1), s1, []. rewrite stored_at_nil. split; [done|].
    split; [done|right]. split; [done|]. split; [unfold blen; cbn [length]; lia|done]. }
  destruct (n =? 0) eqn:E2; bprop.
  { destruct (Hz E2) as [-> Hin]. exists (-1), s1, []. rewrite stored_at_nil. split; [done|].
    split; [done|right]. split; [done|]. split; [unfold blen; cbn [length]; lia|done]. }
  specialize (Hh ltac:(lia)). rewrite (Hpos ltac:(lia)) in *. unfold buf_write. rewrite !(proj2 (Z.leb_le _ _)) by lia.
  cbn [andb mbind option_bind]. fold (stored_at b (off + got) data).
  assert (size_t (got + blen data) = got + blen data) as ->.
  { apply Z.mod_small. revert Hmax. chat_consts. lia. }
  destruct (read_off_ok s data s1 O R1) as [O1 _].
  destruct (IH (stored_at b (off + got) data) (got + blen data) s1 O1) as (r & s' & d2 & E' & R2 & Hr);
    [lia|rewrite stored_at_length; lia|lia|].
  exists r, s', (data ++ d2). rewrite E'.
  replace (off + (got + blen data)) with (off + got + blen data) by lia. rewrite stored_at_app by lia.
  split; [done|]. split; [by eapply read_off_app|]. rewrite blen_app.
  destruct Hr as [(-> & Hr & Hh')|(-> & Hr & Hin)]; [left; split; [done|split; [lia|congruence]]|right].
  split; [done|]. split; [lia|]. intros Hrel. apply Hin. by apply R1.
Qed.

Lemma recv_exact_spec b off need s : conn_ok s -> 0 <= off -> 0 <= need <= CHAT_MAX_MSG_SIZE ->
  off + need <= blen b ->
  exists r s' data, recv_exact b off need s = Some (r, stored_at b off data, s') /\ read_off s data s' /\
    ((r = 0 /\ blen data = need /\ halted s' = halted s) \/ (r = -1 /\ blen data < need /\ (reliable s -> incoming s' = []))).
Proof.
  intros O Hoff Hn Hl. unfold recv_exact.
  destruct (recv_loop_spec (Z.to_nat need) b off need 0 s O) as (r & s' & data & E & R & Hr); [lia..|].
  exists r, s', data. rewrite Z.add_0_r in E. rewrite Z.sub_0_r in Hr. done.
Qed.

(** One whole frame. *)
Definition one_frame (b : bytes) : Prop :=
  match b with t :: l :: body => blen body = l | _ => False end.

(** The beginning of a frame. *)
Definition unfinished (b : bytes) : Prop :=
  match b with t :: l :: body => blen body < l | _ => True end.

Lemma stored_at_0 b data : stored_at b 0 data = data ++ drop (length data) b.
Proof. unfold stored_at. change (Z.to_nat 0) with 0%nat. by rewrite take_0. Qed.

Lemma recv_msg_spec fd b ol s : conn_ok s -> 0 <= fd -> CHAT_MAX_MSG_SIZE <= blen b ->
  exists r s' data, client_net_recv_msg fd (Some b) (Some ol) s
      = Some (r, Some (stored_at b 0 data), Some (if r =? 0 then blen data else ol), s') /\
    read_off s data s' /\
    ((r = 0 /\ one_frame data /\ halted s' = halted s) \/ (r = -1 /\ unfinished data /\ (reliable s -> incoming s' = []))).
Proof.
  intros O Hfd Hb. unfold client_net_recv_msg. rewrite (proj2 (Z.ltb_ge _ _)) by lia.
  destruct (recv_exact_spec b 0 2 s O) as (r & s1 & d1 & E1 & R1 & Hr);
    [lia|chat_consts; lia|revert Hb; chat_consts; lia|].
  rewrite E1. cbn [mbind option_bind]. destruct Hr as [(-> & Ld & Hh1)|(-> & Ld & Hin)]; cbn [Z.eqb negb]; cycle 1.
  { exists (-1), s1, d1. split; [done|]. split; [done|right]. split; [done|]. split; [|done].
    destruct d1 as [|t [|l body]]; [done..|]. unfold blen in Ld. cbn [length] in Ld. lia. }
  destruct d1 as [|t [|l [|? ?]]]; try (unfold blen in Ld; cbn [length] in Ld; lia).
  assert (forall body, stored_at (stored_at b 0 [t; l]) 2 body = stored_at b 0 (t :: l :: body)) as Happ.
  { intros body. apply (stored_at_app b 0 [t; l] body); [lia|]. revert Hb. unfold blen. cbn [length]. chat_consts. lia. }
  assert (chat_peek_header (Some (stored_at b 0 [t; l])) 2 (Some 0) (Some 0) = Some (0, Some t, Some l)) as ->.
  { by rewrite stored_at_0. }
  cbn [mbind option_bind Z.eqb negb]. destruct (read_off_ok s [t; l] s1 O R1) as [O1 Hd].
  assert (is_u8 l) as Hl by (unfold is_byte_list in Hd; rewrite !Forall_cons_iff in Hd; tauto). unfold is_u8 in Hl.
  assert (size_t (2 + l) = 2 + l) as Es by (apply Z.mod_small; lia).
  destruct (l >? 0) eqn:El; rewrite Z.gtb_ltb in El; bprop; cycle 1.
  { assert (l = 0) as -> by lia. cbn [mbind option_bind Z.eqb negb].
    exists 0, s1, [t; 0]. split; [done|]. split; [done|left]. done. }
  destruct (recv_exact_spec (stored_at b 0 [t; l]) 2 l s1 O1) as (r & s2 & body & E2 & R2 & Hr);
    [lia|chat_consts; lia|rewrite stored_at_length by (revert Hb; unfold blen; cbn [length]; chat_consts; lia);
      revert Hb; chat_consts; lia|].
  rewrite E2, Happ. cbn [mbind option_bind].
  pose proof (read_off_app s [t; l] s1 body s2 R1 R2) as R. cbn [app] in R.
  destruct Hr as [(-> & Lb & Hh2)|(-> & Lb & Hin)]; cbn [Z.eqb negb].
  - exists 0, s2, (t :: l :: body). split; [|split; [done|left; split; [done|split; [done|congruence]]]].
    rewrite Es. cbn [Z.eqb]. assert (blen (t :: l :: body) = 2 + l) as -> by (rewrite !blen_cons; lia). done.
  - exists (-1), s2, (t :: l :: body). split; [done|]. split; [done|right].
    split; [done|]. split; [done|]. intros Hrel. apply Hin. by apply R1.
Qed.

Lemma one_frame_app f f' r r' : one_frame f -> one_frame f' -> f ++ r = f' ++ r' -> f = f' /\ r = r'.
Proof.
  destruct f as [|t [|l body]], f' as [|t' [|l' body']]; try done. cbn [one_frame app].
  intros Hl Hl' [= -> -> E]. unfold blen in *. apply app_inj_1 in E as [-> ->]; [done|lia].
Qed.

(** A whole frame that has arrived is what is read. *)
Lemma recv_msg_frame fd b ol s f rest : conn_ok s -> reliable s -> 0 <= fd -> CHAT_MAX_MSG_SIZE <= blen b ->
  incoming s = f ++ rest -> one_frame f ->
  exists s', client_net_recv_msg fd (Some b) (Some ol) s
      = Some (0, Some (f ++ drop (length f) b), Some (blen f), s') /\
    incoming s' = rest /\ remote s' = remote s /\ reliable s' /\ halted s' = halted s.
Proof.
  intros O Hr Hfd Hb Ef Hf. destruct (recv_msg_spec fd b ol s O Hfd Hb) as (r & s' & data & E & [Ei Er Hr' _] & H).
  destruct H as [(-> & Hd & Hh)|(-> & Hu & Hin)].
  - rewrite Ef in Ei. destruct (one_frame_app f data rest (incoming s') Hf Hd Ei) as [<- Hrest].
    exists s'. rewrite E, stored_at_0. cbn [Z.eqb]. split; [done|]. split; [done|]. split; [done|]. split; [by apply Hr'|done].
  - exfalso. rewrite (Hin Hr), app_nil_r, Ef in Ei. subst data.
    destruct f as [|t [|l body]]; [done..|]. cbn [app unfinished one_frame] in *.
    rewrite blen_app in Hu. pose proof (blen_nonneg rest). lia.
Qed.

Lemma send_all_spec fd b n s : conn_ok s -> is_byte_list b -> 0 <= fd ->
  0 <= n -> n <= blen b -> n <= CHAT_MAX_MSG_SIZE ->
  exists r s' chunks, client_net_send_all peer fd (Some b) n s = Some (r, s') /\ sent s chunks s' /\
    ((r = 0 /\ concat chunks = take (Z.to_nat n) b /\ halted s' = halted s) \/
     (r = -1 /\ concat chunks `prefix_of` take (Z.to_nat n) b /\ blen (concat chunks) < n /\ ~ reliable s)).
Proof.
  intros O Hb Hfd H0 H1 H2. unfold client_net_send_all. rewrite (proj2 (Z.ltb_ge _ _)) by lia.
  pose proof (send_loop_spec (Z.to_nat n) b n 0 s O Hb) as H. rewrite Z.sub_0_r in H. apply H; lia.
Qed.

End spec.

(** ** The other end as a recorder *)

(** It keeps what it is sent, and answers nothing. *)
Definition recorder (p : bytes) (b : bytes) : option (bytes * bytes) := Some (p ++ b, []).

#[export] Instance recorder_Peer : Peer recorder (fun _ => True).
Proof. constructor. intros p b _ _ _. exists (p ++ b), []. split; [done|]. split; [done|constructor]. Qed.

Lemma recorder_feed chunks p : feed recorder p chunks = Some (p ++ concat chunks, []).
Proof.
  revert p. induction chunks as [|c chunks IH]; intros p; cbn [feed concat]; [by rewrite app_nil_r|].
  change (recorder p c) with (Some (p ++ c, @nil Z)). cbn [mbind option_bind]. rewrite IH. cbn [mbind option_bind app]. by rewrite <-app_assoc.
Qed.

(** ** Properties *)

(** C20: The transport is exact in both directions, whatever the kernel does.
    Sending a buffer of at most a message hands over a prefix of it, in order
    and without repetition; 0 is returned exactly when all of it was handed
    over, -1 otherwise, and only after a call of the kernel failed.  Receiving
    takes off the stream, in order, exactly one whole frame and stores it at
    the start of the buffer with its length, or reports -1, after having taken
    only the beginning of a frame; that happens only if a call failed or the
    stream ended.  Both loops end, and neither leaves the bounds of its buffer.
    If a call of the kernel does not return - a [recv] on a connection that
    stays silent, a [send] that raises [SIGPIPE] - the function does not return
    either: the connection is [halted], and the result -1 that is given for it
    belongs to no run. *)
Theorem client_transport_exact (P : Type) (peer : P -> bytes -> option (P * bytes)) (PI : P -> Prop)
    `{!Peer peer PI} fd b n buf ol (s : socket) : conn_ok (PI := PI) s -> 0 <= fd ->
  is_byte_list b -> 0 <= n <= blen b -> n <= CHAT_MAX_MSG_SIZE -> CHAT_MAX_MSG_SIZE <= blen buf ->
  (exists r s' chunks ans, client_net_send_all peer fd (Some b) n s = Some (r, s') /\ conn_ok (PI := PI) s' /\
     feed peer (remote s) chunks = Some (remote s', ans) /\ incoming s' = incoming s ++ ans /\
     concat chunks `prefix_of` take (Z.to_nat n) b /\
     (if r =? 0 then concat chunks = take (Z.to_nat n) b /\ halted s' = halted s
      else r = -1 /\ blen (concat chunks) < n /\ ~ reliable s)) /\
  (exists r s' data, client_net_recv_msg fd (Some buf) (Some ol) s
       = Some (r, Some (data ++ drop (length data) buf), Some (if r =? 0 then blen data else ol), s') /\
     incoming s = data ++ incoming s' /\ remote s' = remote s /\
     (if r =? 0 then one_frame data /\ halted s' = halted s
      else r = -1 /\ unfinished data /\ (reliable s -> incoming s' = []))).
Proof.
  intros O Hfd Hb Hn Hmax Hbuf. split.
  - destruct (send_all_spec fd b n s O Hb Hfd) as (r & s' & chunks & E & [(ans & F & Hi) _ O' _ _] & Hr); [lia..|].
    exists r, s', chunks, ans. do 4 (split; [done|]).
    destruct Hr as [(-> & Hc)|(-> & Hp & H)]; [split; [by rewrite (proj1 Hc)|done]|done].
  - destruct (recv_msg_spec fd buf ol s O Hfd Hbuf) as (r & s' & data & E & [Ei Er _ _] & Hr).
    exists r, s', data. rewrite stored_at_0 in E. do 3 (split; [done|]).
    by destruct Hr as [(-> & H)|(-> & H)].
Qed.

(** For the witnesses: another end that sends everything back. *)
Definition echo (p : unit) (b : bytes) : option (unit * bytes) := Some (p, b).

#[export] Instance echo_Peer : Peer echo (fun _ => True).
Proof. constructor. intros [] b _ Hb _. by exists tt, b. Qed.

Lemma client_transport_exact_witness :
  let s := MkSocket tt [6; 1; 0; 2] (fun i => if (i <? 2)%nat then 1 else -1) (fun _ => 2) false in
  let buf := replicate 257 9 in
  (exists r s' chunks ans, client_net_send_all echo 3 (Some [5; 0; 7]) 2 s = Some (r, s') /\
     conn_ok (PI := fun _ => True) s' /\
     feed echo tt chunks = Some (remote s', ans) /\ incoming s' = [6; 1; 0; 2] ++ ans /\
     concat chunks `prefix_of` [5; 0] /\
     (if r =? 0 then concat chunks = [5; 0] /\ halted s' = false
      else r = -1 /\ blen (concat chunks) < 2 /\ ~ reliable s)) /\
  (exists r s' data, client_net_recv_msg 3 (Some buf) (Some 0) s
       = Some (r, Some (data ++ drop (length data) buf), Some (if r =? 0 then blen data else 0), s') /\
     [6; 1; 0; 2] = data ++ incoming s' /\ remote s' = tt /\
     (if r =? 0 then one_frame data /\ halted s' = false
      else r = -1 /\ unfinished data /\ (reliable s -> incoming s' = []))).
Proof.
  apply (client_transport_exact unit echo (fun _ => True) 3 [5; 0; 7] 2 (replicate 257 9) 0
    (MkSocket tt [6; 1; 0; 2] (fun i => if (i <? 2)%nat then 1 else -1) (fun _ => 2) false));
    [split; [done|unfold is_byte_list, is_u8; cbn; by repeat constructor]|done|
     unfold is_byte_list, is_u8; by repeat constructor|by vm_compute|by vm_compute|by vm_compute].
Defined.
