(* ===== verification/ClientGroups.v ===== *)
(** * The chat windows of the client: [client/client_groups_mng.h],
      [client/client_groups_mng.c], [client/child_msg.h]

    For every group the client has joined, a sender and a receiver window run
    as child processes; a list over [GenDlist] records their process ids, which
    arrive on a message queue.  What [system], [ftok], [msgget] and [msgrcv]
    answer is an argument, and what the client asks of the system (commands,
    signals, removal of the queue) is a log.  The file proves that the list
    tracks exactly the groups whose windows were opened and not closed, that
    every tracked process is killed exactly once, that no command line is cut
    off, and that nothing leaks on any path. *)

From Stdlib Require String.
From S2P Require Import Prelude Text Protocol GenDlist.
Import String.StringSyntax.

(** ** The system *)

Inductive os_event :=
| System (cmd : cstring)
| Kill (pid : Z)
| RemoveQueue (msqid : Z)
| Waits (mtype : Z).

(** The results of the next calls of [system], the messages of the queue (type
    and process id, those still to come included), and the log.  [Waits] in the
    log is a [msgrcv] that waits for ever ([stuck]): what the code would do then,
    had it returned -1, is no part of the run. *)
Record os := MkOs {
  system_plan : nat -> Z;
  mailbox : list (Z * Z);
  events : list os_event
}.

Definition log (o : os) (e : os_event) : os := MkOs (system_plan o) (mailbox o) (events o ++ [e]).

Definition is_wait (e : os_event) : bool := match e with Waits _ => true | _ => false end.
Definition stuck (o : os) : bool := existsb is_wait (events o).

Lemma stuck_log o e : is_wait e = false -> stuck (log o e) = stuck o.
Proof. intros H. unfold stuck, log. cbn [events]. rewrite existsb_app. cbn. by rewrite H, !orb_false_r. Qed.

(** [system(cmd)] *)
Definition sys_system (cmd : cstring) (o : os) : Z * os :=
  (system_plan o 0%nat, MkOs (fun i => system_plan o (S i)) (mailbox o) (events o ++ [System cmd])).

(** [msgrcv(msqid, &msg, sizeof(msg.pid), mtype, 0)]: the first message of the
    type; [None] when there is none and none will come.  A message with the
    process id -1 stands for a call that fails. *)
Fixpoint take_message (mtype : Z) (box : list (Z * Z)) : option (Z * list (Z * Z)) :=
  match box with
  | [] => None
  | (t, pid) :: box =>
      if t =? mtype then Some (pid, box)
      else '(p, box) ← take_message mtype box; Some (p, (t, pid) :: box)
  end.

Definition CHAT_CHILD_MTYPE_SENDER : Z := 1.
Definition CHAT_CHILD_MTYPE_RECEIVER : Z := 2.

(** ** State *)

(** [name] is the string held in [char name[CHAT_MAX_GROUPNAME_LEN + 1]]. *)
Record GroupEntry := MkEntry { name : cstring; sender_pid : Z; receiver_pid : Z }.

Record ClientGroupsMng := MkGroups { msqid : Z; groups : ptr (List GroupEntry) }.

(** ** Helpers *)

Definition destroy_entry (p : ptr GroupEntry) : M unit :=
  match p with Some _ => free | None => mret tt end.

(** The loop of [find_entry]; the fuel is the number of nodes. *)
Fixpoint find_loop (fuel : nat) (list : ptr (List GroupEntry)) (group_name : cstring) (itr e : ptr loc)
  : option (ptr loc) :=
  if decide (itr = e) then Some e else
  match fuel with
  | O => None
  | S fuel =>
      x ← ListItrGet list itr;
      if (match x with Some x => str_eqb (name x) group_name | None => false end) then Some itr else
      itr ← ListItrNext list itr;
      find_loop fuel list group_name itr e
  end.

Definition find_entry (list : ptr (List GroupEntry)) (group_name : cstring) : option (ptr loc) :=
  itr ← ListItrBegin list;
  find_loop (match list with Some l => size (nodes l) | None => O end) list group_name itr (ListItrEnd list).

Definition recv_child_pid (mtype : Z) (o : os) : Z * os :=
  match take_message mtype (mailbox o) with
  | Some (pid, box) => (pid, MkOs (system_plan o) box (events o))
  | None => (-1, log o (Waits mtype))
  end.

Definition kill_entry (e : ptr GroupEntry) (o : os) : os :=
  match e with
  | Some e =>
      let o := if sender_pid e >? 0 then log o (Kill (sender_pid e)) else o in
      if receiver_pid e >? 0 then log o (Kill (receiver_pid e)) else o
  | None => o
  end.

(** ** Operations *)

(** What [ftok] and [msgget] answer. *)
Record ipc_answers := MkIpc { ftok_ok : bool; msgget_id : Z }.

Definition client_groups_mng_create (k : ipc_answers) (o : os) : M (ptr ClientGroupsMng * os) :=
  ok ← malloc;
  if negb ok then mret (NULL, o) else
  if negb (ftok_ok k) then free;; mret (NULL, o) else
  if msgget_id k <? 0 then free;; mret (NULL, o) else
  l ← ListCreate;
  match l with
  | None => free;; mret (NULL, log o (RemoveQueue (msgget_id k)))
  | Some _ => mret (Some (MkGroups (msgget_id k) l), o)
  end.

(** The [while] loop of [client_groups_mng_clear]; the fuel is the number of
    nodes. *)
Fixpoint clear_loop (fuel : nat) (list : ptr (List GroupEntry)) (o : os) : M (ptr (List GroupEntry) * os) :=
  match fuel with
  | O => fault
  | S fuel =>
      '(e, list) ← ListPopHead list;
      match e with
      | None => mret (list, o)
      | Some _ =>
          let o := kill_entry e o in
          free;;
          clear_loop fuel list o
      end
  end.

Definition client_groups_mng_clear (m : ptr ClientGroupsMng) (o : os) : M (ptr ClientGroupsMng * os) :=
  match m with
  | Some g =>
      match groups g with
      | Some l =>
          '(list, o) ← clear_loop (size (nodes l)) (groups g) o;
          mret (Some (MkGroups (msqid g) list), o)
      | None => mret (m, o)
      end
  | None => mret (m, o)
  end.

Definition client_groups_mng_destroy (pm : ptr (ptr ClientGroupsMng)) (o : os)
  : M (ptr (ptr ClientGroupsMng) * os) :=
  match pm with
  | Some (Some g) =>
      '(m, o) ← client_groups_mng_clear (Some g) o;
      g ← lift m;
      (match groups g with
       | Some _ => ListDestroy (Some (groups g)) (Some destroy_entry);; mret tt
       | None => mret tt
       end);;
      let o := if msqid g >=? 0 then log o (RemoveQueue (msqid g)) else o in
      free;;
      mret (Some NULL, o)
  | _ => mret (pm, o)
  end.

(** The two command lines. *)
Definition sender_command (group_name mcast_ip : cstring) (mcast_port msqid : Z) (username : cstring) : cstring :=
  chars "gnome-terminal --title='" ++ group_name ++ chars " (sender)' -- ./bin/chat_sender " ++
  mcast_ip ++ chars " " ++ print_nat 10 mcast_port ++ chars " " ++ print_int msqid ++
  chars " '" ++ username ++ chars "' &".

Definition receiver_command (group_name mcast_ip : cstring) (mcast_port msqid : Z) : cstring :=
  chars "gnome-terminal --title='" ++ group_name ++ chars " (receiver)' -- ./bin/chat_receiver " ++
  mcast_ip ++ chars " " ++ print_nat 10 mcast_port ++ chars " " ++ print_int msqid ++
  chars " '" ++ group_name ++ chars "' &".

Definition client_groups_mng_on_join (m : ptr ClientGroupsMng) (group_name mcast_ip : ptr cstring)
    (mcast_port : Z) (username : ptr cstring) (o : os) : M (Z * ptr ClientGroupsMng * os) :=
  match m, group_name, mcast_ip with
  | Some g, Some gn, Some ip =>
      let user := match username with Some u => u | None => [] end in
      itr ← lift (find_entry (groups g) gn);
      if decide (itr <> ListItrEnd (groups g)) then mret (-1, m, o) else
      let '(r, o) := sys_system (snprintf 256 (sender_command gn ip mcast_port (msqid g) user)) o in
      if negb (r =? 0) then mret (-1, m, o) else
      let '(r, o) := sys_system (snprintf 256 (receiver_command gn ip mcast_port (msqid g))) o in
      if negb (r =? 0) then mret (-1, m, o) else
      ok ← malloc;
      if negb ok then mret (-1, m, o) else
      let nm := strncpy CHAT_MAX_GROUPNAME_LEN gn in
      let '(spid, o) := recv_child_pid CHAT_CHILD_MTYPE_SENDER o in
      let '(rpid, o) := recv_child_pid CHAT_CHILD_MTYPE_RECEIVER o in
      let e := MkEntry nm spid rpid in
      '(n, list) ← ListPushTail (groups g) (Some e);
      match n with
      | None =>
          let o := kill_entry (Some e) o in
          free;;
          mret (-1, Some (MkGroups (msqid g) list), o)
      | Some _ => mret (0, Some (MkGroups (msqid g) list), o)
      end
  | _, _, _ => mret (-1, m, o)
  end.

Definition client_groups_mng_on_leave (m : ptr ClientGroupsMng) (group_name : ptr cstring) (o : os)
  : M (ptr ClientGroupsMng * os) :=
  match m, group_name with
  | Some g, Some gn =>
      itr ← lift (find_entry (groups g) gn);
      if decide (itr = ListItrEnd (groups g)) then mret (m, o) else
      '(e, list) ← ListItrRemove (groups g) itr;
      match e with
      | None => mret (Some (MkGroups (msqid g) list), o)
      | Some _ =>
          let o := kill_entry e o in
          free;;
          mret (Some (MkGroups (msqid g) list), o)
      end
  | _, _ => mret (m, o)
  end.

(** ** The groups that are tracked *)

Definition cg_rep (g : ClientGroupsMng) (id : Z) (es : list GroupEntry) : Prop :=
  msqid g = id /\ exists l xs, groups g = Some l /\ dl_rep l xs /\ xs.*2 = Some <$> es.

(** Heap blocks: the structure, the list, a node and an entry per group. *)
Definition cg_blocks (es : list GroupEntry) : Z := 2 + 2 * Z.of_nat (length es).

Definition entry_pids (e : GroupEntry) : list Z := filter (fun p => 0 < p) [sender_pid e; receiver_pid e].

Definition log_all (o : os) (evs : list os_event) : os := MkOs (system_plan o) (mailbox o) (events o ++ evs).

Lemma log_all_app o e1 e2 : log_all (log_all o e1) e2 = log_all o (e1 ++ e2).
Proof. unfold log_all. cbn. by rewrite app_assoc. Qed.

Lemma log_all_nil o : log_all o [] = o.
Proof. destruct o. unfold log_all. cbn. by rewrite app_nil_r. Qed.

Lemma kill_pid p o : (if p >? 0 then log o (Kill p) else o) = log_all o (Kill <$> filter (fun p => 0 < p) [p]).
Proof.
  destruct (p >? 0) eqn:E; rewrite Z.gtb_ltb in E; bprop.
  - by rewrite filter_cons_True.
  - rewrite filter_cons_False by lia. by rewrite log_all_nil.
Qed.

Lemma kill_entry_spec e o : kill_entry (Some e) o = log_all o (Kill <$> entry_pids e).
Proof.
  unfold kill_entry. rewrite !kill_pid, log_all_app, <-fmap_app, <-filter_app. done.
Qed.

Lemma find_loop_spec l k xs1 xs2 es fuel : dl_rep l (xs1 ++ xs2) -> xs2.*2 = Some <$> es ->
  (length xs2 <= fuel)%nat ->
  ((k ∉ (name <$> es)) /\ find_loop fuel (Some l) k (Some (begin_of xs2)) (Some sentinel) = Some (Some sentinel)) \/
  (exists xa p e xb ea eb, xs2 = xa ++ (p, Some e) :: xb /\ es = ea ++ e :: eb /\ xa.*2 = Some <$> ea /\
     xb.*2 = Some <$> eb /\ name e = k /\
     find_loop fuel (Some l) k (Some (begin_of xs2)) (Some sentinel) = Some (Some p)).
Proof.
  revert xs1 es fuel. induction xs2 as [|[p d] xs2 IH]; intros xs1 es fuel Hl Hx Hf.
  { destruct es; [|done]. left. split; [apply not_elem_of_nil|]. by destruct fuel. }
  destruct es as [|x es]; [done|]. injection Hx as -> Hx. destruct fuel as [|fuel]; [cbn in Hf; lia|].
  cbn [find_loop begin_of]. rewrite decide_False by (by eapply begin_ne_sent).
  rewrite (rep_get _ _ _ _ _ Hl). cbn [mbind option_bind]. unfold str_eqb.
  destruct (decide (name x = k)) as [Hk|Hk].
  - rewrite bool_decide_eq_true_2 by done. right. by exists [], p, x, xs2, [], es.
  - rewrite bool_decide_eq_false_2 by done. rewrite (rep_next_itr _ _ _ _ _ Hl). cbn [mbind option_bind].
    destruct (IH (xs1 ++ [(p, Some x)]) es fuel) as [[Hni E]|(xa & q & e & xb & ea & eb & -> & -> & Ha & Hb & Hn & E)];
      [by rewrite <-app_assoc|done|cbn in Hf; lia| |].
    + left. split; [|done]. rewrite fmap_cons. apply not_elem_of_cons. done.
    + right. exists ((p, Some x) :: xa), q, e, xb, (x :: ea), eb. cbn [app]. rewrite !fmap_cons. cbn [snd].
      split; [done|]. split; [done|]. split; [by f_equal|]. done.
Qed.

Lemma find_entry_spec l k xs es : dl_rep l xs -> xs.*2 = Some <$> es ->
  ((k ∉ (name <$> es)) /\ find_entry (Some l) k = Some (Some sentinel)) \/
  (exists xa p e xb ea eb, xs = xa ++ (p, Some e) :: xb /\ es = ea ++ e :: eb /\ xa.*2 = Some <$> ea /\
     xb.*2 = Some <$> eb /\ name e = k /\ p <> sentinel /\ find_entry (Some l) k = Some (Some p)).
Proof.
  intros Hl Hx. unfold find_entry. rewrite (rep_begin _ _ Hl). cbn [mbind option_bind ListItrEnd].
  destruct (find_loop_spec l k [] xs es (size (nodes l)) Hl Hx) as [H|(xa & p & e & xb & ea & eb & H & H')];
    [rewrite (rep_size _ _ Hl); lia|by left|right].
  exists xa, p, e, xb, ea, eb. split; [done|]. destruct H' as (-> & Ha & Hb & Hn & E).
  do 4 (split; [done|]). split; [|done]. subst xs. eapply rep_not_sent; [done|].
  apply elem_of_app. right. apply elem_of_cons. by left.
Qed.

(** ** Specification of the operations *)

Definition spec_join (id : Z) (es : list GroupEntry) (gn ip : cstring) (port : Z) (user : cstring) (o : os)
  : Z * list GroupEntry * os :=
  if bool_decide (gn ∈ (name <$> es)) then (-1, es, o) else
  let '(r, o) := sys_system (sender_command gn ip port id user) o in
  if negb (r =? 0) then (-1, es, o) else
  let '(r, o) := sys_system (receiver_command gn ip port id) o in
  if negb (r =? 0) then (-1, es, o) else
  let '(spid, o) := recv_child_pid CHAT_CHILD_MTYPE_SENDER o in
  let '(rpid, o) := recv_child_pid CHAT_CHILD_MTYPE_RECEIVER o in
  (0, es ++ [MkEntry gn spid rpid], o).

Definition spec_leave (es : list GroupEntry) (gn : cstring) (o : os) : list GroupEntry * os :=
  (filter (fun e => name e <> gn) es,
   log_all o (Kill <$> (filter (fun e => name e = gn) es ≫= entry_pids))).

Definition spec_clear (es : list GroupEntry) (o : os) : os := log_all o (Kill <$> (es ≫= entry_pids)).

Lemma stuck_kills ps o : stuck (log_all o (Kill <$> ps)) = stuck o.
Proof.
  unfold stuck, log_all. cbn [events]. rewrite existsb_app.
  assert (existsb is_wait (Kill <$> ps) = false) as -> by by induction ps. by rewrite orb_false_r.
Qed.

Lemma stuck_clear es o : stuck (spec_clear es o) = stuck o.
Proof. apply stuck_kills. Qed.

(** Every process id that was ever reported: those still in the queue, those
    killed, and those of the tracked windows. *)
Definition killed (evs : list os_event) : list Z := omap (fun e => match e with Kill p => Some p | _ => None end) evs.
Definition accounted (o : os) (es : list GroupEntry) : list Z :=
  filter (fun p => 0 < p) (mailbox o).*2 ++ killed (events o) ++ (es ≫= entry_pids).

Lemma killed_app e1 e2 : killed (e1 ++ e2) = killed e1 ++ killed e2.
Proof. apply omap_app. Qed.

Lemma killed_kills ps : killed (Kill <$> ps) = ps.
Proof. induction ps as [|p ps IH]; [done|]. unfold killed in *. cbn. by rewrite IH. Qed.

Lemma accounted_clear es o : accounted (spec_clear es o) [] ≡ₚ accounted o es.
Proof.
  unfold accounted, spec_clear, log_all. cbn [mailbox events]. rewrite killed_app, killed_kills. cbn.
  by rewrite app_nil_r.
Qed.

Lemma entries_split gn es :
  (filter (fun e => name e <> gn) es ≫= entry_pids) ++ (filter (fun e => name e = gn) es ≫= entry_pids)
  ≡ₚ es ≫= entry_pids.
Proof.
  induction es as [|e es IH]; [done|]. rewrite !filter_cons, bind_cons.
  destruct (decide (name e = gn)) as [H|H], (decide (name e <> gn)) as [H'|H']; try (by contradict H').
  - rewrite bind_cons, <-IH. by rewrite Permutation_app_swap_app.
  - by rewrite bind_cons, <-app_assoc, IH.
Qed.

Lemma accounted_leave es gn o : accounted (spec_leave es gn o).2 (spec_leave es gn o).1 ≡ₚ accounted o es.
Proof.
  unfold accounted, spec_leave, log_all. cbn [fst snd mailbox events]. rewrite killed_app, killed_kills, <-app_assoc.
  by rewrite (Permutation_app_comm (filter (fun e => name e = gn) es ≫= _)), entries_split.
Qed.

(** Reading a process id off the queue. *)
Lemma take_message_perm t box p box' : take_message t box = Some (p, box') -> box.*2 ≡ₚ p :: box'.*2.
Proof.
  revert box'. induction box as [|[u q] box IH]; intros box'; [done|]. cbn [take_message].
  destruct (u =? t); [by intros [= -> ->]|].
  destruct (take_message t box) as [[p' b]|]; [|done]. cbn. intros [= -> <-].
  rewrite (IH b eq_refl). cbn. apply Permutation_swap.
Qed.

Lemma recv_child_pid_perm t o p o' : recv_child_pid t o = (p, o') ->
  killed (events o') = killed (events o) /\
  filter (fun p => 0 < p) (mailbox o).*2 ≡ₚ filter (fun p => 0 < p) (mailbox o').*2 ++ filter (fun p => 0 < p) [p].
Proof.
  unfold recv_child_pid. destruct (take_message t (mailbox o)) as [[q box]|] eqn:E.
  - intros [= -> <-]. split; [done|]. cbn [mailbox]. rewrite (take_message_perm _ _ _ _ E).
    change (p :: box.*2) with ([p] ++ box.*2). rewrite filter_app. apply Permutation_app_comm.
  - intros [= <- <-]. split; [cbn [log events]; by rewrite killed_app, app_nil_r|].
    rewrite filter_cons_False by done. by rewrite app_nil_r.
Qed.

(** Both ids of a new entry. *)
Lemma recv_pids_perm o p1 o1 p2 o2 n es :
  recv_child_pid CHAT_CHILD_MTYPE_SENDER o = (p1, o1) -> recv_child_pid CHAT_CHILD_MTYPE_RECEIVER o1 = (p2, o2) ->
  accounted o2 (es ++ [MkEntry n p1 p2]) ≡ₚ accounted o es.
Proof.
  intros [E1 P1]%recv_child_pid_perm [E2 P2]%recv_child_pid_perm. unfold accounted.
  rewrite E2, E1, P1, P2, bind_app. cbn [mbind list_bind]. rewrite app_nil_r. unfold entry_pids. cbn [sender_pid receiver_pid].
  change [p1; p2] with ([p1] ++ [p2]). rewrite filter_app. solve_Permutation.
Qed.

(** ** The operations meet their specification *)

Lemma filter_none gn (es : list GroupEntry) : gn ∉ (name <$> es) ->
  filter (fun e => name e = gn) es = [] /\ filter (fun e => name e <> gn) es = es.
Proof.
  induction es as [|e es IH]; intros Hni; [done|]. rewrite fmap_cons in Hni.
  apply not_elem_of_cons in Hni as [Hne Hni]. destruct (IH Hni) as [E1 E2].
  rewrite filter_cons_False, filter_cons_True by congruence. by rewrite E1, E2.
Qed.

Lemma filter_one ea e eb : NoDup (name <$> (ea ++ e :: eb)) ->
  filter (fun x => name x = name e) (ea ++ e :: eb) = [e] /\
  filter (fun x => name x <> name e) (ea ++ e :: eb) = ea ++ eb.
Proof.
  rewrite fmap_app, fmap_cons. intros (_ & N1 & [N2 _]%NoDup_cons)%NoDup_app.
  destruct (filter_none (name e) ea) as [A1 A2].
  { intros Hin. apply (N1 _ Hin). apply elem_of_cons. by left. }
  destruct (filter_none (name e) eb N2) as [B1 B2].
  rewrite !filter_app, filter_cons_True, filter_cons_False by (done || (intros H; by apply H)).
  by rewrite A1, A2, B1, B2.
Qed.

Lemma rep_on_leave g id es gn o m : cg_rep g id es -> NoDup (name <$> es) ->
  exists g' m', client_groups_mng_on_leave (Some g) (Some gn) o m = Some ((Some g', (spec_leave es gn o).2), m') /\
    cg_rep g' id (spec_leave es gn o).1 /\ NoDup (name <$> (spec_leave es gn o).1) /\
    live m' - cg_blocks (spec_leave es gn o).1 = live m - cg_blocks es /\ plan m' = plan m.
Proof.
  intros (Hid & l & xs & Hl & R & Hx) N. unfold client_groups_mng_on_leave. rewrite Hl.
  destruct (find_entry_spec l gn xs es R Hx)
    as [[Hni E]|(xa & p & e & xb & ea & eb & -> & -> & Ha & Hb & <- & Hp & E)]; rewrite E; mlift; cbn [ListItrEnd].
  - rewrite decide_True by done. unfold spec_leave. destruct (filter_none gn es Hni) as [-> ->].
    cbn [mbind list_bind fmap list_fmap fst snd]. rewrite log_all_nil. exists g, m. split; [done|].
    split; [|done]. split; [done|]. by exists l, xs.
  - rewrite decide_False by congruence. destruct (rep_remove_itr l xa p (Some e) xb m R) as (l' & R' & E').
    mrun E'. mfree. unfold spec_leave. destruct (filter_one ea e eb N) as [-> ->].
    cbn [mbind list_bind fst snd]. rewrite app_nil_r, kill_entry_spec.
    eexists _, _. split; [done|]. split; [|split; [|split; [|done]]].
    + split; [done|]. exists l', (xa ++ xb). split; [done|]. split; [done|]. by rewrite !fmap_app, Ha, Hb.
    + rewrite fmap_app, fmap_cons in N. rewrite fmap_app. eapply NoDup_app in N as (N1 & N2 & [_ N3]%NoDup_cons).
      apply NoDup_app. split; [done|]. split; [|done]. intros x Hx1 Hx2. apply (N2 x Hx1).
      apply elem_of_cons. by right.
    + unfold cg_blocks. cbn [live]. rewrite !length_app. cbn [length]. lia.
Qed.

Lemma clear_loop_spec l xs es o fuel m : dl_rep l xs -> xs.*2 = Some <$> es -> (length xs < fuel)%nat ->
  exists l', clear_loop fuel (Some l) o m
    = Some ((Some l', spec_clear es o), Mem (plan m) (live m - 2 * Z.of_nat (length es))) /\ dl_rep l' [].
Proof.
  revert l es o fuel m. induction xs as [|[p d] xs IH]; intros l es o fuel m R Hx Hf;
    (destruct fuel as [|fuel]; [lia|]); cbn [clear_loop]; pose proof (rep_pop_head l _ m R) as Hp.
  - destruct es; [|done]. mrun Hp. exists l. split; [|done]. unfold spec_clear. cbn [mbind list_bind fmap list_fmap].
    rewrite log_all_nil. destruct m. unfold mret, M_ret. cbn. do 3 f_equal. lia.
  - destruct es as [|e es]; [done|]. injection Hx as -> Hx. destruct Hp as (l1 & R1 & Hp).
    mrun Hp. mfree. rewrite kill_entry_spec.
    destruct (IH l1 es (log_all o (Kill <$> entry_pids e)) fuel
      (Mem (plan m) (live m - 1 - 1)) R1 Hx) as (l' & E & R'); [cbn in Hf; lia|].
    exists l'. split; [|done]. cbn [plan live] in *. rewrite E. unfold spec_clear.
    rewrite log_all_app, bind_cons, fmap_app. do 3 f_equal. cbn [length]. lia.
Qed.

Lemma rep_clear g id es o m : cg_rep g id es ->
  exists g', client_groups_mng_clear (Some g) o m
    = Some ((Some g', spec_clear es o), Mem (plan m) (live m - 2 * Z.of_nat (length es))) /\ cg_rep g' id [].
Proof.
  intros (Hid & l & xs & Hl & R & Hx). unfold client_groups_mng_clear. rewrite Hl.
  destruct (clear_loop_spec l xs es o (size (nodes l)) m R Hx) as (l' & E & R'); [rewrite (rep_size _ _ R); lia|].
  mrun E. eexists. split; [done|]. split; [done|]. by exists l', [].
Qed.

Lemma rep_groups_destroy g id es o m : cg_rep g id es -> 0 <= id ->
  client_groups_mng_destroy (Some (Some g)) o m
  = Some ((Some NULL, log (spec_clear es o) (RemoveQueue id)), Mem (plan m) (live m - cg_blocks es)).
Proof.
  intros R Hid. unfold client_groups_mng_destroy. destruct (rep_clear g id es o m R) as (g' & E & Hid' & l & xs & Hl & R' & Hx).
  mrun E. mlift. rewrite Hl. destruct xs; [|done]. rewrite M_bind_assoc.
  rewrite (M_bind_Some _ _ _ (Some NULL) (Mem (plan m) (live m - 2 * Z.of_nat (length es) - 1))).
  2:{ rewrite (rep_ListDestroy l [] _ _ R'). cbn [fmap list_fmap destroy_each]. mstep_ret. by mfree. }
  mstep_ret. rewrite Hid'. assert ((id >=? 0) = true) as -> by (apply Z.geb_le; lia). mfree.
  cbn [plan live]. unfold mret, M_ret, cg_blocks. do 3 f_equal. lia.
Qed.

(** ** Opening windows *)

(** The arguments the client manager passes: names and addresses within the
    limits of the protocol, the id of a queue. *)
Definition join_args (id : Z) (gn ip : cstring) (port : Z) (user : cstring) : Prop :=
  0 <= id < 2 ^ 31 /\ strlen gn <= CHAT_MAX_GROUPNAME_LEN /\ strlen ip < CHAT_MAX_IP_STR_LEN /\
  is_u16 port /\ strlen user <= CHAT_MAX_USERNAME_LEN.

(** The lengths of the literals. *)
Ltac literal_lengths :=
  repeat match goal with
  | |- context [strlen (chars ?x)] =>
      let v := eval vm_compute in (strlen (chars x)) in change (strlen (chars x)) with v
  end.

Lemma print_port_length port : is_u16 port -> strlen (print_nat 10 port) <= 5.
Proof.
  unfold is_u16. intros Hp. pose proof (print_nat_digits 5 10 port) as Hd.
  unfold strlen. enough (length (print_nat 10 port) <= 5)%nat by lia. apply Hd; lia.
Qed.

Lemma commands_length id gn ip port user : join_args id gn ip port user ->
  strlen (sender_command gn ip port id user) < 256 /\ strlen (receiver_command gn ip port id) < 256.
Proof.
  intros (Hid & Hg & Hi & Hp & Hu). unfold sender_command, receiver_command. rewrite !strlen_app.
  pose proof (print_int_length id) as Hm. pose proof (print_port_length port Hp).
  literal_lengths. revert Hg Hi Hu. chat_consts. lia.
Qed.

(** What a join does: the specified step, or nothing because memory ran out. *)
Definition joined_ok (id : Z) (es : list GroupEntry) (spec : Z * list GroupEntry * os) (o : os) (m : mem)
    (res : option (Z * ptr ClientGroupsMng * os * mem)) : Prop :=
  exists r g' o' m' es', res = Some ((r, Some g', o'), m') /\ cg_rep g' id es' /\ NoDup (name <$> es') /\
    live m' - cg_blocks es' = live m - cg_blocks es /\
    (accounted o' es' ≡ₚ accounted o es) /\
    ((r, es', o') = spec \/ (r = -1 /\ es' = es /\ ~ alloc_ok m)) /\
    (alloc_ok m -> alloc_ok m').

Lemma joined_nothing id es spec o m g o' m' : cg_rep g id es -> NoDup (name <$> es) ->
  live m' = live m -> (accounted o' es ≡ₚ accounted o es) ->
  ((-1, es, o') = spec /\ m' = m) \/ ~ alloc_ok m ->
  joined_ok id es spec o m (Some ((-1, Some g, o'), m')).
Proof.
  intros R N L A H. exists (-1), g, o', m', es. split; [done|]. split; [done|]. split; [done|]. split; [lia|].
  split; [done|]. destruct H as [[H ->]|H]; [by split; [left|]|split; [by right|done]].
Qed.

Lemma accounted_system o es evs plan' : killed evs = [] ->
  accounted (MkOs plan' (mailbox o) (events o ++ evs)) es = accounted o es.
Proof. intros H. unfold accounted. cbn [mailbox events]. by rewrite killed_app, H, app_nil_r. Qed.

(** Storing the entry of the two windows that reported. *)
Lemma store_entry g id es gn o2 s1 o3 s2 o4 m1 : cg_rep g id es -> NoDup (name <$> es) ->
  gn ∉ (name <$> es) -> recv_child_pid CHAT_CHILD_MTYPE_SENDER o2 = (s1, o3) ->
  recv_child_pid CHAT_CHILD_MTYPE_RECEIVER o3 = (s2, o4) ->
  exists r g' o' m' es',
    ('(n, list) ← ListPushTail (groups g) (Some (MkEntry gn s1 s2));
      match n with
      | None => let o := kill_entry (Some (MkEntry gn s1 s2)) o4 in free;;
          mret (-1, Some (MkGroups (msqid g) list), o)
      | Some _ => mret (0, Some (MkGroups (msqid g) list), o4)
      end) m1 = Some ((r, Some g', o'), m') /\ cg_rep g' id es' /\ NoDup (name <$> es') /\
    live m' - cg_blocks es' = live m1 - cg_blocks es - 1 /\
    (accounted o' es' ≡ₚ accounted o2 es) /\
    ((r, es', o') = (0, es ++ [MkEntry gn s1 s2], o4) \/ (r = -1 /\ es' = es /\ ~ alloc_ok m1)) /\
    (alloc_ok m1 -> alloc_ok m').
Proof.
  intros (Hid & l & xs & Hl & Rl & Hx) N Hni E1 E2. rewrite Hl.
  destruct (rep_push_tail l xs (Some (MkEntry gn s1 s2)) m1 Rl) as (n & l' & m2 & E & C & O). mrun E.
  pose proof (recv_pids_perm o2 s1 o3 s2 o4 gn es E1 E2) as P. destruct n as [a|].
  - destruct C as [R' L]. eexists 0, _, o4, m2, _. split; [done|]. split; [|split; [|split; [|split; [exact P|]]]].
    + split; [done|]. exists l', (xs ++ [(a, Some (MkEntry gn s1 s2))]). split; [done|]. split; [done|].
      by rewrite !fmap_app, Hx.
    + rewrite fmap_app. apply NoDup_app. split; [done|]. split; [|apply NoDup_singleton].
      intros x Hx1 ->%list_elem_of_singleton. done.
    + unfold cg_blocks. rewrite length_app. cbn [length]. lia.
    + split; [by left|]. intros Hm. by apply O.
  - destruct C as [-> L]. mfree. rewrite kill_entry_spec. eexists (-1), _, _, _, es. split; [done|].
    split; [split; [done|]; by exists l, xs|]. split; [done|]. split; [cbn [live]; lia|].
    split; [|split; [right; split; [done|]; split; [done|]; intros Hm; by destruct (O Hm)|intros Hm; by destruct (O Hm)]].
    rewrite <-P. unfold accounted, log_all. cbn [mailbox events]. rewrite killed_app, killed_kills, bind_app.
    cbn [mbind list_bind]. rewrite app_nil_r. solve_Permutation.
Qed.

Lemma rep_on_join g id es gn ip port user o m : cg_rep g id es -> NoDup (name <$> es) ->
  join_args id gn ip port user ->
  joined_ok id es (spec_join id es gn ip port user o) o m
    (client_groups_mng_on_join (Some g) (Some gn) (Some ip) port (Some user) o m).
Proof.
  intros R N Ha. pose proof R as (Hid & l & xs & Hl & Rl & Hx).
  destruct (commands_length id gn ip port user Ha) as [C1 C2].
  unfold client_groups_mng_on_join, spec_join.
  rewrite Hl, Hid, (snprintf_fits _ _ C1), (snprintf_fits _ _ C2).
  destruct (find_entry_spec l gn xs es Rl Hx) as [[Hni E]|(xa & p & e & xb & ea & eb & _ & Ees & _ & _ & Hn & Hp & E)];
    rewrite E; mlift; cbn [ListItrEnd]; cycle 1.
  { rewrite decide_True by congruence. apply joined_nothing; [done|done|done|done|left].
    rewrite bool_decide_eq_true_2; [done|]. rewrite Ees, fmap_app, fmap_cons, <-Hn. apply elem_of_app. right.
    apply elem_of_cons. by left. }
  rewrite decide_False by (intros H; by apply H). rewrite bool_decide_eq_false_2 by done. cbn [sys_system].
  set (o1 := MkOs _ (mailbox o) (events o ++ [System (sender_command _ _ _ _ _)])).
  assert (accounted o1 es = accounted o es) as A1 by by apply accounted_system.
  destruct (negb (system_plan o 0%nat =? 0)).
  { apply joined_nothing; [done|done|done|by rewrite A1|by left]. }
  set (o2 := MkOs _ (mailbox o1) (events o1 ++ _)).
  assert (accounted o2 es = accounted o es) as A2 by (rewrite <-A1; by apply accounted_system).
  destruct (negb (system_plan o1 0%nat =? 0)).
  { apply joined_nothing; [done|done|done|by rewrite A2|by left]. }
  destruct (malloc_inv m) as (b & m1 & Em & Lm & Om). mrun Em. destruct b; cbn [negb]; cycle 1.
  { apply joined_nothing; [done|done|lia|by rewrite A2|right]. intros Hm. by destruct (Om Hm). }
  destruct Ha as (_ & Hg & _). rewrite (strncpy_fits _ _ Hg).
  destruct (recv_child_pid CHAT_CHILD_MTYPE_SENDER o2) as [s1 o3] eqn:E1.
  destruct (recv_child_pid CHAT_CHILD_MTYPE_RECEIVER o3) as [s2 o4] eqn:E2.
  destruct (store_entry g id es gn o2 s1 o3 s2 o4 m1 R N Hni E1 E2)
    as (r & g' & o' & m' & es' & Es & R' & N' & L & A & Hr & O).
  exists r, g', o', m', es'. rewrite Hl, Hid in Es. split; [exact Es|]. split; [done|]. split; [done|]. split; [lia|].
  split; [by rewrite A, A2|]. split.
  - destruct Hr as [Hr|(-> & -> & Hm)]; [by left|right]. split; [done|]. split; [done|].
    intros H. by apply Hm, Om.
  - intros H. by apply O, Om.
Qed.

Lemma rep_groups_create k o m : exists r o' m', client_groups_mng_create k o m = Some ((r, o'), m') /\
  match r with
  | Some g => cg_rep g (msgget_id k) [] /\ 0 <= msgget_id k /\ live m' = live m + cg_blocks [] /\ o' = o
  | None => live m' = live m /\ (o' = o \/ o' = log o (RemoveQueue (msgget_id k)))
  end /\ (alloc_ok m -> alloc_ok m') /\
  (alloc_ok m -> ftok_ok k = true -> 0 <= msgget_id k -> r <> None) /\
  (r <> None -> ftok_ok k = true).
Proof.
  unfold client_groups_mng_create. destruct (malloc_inv m) as (b & m1 & E & L & O). mrun E.
  destruct b; cbn [negb]; cycle 1.
  { exists NULL, o, m1. split; [done|]. split; [split; [lia|by left]|].
    split; [|split; [|done]]; intros Hm; by destruct (O Hm). }
  destruct (ftok_ok k) eqn:Ek; cbn [negb]; cycle 1.
  { mfree. eexists NULL, o, _. split; [done|]. split; [split; [cbn [live]; lia|by left]|].
    split; [intros Hm; by apply alloc_ok_free, O|]. done. }
  destruct (msgget_id k <? 0) eqn:Ei; bprop.
  { mfree. eexists NULL, o, _. split; [done|]. split; [split; [cbn [live]; lia|by left]|].
    split; [intros Hm; by apply alloc_ok_free, O|]. split; [lia|done]. }
  destruct (rep_create_list (A := GroupEntry) m1) as (r & m2 & E2 & C & O2). mrun E2. destruct r as [l|].
  - destruct C as [Rl L2]. eexists (Some _), o, m2. split; [done|]. split; [|split; [|done]].
    + split; [|split; [done|split; [|done]]].
      * split; [done|]. by exists l, [].
      * unfold cg_blocks. cbn [length]. lia.
    + intros Hm. by apply O2, O.
  - mfree. eexists NULL, _, _. split; [done|]. split; [split; [cbn [live]; lia|by right]|].
    split; [|split; [|done]]; intros Hm; [by apply alloc_ok_free, O2, O|by destruct (O2 (proj2 (O Hm)))].
Qed.

(** ** Runs *)

Inductive window_op :=
| WJoin (gn ip : cstring) (port : Z) (user : cstring)
| WLeave (gn : cstring)
| WClear.

Definition window_op_ok (id : Z) (op : window_op) : Prop :=
  match op with WJoin gn ip port user => join_args id gn ip port user | _ => True end.

Fixpoint run_windows (ops : list window_op) (m : ptr ClientGroupsMng) (o : os) : M (ptr ClientGroupsMng * os) :=
  match ops with
  | [] => mret (m, o)
  | op :: ops =>
      '(m, o) ← match op with
                | WJoin gn ip port user =>
                    '(_, m, o) ← client_groups_mng_on_join m (Some gn) (Some ip) port (Some user) o; mret (m, o)
                | WLeave gn => client_groups_mng_on_leave m (Some gn) o
                | WClear => client_groups_mng_clear m o
                end;
      run_windows ops m o
  end.

Fixpoint spec_windows (id : Z) (ops : list window_op) (es : list GroupEntry) (o : os) : list GroupEntry * os :=
  match ops with
  | [] => (es, o)
  | op :: ops =>
      let '(es, o) := match op with
                      | WJoin gn ip port user => let '(_, es, o) := spec_join id es gn ip port user o in (es, o)
                      | WLeave gn => spec_leave es gn o
                      | WClear => ([], spec_clear es o)
                      end in
      spec_windows id ops es o
  end.

Lemma rep_windows id ops g es o m : cg_rep g id es -> NoDup (name <$> es) -> Forall (window_op_ok id) ops ->
  exists g' o' m' es', run_windows ops (Some g) o m = Some ((Some g', o'), m') /\ cg_rep g' id es' /\
    NoDup (name <$> es') /\ live m' - cg_blocks es' = live m - cg_blocks es /\
    (accounted o' es' ≡ₚ accounted o es) /\
    (alloc_ok m -> (es', o') = spec_windows id ops es o).
Proof.
  intros R N Hops. revert g es o m R N. induction Hops as [|op ops Hop Hops IH]; intros g es o m R N.
  { by exists g, o, m, es. }
  cbn [run_windows spec_windows]. destruct op as [gn ip port user|gn|].
  - destruct (rep_on_join g id es gn ip port user o m R N Hop)
      as (r & g1 & o1 & m1 & es1 & E & R1 & N1 & L1 & A1 & Hs & O1).
    rewrite M_bind_assoc. mrun E. mstep_ret.
    destruct (IH g1 es1 o1 m1 R1 N1) as (g' & o' & m' & es' & E' & R' & N' & L' & A' & Hs').
    exists g', o', m', es'. split; [done|]. split; [done|]. split; [done|]. split; [lia|].
    split; [by rewrite A'|]. intros Hm. rewrite (Hs' (O1 Hm)).
    destruct Hs as [<-|(_ & _ & Hbad)]; [done|by destruct Hbad].
  - destruct (rep_on_leave g id es gn o m R N) as (g1 & m1 & E & R1 & N1 & L1 & Pl). mrun E.
    destruct (IH g1 _ (spec_leave es gn o).2 m1 R1 N1) as (g' & o' & m' & es' & E' & R' & N' & L' & A' & Hs').
    exists g', o', m', es'. split; [done|]. split; [done|]. split; [done|]. split; [lia|].
    split; [by rewrite A', accounted_leave|]. intros Hm. rewrite Hs'; [by destruct (spec_leave es gn o)|].
    unfold alloc_ok. by rewrite Pl.
  - destruct (rep_clear g id es o m R) as (g1 & E & R1). mrun E.
    destruct (IH g1 [] (spec_clear es o) (Mem (plan m) (live m - 2 * Z.of_nat (length es))) R1)
      as (g' & o' & m' & es' & E' & R' & N' & L' & A' & Hs'); [apply NoDup_nil_2|].
    exists g', o', m', es'. split; [done|]. split; [done|]. split; [done|].
    split; [revert L'; unfold cg_blocks; cbn [live length]; lia|].
    split; [by rewrite A', accounted_clear|]. intros Hm. by apply Hs'.
Qed.

(** ** Properties *)

(** C21: The client keeps track of the groups whose two windows it has started.
    Creating the manager either fails cleanly or succeeds; after any sequence of
    joins, leaves and clears, with any failures of commands, of the queue and of
    memory, it tracks each group at most once; every process id that windows have
    reported is still unread in the queue, tracked, or has been killed exactly
    once; and without allocation failure the tracked groups and everything asked
    of the system are exactly as specified: a join adds its group, with the two
    ids read from the queue, if both commands succeed, and leaves no entry if one
    fails, and the command lines are complete, none is cut off by its buffer.
    Destroying the manager kills exactly the tracked processes, removes the queue
    and frees everything.  Windows it does not track are not killed: a join whose
    second command fails has started a sender window, whose id stays unread
    ([orphan_window]).  A join whose windows do not report waits in [msgrcv]: the log
    then has a [Waits] ([stuck]), and what the model does after it is not part of
    the run. *)
Theorem client_windows_tracked k o ops m : Forall (window_op_ok (msgget_id k)) ops ->
  exists r o1 m1, client_groups_mng_create k o m = Some ((r, o1), m1) /\
  match r with
  | None => live m1 = live m /\ killed (events o1) = killed (events o)
  | Some g => o1 = o /\ exists g2 o2 m2 es, run_windows ops (Some g) o m1 = Some ((Some g2, o2), m2) /\
      cg_rep g2 (msgget_id k) es /\ NoDup (name <$> es) /\
      (accounted o2 es ≡ₚ accounted o []) /\
      (alloc_ok m -> (es, o2) = spec_windows (msgget_id k) ops [] o) /\
      exists o3 m3, client_groups_mng_destroy (Some (Some g2)) o2 m2 = Some ((Some NULL, o3), m3) /\
        live m3 = live m /\ events o3 = events o2 ++ (Kill <$> (es ≫= entry_pids)) ++ [RemoveQueue (msgget_id k)] /\
        (accounted o3 [] ≡ₚ accounted o [])
  end.
Proof.
  intros Hops. destruct (rep_groups_create k o m) as (r & o1 & m1 & E & C & Oa & _ & _). exists r, o1, m1. split; [done|].
  destruct r as [g|]; cycle 1.
  { destruct C as [L [->| ->]]; [done|]. split; [done|]. unfold log. cbn [events]. rewrite killed_app. apply app_nil_r. }
  destruct C as (R & Hid & L & ->). split; [done|].
  destruct (rep_windows (msgget_id k) ops g [] o m1 R) as (g2 & o2 & m2 & es & E2 & R2 & N2 & L2 & A2 & Hs);
    [apply NoDup_nil_2|done|].
  exists g2, o2, m2, es. do 4 (split; [done|]). split; [intros Hm; by apply Hs, Oa|].
  eexists _, _. split; [by apply (rep_groups_destroy g2 (msgget_id k) es)|]. split; [cbn [live]; lia|].
  split; [unfold log, spec_clear, log_all; cbn [events]; by rewrite app_assoc|].
  rewrite <-A2, <-(accounted_clear es o2). unfold accounted, log. cbn [mailbox events].
  by rewrite killed_app, !app_nil_r.
Qed.

Lemma client_windows_tracked_witness :
  let k := MkIpc true 7 in
  let o := MkOs (fun _ => 0) [(2, 102); (1, 101)] [] in
  exists r o1 m1, client_groups_mng_create k o (Mem [] 0) = Some ((r, o1), m1) /\
  match r with
  | None => live m1 = 0 /\ killed (events o1) = []
  | Some g => o1 = o /\ exists g2 o2 m2 es, run_windows [WJoin [103] [49] 6000 [97]] (Some g) o m1 = Some ((Some g2, o2), m2) /\
      cg_rep g2 7 es /\ NoDup (name <$> es) /\
      (accounted o2 es ≡ₚ accounted o []) /\
      (alloc_ok (Mem [] 0) -> (es, o2) = spec_windows 7 [WJoin [103] [49] 6000 [97]] [] o) /\
      exists o3 m3, client_groups_mng_destroy (Some (Some g2)) o2 m2 = Some ((Some NULL, o3), m3) /\
        live m3 = 0 /\ events o3 = events o2 ++ (Kill <$> (es ≫= entry_pids)) ++ [RemoveQueue 7] /\
        (accounted o3 [] ≡ₚ accounted o [])
  end.
Proof.
  apply (client_windows_tracked (MkIpc true 7) (MkOs (fun _ => 0) [(2, 102); (1, 101)] [])
    [WJoin [103] [49] 6000 [97]] (Mem [] 0)).
  apply Forall_cons_2; [|by apply Forall_nil_2]. by vm_compute.
Defined.

(** The second command of a join fails: the sender window that the first one has
    started reports 101, and is never killed. *)
Example orphan_window :
  let o := MkOs (fun i => match i with O => 0 | _ => 1 end) [(1, 101)] [] in
  fst <$> ('(m, o) ← client_groups_mng_create (MkIpc true 7) o;
           '(m, o) ← run_windows [WJoin [103] [49] 6000 [97]] m o;
           '(_, o) ← client_groups_mng_destroy (Some m) o; mret (mailbox o, tail (events o))) (Mem [] 0)
  = Some ([(1, 101)], [System (receiver_command [103] [49] 6000 7); RemoveQueue 7]).
Proof. by vm_compute. Qed.
