(* ===== verification/ClientMng.v ===== *)
(** * The client manager: [client/client_mng.h], [client/client_mng.c]

    The connection, the login state and the windows of one client; every call
    sends one request and waits for its reply.  The file proves what each call
    does for any other end of the connection: the request sent is the frame of
    the call, the login state and the windows change only on a positive reply
    and exactly as the call means, every failure of the transport is reported as
    [ST_ERR_PROTOCOL], and nothing leaks; and that a reply, if the other end
    gives one, is the one that is returned. *)

From S2P Require Import Prelude Text Protocol GenDlist ClientNet ClientGroups.

(** ** State *)

(** [server_ip] and [username] are the strings held in the [char] arrays. *)
Record ClientMng := MkClientMng {
  sockfd : Z;
  server_ip : cstring;
  port : Z;
  logged_in : Z;
  username : cstring;
  windows : ptr ClientGroupsMng
}.

Definition set_login (m : ClientMng) (l : Z) (u : cstring) : ClientMng :=
  MkClientMng (sockfd m) (server_ip m) (port m) l u (windows m).
Definition set_windows (m : ClientMng) (w : ptr ClientGroupsMng) : ClientMng :=
  MkClientMng (sockfd m) (server_ip m) (port m) (logged_in m) (username m) w.

(** ** Lifecycle *)

(** The descriptors that are closed are logged. *)
Definition client_mng_create (k : connect_answers) (ipc : ipc_answers) (ip : ptr cstring) (p : Z) (o : os)
  : M (ptr ClientMng * list Z * os) :=
  match ip with
  | None => mret (NULL, [], o)
  | Some s =>
      ok ← malloc;
      if negb ok then mret (NULL, [], o) else
      let '(fd, closed) := client_net_connect k ip p in
      if fd <? 0 then free;; mret (NULL, closed, o) else
      '(w, o) ← client_groups_mng_create ipc o;
      match w with
      | None => free;; mret (NULL, client_net_close fd closed, o)
      | Some _ =>
          mret (Some (MkClientMng fd (strncpy (CHAT_MAX_IP_STR_LEN - 1) s) p 0 [] w), closed, o)
      end
  end.

Definition client_mng_destroy (pm : ptr (ptr ClientMng)) (closed : list Z) (o : os)
  : M (ptr (ptr ClientMng) * list Z * os) :=
  match pm with
  | Some (Some m) =>
      '(w, o) ← client_groups_mng_destroy (Some (windows m)) o;
      let closed := client_net_close (sockfd m) closed in
      free;;
      mret (Some NULL, closed, o)
  | _ => mret (pm, closed, o)
  end.

(** ** Requests

    A status is the byte that was received; [ST_ERR_PROTOCOL] stands for every
    failure on the way. *)
Definition failure : Z := status_code ST_ERR_PROTOCOL.

(** [uint8_t buf[CHAT_MAX_MSG_SIZE]] *)
Definition msg_buf : ptr bytes := Some (replicate (Z.to_nat CHAT_MAX_MSG_SIZE) 0).

Section requests.
Context {P : Type} (peer : P -> bytes -> option (P * bytes)).

(** Sending an encoded request and receiving a reply into the same buffer, as
    every call does: [None] is the failure of one of them. *)
Definition exchange (m : ClientMng) (n : Z) (buf : ptr bytes) (s : socket)
  : option (option (ptr bytes * ptr Z) * socket (P := P)) :=
  if n <? 0 then Some (None, s) else
  '(r, s) ← client_net_send_all peer (sockfd m) buf n s;
  if negb (r =? 0) then Some (None, s) else
  '(r, buf, rlen, s) ← client_net_recv_msg (sockfd m) buf (Some 0) s;
  if negb (r =? 0) then Some (None, s) else Some (Some (buf, rlen), s).

Definition do_user_pass (m : ClientMng) (op : ChatOpcode) (user pass : ptr cstring) (s : socket)
  : option (Z * socket (P := P)) :=
  '(n, buf) ← chat_encode_user_pass_req msg_buf op user pass;
  '(e, s) ← exchange m n buf s;
  match e with
  | None => Some (failure, s)
  | Some (buf, rlen) =>
      rlen ← rlen;
      '(r, status) ← chat_decode_status_rep buf rlen (Some 0);
      if negb (r =? 0) then Some (failure, s) else
      status ← status;
      Some (status, s)
  end.

Definition client_mng_register (m : ptr ClientMng) (user pass : ptr cstring) (s : socket)
  : option (Z * socket (P := P)) :=
  match m, user, pass with
  | Some c, Some _, Some _ => do_user_pass c OP_REG_REQ user pass s
  | _, _, _ => Some (failure, s)
  end.

Definition client_mng_login (m : ptr ClientMng) (user pass : ptr cstring) (s : socket)
  : option (Z * ptr ClientMng * socket (P := P)) :=
  match m, user, pass with
  | Some c, Some u, Some _ =>
      '(status, s) ← do_user_pass c OP_LOGIN_REQ user pass s;
      if status =? status_code ST_OK
      then Some (status, Some (set_login c 1 (strncpy CHAT_MAX_USERNAME_LEN u)), s)
      else Some (status, m, s)
  | _, _, _ => Some (failure, m, s)
  end.

Definition client_mng_logout (m : ptr ClientMng) (s : socket) (o : os)
  : M (Z * ptr ClientMng * socket (P := P) * os) :=
  match m with
  | Some c =>
      '(n, buf) ← lift (chat_encode_logout_req msg_buf);
      '(e, s) ← lift (exchange c n buf s);
      match e with
      | None => mret (failure, m, s, o)
      | Some (buf, rlen) =>
          rlen ← lift rlen;
          '(r, status) ← lift (chat_decode_status_rep buf rlen (Some 0));
          if negb (r =? 0) then mret (failure, m, s, o) else
          status ← lift status;
          if status =? status_code ST_OK then
            '(w, o) ← client_groups_mng_clear (windows c) o;
            mret (status, Some (set_login (set_windows c w) 0 []), s, o)
          else mret (status, m, s, o)
      end
  | None => mret (failure, m, s, o)
  end.

Definition do_group_join (m : ClientMng) (op : ChatOpcode) (group : ptr cstring) (out_ip : ptr bytes)
    (out_port : ptr Z) (s : socket) : option (Z * ptr bytes * ptr Z * socket (P := P)) :=
  '(n, buf) ← chat_encode_groupname_req msg_buf op group;
  '(e, s) ← exchange m n buf s;
  match e with
  | None => Some (failure, out_ip, out_port, s)
  | Some (buf, rlen) =>
      rlen ← rlen;
      '(r, status, out_ip, out_port) ← chat_decode_group_rep_ok buf rlen (Some 0) out_ip out_port;
      if negb (r =? 0) then Some (failure, out_ip, out_port, s) else
      status ← status;
      Some (status, out_ip, out_port, s)
  end.

(** [client_mng_create_group] and [client_mng_join_group] only differ in the
    opcode; the caller's buffers are returned. *)
Definition group_call (op : ChatOpcode) (m : ptr ClientMng) (group : ptr cstring) (out_ip : ptr bytes)
    (out_port : ptr Z) (s : socket) (o : os)
  : M (Z * ptr bytes * ptr Z * ptr ClientMng * socket (P := P) * os) :=
  match m, group, out_ip, out_port with
  | Some c, Some _, Some _, Some _ =>
      '(status, out_ip, out_port, s) ← lift (do_group_join c op group out_ip out_port s);
      if status =? status_code ST_OK then
        ip ← lift (out_ip ≫= c_str);
        p ← lift out_port;
        '(_, w, o) ← client_groups_mng_on_join (windows c) group (Some ip) p (Some (username c)) o;
        mret (status, out_ip, out_port, Some (set_windows c w), s, o)
      else mret (status, out_ip, out_port, m, s, o)
  | _, _, _, _ => mret (failure, out_ip, out_port, m, s, o)
  end.

Definition client_mng_create_group := group_call OP_CREATE_GROUP_REQ.
Definition client_mng_join_group := group_call OP_JOIN_GROUP_REQ.

Definition client_mng_leave_group (m : ptr ClientMng) (group : ptr cstring) (s : socket) (o : os)
  : M (Z * ptr ClientMng * socket (P := P) * os) :=
  match m, group with
  | Some c, Some _ =>
      '(n, buf) ← lift (chat_encode_groupname_req msg_buf OP_LEAVE_GROUP_REQ group);
      '(e, s) ← lift (exchange c n buf s);
      match e with
      | None => mret (failure, m, s, o)
      | Some (buf, rlen) =>
          rlen ← lift rlen;
          '(r, status) ← lift (chat_decode_status_rep buf rlen (Some 0));
          if negb (r =? 0) then mret (failure, m, s, o) else
          status ← lift status;
          if status =? status_code ST_OK then
            '(w, o) ← client_groups_mng_on_leave (windows c) group o;
            mret (status, Some (set_windows c w), s, o)
          else mret (status, m, s, o)
      end
  | _, _ => mret (failure, m, s, o)
  end.

End requests.

Definition client_mng_is_logged_in (m : ptr ClientMng) : Z :=
  match m with Some m => logged_in m | None => 0 end.

Definition client_mng_username (m : ptr ClientMng) : cstring :=
  match m with Some m => username m | None => [] end.

(** ** What is asked of the other end *)

Section spec.
Context {P : Type} {peer : P -> bytes -> option (P * bytes)} {PI : P -> Prop} `{HP : !Peer peer PI}.

(** The request [fr] was sent and [reply] received; [None] if the exchange
    failed, after a part of the request or of a reply, or has not ended: the
    connection then is [halted]. *)
Definition asked (s : socket) (fr : bytes) (s' : socket) (reply : option bytes) : Prop :=
  exists chunks ans, feed peer (remote s) chunks = Some (remote s', ans) /\
    Forall (fun c => 0 < blen c) chunks /\ concat chunks `prefix_of` fr /\ conn_ok (PI := PI) s' /\
    match reply with
    | Some data => concat chunks = fr /\ one_frame data /\ is_byte_list data /\
        incoming s ++ ans = data ++ incoming s' /\ halted s' = halted s
    | None => True
    end /\
    (reliable s -> reliable s' /\ concat chunks = fr /\
       (reply = None -> unfinished (incoming s ++ ans) /\ incoming s' = [])) /\
    (halted s = true -> halted s' = true).

Lemma exchange_spec m fr rest s : conn_ok (PI := PI) s -> 0 <= sockfd m -> is_byte_list (fr ++ rest) ->
  blen (fr ++ rest) = CHAT_MAX_MSG_SIZE ->
  exists reply s', exchange peer m (blen fr) (Some (fr ++ rest)) s
    = Some ((fun data => (Some (data ++ drop (length data) (fr ++ rest)), Some (blen data))) <$> reply, s') /\
    asked s fr s' reply.
Proof.
  intros O Hfd Hb Hl. unfold exchange. pose proof (blen_nonneg fr). pose proof (blen_nonneg rest).
  rewrite (proj2 (Z.ltb_ge _ _)) by lia. rewrite blen_app in Hl.
  destruct (send_all_spec (sockfd m) (fr ++ rest) (blen fr) s O Hb Hfd)
    as (r & s1 & chunks & E & [(ans & F & Hi) Hfull O1 Hrel Hh1] & Hr); [lia|rewrite blen_app; lia|lia|].
  rewrite E, take_blen in *. cbn [mbind option_bind]. destruct Hr as [(-> & Hc & Hh)|(-> & Hp & _ & Hnr)]; cbn [Z.eqb negb]; cycle 1.
  { exists None, s1. split; [done|]. exists chunks, ans. do 4 (split; [done|]). split; [done|]. split; [tauto|done]. }
  destruct (recv_msg_spec (sockfd m) (fr ++ rest) 0 s1 O1 Hfd) as (r & s2 & data & E2 & R2 & Hr);
    [rewrite blen_app; lia|].
  rewrite E2, stored_at_0. cbn [mbind option_bind].
  destruct (read_off_ok s1 data s2 O1 R2) as [O2 Hd]. pose proof R2 as [Ei Er Hrel2 Hh2]. rewrite Hi in Ei.
  rewrite <-Er in F. destruct Hr as [(-> & Hone & Hh')|(-> & Hun & Hin)]; cbn [Z.eqb negb].
  - exists (Some data), s2. split; [done|]. exists chunks, ans. split; [done|]. split; [done|].
    split; [by rewrite Hc|]. split; [done|]. split; [do 3 (split; [done|]); split; [done|congruence]|]. split; [|auto].
    intros Hs. split; [by apply Hrel2, Hrel|]. by split.
  - exists None, s2. split; [done|]. exists chunks, ans. split; [done|]. split; [done|].
    split; [by rewrite Hc|]. split; [done|]. split; [done|]. split; [|auto]. intros Hs. split; [by apply Hrel2, Hrel|].
    split; [done|]. intros _. rewrite (Hin (Hrel Hs)), app_nil_r in Ei. rewrite Ei. split; [done|]. by apply Hin, Hrel.
Qed.

(** The buffer after a request was encoded into it. *)
Lemma msg_buf_frame fr : is_byte_list fr -> blen fr <= CHAT_MAX_MSG_SIZE ->
  let rest := drop (length fr) (replicate (Z.to_nat CHAT_MAX_MSG_SIZE) 0) in
  is_byte_list (fr ++ rest) /\ blen (fr ++ rest) = CHAT_MAX_MSG_SIZE.
Proof.
  intros Hb Hl rest. split.
  - apply Forall_app. split; [done|]. apply Forall_drop, Forall_replicate. done.
  - unfold rest, blen in *. rewrite length_app, length_drop, length_replicate. lia.
Qed.

(** The reply stands at the start of the buffer. *)
Lemma reply_at_front data b : take (Z.to_nat (blen data)) (data ++ drop (length data) b) = data.
Proof. apply take_blen. Qed.

(** ** Reading replies *)

Definition reply_status (reply : option bytes) : Z :=
  match reply with Some [_; _; st] => st | _ => failure end.

(** The status, the address and the port a create or join call returns; the
    caller's buffers are [oip] and [p0]. *)
Definition reply_group (reply : option bytes) (oip : bytes) (p0 : Z) : Z * bytes * Z :=
  match reply with
  | None => (failure, oip, p0)
  | Some data =>
      let '(rc, st, ip, p) := group_rep_outcome data 0 oip p0 in
      (if rc =? 0 then default 0 st else failure, default oip ip, default p0 p)
  end.

Lemma decode_status_front data b : one_frame data ->
  chat_decode_status_rep (Some (data ++ drop (length data) b)) (blen data) (Some 0)
  = Some (match data with [_; _; st] => (0, Some st) | _ => (-1, Some 0) end).
Proof.
  destruct data as [|t [|l [|st [|x data]]]]; cbn [one_frame]; try done.
  - intros <-. done.
  - intros H. unfold chat_decode_status_rep. rewrite !blen_cons in *. pose proof (blen_nonneg data).
    rewrite (proj2 (Z.ltb_ge _ _)) by lia. change (buf_get _ 1) with (Some l).
    cbn [mbind option_bind]. by rewrite (proj2 (Z.eqb_neq l 1)) by lia.
Qed.

Lemma decode_group_front data b oip p0 : one_frame data -> is_byte_list data -> is_byte_list b -> 16 <= blen oip ->
  chat_decode_group_rep_ok (Some (data ++ drop (length data) b)) (blen data) (Some 0) (Some oip) (Some p0)
  = Some (group_rep_outcome data 0 oip p0).
Proof.
  intros Hf Hd Hb Ho. rewrite decode_group_rep_spec; [by rewrite take_blen| | |done].
  - apply Forall_app. split; [done|by apply Forall_drop].
  - rewrite blen_app. pose proof (blen_nonneg data). pose proof (blen_nonneg (drop (length data) b)). lia.
Qed.

(** A positive reply carries an address and a port. *)
Lemma group_outcome_range data oip p0 : is_byte_list data -> 16 <= blen oip ->
  exists rc st oip' p', group_rep_outcome data 0 oip p0 = (rc, Some st, Some oip', Some p') /\
    blen oip' = blen oip /\
    ((rc = 0 /\ is_u16 p' /\ exists ip, c_str oip' = Some ip /\ strlen ip < CHAT_MAX_IP_STR_LEN) \/ rc = -1).
Proof.
  intros Hd Ho. unfold group_rep_outcome, parse_frame.
  destruct data as [|t [|l body]]; [by eexists _, _, _, _; auto..|].
  unfold is_byte_list in Hd. rewrite !Forall_cons_iff in Hd. destruct Hd as (_ & _ & Hbody).
  destruct (l <=? blen body); [|by eexists _, _, _, _; auto].
  destruct body as [|s r]; [by eexists _, _, _, _; auto|]. apply Forall_cons_1 in Hbody as [_ Hr].
  destruct (l <? 1); [by eexists _, _, _, _; auto|].
  destruct (negb (s =? status_code ST_OK) || (l =? 1)).
  { eexists _, _, _, _. split; [done|]. rewrite stored_length by (unfold blen in *; cbn [length]; lia).
    split; [done|left]. split; [done|]. split; [done|]. exists []. done. }
  pose proof (parse_field_spec (CHAT_MAX_IP_STR_LEN - 1) r Hr) as Hip.
  destruct (parse_field _ r) as [[ip r']|]; [|by eexists _, _, _, _; auto].
  destruct Hip as [-> Hip]. apply Forall_cons_1 in Hr as [_ [_ Hr']%Forall_app].
  assert (blen (stored ip oip) = blen oip) as Lo by (apply stored_length; revert Hip; chat_consts; lia).
  destruct r' as [|pl [|hi [|lo r']]]; [by eexists _, _, _, _; auto..|].
  destruct (pl =? 2); [|by eexists _, _, _, _; auto].
  eexists _, _, _, _. split; [done|]. split; [done|left]. split; [done|].
  rewrite !Forall_cons_iff in Hr'. destruct Hr' as (_ & Hhi & Hlo & _). split; [unfold is_u16, is_u8 in *; lia|].
  destruct (stored_c_str ip oip) as (x & Ex & Lx). exists x. split; [done|]. revert Hip. chat_consts. lia.
Qed.

(** ** Calls *)

Inductive client_call :=
| CRegister (user pass : cstring)
| CLogin (user pass : cstring)
| CLogout
| CCreate (group : cstring)
| CJoin (group : cstring)
| CLeave (group : cstring).

(** A call of the interface; the two buffers are passed to create and join. *)
Definition client_do (call : client_call) (m : ptr ClientMng) (oip : ptr bytes) (op : ptr Z)
    (s : socket (P := P)) (o : os) : M (Z * ptr bytes * ptr Z * ptr ClientMng * socket (P := P) * os) :=
  match call with
  | CRegister u p =>
      '(st, s) ← lift (client_mng_register peer m (Some u) (Some p) s); mret (st, oip, op, m, s, o)
  | CLogin u p =>
      '(st, m, s) ← lift (client_mng_login peer m (Some u) (Some p) s); mret (st, oip, op, m, s, o)
  | CLogout => '(st, m, s, o) ← client_mng_logout peer m s o; mret (st, oip, op, m, s, o)
  | CCreate g => client_mng_create_group peer m (Some g) oip op s o
  | CJoin g => client_mng_join_group peer m (Some g) oip op s o
  | CLeave g => '(st, m, s, o) ← client_mng_leave_group peer m (Some g) s o; mret (st, oip, op, m, s, o)
  end.

(** The request of a call; what is too long is refused before anything is sent. *)
Definition call_frame (call : client_call) : option bytes :=
  match call with
  | CRegister u p => if (strlen u <=? CHAT_MAX_USERNAME_LEN) && (strlen p <=? CHAT_MAX_PASSWORD_LEN)
      then Some (user_pass_frame OP_REG_REQ u p) else None
  | CLogin u p => if (strlen u <=? CHAT_MAX_USERNAME_LEN) && (strlen p <=? CHAT_MAX_PASSWORD_LEN)
      then Some (user_pass_frame OP_LOGIN_REQ u p) else None
  | CLogout => Some logout_frame
  | CCreate g => if strlen g <=? CHAT_MAX_GROUPNAME_LEN then Some (groupname_frame OP_CREATE_GROUP_REQ g) else None
  | CJoin g => if strlen g <=? CHAT_MAX_GROUPNAME_LEN then Some (groupname_frame OP_JOIN_GROUP_REQ g) else None
  | CLeave g => if strlen g <=? CHAT_MAX_GROUPNAME_LEN then Some (groupname_frame OP_LEAVE_GROUP_REQ g) else None
  end.

Definition call_ok (call : client_call) : Prop :=
  match call with
  | CRegister u p | CLogin u p => is_byte_list u /\ is_byte_list p
  | CLogout => True
  | CCreate g | CJoin g | CLeave g => is_byte_list g
  end.

(** What the caller gets back, in terms of the reply. *)
Definition call_result (call : client_call) (reply : option bytes) (oip : bytes) (p0 : Z) : Z * bytes * Z :=
  match call with
  | CCreate _ | CJoin _ => reply_group reply oip p0
  | _ => (reply_status reply, oip, p0)
  end.

(** The login state and the windows after a positive reply. *)
Definition login_effect (call : client_call) (st : Z) (lu : Z * cstring) : Z * cstring :=
  if negb (st =? 0) then lu else
  match call with CLogin u _ => (1, u) | CLogout => (0, []) | _ => lu end.

Definition window_effect (id : Z) (call : client_call) (st : Z) (ip : cstring) (p : Z) (user : cstring)
    (es : list GroupEntry) (o : os) : list GroupEntry * os :=
  if negb (st =? 0) then (es, o) else
  match call with
  | CCreate g | CJoin g => let '(_, es, o) := spec_join id es g ip p user o in (es, o)
  | CLeave g => spec_leave es g o
  | CLogout => ([], spec_clear es o)
  | _ => (es, o)
  end.

(** ** The requests *)

(** What was asked by a call, if anything was. *)
Definition call_asked (fr : option bytes) (s s' : socket) (reply : option bytes) : Prop :=
  match fr with Some fr => asked s fr s' reply | None => s' = s /\ reply = None end.

Lemma user_pass_frame_ok op u p : is_byte_list u -> is_byte_list p ->
  strlen u <= CHAT_MAX_USERNAME_LEN -> strlen p <= CHAT_MAX_PASSWORD_LEN ->
  is_byte_list (user_pass_frame op u p) /\ blen (user_pass_frame op u p) <= CHAT_MAX_MSG_SIZE.
Proof.
  intros Hu Hp. unfold user_pass_frame, strlen. fold (blen u) (blen p). chat_consts. intros Lu Lp.
  rewrite frame_len, blen_app, !field_len. split; [|lia]. apply frame_bytes; [rewrite blen_app, !field_len; lia|].
  apply Forall_app. split; apply field_bytes; (done || lia).
Qed.

Lemma groupname_frame_ok op g : is_byte_list g -> strlen g <= CHAT_MAX_GROUPNAME_LEN ->
  is_byte_list (groupname_frame op g) /\ blen (groupname_frame op g) <= CHAT_MAX_MSG_SIZE.
Proof.
  intros Hg. unfold groupname_frame, strlen. fold (blen g). chat_consts. intros Lg.
  rewrite frame_len, field_len. split; [|lia]. apply frame_bytes; [rewrite field_len; lia|]. apply field_bytes; (done || lia).
Qed.

Lemma msg_buf_len : CHAT_MAX_MSG_SIZE <= blen (replicate (Z.to_nat CHAT_MAX_MSG_SIZE) 0).
Proof. by vm_compute. Qed.

(** After a request was encoded, the exchange. *)
Lemma exchange_msg m fr s : conn_ok (PI := PI) s -> 0 <= sockfd m -> is_byte_list fr -> blen fr <= CHAT_MAX_MSG_SIZE ->
  exists reply s' b, exchange peer m (blen fr)
      (Some (fr ++ drop (length fr) (replicate (Z.to_nat CHAT_MAX_MSG_SIZE) 0))) s
    = Some ((fun data => (Some (data ++ drop (length data) b), Some (blen data))) <$> reply, s') /\
    is_byte_list b /\ asked s fr s' reply.
Proof.
  intros O Hfd Hb Hl. destruct (msg_buf_frame fr Hb Hl) as [B L].
  destruct (exchange_spec m fr _ s O Hfd B L) as (reply & s' & E & A). by eexists reply, s', _.
Qed.

(** The status in a reply to be read off the buffer. *)
Lemma read_status {A} data b (k : Z -> option A) (f : option A) : one_frame data ->
  k failure = f ->
  ('(r, status) ← chat_decode_status_rep (Some (data ++ drop (length data) b)) (blen data) (Some 0);
   if negb (r =? 0) then f else st ← status; k st) = k (reply_status (Some data)).
Proof.
  intros Hf <-. rewrite (decode_status_front data b Hf).
  by destruct data as [|t [|l [|st [|x data]]]].
Qed.

Lemma rep_do_user_pass m op u p s : conn_ok (PI := PI) s -> 0 <= sockfd m -> is_byte_list u -> is_byte_list p ->
  exists reply s', do_user_pass peer m op (Some u) (Some p) s = Some (reply_status reply, s') /\
    call_asked (if (strlen u <=? CHAT_MAX_USERNAME_LEN) && (strlen p <=? CHAT_MAX_PASSWORD_LEN)
                then Some (user_pass_frame op u p) else None) s s' reply.
Proof.
  intros O Hfd Hu Hp. unfold do_user_pass, msg_buf.
  destruct ((strlen u <=? CHAT_MAX_USERNAME_LEN) && (strlen p <=? CHAT_MAX_PASSWORD_LEN)) eqn:E; bprop.
  -
    rewrite encode_user_pass_spec by (done || apply msg_buf_len). cbn [mbind option_bind].
    destruct (user_pass_frame_ok op u p) as [B L]; [done..|].
    destruct (exchange_msg m (user_pass_frame op u p) s O Hfd B L) as (reply & s' & b & Ex & _ & A).
    rewrite Ex. cbn [mbind option_bind]. exists reply, s'. split; [|done].
    destruct reply as [data|]; [|done]. cbn [fmap option_fmap option_map].
    destruct A as (? & ? & _ & _ & _ & _ & (_ & Hone & _) & _).
    cbn [mbind option_bind]. exact (read_status data b (fun st => Some (st, s')) _ Hone eq_refl).
  - exists None, s. split; [|done]. unfold chat_encode_user_pass_req.
    assert ((strlen u >? CHAT_MAX_USERNAME_LEN) || (strlen p >? CHAT_MAX_PASSWORD_LEN) = true) as ->.
    { rewrite !Z.gtb_ltb. apply orb_true_iff. destruct E; bprop; [left|right]; by apply Z.ltb_lt. }
    done.
Qed.

(** ** The client *)

Record cm_rep (c : ClientMng) (id : Z) (es : list GroupEntry) : Prop := {
  cm_windows : exists w, windows c = Some w /\ cg_rep w id es;
  cm_names : NoDup (name <$> es);
  cm_id : 0 <= id < 2 ^ 31;
  cm_fd : 0 <= sockfd c;
  cm_user : strlen (username c) <= CHAT_MAX_USERNAME_LEN
}.

Lemma cm_rep_login c id es l u : cm_rep c id es -> strlen u <= CHAT_MAX_USERNAME_LEN -> cm_rep (set_login c l u) id es.
Proof. intros [] H. by constructor. Qed.

Lemma cm_rep_windows c id es es' w : cm_rep c id es -> cg_rep w id es' -> NoDup (name <$> es') ->
  cm_rep (set_windows c (Some w)) id es'.
Proof. intros [] Hw Hn. constructor; try done. by exists w. Qed.

(** What a call does, for the other end whatever it is. *)
Definition call_done (call : client_call) (c : ClientMng) (id : Z) (es : list GroupEntry) (oip : bytes) (p0 : Z)
    (s : socket) (o : os) (m : mem) (res : option (Z * ptr bytes * ptr Z * ptr ClientMng * socket * os * mem)) : Prop :=
  exists st ip' p' c' s' o' m' es' reply,
    res = Some ((st, Some ip', Some p', Some c', s', o'), m') /\
    call_asked (call_frame call) s s' reply /\ conn_ok (PI := PI) s' /\
    (st, ip', p') = call_result call reply oip p0 /\
    cm_rep c' id es' /\ sockfd c' = sockfd c /\
    (logged_in c', username c') = login_effect call st (logged_in c, username c) /\
    live m' - cg_blocks es' = live m - cg_blocks es /\
    (accounted o' es' ≡ₚ accounted o es) /\
    (alloc_ok m -> alloc_ok m' /\
       (es', o') = window_effect id call st (default [] (c_str ip')) p' (username c) es o).

Lemma asked_ok s fr s' reply : asked s fr s' reply -> conn_ok (PI := PI) s'.
Proof. by intros (? & ? & _ & _ & _ & ? & _). Qed.

Lemma call_asked_ok fr s s' reply : conn_ok (PI := PI) s -> call_asked fr s s' reply -> conn_ok (PI := PI) s'.
Proof. intros O. destruct fr; cbn [call_asked]; [apply asked_ok|by intros [-> _]]. Qed.

(** A call that changes nothing at the client. *)
Lemma call_unchanged call c id es oip p0 s o m st ip' p' s' reply : cm_rep c id es ->
  conn_ok (PI := PI) s -> call_asked (call_frame call) s s' reply -> (st, ip', p') = call_result call reply oip p0 ->
  login_effect call st (logged_in c, username c) = (logged_in c, username c) ->
  window_effect id call st (default [] (c_str ip')) p' (username c) es o = (es, o) ->
  call_done call c id es oip p0 s o m (Some ((st, Some ip', Some p', Some c, s', o), m)).
Proof.
  intros R O A Hr Hl Hw. exists st, ip', p', c, s', o, m, es, reply.
  split; [done|]. split; [done|]. split; [by eapply call_asked_ok|]. split; [done|]. split; [done|].
  split; [done|]. split; [done|]. split; [done|]. split; [done|]. by rewrite Hw.
Qed.

Lemma set_login_same c : set_login c (logged_in c) (username c) = c.
Proof. by destruct c. Qed.

Lemma failed_effects call id c ip p es o st : st <> 0 ->
  login_effect call st (logged_in c, username c) = (logged_in c, username c) /\
  window_effect id call st ip p (username c) es o = (es, o).
Proof. intros H. unfold login_effect, window_effect. by rewrite (proj2 (Z.eqb_neq st 0)). Qed.

Lemma rep_auth call c id es oip p0 s o m : cm_rep c id es -> conn_ok (PI := PI) s -> call_ok call ->
  match call with CRegister _ _ | CLogin _ _ => True | _ => False end ->
  call_done call c id es oip p0 s o m (client_do call (Some c) (Some oip) (Some p0) s o m).
Proof.
  intros R O Hc Hcall. destruct call as [u p|u p| | | |]; try done; destruct Hc as [Hu Hp]; cbn [client_do].
  - destruct (rep_do_user_pass c OP_REG_REQ u p s O (cm_fd _ _ _ R) Hu Hp) as (reply & s' & E & A).
    unfold client_mng_register. rewrite E. mlift.
    eapply call_unchanged; [done|done|exact A|done| |]; unfold login_effect, window_effect; by destruct (negb _).
  - destruct (rep_do_user_pass c OP_LOGIN_REQ u p s O (cm_fd _ _ _ R) Hu Hp) as (reply & s' & E & A).
    unfold client_mng_login. rewrite E. cbn [mbind option_bind status_code].
    destruct (reply_status reply =? 0) eqn:Est; mlift; cycle 1.
    { bprop. destruct (failed_effects (CLogin u p) id c (default [] (c_str oip)) p0 es o _ Est).
      eapply call_unchanged; [done|done|exact A|done|done|done]. }
    assert (strlen u <= CHAT_MAX_USERNAME_LEN) as Lu.
    { cbn [call_frame] in A. destruct ((strlen u <=? _) && _) eqn:E2; bprop; [done|].
      destruct A as [_ ->]. done. }
    rewrite (strncpy_fits _ _ Lu).
    exists (reply_status reply), oip, p0, (set_login c 1 u), s', o, m, es, reply.
    split; [done|]. split; [done|]. split; [by eapply (call_asked_ok (call_frame (CLogin u p)))|]. split; [done|].
    split; [by apply cm_rep_login|]. split; [done|]. split; [unfold login_effect; by rewrite Est|].
    split; [done|]. split; [done|]. unfold window_effect. by rewrite Est.
Qed.

(** The request of a call that names a group. *)
Lemma ask_group c op g s : conn_ok (PI := PI) s -> 0 <= sockfd c -> is_byte_list g ->
  exists n buf reply s' b, chat_encode_groupname_req msg_buf op (Some g) = Some (n, buf) /\
    exchange peer c n buf s
    = Some ((fun data => (Some (data ++ drop (length data) b), Some (blen data))) <$> reply, s') /\
    is_byte_list b /\
    call_asked (if strlen g <=? CHAT_MAX_GROUPNAME_LEN then Some (groupname_frame op g) else None) s s' reply.
Proof.
  intros O Hfd Hg. unfold msg_buf. destruct (strlen g <=? CHAT_MAX_GROUPNAME_LEN) eqn:E; bprop.
  - rewrite encode_groupname_spec by (done || apply msg_buf_len).
    destruct (groupname_frame_ok op g Hg E) as [B L].
    destruct (exchange_msg c (groupname_frame op g) s O Hfd B L) as (reply & s' & b & Ex & Hb & A).
    eexists _, _, reply, s', b. done.
  - unfold chat_encode_groupname_req. rewrite Z.gtb_ltb, (proj2 (Z.ltb_lt _ _)) by done.
    eexists _, _, None, s, []. split; [done|]. split; [done|]. split; [constructor|done].
Qed.

Lemma reply_frame fr s s' data : call_asked fr s s' (Some data) -> one_frame data /\ is_byte_list data.
Proof.
  destruct fr as [fr|]; [|by intros [_ ?]].
  by intros (? & ? & _ & _ & _ & _ & (_ & ? & ? & _) & _).
Qed.

Lemma rep_do_group_join c op g oip p0 s : conn_ok (PI := PI) s -> 0 <= sockfd c -> is_byte_list g ->
  16 <= blen oip ->
  exists reply s' ip' p', do_group_join peer c op (Some g) (Some oip) (Some p0) s
      = Some ((reply_group reply oip p0).1.1, Some ip', Some p', s') /\
    (ip', p') = ((reply_group reply oip p0).1.2, (reply_group reply oip p0).2) /\
    call_asked (if strlen g <=? CHAT_MAX_GROUPNAME_LEN then Some (groupname_frame op g) else None) s s' reply /\
    ((reply_group reply oip p0).1.1 = 0 -> is_u16 p' /\ exists ip, c_str ip' = Some ip /\ strlen ip < CHAT_MAX_IP_STR_LEN).
Proof.
  intros O Hfd Hg Ho. unfold do_group_join.
  destruct (ask_group c op g s O Hfd Hg) as (n & buf & reply & s' & b & -> & Ex & Hb & A).
  cbn [mbind option_bind]. rewrite Ex. cbn [mbind option_bind]. exists reply, s'.
  destruct reply as [data|]; cbn [fmap option_fmap option_map]; [|by exists oip, p0].
  destruct (reply_frame _ _ _ _ A) as [Hf Hd]. cbn [mbind option_bind].
  rewrite (decode_group_front data b oip p0 Hf Hd Hb Ho). cbn [mbind option_bind reply_group].
  destruct (group_outcome_range data oip p0 Hd Ho) as (rc & st & oip' & p' & -> & _ & Hr).
  cbn [mbind option_bind fst snd default]. exists oip', p'.
  destruct Hr as [(-> & Hp & ip & Eip & Lip)| ->]; cbn [Z.eqb negb mbind option_bind].
  - split; [done|]. split; [done|]. split; [done|]. intros _. split; [done|]. by exists ip.
  - split; [done|]. split; [done|]. by split.
Qed.

(** [client_mng_create_group] and [client_mng_join_group]. *)
Lemma rep_group_call call op g c id es oip p0 s o m : cm_rep c id es -> conn_ok (PI := PI) s -> is_byte_list g ->
  16 <= blen oip ->
  call = CCreate g /\ op = OP_CREATE_GROUP_REQ \/ call = CJoin g /\ op = OP_JOIN_GROUP_REQ ->
  call_done call c id es oip p0 s o m (group_call peer op (Some c) (Some g) (Some oip) (Some p0) s o m).
Proof.
  intros R O Hg Ho Hcall. unfold group_call.
  destruct (rep_do_group_join c op g oip p0 s O (cm_fd _ _ _ R) Hg Ho) as (reply & s' & ip' & p' & E & Er & A & Hpos).
  rewrite E. mlift.
  assert (call_frame call = if strlen g <=? CHAT_MAX_GROUPNAME_LEN then Some (groupname_frame op g) else None) as Ef.
  { by destruct Hcall as [[-> ->]|[-> ->]]. }
  rewrite <-Ef in A.
  assert (((reply_group reply oip p0).1.1, ip', p') = call_result call reply oip p0) as Hres.
  { injection Er as -> ->. destruct Hcall as [[-> _]|[-> _]]; cbn [call_result];
      by destruct (reply_group reply oip p0) as [[??]?]. }
  set (st := (reply_group reply oip p0).1.1) in *. cbn [status_code].
  destruct (st =? 0) eqn:Est; bprop; cycle 1.
  { destruct (failed_effects call id c (default [] (c_str ip')) p' es o st Est).
    by eapply call_unchanged. }
  destruct (Hpos Est) as (Hp & ip & Eip & Lip). cbn [mbind option_bind]. rewrite Eip. mlift. mlift.
  destruct (cm_windows _ _ _ R) as (w & Hw & Rw). rewrite Hw.
  assert (strlen g <= CHAT_MAX_GROUPNAME_LEN) as Lg.
  { rewrite Ef in A. destruct (strlen g <=? _) eqn:Eg; bprop; [done|].
    destruct A as [_ ->]. done. }
  destruct (rep_on_join w id es g ip p' (username c) o m Rw (cm_names _ _ _ R))
    as (r & w' & o' & m' & es' & Ej & Rw' & N' & L & Ac & Hs & Ok).
  { split; [apply R|]. split; [done|]. split; [done|]. split; [done|]. apply R. }
  mrun Ej. exists st, ip', p', (set_windows c (Some w')), s', o', m', es', reply.
  split; [done|]. split; [done|]. split; [by eapply call_asked_ok|]. split; [done|].
  split; [by eapply cm_rep_windows|]. split; [done|]. split.
  { unfold login_effect. rewrite Est. by destruct Hcall as [[-> _]|[-> _]]. }
  split; [done|]. split; [done|]. intros Hm. split; [by apply Ok|]. rewrite Eip.
  change (default [] (Some ip)) with ip. unfold window_effect. rewrite Est. cbn [Z.eqb negb].
  destruct Hcall as [[-> _]|[-> _]]; (destruct Hs as [<-|(_ & _ & Hbad)]; [done|by destruct Hbad]).
Qed.

Lemma read_status_M {A} data b (k : Z -> M A) (f : M A) m : one_frame data -> k failure m = f m ->
  ('(r, status) ← lift (chat_decode_status_rep (Some (data ++ drop (length data) b)) (blen data) (Some 0));
   if negb (r =? 0) then f else st ← lift status; k st) m = k (reply_status (Some data)) m.
Proof.
  intros Hf E. rewrite (decode_status_front data b Hf). mlift.
  by destruct data as [|t [|l [|st [|x data]]]]; cbn [Z.eqb negb]; rewrite <-?E.
Qed.

(** The calls that read a status and then close windows. *)
Lemma logout_run c s o m : conn_ok (PI := PI) s -> 0 <= sockfd c ->
  exists reply s', call_asked (Some logout_frame) s s' reply /\
    client_mng_logout peer (Some c) s o m
    = (if reply_status reply =? status_code ST_OK then
         '(w, o) ← client_groups_mng_clear (windows c) o;
         mret (reply_status reply, Some (set_login (set_windows c w) 0 []), s', o)
       else mret (reply_status reply, Some c, s', o)) m.
Proof.
  intros O Hfd. unfold client_mng_logout, msg_buf.
  rewrite encode_logout_spec by (vm_compute; done). mlift.
  destruct (exchange_msg c logout_frame s O Hfd) as (reply & s' & b & Ex & _ & A);
    [by repeat constructor|by vm_compute|].
  exists reply, s'. split; [done|]. rewrite Ex. mlift.
  destruct reply as [data|]; cbn [fmap option_fmap option_map]; [|done].
  destruct (reply_frame (Some logout_frame) _ _ _ A) as [Hf _]. mlift.
  apply (read_status_M data b (fun st => if st =? status_code ST_OK then _ else _) _ m Hf). done.
Qed.

Lemma leave_run c g s o m : conn_ok (PI := PI) s -> 0 <= sockfd c -> is_byte_list g ->
  exists reply s', call_asked (call_frame (CLeave g)) s s' reply /\
    client_mng_leave_group peer (Some c) (Some g) s o m
    = (if reply_status reply =? status_code ST_OK then
         '(w, o) ← client_groups_mng_on_leave (windows c) (Some g) o;
         mret (reply_status reply, Some (set_windows c w), s', o)
       else mret (reply_status reply, Some c, s', o)) m.
Proof.
  intros O Hfd Hg. unfold client_mng_leave_group.
  destruct (ask_group c OP_LEAVE_GROUP_REQ g s O Hfd Hg) as (n & buf & reply & s' & b & -> & Ex & _ & A). mlift.
  exists reply, s'. split; [done|]. rewrite Ex. mlift.
  destruct reply as [data|]; cbn [fmap option_fmap option_map]; [|done].
  destruct (reply_frame (call_frame (CLeave g)) _ _ _ A) as [Hf _]. mlift.
  apply (read_status_M data b (fun st => if st =? status_code ST_OK then _ else _) _ m Hf). done.
Qed.

Lemma rep_logout c id es oip p0 s o m : cm_rep c id es -> conn_ok (PI := PI) s ->
  call_done CLogout c id es oip p0 s o m (client_do CLogout (Some c) (Some oip) (Some p0) s o m).
Proof.
  intros R O. cbn [client_do]. destruct (logout_run c s o m O (cm_fd _ _ _ R)) as (reply & s' & A & E).
  cbn [status_code] in E. destruct (reply_status reply =? 0) eqn:Est; cycle 1.
  { mrun E. bprop. destruct (failed_effects CLogout id c (default [] (c_str oip)) p0 es o _ Est).
    by apply (call_unchanged CLogout c id es oip p0 s o m _ oip p0 s' reply R O A). }
  destruct (cm_windows _ _ _ R) as (w & Hw & Rw). rewrite Hw in E.
  destruct (rep_clear w id es o m Rw) as (w' & Ec & Rw').
  rewrite (M_bind_Some _ _ _ _ _ Ec) in E. mrun E.
  eexists _, oip, p0, _, s', _, _, [], reply. split; [done|]. split; [done|].
  split; [by eapply (call_asked_ok (Some logout_frame))|]. split; [done|]. split.
  { apply cm_rep_login; [|by vm_compute]. eapply cm_rep_windows; [done..|]. apply NoDup_nil_2. }
  split; [done|]. split; [unfold login_effect; by rewrite Est|].
  split; [unfold cg_blocks; cbn [live length]; lia|]. split; [apply accounted_clear|].
  intros Hm. split; [done|]. unfold window_effect. by rewrite Est.
Qed.

Lemma rep_leave g c id es oip p0 s o m : cm_rep c id es -> conn_ok (PI := PI) s -> is_byte_list g ->
  call_done (CLeave g) c id es oip p0 s o m (client_do (CLeave g) (Some c) (Some oip) (Some p0) s o m).
Proof.
  intros R O Hg. cbn [client_do]. destruct (leave_run c g s o m O (cm_fd _ _ _ R) Hg) as (reply & s' & A & E).
  cbn [status_code] in E. destruct (reply_status reply =? 0) eqn:Est; cycle 1.
  { mrun E. bprop. destruct (failed_effects (CLeave g) id c (default [] (c_str oip)) p0 es o _ Est).
    by apply (call_unchanged (CLeave g) c id es oip p0 s o m _ oip p0 s' reply R O A). }
  destruct (cm_windows _ _ _ R) as (w & Hw & Rw). rewrite Hw in E.
  destruct (rep_on_leave w id es g o m Rw (cm_names _ _ _ R)) as (w' & m' & El & Rw' & N' & L & Pl).
  rewrite (M_bind_Some _ _ _ _ _ El) in E. mrun E.
  eexists _, oip, p0, _, s', _, m', _, reply. split; [done|]. split; [done|].
  split; [by eapply (call_asked_ok (call_frame (CLeave g)))|]. split; [done|].
  split; [by eapply cm_rep_windows|]. split; [done|]. split; [unfold login_effect; by rewrite Est|].
  split; [done|]. split; [apply accounted_leave|].
  intros Hm. split; [unfold alloc_ok in *; by rewrite Pl|]. unfold window_effect. rewrite Est.
  by destruct (spec_leave es g o).
Qed.

Lemma rep_call call c id es oip p0 s o m : cm_rep c id es -> conn_ok (PI := PI) s -> call_ok call ->
  16 <= blen oip ->
  call_done call c id es oip p0 s o m (client_do call (Some c) (Some oip) (Some p0) s o m).
Proof.
  intros R O Hc Ho. destruct call as [u p|u p| |g|g|g].
  - by apply rep_auth.
  - by apply rep_auth.
  - by apply rep_logout.
  - apply rep_group_call; [done|done|done|done|by left].
  - apply rep_group_call; [done|done|done|done|by right].
  - by apply rep_leave.
Qed.

End spec.

(** ** Lifecycle *)

(** The system lets a client be created. *)
Definition can_connect (k : connect_answers) (ipc : ipc_answers) : bool :=
  (0 <=? socket_fd k) && pton_ok k && connect_ok k && ftok_ok ipc && (0 <=? msgget_id ipc).

Lemma rep_mng_create k ipc ip p o m : exists r closed o' m',
  client_mng_create k ipc (Some ip) p o m = Some ((r, closed, o'), m') /\
  match r with
  | Some c => sockfd c = socket_fd k /\ closed = [] /\ logged_in c = 0 /\ username c = [] /\ o' = o /\
      live m' = live m + 1 + cg_blocks [] /\ (msgget_id ipc < 2 ^ 31 -> cm_rep c (msgget_id ipc) [])
  | None => live m' = live m /\ (killed (events o') = killed (events o) /\ stuck o' = stuck o) /\
      ((closed = [] /\ (socket_fd k < 0 \/ ~ alloc_ok m)) \/ (closed = [socket_fd k] /\ 0 <= socket_fd k))
  end /\ (alloc_ok m -> alloc_ok m') /\
  (alloc_ok m -> can_connect k ipc = true -> r <> None) /\ (r <> None -> can_connect k ipc = true).
Proof.
  unfold can_connect, client_mng_create. destruct (malloc_inv m) as (b & m1 & E & L & O). mrun E.
  destruct b; cbn [negb]; cycle 1.
  { eexists NULL, [], o, m1. split; [done|]. split; [|split; [|split; [|done]]; intros Hm; by destruct (O Hm)].
    split; [lia|]. split; [done|left]. split; [done|right]. intros Hm. by destruct (O Hm). }
  assert (forall b : Z, alloc_ok m -> alloc_ok (Mem (plan m1) (live m1 - b))) as Of by (intros b Hm; by apply O).
  unfold client_net_connect. destruct (socket_fd k <? 0) eqn:Ef; bprop.
  { cbn. mfree. eexists NULL, [], o, _. split; [done|]. rewrite (proj2 (Z.leb_gt _ _)) by lia.
    split; [|split; [apply Of|done]]. split; [cbn [live]; lia|]. split; [done|left]. split; [done|by left]. }
  rewrite (proj2 (Z.leb_le _ _)) by lia.
  destruct (pton_ok k); cbn [negb andb]; cycle 1.
  { cbn. mfree. eexists NULL, _, o, _. split; [done|]. split; [|split; [apply Of|done]].
    split; [cbn [live]; lia|]. split; [done|by right]. }
  destruct (connect_ok k); cbn [negb andb]; cycle 1.
  { cbn. mfree. eexists NULL, _, o, _. split; [done|]. split; [|split; [apply Of|done]].
    split; [cbn [live]; lia|]. split; [done|by right]. }
  rewrite (proj2 (Z.ltb_ge _ _)) by lia.
  destruct (rep_groups_create ipc o m1) as (w & o1 & m2 & E2 & C & O2 & S & S'). mrun E2. destruct w as [w|].
  - destruct C as (Rw & Hid & L2 & ->). eexists (Some _), [], o, m2. split; [done|].
    split; [|split; [intros Hm; by apply O2, O|split; [done|]]]; cycle 1.
    { intros _. rewrite S' by done. by rewrite (proj2 (Z.leb_le _ _)) by lia. }
    cbn [sockfd logged_in username].
    do 5 (split; [done|]). split; [lia|]. intros Hmax. constructor; cbn [windows sockfd username].
    + by exists w.
    + apply NoDup_nil_2.
    + done.
    + done.
    + by vm_compute.
  - destruct C as [L2 Ho]. mfree. eexists NULL, _, o1, _. split; [done|].
    split; [|split; [intros Hm; by apply alloc_ok_free, O2, O|split; [|done]]].
    + split; [cbn [live]; lia|]. split.
      * destruct Ho as [->| ->]; [done|]. split; [|by apply stuck_log]. unfold log. cbn [events]. rewrite killed_app. apply app_nil_r.
      * right. unfold client_net_close. assert ((socket_fd k >=? 0) = true) as -> by (apply Z.geb_le; lia). done.
    + intros Hm Hc. bprop. exfalso. apply S; [by apply O|done..].
Qed.

Lemma rep_mng_destroy c id es closed o m : cm_rep c id es ->
  client_mng_destroy (Some (Some c)) closed o m
  = Some ((Some NULL, closed ++ [sockfd c], log (spec_clear es o) (RemoveQueue id)),
          Mem (plan m) (live m - 1 - cg_blocks es)).
Proof.
  intros R. unfold client_mng_destroy. destruct (cm_windows _ _ _ R) as (w & Hw & Rw). rewrite Hw.
  mrun (rep_groups_destroy w id es o m Rw (proj1 (cm_id _ _ _ R))). mfree.
  unfold client_net_close. pose proof (cm_fd _ _ _ R). assert ((sockfd c >=? 0) = true) as -> by (apply Z.geb_le; lia).
  cbn [plan live]. unfold mret, M_ret. do 3 f_equal. lia.
Qed.

(** A session: a sequence of calls with the statuses they return. *)
Fixpoint client_run {P} (peer : P -> bytes -> option (P * bytes)) (calls : list client_call) (m : ptr ClientMng)
    (oip : ptr bytes) (op : ptr Z) (s : socket) (o : os)
  : M (list Z * ptr ClientMng * socket (P := P) * os) :=
  match calls with
  | [] => mret ([], m, s, o)
  | call :: calls =>
      '(st, oip, op, m, s, o) ← client_do (peer := peer) call m oip op s o;
      '(sts, m, s, o) ← client_run peer calls m oip op s o;
      mret (st :: sts, m, s, o)
  end.

(** Who is logged in after the calls, by their statuses. *)
Fixpoint login_run (calls : list client_call) (sts : list Z) (lu : Z * cstring) : Z * cstring :=
  match calls, sts with
  | call :: calls, st :: sts => login_run calls sts (login_effect call st lu)
  | _, _ => lu
  end.

(** What becomes of the windows during the calls: each has its effect
    ([window_effect]), on the address its reply has brought. *)
Inductive window_run (id : Z) : list client_call -> list Z -> Z * cstring -> list GroupEntry -> os -> list GroupEntry -> os -> Prop :=
| windows_none lu es o : window_run id [] [] lu es o es o
| windows_call call calls st sts lu ip p es o es1 o1 es2 o2 : (es1, o1) = window_effect id call st ip p lu.2 es o ->
    window_run id calls sts (login_effect call st lu) es1 o1 es2 o2 ->
    window_run id (call :: calls) (st :: sts) lu es o es2 o2.

Lemma call_result_len call reply oip p0 st ip' p' : 16 <= blen oip ->
  (forall data, reply = Some data -> is_byte_list data) ->
  (st, ip', p') = call_result call reply oip p0 -> blen ip' = blen oip.
Proof.
  intros Ho Hd. destruct call; cbn [call_result]; try by intros [= _ -> _].
  all: destruct reply as [data|]; cbn [reply_group]; [|by intros [= _ -> _]].
  all: destruct (group_outcome_range data oip p0 (Hd _ eq_refl) Ho) as (rc & st' & oip' & p1 & -> & L & _).
  all: by intros [= _ -> _].
Qed.

Lemma rep_client_run {P} (peer : P -> bytes -> option (P * bytes)) (PI : P -> Prop) `{!Peer peer PI}
    calls c id es oip p0 s o m :
  cm_rep c id es -> conn_ok (PI := PI) s -> Forall call_ok calls -> 16 <= blen oip ->
  exists sts c' s' o' m' es', client_run peer calls (Some c) (Some oip) (Some p0) s o m
      = Some ((sts, Some c', s', o'), m') /\ length sts = length calls /\
    cm_rep c' id es' /\ conn_ok (PI := PI) s' /\ sockfd c' = sockfd c /\
    (logged_in c', username c') = login_run calls sts (logged_in c, username c) /\
    live m' - cg_blocks es' = live m - cg_blocks es /\ (accounted o' es' ≡ₚ accounted o es) /\
    (alloc_ok m -> window_run id calls sts (logged_in c, username c) es o es' o').
Proof.
  intros R O Hc Ho. revert c es oip p0 s o m R O Ho. induction Hc as [|call calls Hcall Hc IH];
    intros c es oip p0 s o m R O Ho.
  { exists [], c, s, o, m, es. do 7 (split; [done|]). split; [done|]. intros _. constructor. }
  destruct (rep_call call c id es oip p0 s o m R O Hcall Ho)
    as (st & ip' & p' & c1 & s1 & o1 & m1 & es1 & reply & E & A & O1 & Hres & R1 & Hfd & Hlu & L & Ac & Hw).
  assert (16 <= blen ip') as Ho1.
  { erewrite (call_result_len call reply oip p0 st ip' p'); [done|done| |done].
    intros data ->. by apply (reply_frame _ _ _ _ A). }
  destruct (IH c1 es1 ip' p' s1 o1 m1 R1 O1 Ho1)
    as (sts & c' & s' & o' & m' & es' & E' & Hlen & R' & O' & Hfd' & Hlu' & L' & Ac' & Hw').
  exists (st :: sts), c', s', o', m', es'. cbn [client_run login_run length]. mrun E. mrun E'.
  split; [done|]. split; [by f_equal|]. split; [done|]. split; [done|]. split; [congruence|].
  split; [by rewrite Hlu', Hlu|]. split; [lia|]. split; [by rewrite Ac'|].
  intros Hm. destruct (Hw Hm) as [Hm1 Hw1]. rewrite Hlu in Hw'. by eapply windows_call; [exact Hw1|apply Hw'].
Qed.

(** ** Properties *)

(** C19: A call of the client manager is exact, for any other end of the
    connection and any behaviour of the kernel: it never has undefined
    behaviour; it sends the frame of the call, whole if the transport does not
    fail, or nothing if a name is too long; the status, the address and the
    port it returns are those of the frame that came back, or
    [ST_ERR_PROTOCOL]; the login state changes only on a positive reply, by a
    login to the given name, by a logout to none; no window and no memory is
    lost; and without allocation failure the windows and what is done to the
    processes are exactly what a positive reply to the call means, and nothing
    on any other reply.  A call that the kernel does not let return (a silent
    other end, [SIGPIPE], windows that do not report) leaves the connection
    [halted] or the system [stuck]; its status is then never seen. *)
Theorem client_call_exact (P : Type) (peer : P -> bytes -> option (P * bytes)) (PI : P -> Prop)
    `{!Peer peer PI} call c id es oip p0 (s : socket) o m :
  cm_rep c id es -> conn_ok (PI := PI) s -> call_ok call -> CHAT_MAX_IP_STR_LEN <= blen oip ->
  exists st ip' p' c' s' o' m' es' reply,
    client_do (peer := peer) call (Some c) (Some oip) (Some p0) s o m
      = Some ((st, Some ip', Some p', Some c', s', o'), m') /\
    call_asked (peer := peer) (PI := PI) (call_frame call) s s' reply /\
    (st, ip', p') = call_result call reply oip p0 /\
    cm_rep c' id es' /\
    (logged_in c', username c') = login_effect call st (logged_in c, username c) /\
    live m' - cg_blocks es' = live m - cg_blocks es /\
    (accounted o' es' ≡ₚ accounted o es) /\
    (alloc_ok m -> alloc_ok m' /\
       (es', o') = window_effect id call st (default [] (c_str ip')) p' (username c) es o).
Proof.
  intros R O Hc Ho. destruct (rep_call call c id es oip p0 s o m R O Hc Ho)
    as (st & ip' & p' & c' & s' & o' & m' & es' & reply & E & A & _ & Hr & R' & _ & H).
  by exists st, ip', p', c', s', o', m', es', reply.
Qed.

(** C18: The life of a client against any other end: creating it either fails
    with everything given back, the descriptor of a failed connection closed,
    or gives a client that is logged out and without windows; while memory
    lasts it succeeds exactly if the system lets it.  Any sequence of calls then
    runs without undefined behaviour, and who is logged in is determined by the
    statuses returned.  While memory lasts each call has its effect on the
    windows, so that a group whose two windows were started is tracked with the
    process ids they report.  Destroying the client closes the connection once,
    kills the processes of every window it keeps track of then, in order, and no
    others, removes the queue, frees all memory and clears the caller's pointer,
    so that destroying it again does nothing; every process id that was reported
    has been killed once or is still unread in the queue.  The sender window of a
    join whose second command fails is not kept track of: nothing kills it.  What
    follows a call that the kernel does not let return ([halted], [stuck]) is not
    part of a real run. *)
Theorem client_session_safe (P : Type) (peer : P -> bytes -> option (P * bytes)) (PI : P -> Prop)
    `{!Peer peer PI} k ipc ip p calls oip p0 (s : socket) o m :
  msgget_id ipc < 2 ^ 31 -> conn_ok (PI := PI) s -> Forall call_ok calls -> CHAT_MAX_IP_STR_LEN <= blen oip ->
  exists r closed o1 m1, client_mng_create k ipc (Some ip) p o m = Some ((r, closed, o1), m1) /\
  (alloc_ok m -> (r <> None <-> can_connect k ipc = true)) /\
  match r with
  | None => live m1 = live m /\ killed (events o1) = killed (events o) /\
      (closed = [] /\ (socket_fd k < 0 \/ ~ alloc_ok m) \/ closed = [socket_fd k] /\ 0 <= socket_fd k)
  | Some c => closed = [] /\ client_mng_is_logged_in r = 0 /\ o1 = o /\
      exists sts c' s' o2 m2 es, client_run peer calls (Some c) (Some oip) (Some p0) s o m1
          = Some ((sts, Some c', s', o2), m2) /\ length sts = length calls /\
        (client_mng_is_logged_in (Some c'), client_mng_username (Some c')) = login_run calls sts (0, []) /\
        cm_rep c' (msgget_id ipc) es /\
        (alloc_ok m -> window_run (msgget_id ipc) calls sts (0, []) [] o es o2) /\
        exists o3 m3, client_mng_destroy (Some (Some c')) closed o2 m2
            = Some ((Some NULL, [socket_fd k], o3), m3) /\
          live m3 = live m /\
          events o3 = events o2 ++ (Kill <$> (es ≫= entry_pids)) ++ [RemoveQueue (msgget_id ipc)] /\
          (accounted o3 [] ≡ₚ accounted o []) /\
          client_mng_destroy (Some NULL) [socket_fd k] o3 m3 = Some ((Some NULL, [socket_fd k], o3), m3)
  end.
Proof.
  intros Hid O Hc Ho. destruct (rep_mng_create k ipc ip p o m) as (r & closed & o1 & m1 & E & C & Oa & S & S').
  exists r, closed, o1, m1. split; [done|]. split; [intros Hm; split; [apply S'|by apply S]|]. destruct r as [c|].
  - destruct C as (Hfd & -> & Hl & Hu & -> & L & R). specialize (R Hid). do 3 (split; [done|]).
    destruct (rep_client_run peer PI calls c (msgget_id ipc) [] oip p0 s o m1 R O Hc Ho)
      as (sts & c' & s' & o2 & m2 & es & E2 & Hlen & R2 & _ & Hfd2 & Hlu & L2 & A & Hw).
    rewrite Hl, Hu in Hlu, Hw.
    exists sts, c', s', o2, m2, es. split; [done|]. split; [done|]. split; [done|]. split; [done|].
    split; [intros Hm; by apply Hw, Oa|].
    eexists _, _. rewrite <-Hfd, <-Hfd2. split; [by apply (rep_mng_destroy c' (msgget_id ipc) es [])|].
    split; [cbn [live]; lia|]. split; [unfold log, spec_clear, log_all; cbn [events]; by rewrite app_assoc|].
    split; [|done]. rewrite <-A, <-(accounted_clear es o2).
    unfold accounted, log. cbn [mailbox events]. by rewrite killed_app, !app_nil_r.
  - by destruct C as (? & [? _] & ?).
Qed.

(** For the witnesses: a connected client and the connection to a peer that
    sends everything back. *)
Definition demo_answers := MkConnect 3 true true.
Definition demo_os := MkOs (fun _ => 0) [(2, 102); (1, 101)] [].
Definition demo_socket := MkSocket tt [6; 1; 0] (fun _ => 1) (fun _ => 1) false.
Definition demo_client : ClientMng :=
  match client_mng_create demo_answers (MkIpc true 7) (Some [49]) 5555 demo_os (Mem [] 0) with
  | Some ((Some c, _, _), _) => c
  | _ => MkClientMng 0 [] 0 0 [] NULL
  end.

Lemma demo_client_ok : cm_rep demo_client 7 [].
Proof.
  destruct (rep_mng_create demo_answers (MkIpc true 7) [49] 5555 demo_os (Mem [] 0))
    as (r & closed & o1 & m1 & E & C & _).
  assert (r = Some demo_client) as ->.
  { unfold demo_client. rewrite E. destruct r; [done|]. exfalso. vm_compute in E. congruence. }
  by apply C.
Qed.

Lemma demo_socket_ok : conn_ok (PI := fun _ => True) demo_socket.
Proof. split; [done|]. unfold is_byte_list, is_u8. cbn. by repeat constructor. Qed.

Lemma client_call_exact_witness :
  exists st ip' p' c' s' o' m' es' reply,
    client_do (peer := echo) (CJoin [103]) (Some demo_client) (Some (replicate 16 0)) (Some 0) demo_socket demo_os (Mem [] 9)
      = Some ((st, Some ip', Some p', Some c', s', o'), m') /\
    call_asked (peer := echo) (PI := fun _ => True) (call_frame (CJoin [103])) demo_socket s' reply /\
    (st, ip', p') = call_result (CJoin [103]) reply (replicate 16 0) 0 /\
    cm_rep c' 7 es' /\
    (logged_in c', username c') = login_effect (CJoin [103]) st (logged_in demo_client, username demo_client) /\
    live m' - cg_blocks es' = 9 - cg_blocks [] /\
    (accounted o' es' ≡ₚ accounted demo_os []) /\
    (alloc_ok (Mem [] 9) -> alloc_ok m' /\
       (es', o') = window_effect 7 (CJoin [103]) st (default [] (c_str ip')) p' (username demo_client) [] demo_os).
Proof.
  apply (client_call_exact unit echo (fun _ => True) (CJoin [103]) demo_client 7 [] (replicate 16 0) 0
    demo_socket demo_os (Mem [] 9) demo_client_ok demo_socket_ok); [|by vm_compute].
  cbn. unfold is_byte_list, is_u8. by repeat constructor.
Defined.

(** The reply to a join, from the group's address 224 and port 6000. *)
Definition demo_joined := MkSocket tt (group_ok_frame OP_JOIN_GROUP_REP [50; 50; 52] 6000) (fun _ => 1) (fun _ => 1) false.

Lemma demo_joined_ok : conn_ok (PI := fun _ => True) demo_joined.
Proof. split; [done|]. unfold is_byte_list, is_u8. cbn. by repeat constructor. Qed.

(** Both windows of the group are killed. *)
Lemma client_session_safe_witness :
  fst <$> ('(r, closed, o) ← client_mng_create demo_answers (MkIpc true 7) (Some [49]) 5555 demo_os;
           '(_, r, _, o) ← client_run echo [CJoin [103]] r (Some (replicate 16 0)) (Some 0) demo_joined o;
           '(_, _, o) ← client_mng_destroy (Some r) closed o; mret (killed (events o))) (Mem [] 0) = Some [101; 102] /\
  exists r closed o1 m1, client_mng_create demo_answers (MkIpc true 7) (Some [49]) 5555 demo_os (Mem [] 0)
      = Some ((r, closed, o1), m1) /\
  (alloc_ok (Mem [] 0) -> (r <> None <-> can_connect demo_answers (MkIpc true 7) = true)) /\
  match r with
  | None => live m1 = 0 /\ killed (events o1) = [] /\
      (closed = [] /\ (3 < 0 \/ ~ alloc_ok (Mem [] 0)) \/ closed = [3] /\ 0 <= 3)
  | Some c => closed = [] /\ client_mng_is_logged_in r = 0 /\ o1 = demo_os /\
      exists sts c' s' o2 m2 es, client_run echo [CJoin [103]] (Some c) (Some (replicate 16 0)) (Some 0) demo_joined demo_os m1
          = Some ((sts, Some c', s', o2), m2) /\ length sts = 1%nat /\
        (client_mng_is_logged_in (Some c'), client_mng_username (Some c')) = login_run [CJoin [103]] sts (0, []) /\
        cm_rep c' 7 es /\
        (alloc_ok (Mem [] 0) -> window_run 7 [CJoin [103]] sts (0, []) [] demo_os es o2) /\
        exists o3 m3, client_mng_destroy (Some (Some c')) closed o2 m2 = Some ((Some NULL, [3], o3), m3) /\
          live m3 = 0 /\ events o3 = events o2 ++ (Kill <$> (es ≫= entry_pids)) ++ [RemoveQueue 7] /\
          (accounted o3 [] ≡ₚ accounted demo_os []) /\
          client_mng_destroy (Some NULL) [3] o3 m3 = Some ((Some NULL, [3], o3), m3)
  end.
Proof.
  split; [by vm_compute|].
  apply (client_session_safe unit echo (fun _ => True) demo_answers (MkIpc true 7) [49] 5555
    [CJoin [103]] (replicate 16 0) 0 demo_joined demo_os (Mem [] 0)); [done|apply demo_joined_ok| |by vm_compute].
  apply Forall_cons_2; [|by apply Forall_nil_2].
  cbn. unfold is_byte_list, is_u8. by repeat constructor.
Defined.
