(* ===== verification/System.v ===== *)
(** * The client and the server together

    The server's code for one connection (the receive buffer of
    [server/server_net.c], the handlers of [server/server_mng.c]) as the other
    end of the client's connection ([client/client_mng.c]).  The file proves
    that they agree: every call of the client gets the answer the specification
    of the server gives to it, whatever the kernel makes of the byte streams in
    between, and after every call the client's idea of who is logged in and
    which groups have windows is what the server holds for that connection. *)

From S2P Require Import Prelude Protocol GenQueue GenDlist HashMap FreeMcQueue Index GroupMng UserMng.
From S2P Require Import ServerNet ServerMng ClientNet ClientGroups ClientMng.

(** ** The server at the other end *)

Record remote_server := MkRemote {
  sv_conn : ClientState;
  sv_fds : gset Z;
  sv_state : server;
  sv_mem : mem
}.

(** What was sent on a descriptor. *)
Definition sent_on (d : Z) (o : list output) : bytes :=
  concat (omap (fun x => match x with Sent d' b => if d' =? d then Some b else None | Closed _ => None end) o).

(** [HandleClientData] on bytes that arrive, and what is sent back. *)
Definition server_peer (p : remote_server) (chunk : bytes) : option (remote_server * bytes) :=
  '(c, set, s, m) ← HandleClientData (Some ServerMng_HandleMessage) (Some ServerMng_OnDisconnect) server_close
    (sv_conn p) (sv_fds p) (Some chunk) (sv_state p) (sv_mem p);
  Some (MkRemote c set s m, sent_on (fd (sv_conn p)) (drop (length (out (sv_state p))) (out s))).

(** The specified effect of a sequence of messages. *)
Fixpoint spec_msgs (d : Z) (fs : list bytes) (a : astate) : astate * list bytes :=
  match fs with
  | [] => (a, [])
  | f :: fs =>
      let '(a, r1) := spec_request a d (parse_request f) in
      let '(a, r2) := spec_msgs d fs a in (a, r1 ++ r2)
  end.

Lemma spec_msgs_app d fs1 fs2 a : spec_msgs d (fs1 ++ fs2) a
  = let '(a1, r1) := spec_msgs d fs1 a in let '(a2, r2) := spec_msgs d fs2 a1 in (a2, r1 ++ r2).
Proof.
  revert a. induction fs1 as [|f fs1 IH]; intros a; cbn [app spec_msgs].
  - by destruct (spec_msgs d fs2 a).
  - destruct (spec_request a d (parse_request f)) as [a1 r1]. rewrite IH.
    destruct (spec_msgs d fs1 a1) as [a2 r2]. destruct (spec_msgs d fs2 a2) as [a3 r3]. by rewrite app_assoc.
Qed.

(** The server is consistent and its memory does not run out. *)
Record remote_ok (p : remote_server) (a : astate) : Prop := {
  ro_state : sv_rep (sv_state p) a;
  ro_conn : client_ok (sv_conn p);
  ro_fd : 0 <= fd (sv_conn p) < FD_SETSIZE;
  ro_mem : alloc_ok (sv_mem p)
}.

Lemma sent_on_replies d o reps : sent_on d (drop (length o) (o ++ (Sent d <$> reps))) = concat reps.
Proof.
  rewrite drop_app_length. unfold sent_on. f_equal. induction reps as [|r reps IH]; [done|].
  cbn [fmap list_fmap omap list_omap]. rewrite Z.eqb_refl. by rewrite IH.
Qed.

Lemma rep_deliver d fs s a m : sv_rep s a -> 0 <= d < FD_SETSIZE -> alloc_ok m ->
  (forall f, f ∈ fs -> is_byte_list f /\ 2 <= blen f) ->
  exists s' m', deliver (onMsg := ServerMng_HandleMessage) d fs s m = Some (s', m') /\
    sv_rep s' (spec_msgs d fs a).1 /\ alloc_ok m' /\ out s' = out s ++ (Sent d <$> (spec_msgs d fs a).2).
Proof.
  intros R Hd Hm. revert s a m R Hm. induction fs as [|f fs IH]; intros s a m R Hm Hfs.
  - exists s, m. split; [done|]. split; [done|]. split; [done|]. symmetry. apply app_nil_r.
  - destruct (Hfs f) as [Hb Hl]; [apply elem_of_cons; by left|].
    destruct (rep_HandleMessage s a d f (blen f) m R Hb) as (s1 & m1 & a1 & E & R1 & _ & _ & _ & O); [lia|done|].
    rewrite take_all_bytes in O. destruct (O Hm) as (Hm1 & -> & Ho1).
    destruct (IH s1 _ m1 R1 Hm1) as (s2 & m2 & E2 & R2 & Hm2 & Ho2).
    { intros f' Hf'. apply Hfs. apply elem_of_cons. by right. }
    exists s2, m2. cbn [deliver spec_msgs]. mrun E.
    destruct (spec_request a d (parse_request f)) as [a1 r1]. cbn [fst snd] in *.
    destruct (spec_msgs d fs a1) as [a2 r2]. cbn [fst snd] in *. split; [done|]. split; [done|]. split; [done|].
    by rewrite Ho2, Ho1, fmap_app, app_assoc.
Qed.

(** One chunk at the server. *)
Lemma rep_peer p a b : remote_ok p a -> is_byte_list b -> 0 < blen b <= CHAT_MAX_MSG_SIZE ->
  let '(fs, rest) := split_frames (pending (sv_conn p) ++ b) in
  exists p', server_peer p b = Some (p', concat (spec_msgs (fd (sv_conn p)) fs a).2) /\
    remote_ok p' (spec_msgs (fd (sv_conn p)) fs a).1 /\
    fd (sv_conn p') = fd (sv_conn p) /\ pending (sv_conn p') = rest.
Proof.
  intros [R C F Hm] Hb Hl. destruct (client_room _ C) as (Hlt & _ & _).
  destruct (HandleClientData_data (HH := server_Handlers 0) (sv_conn p) (sv_fds p) b C Hb) as (c' & Hfd & C' & Hp & E).
  { split; [lia|]. revert Hl Hlt. unfold RECV_BUFFER_SIZE. chat_consts. lia. }
  assert (is_byte_list (pending (sv_conn p) ++ b)) as Hpb.
  { apply Forall_app. split; [|done]. apply Forall_take. by destruct C. }
  destruct (split_frames (pending (sv_conn p) ++ b)) as [fs rest] eqn:Es. cbn [fst snd] in *.
  destruct (rep_deliver (fd (sv_conn p)) fs (sv_state p) a (sv_mem p) R F Hm) as (s' & m' & Ed & R' & Hm' & Ho).
  { intros f Hf. apply (frames_bytes _ f Hpb). by rewrite Es. }
  exists (MkRemote c' (sv_fds p) s' m'). unfold server_peer. rewrite E. mrun Ed.
  cbn [mbind option_bind mret M_ret]. rewrite Ho, sent_on_replies. split; [done|].
  split; [|done]. constructor; cbn; [done|done|by rewrite Hfd|done].
Qed.

(** A sequence of chunks. *)
Lemma rep_feed p a chunks : remote_ok p a ->
  Forall (fun c => is_byte_list c /\ 0 < blen c <= CHAT_MAX_MSG_SIZE) chunks ->
  let '(fs, rest) := split_frames (pending (sv_conn p) ++ concat chunks) in
  exists p', feed server_peer p chunks = Some (p', concat (spec_msgs (fd (sv_conn p)) fs a).2) /\
    remote_ok p' (spec_msgs (fd (sv_conn p)) fs a).1 /\
    fd (sv_conn p') = fd (sv_conn p) /\ pending (sv_conn p') = rest.
Proof.
  intros R Hc. revert p a R. induction Hc as [|c chunks [Hb Hl] Hc IH]; intros p a R; cbn [concat].
  - rewrite app_nil_r. rewrite (co_pending _ (ro_conn _ _ R)). by exists p.
  - rewrite app_assoc, split_frames_app. pose proof (rep_peer p a c R Hb Hl) as H.
    destruct (split_frames (pending (sv_conn p) ++ c)) as [fs1 r1]. destruct H as (p1 & E1 & R1 & F1 & P1).
    specialize (IH p1 _ R1). rewrite P1, F1 in IH. destruct (split_frames (r1 ++ concat chunks)) as [fs2 r2].
    destruct IH as (p2 & E2 & R2 & F2 & P2). exists p2. cbn [feed]. rewrite E1. cbn [mbind option_bind].
    rewrite E2. cbn [mbind option_bind]. rewrite spec_msgs_app.
    destruct (spec_msgs (fd (sv_conn p)) fs1 a) as [a1 q1]. cbn [fst snd] in *.
    destruct (spec_msgs (fd (sv_conn p)) fs2 a1) as [a2 q2]. cbn [fst snd] in *.
    rewrite concat_app. split; [done|]. split; [done|]. split; [congruence|done].
Qed.

(** ** Replies are frames *)

Definition reply_ok (r : bytes) : Prop := is_byte_list r /\ one_frame r.

Lemma status_frame_ok op st : reply_ok (status_frame op st).
Proof. split; [|done]. apply frame_bytes; [done|]. apply Forall_cons_2; [apply status_u8|by apply Forall_nil_2]. Qed.

Lemma group_frame_ok op ip p : is_cstring ip -> strlen ip < CHAT_MAX_IP_STR_LEN -> is_u16 p ->
  reply_ok (group_ok_frame op ip p).
Proof.
  intros Hip. unfold strlen. fold (blen ip). chat_consts. intros Lip Hp. split; [|done].
  assert (0 <= p / 256 < 256 /\ 0 <= p mod 256 < 256) as [H1 H2].
  { unfold is_u16 in Hp. pose proof (Z.mod_pos_bound p 256). pose proof (Z.div_mod p 256). lia. }
  pose proof (blen_nonneg ip). assert (blen [p / 256; p mod 256] = 2) as L2 by done.
  apply frame_bytes; [rewrite blen_cons, blen_app, !field_len; lia|].
  apply Forall_cons_2; [apply status_u8|]. apply Forall_app. split.
  - apply field_bytes; [lia|by apply is_cstring_bytes].
  - apply field_bytes; [lia|]. by apply Forall_cons_2; [|apply Forall_cons_2; [|apply Forall_nil_2]].
Qed.

(** The address of a free pair and of a group. *)
Lemma pair_wire p : p ∈ initial_pairs -> is_cstring (ip p) /\ strlen (ip p) < CHAT_MAX_IP_STR_LEN /\ is_u16 (FreeMcQueue.port p).
Proof. intros Hp. by destruct (initial_good p Hp) as (Hl & Hc & Hpo). Qed.

Lemma group_wire s a g grp : sv_rep s a -> aG a !! g = Some grp ->
  is_cstring (mcast_ip grp) /\ strlen (mcast_ip grp) < CHAT_MAX_IP_STR_LEN /\ is_u16 (mcast_port grp).
Proof.
  intros R Hg. destruct (sv_gm _ _ R) as (gm & _ & Rg). apply (pair_wire (pair_of grp)).
  eapply elem_of_submseteq; [|apply (gm_addresses _ _ _ _ Rg)]. apply elem_of_app. right.
  apply list_elem_of_fmap. exists (g, grp). split; [done|]. by apply elem_of_map_to_list.
Qed.

Lemma free_wire s a p ps : sv_rep s a -> aP a = p :: ps ->
  is_cstring (ip p) /\ strlen (ip p) < CHAT_MAX_IP_STR_LEN /\ is_u16 (FreeMcQueue.port p).
Proof.
  intros R Hp. destruct (sv_gm _ _ R) as (gm & _ & Rg). apply pair_wire.
  eapply elem_of_submseteq; [|apply (gm_addresses _ _ _ _ Rg)]. apply elem_of_app. left. rewrite Hp.
  apply elem_of_cons. by left.
Qed.

Lemma spec_replies s a d r : sv_rep s a -> Forall reply_ok (spec_request a d r).2.
Proof.
  intros R. assert (forall op st, Forall reply_ok [status_frame op st]) as Hst.
  { intros op st. constructor; [apply status_frame_ok|constructor]. }
  destruct r as [u p|u p| |g|g|g|]; cbn [spec_request].
  - destruct (spec_register _ _ _). apply Hst.
  - destruct (spec_login _ _ _ _ _) as [[??]?]. apply Hst.
  - destruct (user_at _ _ _) as [[k i]|]; apply Hst.
  - destruct (user_at _ _ _) as [[k i]|]; [|apply Hst].
    destruct (aG a !! g); [apply Hst|]. destruct (aP a) as [|p ps] eqn:Ep; [apply Hst|].
    constructor; [|constructor]. destruct (free_wire s a p ps R Ep) as (? & ? & ?). by apply group_frame_ok.
  - destruct (user_at _ _ _) as [[k i]|]; [|apply Hst].
    destruct (aG a !! g) as [grp|] eqn:Eg; [|apply Hst]. destruct (bool_decide _); [apply Hst|].
    constructor; [|constructor]. destruct (group_wire s a g grp R Eg) as (? & ? & ?). by apply group_frame_ok.
  - destruct (user_at _ _ _) as [[k i]|]; [|apply Hst]. destruct (bool_decide _); apply Hst.
  - constructor.
Qed.

(** Bytes that are sent back are bytes, whatever arrives. *)
Lemma peer_replies p a fs s m : remote_ok p a -> sv_rep s a -> alloc_ok m ->
  (forall f, f ∈ fs -> is_byte_list f /\ 2 <= blen f) ->
  is_byte_list (concat (spec_msgs (fd (sv_conn p)) fs a).2).
Proof.
  intros P. pose proof (ro_fd _ _ P) as F. generalize dependent (fd (sv_conn p)). intros d F. clear P.
  revert s a m. induction fs as [|f fs IH]; intros s a m R Hm Hfs; [constructor|]. cbn [spec_msgs].
  pose proof (spec_replies s a d (parse_request f) R) as Hr.
  destruct (rep_deliver d [f] s a m R F Hm) as (s1 & m1 & _ & R1 & Hm1 & _).
  { intros f' ->%list_elem_of_singleton. apply Hfs. apply elem_of_cons. by left. }
  cbn [spec_msgs] in R1. destruct (spec_request a d (parse_request f)) as [a1 r1]. cbn [fst snd] in *.
  specialize (IH s1 a1 m1 R1 Hm1). destruct (spec_msgs d fs a1) as [a2 r2]. cbn [fst snd] in *.
  rewrite concat_app. apply Forall_app. split.
  - apply Forall_concat. eapply Forall_impl; [exact Hr|]. by intros r [? _].
  - apply IH. intros f' Hf'. apply Hfs. apply elem_of_cons. by right.
Qed.

#[export] Instance server_Peer : Peer server_peer (fun p => exists a, remote_ok p a).
Proof.
  constructor. intros p b [a R] Hb Hl. pose proof (rep_peer p a b R Hb Hl) as H.
  assert (is_byte_list (pending (sv_conn p) ++ b)) as Hpb.
  { apply Forall_app. split; [|done]. apply Forall_take. by destruct (ro_conn _ _ R). }
  pose proof (frames_bytes (pending (sv_conn p) ++ b)) as Hfr.
  destruct (split_frames (pending (sv_conn p) ++ b)) as [fs rest]. destruct H as (p' & E & R' & _).
  exists p', (concat (spec_msgs (fd (sv_conn p)) fs a).2). split; [done|]. split; [by eexists|].
  apply (peer_replies p a fs (sv_state p) (sv_mem p) R (ro_state _ _ R) (ro_mem _ _ R)).
  intros f Hf. by apply Hfr.
Qed.

(** ** One call *)

(** The names are strings: bytes without a NUL. *)
Definition call_names (call : client_call) : Prop :=
  match call with
  | CRegister u p | CLogin u p => is_cstring u /\ is_cstring p
  | CLogout => True
  | CCreate g | CJoin g | CLeave g => is_cstring g
  end.

#[export] Instance call_names_dec call : Decision (call_names call).
Proof. destruct call; cbn [call_names]; apply _. Defined.

Definition request_of (call : client_call) : request :=
  match call with
  | CRegister u p => RRegister u p
  | CLogin u p => RLogin u p
  | CLogout => RLogout
  | CCreate g => RCreate g
  | CJoin g => RJoin g
  | CLeave g => RLeave g
  end.

(** What the specification of the server answers to a call; a request that is
    too long is never sent. *)
Definition answer (d : Z) (call : client_call) (a : astate) : astate * option bytes :=
  match call_frame call with
  | Some _ => let '(a, rs) := spec_request a d (request_of call) in (a, head rs)
  | None => (a, None)
  end.

(** The status byte of a reply. *)
Definition answer_status (r : option bytes) : Z :=
  match r with Some (_ :: _ :: st :: _) => st | _ => failure end.

(** The address the server holds for the group a call names. *)
Definition address (a : astate) (call : client_call) : cstring * Z :=
  match call with
  | CCreate g | CJoin g => match aG a !! g with Some grp => (mcast_ip grp, mcast_port grp) | None => ([], 0) end
  | _ => ([], 0)
  end.

Lemma parse_user_pass_frame op u p : is_cstring u -> is_cstring p ->
  strlen u <= CHAT_MAX_USERNAME_LEN -> strlen p <= CHAT_MAX_PASSWORD_LEN ->
  parse_user_pass (user_pass_frame op u p) = Some (u, p).
Proof.
  intros Hu Hp Lu Lp. unfold parse_user_pass, user_pass_frame. rewrite parse_frame_frame.
  rewrite parse_field_app by done. rewrite <-(app_nil_r (field p)). rewrite parse_field_app by done.
  by rewrite !c_prefix_cstring.
Qed.

Lemma parse_group_frame op g : is_cstring g -> strlen g <= CHAT_MAX_GROUPNAME_LEN ->
  parse_group (groupname_frame op g) = Some g.
Proof.
  intros Hg Lg. unfold parse_group, parse_groupname, groupname_frame. rewrite parse_frame_frame.
  cbn [mbind option_bind]. rewrite field_len. pose proof (blen_nonneg g). rewrite (proj2 (Z.ltb_ge _ _)) by lia.
  rewrite <-(app_nil_r (field g)). rewrite parse_field_app by done.
  cbn [mbind option_bind fmap option_fmap option_map]. by rewrite c_prefix_cstring.
Qed.

Lemma read_user_pass op u p : is_cstring u -> is_cstring p ->
  strlen u <= CHAT_MAX_USERNAME_LEN -> strlen p <= CHAT_MAX_PASSWORD_LEN ->
  op = OP_REG_REQ \/ op = OP_LOGIN_REQ ->
  let fr := user_pass_frame op u p in
  one_frame fr /\ is_byte_list fr /\ blen fr <= CHAT_MAX_MSG_SIZE /\
  parse_request fr = if opcode op =? opcode OP_REG_REQ then RRegister u p else RLogin u p.
Proof.
  intros Hu Hp Lu Lp Hop fr. split; [done|].
  destruct (user_pass_frame_ok op u p) as [? ?]; [by apply is_cstring_bytes..|done|done|].
  split; [done|]. split; [done|].
  assert (parse_request fr = if opcode op =? opcode OP_REG_REQ
    then match parse_user_pass fr with Some (u, p) => RRegister u p | None => RIgnored end
    else match parse_user_pass fr with Some (u, p) => RLogin u p | None => RIgnored end) as ->.
  { by destruct Hop as [-> | ->]. }
  unfold fr. by rewrite parse_user_pass_frame.
Qed.

Lemma read_group op g (r : request) : is_cstring g -> strlen g <= CHAT_MAX_GROUPNAME_LEN ->
  op = OP_CREATE_GROUP_REQ /\ r = RCreate g \/ op = OP_JOIN_GROUP_REQ /\ r = RJoin g \/
  op = OP_LEAVE_GROUP_REQ /\ r = RLeave g ->
  let fr := groupname_frame op g in
  one_frame fr /\ is_byte_list fr /\ blen fr <= CHAT_MAX_MSG_SIZE /\ parse_request fr = r.
Proof.
  intros Hg Lg Hop fr. split; [done|].
  destruct (groupname_frame_ok op g) as [? ?]; [by apply is_cstring_bytes|done|]. split; [done|]. split; [done|].
  pose proof (parse_group_frame op g Hg Lg) as E. unfold fr.
  destruct Hop as [[-> ->]|[[-> ->]|[-> ->]]].
  - change (parse_request (groupname_frame OP_CREATE_GROUP_REQ g))
      with (match parse_group (groupname_frame OP_CREATE_GROUP_REQ g) with Some g => RCreate g | None => RIgnored end).
    by rewrite E.
  - change (parse_request (groupname_frame OP_JOIN_GROUP_REQ g))
      with (match parse_group (groupname_frame OP_JOIN_GROUP_REQ g) with Some g => RJoin g | None => RIgnored end).
    by rewrite E.
  - change (parse_request (groupname_frame OP_LEAVE_GROUP_REQ g))
      with (match parse_group (groupname_frame OP_LEAVE_GROUP_REQ g) with Some g => RLeave g | None => RIgnored end).
    by rewrite E.
Qed.

(** The server reads the frame of a call as that call. *)
Lemma request_frame call fr : call_names call -> call_frame call = Some fr ->
  one_frame fr /\ is_byte_list fr /\ blen fr <= CHAT_MAX_MSG_SIZE /\ parse_request fr = request_of call.
Proof.
  intros Hn E. destruct call as [u p|u p| |g|g|g]; cbn [call_names call_frame request_of] in *.
  1, 2: destruct Hn as [Hu Hp]; destruct ((strlen u <=? _) && (strlen p <=? _)) eqn:El; [|done]; bprop;
    injection E as <-.
  - by apply (read_user_pass OP_REG_REQ u p); [..|left].
  - by apply (read_user_pass OP_LOGIN_REQ u p); [..|right].
  - injection E as <-. split; [done|]. split; [|done]. apply Forall_cons_2; [done|]. by apply Forall_cons_2.
  - destruct (strlen g <=? _) eqn:El; [|done]. bprop. injection E as <-. apply read_group; tauto.
  - destruct (strlen g <=? _) eqn:El; [|done]. bprop. injection E as <-. apply read_group; tauto.
  - destruct (strlen g <=? _) eqn:El; [|done]. bprop. injection E as <-. apply read_group; tauto.
Qed.

Lemma call_names_ok call : call_names call -> call_ok call.
Proof. destruct call; cbn; intuition (by apply is_cstring_bytes). Qed.

(** ** Reading the answer *)

(** Every call has one answer: a status, or an address for a group. *)
Lemma spec_answer d call a : exists r, (spec_request a d (request_of call)).2 = [r] /\
  ((exists op st, r = status_frame op st /\
      (st = ST_OK -> match call with CCreate _ | CJoin _ => False | _ => True end)) \/
   (exists op g grp, r = group_ok_frame op (mcast_ip grp) (mcast_port grp) /\ (call = CCreate g \/ call = CJoin g) /\
      aG (spec_request a d (request_of call)).1 !! g = Some grp)).
Proof.
  destruct call as [u p|u p| |g|g|g]; cbn [request_of spec_request].
  - destruct (spec_register _ _ _) as [st U]. eexists. split; [done|left]. by eexists _, _.
  - destruct (spec_login _ _ _ _ _) as [[st U] sk]. eexists. split; [done|left]. by eexists _, _.
  - destruct (user_at _ _ _) as [[k i]|]; (eexists; split; [done|left]; by eexists _, _).
  - destruct (user_at _ _ _) as [[k i]|]; [|eexists; split; [done|left]; by eexists _, _].
    destruct (aG a !! g) eqn:Eg; [eexists; split; [done|left]; by eexists _, _|].
    destruct (aP a) as [|p ps]; [eexists; split; [done|left]; by eexists _, _|].
    eexists. split; [done|right]. exists OP_CREATE_GROUP_REP, g, (new_group g p).
    split; [done|]. split; [by left|]. cbn. by rewrite lookup_insert_eq.
  - destruct (user_at _ _ _) as [[k i]|]; [|eexists; split; [done|left]; by eexists _, _].
    destruct (aG a !! g) as [grp|] eqn:Eg; [|eexists; split; [done|left]; by eexists _, _].
    destruct (bool_decide _); [eexists; split; [done|left]; by eexists _, _|].
    eexists. split; [done|right]. exists OP_JOIN_GROUP_REP, g, (joined grp).
    split; [done|]. split; [by right|]. cbn. by rewrite lookup_insert_eq.
  - destruct (user_at _ _ _) as [[k i]|]; [|eexists; split; [done|left]; by eexists _, _].
    destruct (bool_decide _); (eexists; split; [done|left]; by eexists _, _).
Qed.

(** The client reads it as it is meant. *)
Lemma answer_result s d call a oip p0 : sv_rep s (spec_request a d (request_of call)).1 ->
  CHAT_MAX_IP_STR_LEN <= blen oip ->
  exists r ip' p', (spec_request a d (request_of call)).2 = [r] /\
    call_result call (Some r) oip p0 = (answer_status (Some r), ip', p') /\
    (answer_status (Some r) = 0 -> match call with CCreate _ | CJoin _ => True | _ => False end ->
     (default [] (c_str ip'), p') = address (spec_request a d (request_of call)).1 call).
Proof.
  intros R Ho. destruct (spec_answer d call a) as (r & -> & [(op & st & -> & Hst)|(op & g & grp & -> & Hc & Hg)]).
  - exists (status_frame op st). destruct call as [u p|u p| |g|g|g]; cbn [call_result].
    1, 2, 3, 6: by exists oip, p0.
    all: assert (st <> ST_OK) as Hne by (intros E; by apply Hst in E).
    all: exists (stored [] oip), 0; split; [done|]; cbn [reply_group];
      rewrite group_rep_outcome_status by done; split; [done|].
    all: intros E; destruct Hne; by apply status_code_inj.
  - destruct (group_wire s _ g grp R Hg) as (Hip & Lip & Hp).
    exists (group_ok_frame op (mcast_ip grp) (mcast_port grp)), (stored (mcast_ip grp) oip), (mcast_port grp).
    split; [done|]. assert (call_result call (Some (group_ok_frame op (mcast_ip grp) (mcast_port grp))) oip p0
      = reply_group (Some (group_ok_frame op (mcast_ip grp) (mcast_port grp))) oip p0) as -> by by destruct Hc as [-> | ->].
    cbn [reply_group]. rewrite group_rep_outcome_ok by done. split; [done|]. intros _ _.
    rewrite c_str_stored by done. destruct Hc as [-> | ->]; cbn [address]; by rewrite Hg.
Qed.

(** ** A session of one client

    The state of the server, who is logged in at the client, its windows and
    the processes. *)
Definition session : Type := astate * (Z * cstring) * list GroupEntry * os.

Definition spec_call (d id : Z) (call : client_call) (x : session) : Z * session :=
  let '(a, lu, es, o) := x in
  let '(a, r) := answer d call a in
  let st := answer_status r in
  let w := window_effect id call st (address a call).1 (address a call).2 lu.2 es o in
  (st, (a, login_effect call st lu, w.1, w.2)).

Fixpoint spec_session (d id : Z) (calls : list client_call) (x : session) : list Z * session :=
  match calls with
  | [] => ([], x)
  | call :: calls =>
      let '(st, x) := spec_call d id call x in
      let '(sts, x) := spec_session d id calls x in (st :: sts, x)
  end.

(** The client's idea of its session is the server's: who is logged in, and
    that every window belongs to a group that user has joined. *)
Definition agree (d : Z) (a : astate) (lu : Z * cstring) (es : list GroupEntry) : Prop :=
  match user_at (aU a) (aS a) d with
  | Some (k, i) => lu = (1, k) /\ forall e, e ∈ es -> name e ∈ u_groups i
  | None => lu = (0, []) /\ es = []
  end.

Lemma spec_join_names id es g ip p u o e : e ∈ (spec_join id es g ip p u o).1.2 -> e ∈ es \/ name e = g.
Proof.
  unfold spec_join. destruct (bool_decide _); [by left|]. destruct (sys_system _ o) as [r1 o1].
  destruct (negb (r1 =? 0)); [by left|]. destruct (sys_system _ o1) as [r2 o2].
  destruct (negb (r2 =? 0)); [by left|]. destruct (recv_child_pid _ o2) as [p1 o3].
  destruct (recv_child_pid _ o3) as [p2 o4]. cbn [fst snd].
  intros [?| ->%list_elem_of_singleton]%elem_of_app; [by left|by right].
Qed.

Lemma user_at_insert a k i i' d : user_at (aU a) (aS a) d = Some (k, i) ->
  user_at (<[k := i']> (aU a)) (aS a) d = Some (k, i').
Proof.
  unfold user_at. destruct (aS a !! d) as [k'|]; [|done]. destruct (aU a !! k') as [i0|] eqn:E; [|done].
  intros [= -> ->]. by rewrite lookup_insert_eq.
Qed.

(** A user with a session exists. *)
Definition has_user (d : Z) (a : astate) : Prop := forall k, aS a !! d = Some k -> is_Some (aU a !! k).

Lemma sv_has_user s a d : sv_rep s a -> has_user d a.
Proof.
  intros R k Hk. destruct (sv_um _ _ R) as (um & _ & Ru).
  apply (um_online _ _ _ _ Ru) in Hk as (i & Hi & _). by exists i.
Qed.

(** A status other than 0 changes nothing at the client. *)
Lemma agree_failed d id call a lu es o st ip p : st <> 0 -> agree d a lu es ->
  agree d a (login_effect call st lu) (window_effect id call st ip p lu.2 es o).1.
Proof. intros Hst A. unfold window_effect, login_effect. by rewrite (proj2 (Z.eqb_neq st 0)). Qed.

Lemma agree_register d a lu es u p : has_user d a -> agree d a lu es ->
  agree d (spec_request a d (RRegister u p)).1 lu es.
Proof.
  intros Hu A. cbn [spec_request]. unfold spec_register. destruct (aU a !! u) eqn:Eu; [by destruct a|].
  unfold agree, user_at in *. cbn [fst aU aS]. destruct (aS a !! d) as [k|] eqn:Ek; [|done].
  destruct (Hu k Ek) as [i Hi]. rewrite lookup_insert_ne by congruence. by rewrite Hi in *.
Qed.

Lemma agree_login d id a lu es o u p : agree d a lu es -> has_user d a ->
  let '(st, U, sk) := spec_login (aU a) (aS a) u p d in
  agree d (MkA U sk (aG a) (aP a)) (login_effect (CLogin u p) (status_code st) lu)
    (window_effect id (CLogin u p) (status_code st) [] 0 lu.2 es o).1.
Proof.
  intros A Hu. assert (agree d (MkA (aU a) (aS a) (aG a) (aP a)) lu es) as A' by by destruct a.
  unfold spec_login. destruct (aS a !! d) as [k|] eqn:Ek; [by apply agree_failed|].
  destruct (aU a !! u) as [i|]; [|by apply agree_failed].
  destruct (negb _); [by apply agree_failed|]. destruct (u_sock i); [by apply agree_failed|].
  unfold agree, user_at in *. rewrite Ek in A. cbn [aU aS]. rewrite !lookup_insert_eq. split; [done|].
  destruct A as [_ ->]. by intros e ?%elem_of_nil.
Qed.

Lemma agree_join d id a a' k i g lu es o call ip p : agree d a lu es ->
  user_at (aU a) (aS a) d = Some (k, i) -> call = CCreate g \/ call = CJoin g ->
  aU a' = <[k := with_groups i (u_groups i ++ [g])]> (aU a) -> aS a' = aS a ->
  agree d a' (login_effect call 0 lu) (window_effect id call 0 ip p lu.2 es o).1.
Proof.
  intros A Hat Hc HU HS. unfold agree in A. rewrite Hat in A. destruct A as [-> Hes]. cbn [snd].
  assert ((window_effect id call 0 ip p k es o).1 = (spec_join id es g ip p k o).1.2) as ->.
  { destruct Hc as [-> | ->]; cbn; by destruct (spec_join id es g ip p k o) as [[??]?]. }
  assert (login_effect call 0 (1, k) = (1, k)) as -> by by destruct Hc as [-> | ->].
  unfold agree. rewrite HU, HS, (user_at_insert a k i _ d Hat). split; [done|]. cbn [with_groups u_groups].
  intros e [He| ->]%spec_join_names; apply elem_of_app; [left; by apply Hes|right; by apply list_elem_of_singleton].
Qed.

Lemma agree_leave d a a' k i g lu es : agree d a lu es ->
  user_at (aU a) (aS a) d = Some (k, i) ->
  aU a' = <[k := with_groups i (without g (u_groups i))]> (aU a) -> aS a' = aS a ->
  agree d a' lu (filter (fun e => name e <> g) es).
Proof.
  intros A Hat HU HS. unfold agree in *. rewrite Hat in A. destruct A as [-> Hes].
  rewrite HU, HS, (user_at_insert a k i _ d Hat). split; [done|]. cbn [with_groups u_groups].
  intros e [Hne He]%list_elem_of_filter. apply list_elem_of_filter. split; [done|by apply Hes].
Qed.

Lemma agree_call d id call a lu es o : has_user d a -> agree d a lu es ->
  let '(_, (a', lu', es', _)) := spec_call d id call (a, lu, es, o) in agree d a' lu' es'.
Proof.
  intros Hu A. unfold spec_call, answer. destruct (call_frame call); [|by apply agree_failed].
  destruct call as [u p|u p| |g|g|g]; cbn [request_of].
  - pose proof (agree_register d a lu es u p Hu A) as H. cbn [spec_request] in *.
    destruct (spec_register _ _ _) as [st U]. cbn [fst head answer_status] in *.
    unfold window_effect, login_effect. by destruct (negb _).
  - pose proof (agree_login d id a lu es o u p A Hu) as H. cbn [spec_request] in *.
    by destruct (spec_login _ _ _ _ _) as [[st U] sk].
  - cbn [spec_request]. destruct (user_at (aU a) (aS a) d) as [[k i]|] eqn:Hat; [|by apply agree_failed].
    unfold agree, user_at. cbn [aU aS fst]. by rewrite lookup_delete_eq.
  - cbn [spec_request]. destruct (user_at (aU a) (aS a) d) as [[k i]|] eqn:Hat; [|by apply agree_failed].
    destruct (aG a !! g); [by apply agree_failed|]. destruct (aP a); [by apply agree_failed|].
    eapply (agree_join d id a _ k i g); [exact A|exact Hat|by left|done|done].
  - cbn [spec_request]. destruct (user_at (aU a) (aS a) d) as [[k i]|] eqn:Hat; [|by apply agree_failed].
    destruct (aG a !! g); [|by apply agree_failed]. destruct (bool_decide _); [by apply agree_failed|].
    eapply (agree_join d id a _ k i g); [exact A|exact Hat|by right|done|done].
  - cbn [spec_request]. destruct (user_at (aU a) (aS a) d) as [[k i]|] eqn:Hat; [|by apply agree_failed].
    destruct (bool_decide _); [|by apply agree_failed]. by apply (agree_leave d a _ k i g).
Qed.

(** ** The calls against the server *)

(** Between two calls: the server in state [a], nothing on the way. *)
Record linked (d : Z) (s : socket (P := remote_server)) (a : astate) : Prop := {
  ln_server : remote_ok (remote s) a;
  ln_fd : fd (sv_conn (remote s)) = d;
  ln_pending : pending (sv_conn (remote s)) = [];
  ln_incoming : incoming s = [];
  ln_reliable : reliable s;
  ln_halted : halted s = false
}.

Lemma linked_ok d s a : linked d s a -> conn_ok (PI := fun p => exists a, remote_ok p a) s.
Proof. intros L. split; [exists a; apply L|]. rewrite (ln_incoming _ _ _ L). constructor. Qed.

(** One request on a connection without failures, nothing on the way, to another
    end that answers it with one frame: that frame is the reply, and nothing is
    left over. *)
Lemma asked_one {P} (peer : P -> bytes -> option (P * bytes)) (PI : P -> Prop) (Q : P -> bytes -> Prop)
    (s : socket (P := P)) fr s' reply :
  asked (peer := peer) (PI := PI) s fr s' reply -> reliable s -> incoming s = [] ->
  is_byte_list fr -> blen fr <= CHAT_MAX_MSG_SIZE ->
  (forall chunks, Forall (fun c => is_byte_list c /\ 0 < blen c <= CHAT_MAX_MSG_SIZE) chunks -> concat chunks = fr ->
    exists p r, feed peer (remote s) chunks = Some (p, r) /\ one_frame r /\ Q p r) ->
  exists r, Q (remote s') r /\ reply = Some r /\ incoming s' = [] /\ reliable s' /\ halted s' = halted s.
Proof.
  intros (chunks & ans & F & Hne & _ & _ & Hrep & Hrel & _) Hr Hi Hb Hl H.
  destruct (Hrel Hr) as (Hr' & Hc & Hno). destruct (H chunks) as (p & r & E & Hone & HQ); [|done|].
  { apply Forall_forall. intros c Hin. rewrite Forall_forall in Hne. specialize (Hne c Hin).
    apply list_elem_of_split in Hin as (l1 & l2 & ->). rewrite concat_app in Hc. cbn [concat] in Hc.
    rewrite <-Hc in Hb, Hl. unfold is_byte_list in Hb. rewrite !Forall_app in Hb. rewrite !blen_app in Hl.
    pose proof (blen_nonneg (concat l1)). pose proof (blen_nonneg (concat l2)). split; [tauto|lia]. }
  rewrite F in E. injection E as <- ->. rewrite Hi in *. cbn [app] in *. exists r. split; [done|].
  destruct reply as [data|].
  - destruct Hrep as (_ & Hd & _ & Ed & Hh). rewrite <-(app_nil_r r) in Ed.
    destruct (one_frame_app r data [] (incoming s') Hone Hd Ed) as [-> Hin]. done.
  - destruct (Hno eq_refl) as [Hu _]. exfalso. destruct r as [|t [|l body]]; [done..|].
    cbn [one_frame unfinished] in *. lia.
Qed.

Lemma split_one_frame fr : one_frame fr -> split_frames fr = ([fr], []).
Proof.
  destruct fr as [|t [|l body]]; [done..|]. cbn [one_frame]. intros <-. rewrite split_frames_cons.
  rewrite (proj2 (Z.leb_le _ _)) by lia. unfold blen. by rewrite Nat2Z.id, drop_all, firstn_all.
Qed.

Lemma split_unfinished b : unfinished b -> split_frames b = ([], b).
Proof.
  destruct b as [|t [|l body]]; try done. cbn [unfinished]. intros H.
  by rewrite split_frames_cons, (proj2 (Z.leb_gt _ _)).
Qed.

(** A whole request gets the specified answer. *)
Lemma rep_asked d s a call fr s' reply : linked d s a -> call_names call -> call_frame call = Some fr ->
  asked (peer := server_peer) (PI := fun p => exists a, remote_ok p a) s fr s' reply ->
  exists r, (spec_request a d (request_of call)).2 = [r] /\ reply = Some r /\
    linked d s' (spec_request a d (request_of call)).1.
Proof.
  intros L Hn Ef A. destruct (request_frame call fr Hn Ef) as (H1 & Hb & Hl & Hp).
  destruct (spec_answer d call a) as (r & Er & _).
  destruct (asked_one server_peer _ (fun p r' => r' = r /\ remote_ok p (spec_request a d (request_of call)).1 /\
      fd (sv_conn p) = d /\ pending (sv_conn p) = []) s fr s' reply A (ln_reliable _ _ _ L) (ln_incoming _ _ _ L) Hb Hl)
    as (r' & (-> & R' & F' & P') & -> & Hi & Hr & Hh);
    [|exists r; split; [done|]; split; [done|]; constructor; try done; by rewrite Hh, (ln_halted _ _ _ L)].
  intros chunks Hch Hc. pose proof (rep_feed (remote s) a chunks (ln_server _ _ _ L) Hch) as H.
  rewrite (ln_pending _ _ _ L), Hc, (ln_fd _ _ _ L) in H. cbn [app] in H. rewrite (split_one_frame fr H1) in H.
  cbn [spec_msgs] in H. rewrite Hp in H.
  pose proof (spec_replies (sv_state (remote s)) a d (request_of call) (ro_state _ _ (ln_server _ _ _ L))) as Hok.
  destruct (spec_request a d (request_of call)) as [a' rs]. cbn [fst snd concat app] in *. subst rs.
  apply Forall_cons_1 in Hok as [[_ Hone] _]. destruct H as (p' & E & R' & F' & P'). cbn [app concat] in E.
  rewrite app_nil_r in E. by exists p', r.
Qed.

Lemma rep_system_call d call c id es oip p0 s o m a : linked d s a -> cm_rep c id es -> alloc_ok m ->
  call_names call -> CHAT_MAX_IP_STR_LEN <= blen oip ->
  exists st ip' p' c' s' o' m' es' a',
    client_do (peer := server_peer) call (Some c) (Some oip) (Some p0) s o m
      = Some ((st, Some ip', Some p', Some c', s', o'), m') /\
    spec_call d id call (a, (logged_in c, username c), es, o) = (st, (a', (logged_in c', username c'), es', o')) /\
    linked d s' a' /\ cm_rep c' id es' /\ alloc_ok m' /\ blen ip' = blen oip /\
    (st = 0 -> match call with CCreate _ | CJoin _ => (default [] (c_str ip'), p') = address a' call | _ => True end).
Proof.
  intros L R Hm Hn Ho. pose proof (linked_ok d s a L) as O.
  destruct (rep_call call c id es oip p0 s o m R O (call_names_ok call Hn) Ho)
    as (st & ip' & p' & c' & s' & o' & m' & es' & reply & E & A & _ & Hres & R' & _ & Hlu & _ & _ & Hal).
  destruct (Hal Hm) as [Hm' Hw].
  assert (blen ip' = blen oip) as Lip.
  { eapply call_result_len; [exact Ho| |exact Hres]. intros data ->. by apply (reply_frame _ _ _ _ A). }
  exists st, ip', p', c', s', o', m', es'.
  assert (forall a', st = answer_status (answer d call a).2 -> a' = (answer d call a).1 -> linked d s' a' ->
    (st = 0 -> match call with CCreate _ | CJoin _ => True | _ => False end ->
      (default [] (c_str ip'), p') = address a' call) ->
    spec_call d id call (a, (logged_in c, username c), es, o) = (st, (a', (logged_in c', username c'), es', o'))) as Hspec.
  { intros a' Hst Ha' _ Hadr. unfold spec_call. destruct (answer d call a) as [a1 r]. cbn [fst snd] in *. subst a1.
    rewrite <-Hst, <-Hlu. cbn [snd].
    enough (window_effect id call st (address a' call).1 (address a' call).2 (username c) es o = (es', o')) as -> by done.
    rewrite Hw. unfold window_effect. destruct (st =? 0) eqn:E0; [|done]. bprop.
    destruct call; try done; cbn [negb]; by rewrite <-(Hadr E0 I). }
  unfold answer in Hspec. destruct (call_frame call) as [fr|] eqn:Ef; cbn [call_asked] in A.
  - destruct (rep_asked d s a call fr s' reply L Hn Ef A) as (r & Er & -> & L').
    destruct (answer_result (sv_state (remote s')) d call a oip p0 (ro_state _ _ (ln_server _ _ _ L')) Ho)
      as (r' & ip2 & p2 & Er' & Eres & Hadr).
    rewrite Er in Er'. injection Er' as <-. rewrite Eres in Hres. injection Hres as -> -> ->.
    destruct (spec_request a d (request_of call)) as [a' rs]. cbn [fst snd] in *. subst rs.
    exists a'. split; [done|]. split; [by apply Hspec|]. do 4 (split; [done|]). intros E0. destruct call; by auto.
  - destruct A as [-> ->]. assert (st = failure) as -> by (destruct call; by injection Hres).
    exists a. split; [done|]. split; [by apply Hspec|]. by do 4 (split; [done|]).
Qed.

Lemma rep_system d calls c id es oip p0 s o m a : linked d s a -> cm_rep c id es -> alloc_ok m ->
  Forall call_names calls -> CHAT_MAX_IP_STR_LEN <= blen oip -> agree d a (logged_in c, username c) es ->
  exists sts c' s' o' m' es' a',
    client_run server_peer calls (Some c) (Some oip) (Some p0) s o m = Some ((sts, Some c', s', o'), m') /\
    spec_session d id calls (a, (logged_in c, username c), es, o) = (sts, (a', (logged_in c', username c'), es', o')) /\
    linked d s' a' /\ cm_rep c' id es' /\ agree d a' (logged_in c', username c') es'.
Proof.
  intros L R Hm Hn. revert c es oip p0 s o m a L R Hm. induction Hn as [|call calls Hcall Hn IH];
    intros c es oip p0 s o m a L R Hm Ho A.
  { by exists [], c, s, o, m, es, a. }
  destruct (rep_system_call d call c id es oip p0 s o m a L R Hm Hcall Ho)
    as (st & ip' & p' & c1 & s1 & o1 & m1 & es1 & a1 & E & Es & L1 & R1 & Hm1 & Lip & _).
  pose proof (agree_call d id call a (logged_in c, username c) es o
    (sv_has_user _ a d (ro_state _ _ (ln_server _ _ _ L))) A) as A1. rewrite Es in A1.
  destruct (IH c1 es1 ip' p' s1 o1 m1 a1 L1 R1 Hm1) as (sts & c' & s' & o' & m' & es' & a' & E' & Es' & H);
    [by rewrite Lip|done|].
  exists (st :: sts), c', s', o', m', es', a'. cbn [client_run spec_session]. mrun E. mrun E'. rewrite Es, Es'. done.
Qed.

(** ** Properties *)

(** C15: Client and server agree.  Take a client connected to a consistent
    server, both with enough memory and a transport that does not fail, and any
    sequence of calls with any names, however the kernel splits the byte streams
    both ways.  No call has undefined behaviour; every call returns the status
    the specification of the server gives to it in its state at that time, or
    [ST_ERR_PROTOCOL] for a name that is too long, which is never sent; a create
    or join opens the windows on exactly the address and port the server holds
    for the group.  Afterwards the server is in the specified state, nothing is
    left in either buffer, and the client's login state is that of its
    connection at the server: it is logged in, as the same user, exactly if the
    server has a session for it, and all its windows belong to groups that user
    is a member of.  Every call gets its reply, and returns once the windows it has
    opened report; if they never do, it waits, and the log says so ([stuck]). *)
Theorem client_server_agree d calls c id es oip p0 s o m a : linked d s a -> cm_rep c id es -> alloc_ok m ->
  Forall call_names calls -> CHAT_MAX_IP_STR_LEN <= blen oip -> agree d a (logged_in c, username c) es ->
  exists sts c' s' o' m' es' a',
    client_run server_peer calls (Some c) (Some oip) (Some p0) s o m = Some ((sts, Some c', s', o'), m') /\
    spec_session d id calls (a, (logged_in c, username c), es, o) = (sts, (a', (logged_in c', username c'), es', o')) /\
    linked d s' a' /\ cm_rep c' id es' /\ agree d a' (logged_in c', username c') es'.
Proof. apply rep_system. Qed.

(** A client that has just connected, on descriptor 5, to the server where [a]
    is logged in on descriptor 4. *)
Definition demo_link (s : server) (m : mem) : socket :=
  MkSocket (MkRemote (MkClient 5 (replicate (Z.to_nat RECV_BUFFER_SIZE) 0) 0) ∅ s m) [] (fun _ => 3) (fun _ => 2) false.

Lemma demo_linked : exists s0 m0, linked 5 (demo_link s0 m0) (MkA demo_users demo_socks ∅ initial_pairs).
Proof.
  destruct demo_server as (s00 & m00 & s0 & m0 & _ & _ & R & Hm). exists s0, m0.
  constructor; [constructor|..]; try done. apply client_ok_fresh; [done|]. by apply Forall_replicate.
Qed.

Lemma client_server_agree_witness : exists s0 m0,
  let a := MkA demo_users demo_socks ∅ initial_pairs in
  let calls := [CLogin [97] [112]; CRegister [98] [113]; CLogin [98] [113]; CCreate [103]] in
  linked 5 (demo_link s0 m0) a /\
  exists sts c' s' o' m' es' a',
    client_run server_peer calls (Some demo_client) (Some (replicate 16 0)) (Some 0) (demo_link s0 m0) demo_os (Mem [] 0)
      = Some ((sts, Some c', s', o'), m') /\
    spec_session 5 7 calls (a, (0, []), [], demo_os) = (sts, (a', (logged_in c', username c'), es', o')) /\
    linked 5 s' a' /\ cm_rep c' 7 es' /\ agree 5 a' (logged_in c', username c') es'.
Proof.
  destruct demo_linked as (s0 & m0 & L). exists s0, m0. intros a calls. split; [exact L|].
  apply (client_server_agree 5 calls demo_client 7 [] (replicate 16 0) 0 (demo_link s0 m0) demo_os (Mem [] 0) a L
    demo_client_ok); [constructor| |by vm_compute|].
  - unfold calls. apply Forall_cons_2; [split; by apply Forall_cons_2|].
    apply Forall_cons_2; [split; by apply Forall_cons_2|]. apply Forall_cons_2; [split; by apply Forall_cons_2|].
    apply Forall_cons_2; [by apply Forall_cons_2|by apply Forall_nil_2].
  - by vm_compute.
Defined.
