(* ===== verification/Ui.v ===== *)
(** * The text interface and the program of the client: [client/ui.h],
    [client/ui.c], [client/client_main.c]

    Reading lines, the two screens (before and after a login) and [main], with
    the bytes of the standard input and everything printed.  The file proves
    what a line read is, that the interface ends on every input unless one of its
    requests does not come back, and that the requests it makes are those of the
    two screens: complete, well-formed requests only, group requests only between
    a login and a logout that succeeded. *)

From Stdlib Require String.
From S2P Require Import Prelude Text Protocol GenDlist ClientNet ClientGroups ClientMng.
Import String.StringSyntax.

(** ** The terminal *)

(** What is still to be read, and what has been printed. *)
Record term := MkTerm { input : bytes; printed : bytes }.

Definition printf (s : bytes) (t : term) : term := MkTerm (input t) (printed t ++ s).

(** A line of text with its newline. *)
Definition line (s : bytes) : bytes := s ++ [10].

(** ** [read_line] *)

(** [while ((c = getchar()) != '\n' && c != EOF)] *)
Fixpoint drain (inp : bytes) : bytes :=
  match inp with
  | [] => []
  | c :: inp => if c =? 10 then inp else drain inp
  end.

(** [out] is the caller's array of [cap] characters. *)
Definition read_line (prompt : cstring) (out : bytes) (cap : Z) (t : term) : option (Z * bytes * term) :=
  let t := printf prompt t in
  match fgets cap (input t) with
  | None => Some (-1, out, t)
  | Some (l, rest) =>
      out ← buf_write out 0 (l ++ [0]);
      s ← c_str out;
      let len := strlen s in
      last ← (if len >? 0 then buf_get out (len - 1) else Some 0);
      if (len >? 0) && (last =? 10) then
        out ← buf_set out (len - 1) 0;
        Some (0, out, MkTerm rest (printed t))
      else Some (0, out, MkTerm (drain rest) (printed t))
  end.

(** ** Messages *)

Definition status_msg (st : Z) : cstring :=
  if st =? status_code ST_OK then chars "OK"
  else if st =? status_code ST_ERR_USER_EXISTS then chars "username already taken"
  else if st =? status_code ST_ERR_USER_NOT_FOUND then chars "no such user"
  else if st =? status_code ST_ERR_BAD_PASSWORD then chars "wrong password"
  else if st =? status_code ST_ERR_ALREADY_LOGGED_IN then chars "already logged in"
  else if st =? status_code ST_ERR_NOT_LOGGED_IN then chars "not logged in"
  else if st =? status_code ST_ERR_GROUP_EXISTS then chars "group name already taken"
  else if st =? status_code ST_ERR_GROUP_NOT_FOUND then chars "no such group"
  else if st =? status_code ST_ERR_ALREADY_IN_GROUP then chars "already in that group"
  else if st =? status_code ST_ERR_NOT_IN_GROUP then chars "not a member of that group"
  else if st =? status_code ST_ERR_SERVER_FULL then chars "server is full"
  else if st =? status_code ST_ERR_PROTOCOL then chars "connection / protocol error"
  else chars "unexpected error".

(** ** The screens

    The connection has any other end; [garbage n] is the content of an
    uninitialised array of [n] characters, [gport] of an uninitialised port. *)
Section ui.
Context {P : Type} (peer : P -> bytes -> option (P * bytes)).
Context (garbage : Z -> bytes) (gport : Z).

Definition prompt_and_auth (m : ptr ClientMng) (is_login : Z) (s : socket (P := P)) (t : term)
  : option (Z * ptr ClientMng * socket (P := P) * term) :=
  let what := if negb (is_login =? 0) then chars "login" else chars "registration" in
  '(r, user, t) ← read_line (chars "  username: ") (garbage (CHAT_MAX_USERNAME_LEN + 1)) (CHAT_MAX_USERNAME_LEN + 1) t;
  if negb (r =? 0) then Some (failure, m, s, t) else
  '(r, pass, t) ← read_line (chars "  password: ") (garbage (CHAT_MAX_PASSWORD_LEN + 1)) (CHAT_MAX_PASSWORD_LEN + 1) t;
  if negb (r =? 0) then Some (failure, m, s, t) else
  c ← buf_get user 0;
  if c =? 0 then Some (failure, m, s, printf (line (chars "  username cannot be empty")) t) else
  user ← c_str user;
  pass ← c_str pass;
  '(st, m, s) ← (if negb (is_login =? 0) then client_mng_login peer m (Some user) (Some pass) s
                 else '(st, s) ← client_mng_register peer m (Some user) (Some pass) s; Some (st, m, s));
  if st =? status_code ST_OK then Some (st, m, s, printf (line (chars "  " ++ what ++ chars " succeeded")) t)
  else Some (st, m, s, printf (line (chars "  " ++ what ++ chars " failed: " ++ status_msg st)) t).

Definition do_group_join (m : ptr ClientMng) (is_create : Z) (s : socket (P := P)) (o : os) (t : term)
  : M (ptr ClientMng * socket (P := P) * os * term) :=
  let verb := if negb (is_create =? 0) then chars "create" else chars "join" in
  '(r, group, t) ← lift (read_line (chars "  group name: ") (garbage (CHAT_MAX_GROUPNAME_LEN + 1)) (CHAT_MAX_GROUPNAME_LEN + 1) t);
  if negb (r =? 0) then mret (m, s, o, t) else
  c ← lift (buf_get group 0);
  if c =? 0 then mret (m, s, o, printf (line (chars "  group name cannot be empty")) t) else
  group ← lift (c_str group);
  let ip := Some (garbage CHAT_MAX_IP_STR_LEN) in
  '(st, ip, port, m, s, o) ← (if negb (is_create =? 0) then client_mng_create_group peer m (Some group) ip (Some gport) s o
                              else client_mng_join_group peer m (Some group) ip (Some gport) s o);
  if st =? status_code ST_OK then
    ip ← lift (ip ≫= c_str);
    port ← lift port;
    mret (m, s, o, printf (line (chars "  " ++ verb ++ chars " '" ++ group ++ chars "' OK -- multicast " ++ ip
                                 ++ chars ":" ++ print_int port)) t)
  else mret (m, s, o, printf (line (chars "  " ++ verb ++ chars " '" ++ group ++ chars "' failed: " ++ status_msg st)) t).

Definition do_group_leave (m : ptr ClientMng) (s : socket (P := P)) (o : os) (t : term)
  : M (ptr ClientMng * socket (P := P) * os * term) :=
  '(r, group, t) ← lift (read_line (chars "  group name: ") (garbage (CHAT_MAX_GROUPNAME_LEN + 1)) (CHAT_MAX_GROUPNAME_LEN + 1) t);
  if negb (r =? 0) then mret (m, s, o, t) else
  c ← lift (buf_get group 0);
  if c =? 0 then mret (m, s, o, printf (line (chars "  group name cannot be empty")) t) else
  group ← lift (c_str group);
  '(st, m, s, o) ← client_mng_leave_group peer m (Some group) s o;
  if st =? status_code ST_OK then mret (m, s, o, printf (line (chars "  left '" ++ group ++ chars "'")) t)
  else mret (m, s, o, printf (line (chars "  leave '" ++ group ++ chars "' failed: " ++ status_msg st)) t).

Definition menu2 (user : cstring) : bytes :=
  [10] ++ line (chars "=== Groups (logged in as '" ++ user ++ chars "') ===") ++ line (chars "  1) create group")
  ++ line (chars "  2) join group") ++ line (chars "  3) leave group") ++ line (chars "  4) logout").

(** Every turn reads a line: the fuel is the length of the input and one. *)
Fixpoint screen2_loop (fuel : nat) (m : ptr ClientMng) (s : socket (P := P)) (o : os) (t : term)
  : M (ptr ClientMng * socket (P := P) * os * term) :=
  match fuel with
  | O => fault
  | S fuel =>
      let t := printf (menu2 (client_mng_username m)) t in
      '(r, choice, t) ← lift (read_line (chars "> ") (garbage 8) 8 t);
      if negb (r =? 0) then mret (m, s, o, t) else
      choice ← lift (c_str choice);
      if str_eqb choice (chars "1") then
        '(m, s, o, t) ← do_group_join m 1 s o t; screen2_loop fuel m s o t
      else if str_eqb choice (chars "2") then
        '(m, s, o, t) ← do_group_join m 0 s o t; screen2_loop fuel m s o t
      else if str_eqb choice (chars "3") then
        '(m, s, o, t) ← do_group_leave m s o t; screen2_loop fuel m s o t
      else if str_eqb choice (chars "4") then
        '(st, m, s, o) ← client_mng_logout peer m s o;
        if st =? status_code ST_OK then mret (m, s, o, printf (line (chars "  logged out")) t)
        else screen2_loop fuel m s o (printf (line (chars "  logout failed: " ++ status_msg st)) t)
      else screen2_loop fuel m s o (printf (line (chars "  please enter 1, 2, 3, or 4")) t)
  end.

Definition screen2 (m : ptr ClientMng) (s : socket (P := P)) (o : os) (t : term) :=
  screen2_loop (S (length (input t))) m s o t.

Definition menu1 : bytes :=
  [10] ++ line (chars "=== Chat ===") ++ line (chars "  1) register") ++ line (chars "  2) login") ++ line (chars "  3) exit").

Fixpoint ui_run_loop (fuel : nat) (m : ptr ClientMng) (s : socket (P := P)) (o : os) (t : term)
  : M (ptr ClientMng * socket (P := P) * os * term) :=
  match fuel with
  | O => fault
  | S fuel =>
      let t := printf menu1 t in
      '(r, choice, t) ← lift (read_line (chars "> ") (garbage 8) 8 t);
      if negb (r =? 0) then mret (m, s, o, printf ([10] ++ line (chars "input closed, exiting.")) t) else
      choice ← lift (c_str choice);
      if str_eqb choice (chars "1") then
        '(_, m, s, t) ← lift (prompt_and_auth m 0 s t); ui_run_loop fuel m s o t
      else if str_eqb choice (chars "2") then
        '(st, m, s, t) ← lift (prompt_and_auth m 1 s t);
        if st =? status_code ST_OK then
          '(m, s, o, t) ← screen2 m s o t; ui_run_loop fuel m s o t
        else ui_run_loop fuel m s o t
      else if str_eqb choice (chars "3") then mret (m, s, o, printf (line (chars "bye.")) t)
      else ui_run_loop fuel m s o (printf (line (chars "  please enter 1, 2, or 3")) t)
  end.

Definition ui_run (m : ptr ClientMng) (s : socket (P := P)) (o : os) (t : term) :=
  ui_run_loop (S (length (input t))) m s o t.

(** ** [main]: the exit code, the descriptors that were closed, and the rest.
    The messages on the standard error are not part of what is printed. *)
Definition client_main (argv : list cstring) (k : connect_answers) (ipc : ipc_answers)
    (s : socket (P := P)) (o : os) (t : term) : M (Z * list Z * socket (P := P) * os * term) :=
  let server_ip := match argv with _ :: ip :: _ => ip | _ => chars "127.0.0.1" end in
  let t := printf (line (chars "connecting to " ++ server_ip ++ chars ":" ++ print_int CHAT_TCP_PORT ++ chars " ...")) t in
  '(m, closed, o) ← client_mng_create k ipc (Some server_ip) CHAT_TCP_PORT o;
  match m with
  | None => mret (1, closed, s, o, t)
  | Some _ =>
      let t := printf (line (chars "connected.")) t in
      '(m, s, o, t) ← ui_run m s o t;
      '(_, closed, o) ← client_mng_destroy (Some m) closed o;
      mret (0, closed, s, o, t)
  end.

(** ** What comes of a run

    The process still runs: no call of the kernel has kept it for ever, and none
    has killed it. *)
Definition alive (s : socket (P := P)) (o : os) : bool := negb (halted s) && negb (stuck o).

(** The interface and the program as they are seen: [None] is a run that does not
    come to its end, because at some call the process waits for ever or is
    killed.  What the functions above compute after such a call is left out. *)
Definition ui_process (m : ptr ClientMng) (s : socket (P := P)) (o : os) (t : term)
  : M (option (ptr ClientMng * socket (P := P) * os * term)) :=
  '(m, s, o, t) ← ui_run m s o t;
  mret (if alive s o then Some (m, s, o, t) else None).

Definition client_process (argv : list cstring) (k : connect_answers) (ipc : ipc_answers)
    (s : socket (P := P)) (o : os) (t : term) : M (option (Z * list Z * socket (P := P) * os * term)) :=
  '(r, closed, s, o, t) ← client_main argv k ipc s o t;
  mret (if alive s o then Some (r, closed, s, o, t) else None).

End ui.

(** The address [main] connects to. *)
Definition server_of (argv : list cstring) : cstring :=
  match argv with _ :: ip :: _ => ip | _ => chars "127.0.0.1" end.

(** ** Lines *)

(** The first line of an input and what follows its newline. *)
Fixpoint next_line (inp : bytes) : bytes * bytes :=
  match inp with
  | [] => ([], [])
  | c :: inp => if c =? 10 then ([], inp) else let '(l, r) := next_line inp in (c :: l, r)
  end.

Lemma next_line_cases inp : let '(l, r) := next_line inp in
  (10 ∉ l) /\ (inp = l ++ 10 :: r \/ inp = l /\ r = []).
Proof.
  induction inp as [|c inp IH]; cbn [next_line]; [split; [apply not_elem_of_nil|by right]|].
  destruct (c =? 10) eqn:E; bprop.
  - subst. split; [apply not_elem_of_nil|by left].
  - destruct (next_line inp) as [l r]. destruct IH as [Hl IH]. split; [apply not_elem_of_cons; split; congruence|].
    destruct IH as [->|[-> ->]]; [by left|by right].
Qed.

Lemma next_line_shorter inp : inp <> [] -> (length (next_line inp).2 < length inp)%nat.
Proof.
  intros Hne. pose proof (next_line_cases inp) as H. destruct (next_line inp) as [l r]. cbn [snd].
  destruct H as [_ [->|[-> ->]]]; [rewrite length_app; cbn [length]; lia|]. destruct l; [done|cbn; lia].
Qed.

Lemma drain_line l r : 10 ∉ l -> drain (l ++ 10 :: r) = r.
Proof.
  induction l as [|c l IH]; [done|]. intros [Hc Hl]%not_elem_of_cons. cbn [app drain].
  rewrite (proj2 (Z.eqb_neq c 10)) by congruence. by apply IH.
Qed.

Lemma drain_last l : 10 ∉ l -> drain l = [].
Proof.
  induction l as [|c l IH]; [done|]. intros [Hc Hl]%not_elem_of_cons. cbn [drain].
  rewrite (proj2 (Z.eqb_neq c 10)) by congruence. by apply IH.
Qed.

(** A part of a line and the rest of it. *)
Lemma drop_line n (l : bytes) : 10 ∉ l -> (10 ∉ take n l) /\ (10 ∉ drop n l).
Proof.
  intros H. rewrite <-(take_drop n l) in H. apply not_elem_of_app in H. done.
Qed.

Lemma drain_next inp : drain inp = (next_line inp).2.
Proof.
  induction inp as [|c inp IH]; [done|]. cbn [drain next_line]. destruct (c =? 10); [done|].
  rewrite IH. by destruct (next_line inp).
Qed.

(** The buffer of [fgets] after a string without a newline at its end. *)
Lemma fgets_buffer out x : blen x < blen out -> exists r, buf_write out 0 (x ++ [0]) = Some (x ++ 0 :: r) /\
  blen (x ++ 0 :: r) = blen out.
Proof.
  intros H. unfold buf_write. rewrite !(proj2 (Z.leb_le _ _)) by (unfold blen in *; rewrite ?length_app; cbn [length]; lia).
  cbn [andb]. change (Z.to_nat 0) with 0%nat. rewrite take_0. cbn [app].
  eexists. split; [by rewrite <-app_assoc|].
  unfold blen in *. rewrite !length_app. cbn [length]. rewrite length_drop. lia.
Qed.

Lemma last_char b s : c_str b = Some s -> s <> [] -> exists z, buf_get b (strlen s - 1) = Some z /\ z ∈ s.
Proof.
  intros E Hne. destruct (c_str_inv b s E) as [r ->]. destruct s as [|z s _] using rev_ind; [done|].
  exists z. unfold strlen. rewrite length_app. cbn [length].
  replace (Z.of_nat (length s + 1) - 1) with (Z.of_nat (length s)) by lia.
  unfold buf_get. rewrite (proj2 (Z.leb_le _ _)) by lia. rewrite Nat2Z.id, <-app_assoc.
  rewrite lookup_app_r, Nat.sub_diag by lia. split; [done|]. apply elem_of_app. right. by apply list_elem_of_singleton.
Qed.

(** The test for a newline at the end of what was read. *)
Lemma no_newline x r : 10 ∉ c_prefix x -> let s := c_prefix x in
  exists last, (if strlen s >? 0 then buf_get (x ++ 0 :: r) (strlen s - 1) else Some 0) = Some last /\
    (strlen s >? 0) && (last =? 10) = false.
Proof.
  intros Hx s. destruct (strlen s >? 0) eqn:El; [|by exists 0]. rewrite Z.gtb_ltb in El. bprop.
  destruct (last_char (x ++ 0 :: r) s (c_str_zero x r)) as (z & -> & Hz); [by intros H; rewrite H in El|].
  exists z. split; [done|]. apply Z.eqb_neq. by intros ->.
Qed.

(** What [fgets] takes of a line of [n] characters or more, and of a shorter one. *)
Lemma fgets_line n b : let '(l, r) := next_line b in
  (fgets_loop n b = (l ++ [10], r) /\ (length l < n)%nat) \/
  exists rest, fgets_loop n b = (take n l, rest) /\ drain rest = r /\ ((length l < n)%nat -> r = []).
Proof.
  pose proof (next_line_cases b) as H. destruct (next_line b) as [l r]. destruct H as [Hl Hin].
  destruct (drop_line n l Hl) as [_ Hd]. destruct Hin as [->|[-> ->]].
  - rewrite fgets_loop_line by done. destruct (n <=? length l)%nat eqn:E.
    + apply Nat.leb_le in E. right. eexists. split; [done|]. split; [by apply drain_line|]. lia.
    + apply Nat.leb_gt in E. by left.
  - rewrite fgets_loop_last by done. right. eexists. split; [done|]. split; [by apply drain_last|done].
Qed.

(** The newline of a line without a NUL is found at its end and overwritten. *)
Lemma strip_newline l q :
  buf_get ((l ++ [10]) ++ 0 :: q) (Z.of_nat (length l)) = Some 10 /\
  buf_set ((l ++ [10]) ++ 0 :: q) (Z.of_nat (length l)) 0 = Some (l ++ 0 :: 0 :: q).
Proof.
  unfold buf_get, buf_set. rewrite !(proj2 (Z.leb_le _ _)) by lia. rewrite (proj2 (Z.ltb_lt _ _))
    by (unfold blen; rewrite ?length_app; cbn [length]; lia).
  cbn [andb]. rewrite Nat2Z.id, <-app_assoc. split; [by rewrite lookup_app_r, Nat.sub_diag by lia|].
  by rewrite insert_app_r_alt, Nat.sub_diag by lia.
Qed.

(** ** What a line is read as

    At most [cap] - 1 characters of the line, up to a NUL. *)
Lemma read_line_spec prompt out cap t : blen out = cap -> 2 <= cap -> input t <> [] ->
  let '(l, r) := next_line (input t) in
  exists out', read_line prompt out cap t
      = Some (0, out', MkTerm (if bool_decide (0 ∈ l /\ strlen l < cap - 1) then drain r else r) (printed t ++ prompt)) /\
    blen out' = cap /\ c_str out' = Some (c_prefix (take (Z.to_nat (cap - 1)) l)).
Proof.
  intros Ho Hc Hne. set (n := Z.to_nat (cap - 1)). pose proof (fgets_line n (input t)) as Hf.
  pose proof (next_line_cases (input t)) as H. destruct (next_line (input t)) as [l r].
  destruct H as [Hl _]. unfold read_line. cbn [printf input printed].
  assert (fgets cap (input t) = Some (fgets_loop n (input t))) as -> by by destruct (input t).
  assert (forall x, (length x <= n)%nat -> blen x < blen out) as Hfit.
  { intros x Hx. unfold blen in *. lia. }
  destruct Hf as [[-> Hlt]|(rest & -> & Hr & Hlast)].
  - destruct (fgets_buffer out (l ++ [10])) as (q & -> & Lq); [apply Hfit; rewrite length_app; cbn; lia|].
    cbn [mbind option_bind]. rewrite take_ge by lia. assert (strlen l < cap - 1) as Hs by (unfold strlen; lia).
    destruct (decide (0 ∈ l)) as [D|D].
    + rewrite bool_decide_eq_true_2 by done. eexists. split; [|split; [by rewrite Lq|]].
      * rewrite c_str_zero. cbn [mbind option_bind]. cbv zeta.
        destruct (no_newline (l ++ [10]) q) as (z & -> & E); [|cbn [mbind option_bind]; by rewrite E].
        rewrite c_prefix_app, decide_True by done. by intros [? _]%c_prefix_elem.
      * by rewrite c_str_zero, c_prefix_app, decide_True.
    + rewrite bool_decide_eq_false_2 by tauto. rewrite c_str_zero, c_prefix_app, decide_False by done.
      change (c_prefix [10]) with [10]. cbn [mbind option_bind]. cbv zeta. unfold strlen. rewrite length_app.
      cbn [length]. replace (Z.of_nat (length l + 1) - 1) with (Z.of_nat (length l)) by lia.
      rewrite Z.gtb_ltb, (proj2 (Z.ltb_lt _ _)) by lia.
      destruct (strip_newline l q) as [-> Es]. cbn [mbind option_bind andb Z.eqb Pos.eqb]. rewrite Es.
      cbn [mbind option_bind]. eexists. split; [done|]. split; [|by rewrite c_str_zero].
      rewrite <-Ho, <-Lq. unfold blen. rewrite !length_app. cbn [length]. lia.
  - destruct (fgets_buffer out (take n l)) as (q & -> & Lq); [apply Hfit; rewrite length_take; lia|].
    cbn [mbind option_bind]. destruct (drop_line n l Hl) as [Ht _]. eexists. split; [|split; [by rewrite Lq|]].
    + rewrite c_str_zero. cbn [mbind option_bind]. cbv zeta.
      destruct (no_newline (take n l) q) as (z & -> & E); [by intros [? _]%c_prefix_elem|].
      cbn [mbind option_bind]. rewrite E, Hr.
      case_bool_decide as D; [|done]. destruct D as [_ D]. rewrite Hlast; [done|unfold strlen in D; lia].
    + by rewrite c_str_zero.
Qed.

(** A terminating read makes progress and gives a string that fits. *)
Lemma read_string prompt out cap t : blen out = cap -> 2 <= cap -> is_byte_list (input t) ->
  (input t = [] /\ read_line prompt out cap t = Some (-1, out, printf prompt t)) \/
  exists out' s t', read_line prompt out cap t = Some (0, out', t') /\ c_str out' = Some s /\ is_cstring s /\
    strlen s < cap /\ is_byte_list (input t') /\ (length (input t') < length (input t))%nat.
Proof.
  intros Ho Hc Hb. destruct (decide (input t = [])) as [E|E].
  { left. split; [done|]. unfold read_line. cbn [printf input]. by rewrite E. }
  right. pose proof (read_line_spec prompt out cap t Ho Hc E) as H. pose proof (next_line_shorter (input t) E) as Hs.
  pose proof (next_line_cases (input t)) as Hl. destruct (next_line (input t)) as [l r]. cbn [snd] in Hs.
  assert (is_byte_list l /\ is_byte_list r) as [Hbl Hbr].
  { destruct Hl as [_ [E'|[E' ->]]]; rewrite E' in Hb; [|split; [done|constructor]].
    apply Forall_app in Hb as [? [_ ?]%Forall_cons_1]. done. }
  destruct H as (out' & Er & _ & Es). eexists out', _, _. split; [exact Er|]. split; [exact Es|]. split; [|split; [|split]].
  - apply Forall_forall. intros c Hin. apply c_prefix_elem in Hin as [Hin Hne].
    assert (is_u8 c) as Hu.
    { unfold is_byte_list in Hbl. rewrite Forall_forall in Hbl. apply Hbl.
      rewrite <-(take_drop (Z.to_nat (cap - 1)) l). apply elem_of_app. by left. }
    unfold is_u8 in Hu. lia.
  - assert (length (c_prefix (take (Z.to_nat (cap - 1)) l)) <= length (take (Z.to_nat (cap - 1)) l))%nat as Hlen.
    { generalize (take (Z.to_nat (cap - 1)) l). intros x. induction x as [|c x IH]; [done|]. cbn [c_prefix].
      destruct (c =? 0); cbn [length]; lia. }
    unfold strlen. rewrite length_take in Hlen. lia.
  - cbn [input]. case_bool_decide; [|done]. rewrite drain_next. pose proof (next_line_cases r) as Hr.
    destruct (next_line r) as [l2 r2]. cbn [snd]. destruct Hr as [_ [E'|[_ ->]]]; [|constructor].
    rewrite E' in Hbr. by apply Forall_app in Hbr as [_ [_ ?]%Forall_cons_1].
  - cbn [input]. case_bool_decide; [|done]. rewrite drain_next. destruct (decide (r = [])) as [->|Hne]; [cbn; lia|].
    pose proof (next_line_shorter r Hne). lia.
Qed.

(** Whether the string in a buffer is empty. *)
Lemma first_char b s : c_str b = Some s -> is_cstring s ->
  exists c, buf_get b 0 = Some c /\ (c =? 0) = bool_decide (s = []).
Proof.
  intros E Hs. destruct (c_str_inv b s E) as [r ->]. destruct s as [|z s]; [by exists 0|].
  exists z. split; [done|]. apply Forall_cons_1 in Hs as [Hz _].
  rewrite bool_decide_eq_false_2 by done. apply Z.eqb_neq. lia.
Qed.

(** ** The requests of the interface *)

(** What the user can make the client ask: complete requests with strings of
    legal lengths. *)
Definition typed (call : client_call) : Prop :=
  is_Some (call_frame call) /\
  match call with
  | CRegister u p | CLogin u p => is_cstring u /\ is_cstring p /\ u <> []
  | CLogout => True
  | CCreate g | CJoin g | CLeave g => is_cstring g /\ g <> []
  end.

(** The two screens, [true] for the second one: which requests each one makes,
    and where their status leads. *)
Definition screen_step (in2 : bool) (call : client_call) (st : Z) : option bool :=
  match in2, call with
  | false, CRegister _ _ => Some false
  | false, CLogin _ _ => Some (st =? 0)
  | true, CLogout => Some (negb (st =? 0))
  | true, (CCreate _ | CJoin _ | CLeave _) => Some true
  | _, _ => None
  end.

Fixpoint screens (in2 : bool) (calls : list client_call) (sts : list Z) : option bool :=
  match calls, sts with
  | [], [] => Some in2
  | call :: calls, st :: sts => i ← screen_step in2 call st; screens i calls sts
  | _, _ => None
  end.

Lemma screens_app i1 c1 s1 i2 c2 s2 i3 : screens i1 c1 s1 = Some i2 -> screens i2 c2 s2 = Some i3 ->
  screens i1 (c1 ++ c2) (s1 ++ s2) = Some i3.
Proof.
  revert i1 s1. induction c1 as [|call c1 IH]; intros i1 [|st s1]; cbn [screens app]; try done; [by intros [= ->]|].
  destruct (screen_step i1 call st) as [i|]; cbn [mbind option_bind]; [apply IH|done].
Qed.

(** On the first screen nobody is logged in, on the second one somebody is. *)
Definition screen_login (i : bool) (l : Z) : Prop := l = if i then 1 else 0.

Lemma screens_login i calls sts i' lu : screens i calls sts = Some i' -> screen_login i lu.1 ->
  screen_login i' (login_run calls sts lu).1.
Proof.
  unfold screen_login. revert i sts lu. induction calls as [|call calls IH]; intros i [|st sts] lu; cbn [screens login_run];
    try done; [by intros [= <-]|].
  destruct (screen_step i call st) as [i1|] eqn:E; cbn [mbind option_bind]; [|done]. intros H Hl.
  apply (IH i1 sts (login_effect call st lu) H). clear IH H. unfold login_effect.
  destruct i, call; cbn [screen_step] in E; try done; injection E as <-; destruct (st =? 0); cbn [negb]; done.
Qed.

Lemma login_run_app c1 s1 c2 s2 lu : length s1 = length c1 ->
  login_run (c1 ++ c2) (s1 ++ s2) lu = login_run c2 s2 (login_run c1 s1 lu).
Proof.
  revert s1 lu. induction c1 as [|call c1 IH]; intros [|st s1] lu; cbn; try done. intros [= H]. by apply IH.
Qed.

Section proofs.
Context {P : Type} {peer : P -> bytes -> option (P * bytes)} {PI : P -> Prop} `{HP : !Peer peer PI}.
Context {garbage : Z -> bytes} {gport : Z}.
Hypothesis Hgarbage : forall n, 0 <= n -> blen (garbage n) = n.

(** Calls with the buffers the interface passes. *)
Fixpoint ui_calls (calls : list client_call) (m : ptr ClientMng) (s : socket (P := P)) (o : os)
  : M (list Z * ptr ClientMng * socket (P := P) * os) :=
  match calls with
  | [] => mret ([], m, s, o)
  | call :: calls =>
      '(st, _, _, m, s, o) ← client_do (peer := peer) call m (Some (garbage CHAT_MAX_IP_STR_LEN)) (Some gport) s o;
      '(sts, m, s, o) ← ui_calls calls m s o;
      mret (st :: sts, m, s, o)
  end.

(** After some requests, all of which came back, the client makes one more that
    the screen it is on allows, and this one does not come back. *)
Definition blocked (i : bool) (m : ptr ClientMng) (s : socket (P := P)) (o : os) (k : mem) : Prop :=
  exists calls sts i1 m1 s1 o1 k1 call x s2 o2 k2,
    ui_calls calls m s o k = Some ((sts, m1, s1, o1), k1) /\ alive s1 o1 = true /\
    Forall typed (calls ++ [call]) /\ screens i calls sts = Some i1 /\ is_Some (screen_step i1 call 0) /\
    client_do (peer := peer) call m1 (Some (garbage CHAT_MAX_IP_STR_LEN)) (Some gport) s1 o1 k1 = Some ((x, s2, o2), k2) /\
    alive s2 o2 = false.

Lemma screen_step_asks i call st i' : screen_step i call st = Some i' -> is_Some (screen_step i call 0).
Proof. destruct i, call; cbn; done. Qed.

(** The first request that does not come back. *)
Lemma first_blocked calls i i' m s o k sts m' s' o' k' : ui_calls calls m s o k = Some ((sts, m', s', o'), k') ->
  Forall typed calls -> screens i calls sts = Some i' -> alive s o = true -> alive s' o' = true \/ blocked i m s o k.
Proof.
  revert i m s o k sts. induction calls as [|call calls IH]; intros i m s o k sts; cbn [ui_calls].
  { intros [= <- -> <- <- <-] _ _ Ha. by left. }
  intros H T S Ha. apply M_bind_inv in H as ([[[[[st x] y] m1] s1] o1] & k1 & E & H).
  apply M_bind_inv in H as ([[[sts1 m2] s2] o2] & k2 & E' & H). injection H as <- -> <- <- <-.
  apply Forall_cons_1 in T as [Tc T]. cbn [screens] in S.
  destruct (screen_step i call st) as [i1|] eqn:Es; [cbn [mbind option_bind] in S|done].
  destruct (alive s1 o1) eqn:Ea; cycle 1.
  { right. eexists [], [], i, m, s, o, k, call, _, s1, o1, k1. split; [done|]. split; [done|]. split; [by apply Forall_singleton|].
    split; [done|]. split; [by eapply screen_step_asks|]. split; [exact E|done]. }
  destruct (IH i1 m1 s1 o1 k1 sts1 E' T S Ea) as [?|B]; [by left|right].
  destruct B as (calls1 & sts2 & i2 & m3 & s3 & o3 & k3 & call1 & z & s4 & o4 & k4 & E1 & A1 & T1 & S1 & N1 & E2 & A2).
  exists (call :: calls1), (st :: sts2), i2, m3, s3, o3, k3, call1, z, s4, o4, k4. cbn [ui_calls screens app].
  split; [mrun E; by mrun E1|]. split; [done|]. split; [by apply Forall_cons|]. split; [by rewrite Es|]. done.
Qed.

(** The calls were made, with what follows from it. *)
Record went (id : Z) (calls : list client_call) (sts : list Z) (c : ClientMng) (es : list GroupEntry)
    (s : socket (P := P)) (o : os) (m : mem) (c' : ClientMng) (es' : list GroupEntry) (s' : socket (P := P))
    (o' : os) (m' : mem) : Prop := {
  w_run : ui_calls calls (Some c) s o m = Some ((sts, Some c', s', o'), m');
  w_rep : cm_rep c' id es';
  w_conn : conn_ok (PI := PI) s';
  w_fd : sockfd c' = sockfd c;
  w_len : length sts = length calls;
  w_login : (logged_in c', username c') = login_run calls sts (logged_in c, username c);
  w_live : live m' - cg_blocks es' = live m - cg_blocks es;
  w_acc : accounted o' es' ≡ₚ accounted o es
}.

Lemma went_nil id c es s o m : cm_rep c id es -> conn_ok (PI := PI) s -> went id [] [] c es s o m c es s o m.
Proof. by constructor. Qed.

Lemma ui_calls_app c1 c2 c s o m s1 c' s' o' m' r : ui_calls c1 (Some c) s o m = Some ((s1, Some c', s', o'), m') ->
  ui_calls c2 (Some c') s' o' m' = Some r ->
  ui_calls (c1 ++ c2) (Some c) s o m = Some (let '(s2, m2, s2', o2, mm) := r in (s1 ++ s2, m2, s2', o2, mm)).
Proof.
  generalize (Some c) as mc. revert s o m s1. induction c1 as [|call c1 IH]; intros s o m s1 mc; cbn [ui_calls app].
  - intros [= <- -> <- <- <-] ->. by destruct r as [[[[??]?]?]?].
  - intros H E2. apply M_bind_inv in H as ([[[[[st x] y] mc1] sc1] o1] & m1 & E & H). mrun E.
    apply M_bind_inv in H as ([[[sts mc2] sc2] o2] & m2 & E' & H). injection H as <- -> <- <- <-.
    specialize (IH sc1 o1 m1 sts mc1 E' E2). destruct r as [[[[s2 ?]?]?]?]. mrun IH. done.
Qed.

Lemma went_app id c1 s1 c2 s2 c es s o m c' es' s' o' m' c'' es'' s'' o'' m'' :
  went id c1 s1 c es s o m c' es' s' o' m' -> went id c2 s2 c' es' s' o' m' c'' es'' s'' o'' m'' ->
  went id (c1 ++ c2) (s1 ++ s2) c es s o m c'' es'' s'' o'' m''.
Proof.
  intros [R1 _ _ F1 L1 Lg1 B1 A1] [R2 Rep2 O2 F2 L2 Lg2 B2 A2]. constructor.
  - exact (ui_calls_app _ _ _ _ _ _ _ _ _ _ _ _ R1 R2).
  - done.
  - done.
  - congruence.
  - rewrite !length_app. lia.
  - by rewrite login_run_app, <-Lg1.
  - lia.
  - by rewrite A2.
Qed.

(** One call; a positive reply to create or join brings an address. *)
Lemma went_call call c id es s o m : cm_rep c id es -> conn_ok (PI := PI) s -> call_ok call ->
  exists st ip' p' c' s' o' m' es',
    client_do (peer := peer) call (Some c) (Some (garbage CHAT_MAX_IP_STR_LEN)) (Some gport) s o m
      = Some ((st, Some ip', Some p', Some c', s', o'), m') /\
    went id [call] [st] c es s o m c' es' s' o' m' /\
    (st = 0 -> match call with CCreate _ | CJoin _ => is_Some (c_str ip') | _ => True end).
Proof.
  intros R O Hc. assert (16 <= blen (garbage CHAT_MAX_IP_STR_LEN)) as Ho by (rewrite Hgarbage; by vm_compute).
  destruct (rep_call call c id es (garbage CHAT_MAX_IP_STR_LEN) gport s o m R O Hc Ho)
    as (st & ip' & p' & c' & s' & o' & m' & es' & reply & E & A & O' & Hres & R' & Hfd & Hlu & L & Ac & _).
  exists st, ip', p', c', s', o', m', es'. split; [done|]. split.
  - constructor; try done. cbn [ui_calls]. mrun E. done.
  - intros ->. assert (reply_group reply (garbage CHAT_MAX_IP_STR_LEN) gport = (0, ip', p') -> is_Some (c_str ip')) as H.
    { destruct reply as [data|]; cbn [reply_group]; [|done].
      destruct (group_outcome_range data (garbage CHAT_MAX_IP_STR_LEN) gport) as (rc & st & oip' & p1 & -> & _ & Hr);
        [by apply (reply_frame _ _ _ _ A)|done|].
      destruct Hr as [(-> & _ & ip & Hip & _)| ->]; cbn; intros [= _ <- _] || done. by exists ip. }
    destruct call; try done; cbn [call_result] in Hres; by apply H.
Qed.

(** What a part of the interface did: from a screen to a screen. *)
Definition ui_went (id : Z) (i : bool) (c : ClientMng) (es : list GroupEntry) (s : socket (P := P)) (o : os) (t : term) (m : mem)
    (i' : bool) (c' : ClientMng) (es' : list GroupEntry) (s' : socket (P := P)) (o' : os) (t' : term) (m' : mem) : Prop :=
  is_byte_list (input t') /\ (length (input t') <= length (input t))%nat /\
  exists calls sts, went id calls sts c es s o m c' es' s' o' m' /\ Forall typed calls /\ screens i calls sts = Some i'.

Lemma ui_went_trans id i c es s o t m i1 c1 es1 s1 o1 t1 m1 i2 c2 es2 s2 o2 t2 m2 :
  ui_went id i c es s o t m i1 c1 es1 s1 o1 t1 m1 -> ui_went id i1 c1 es1 s1 o1 t1 m1 i2 c2 es2 s2 o2 t2 m2 ->
  ui_went id i c es s o t m i2 c2 es2 s2 o2 t2 m2.
Proof.
  intros (_ & L1 & cs1 & ss1 & W1 & T1 & S1) (B2 & L2 & cs2 & ss2 & W2 & T2 & S2).
  split; [done|]. split; [lia|]. exists (cs1 ++ cs2), (ss1 ++ ss2).
  split; [by eapply went_app|]. split; [by apply Forall_app|]. by eapply screens_app.
Qed.

(** Printing and reading do not ask anything. *)
Lemma ui_went_nil id i c es s o t m t' : cm_rep c id es -> conn_ok (PI := PI) s -> is_byte_list (input t') ->
  (length (input t') <= length (input t))%nat -> ui_went id i c es s o t m i c es s o t' m.
Proof.
  intros R O B L. split; [done|]. split; [done|]. exists [], []. split; [by apply went_nil|]. done.
Qed.

Lemma ui_went_one id i i' call st c es s o t m c' es' s' o' t' m' : went id [call] [st] c es s o m c' es' s' o' m' ->
  typed call -> screen_step i call st = Some i' -> is_byte_list (input t') ->
  (length (input t') <= length (input t))%nat -> ui_went id i c es s o t m i' c' es' s' o' t' m'.
Proof.
  intros W T S B L. split; [done|]. split; [done|]. exists [call], [st]. split; [done|].
  split; [by apply Forall_cons_2|]. cbn [screens]. by rewrite S.
Qed.
(** ** The dialogues *)

Lemma lift_inv {A} (x : option A) (k : mem) r : lift x k = Some r -> exists y, x = Some y /\ r = (y, k).
Proof. unfold lift. destruct x as [y|]; [|done]. intros [= <-]. by exists y. Qed.

Lemma login_of call c s o m st ip' p' c' s' o' m' ip0 p0 :
  client_do (peer := peer) call (Some c) ip0 p0 s o m = Some ((st, ip', p', Some c', s', o'), m') ->
  match call with
  | CRegister u p => client_mng_register peer (Some c) (Some u) (Some p) s = Some (st, s') /\ c' = c /\ o' = o /\ m' = m
  | CLogin u p => client_mng_login peer (Some c) (Some u) (Some p) s = Some (st, Some c', s') /\ o' = o /\ m' = m
  | CLogout => client_mng_logout peer (Some c) s o m = Some ((st, Some c', s', o'), m')
  | CCreate g => client_mng_create_group peer (Some c) (Some g) ip0 p0 s o m = Some ((st, ip', p', Some c', s', o'), m')
  | CJoin g => client_mng_join_group peer (Some c) (Some g) ip0 p0 s o m = Some ((st, ip', p', Some c', s', o'), m')
  | CLeave g => client_mng_leave_group peer (Some c) (Some g) s o m = Some ((st, Some c', s', o'), m')
  end.
Proof.
  destruct call as [u p|u p| |g|g|g]; cbn [client_do]; try done.
  - intros (y & m1 & E & H)%M_bind_inv. apply lift_inv in E as ([st1 s1] & E & [= -> ->]).
    injection H as -> <- <- -> -> <- <-. done.
  - intros (y & m1 & E & H)%M_bind_inv. apply lift_inv in E as ([[st1 c1] s1] & E & [= -> ->]).
    injection H as -> <- <- -> -> <- <-. done.
  - intros ([[[st1 c1] s1] o1] & m1 & E & H)%M_bind_inv. injection H as -> <- <- -> -> -> ->. done.
  - intros ([[[st1 c1] s1] o1] & m1 & E & H)%M_bind_inv. injection H as -> <- <- -> -> -> ->. done.
Qed.

(** Strings of the length of a field. *)
Lemma fits_field s : strlen s < 33 -> (strlen s <=? 32) = true.
Proof. intros H. apply Z.leb_le. lia. Qed.

Lemma typed_auth call u p : call = CRegister u p \/ call = CLogin u p -> is_cstring u -> is_cstring p -> u <> [] ->
  strlen u < CHAT_MAX_USERNAME_LEN + 1 -> strlen p < CHAT_MAX_PASSWORD_LEN + 1 -> typed call.
Proof.
  chat_consts. intros Hc Hu Hp Hne Lu Lp. split; [|by destruct Hc as [-> | ->]].
  destruct Hc as [-> | ->]; cbn [call_frame]; chat_consts; by rewrite !fits_field.
Qed.

Lemma typed_group call g : call = CCreate g \/ call = CJoin g \/ call = CLeave g -> is_cstring g -> g <> [] ->
  strlen g < CHAT_MAX_GROUPNAME_LEN + 1 -> typed call.
Proof.
  chat_consts. intros Hc Hg Hne Lg. split; [|by destruct Hc as [->|[-> | ->]]].
  destruct Hc as [->|[-> | ->]]; cbn [call_frame]; chat_consts; by rewrite fits_field.
Qed.

Lemma garbage_len n : 0 <= n -> blen (garbage n) = n.
Proof. apply Hgarbage. Qed.

Lemma auth_spec (is_login : bool) c id es s o t m : cm_rep c id es -> conn_ok (PI := PI) s -> is_byte_list (input t) ->
  exists st c' es' s' t', prompt_and_auth peer garbage (Some c) (if is_login then 1 else 0) s t = Some (st, Some c', s', t') /\
    cm_rep c' id es' /\ conn_ok (PI := PI) s' /\
    ui_went id false c es s o t m (is_login && (st =? 0)) c' es' s' o t' m.
Proof.
  intros R O B. unfold prompt_and_auth. assert ((failure =? 0) = false) as Ef by done.
  destruct (read_string (chars "  username: ") (garbage (CHAT_MAX_USERNAME_LEN + 1)) (CHAT_MAX_USERNAME_LEN + 1) t)
    as [[E ->]|(bu & u & t1 & -> & Eu & Hu & Lu & B1 & L1)]; [by apply garbage_len|done|done| |];
    cbn [mbind option_bind Z.eqb negb].
  { exists failure, c, es, s, (printf (chars "  username: ") t). split; [done|]. split; [done|]. split; [done|].
    rewrite Ef, andb_false_r. by apply ui_went_nil. }
  destruct (read_string (chars "  password: ") (garbage (CHAT_MAX_PASSWORD_LEN + 1)) (CHAT_MAX_PASSWORD_LEN + 1) t1)
    as [[E ->]|(bp & p & t2 & -> & Ep & Hp & Lp & B2 & L2)]; [by apply garbage_len|done|done| |];
    cbn [mbind option_bind Z.eqb negb].
  { exists failure, c, es, s, (printf (chars "  password: ") t1). split; [done|]. split; [done|]. split; [done|].
    rewrite Ef, andb_false_r. apply ui_went_nil; [done|done|done|]. cbn [printf input]. lia. }
  destruct (first_char bu u Eu Hu) as (ch & -> & Ech). cbn [mbind option_bind]. rewrite Ech. case_bool_decide as D.
  { eexists failure, c, es, s, _. split; [done|]. split; [done|]. split; [done|].
    rewrite Ef, andb_false_r. apply ui_went_nil; [done|done|done|]. cbn [printf input]. lia. }
  rewrite Eu, Ep. cbn [mbind option_bind].
  set (call := if is_login then CLogin u p else CRegister u p).
  assert (call = CRegister u p \/ call = CLogin u p) as Hc by (destruct is_login; tauto).
  destruct (went_call call c id es s o m R O) as (st & ip' & p' & c' & s' & o' & m' & es' & E & W & _).
  { destruct Hc as [-> | ->]; by split; apply is_cstring_bytes. }
  apply login_of in E.
  assert ((if negb ((if is_login then 1 else 0) =? 0) then client_mng_login peer (Some c) (Some u) (Some p) s
    else '(st, s) ← client_mng_register peer (Some c) (Some u) (Some p) s; Some (st, Some c, s)) = Some (st, Some c', s')
    /\ o' = o /\ m' = m) as (-> & -> & ->).
  { unfold call in E. destruct is_login; cbn [Z.eqb negb]; [done|]. destruct E as (-> & -> & -> & ->). done. }
  cbn [mbind option_bind status_code].
  assert (forall t', input t' = input t2 -> ui_went id false c es s o t m (is_login && (st =? 0)) c' es' s' o t' m) as Hw.
  { intros t' Et. apply (ui_went_one id false _ call st c es s o t m); [done|by apply (typed_auth call u p)| | |].
    - unfold call. by destruct is_login.
    - by rewrite Et.
    - rewrite Et. lia. }
  exists st, c', es', s'. destruct (st =? 0); eexists; (split; [done|]); (split; [apply W|]); (split; [apply W|]); by apply Hw.
Qed.

(** The answer to a name that was typed on the second screen. *)
Lemma name_spec (k : cstring -> client_call) id i c es s o t m :
  (forall g, k g = CCreate g \/ k g = CJoin g \/ k g = CLeave g) -> i = true ->
  cm_rep c id es -> conn_ok (PI := PI) s -> is_byte_list (input t) ->
  (input t = [] /\ read_line (chars "  group name: ") (garbage (CHAT_MAX_GROUPNAME_LEN + 1)) (CHAT_MAX_GROUPNAME_LEN + 1) t
     = Some (-1, garbage (CHAT_MAX_GROUPNAME_LEN + 1), printf (chars "  group name: ") t)) \/
  exists b g t1 ch, read_line (chars "  group name: ") (garbage (CHAT_MAX_GROUPNAME_LEN + 1)) (CHAT_MAX_GROUPNAME_LEN + 1) t
      = Some (0, b, t1) /\ c_str b = Some g /\ buf_get b 0 = Some ch /\ (ch =? 0) = bool_decide (g = []) /\
    (forall t', input t' = input t1 -> ui_went id i c es s o t m i c es s o t' m) /\
    (g <> [] -> exists st ip' p' c' s' o' m' es',
       client_do (peer := peer) (k g) (Some c) (Some (garbage CHAT_MAX_IP_STR_LEN)) (Some gport) s o m
         = Some ((st, Some ip', Some p', Some c', s', o'), m') /\
       cm_rep c' id es' /\ conn_ok (PI := PI) s' /\
       (st = 0 -> match k g with CCreate _ | CJoin _ => is_Some (c_str ip') | _ => True end) /\
       forall t', input t' = input t1 -> ui_went id i c es s o t m i c' es' s' o' t' m').
Proof.
  intros Hk -> R O B.
  destruct (read_string (chars "  group name: ") (garbage (CHAT_MAX_GROUPNAME_LEN + 1)) (CHAT_MAX_GROUPNAME_LEN + 1) t)
    as [[E ->]|(b & g & t1 & -> & Eg & Hg & Lg & B1 & L1)]; [by apply garbage_len|done|done|by left|right].
  destruct (first_char b g Eg Hg) as (ch & Ec & Ech). exists b, g, t1, ch.
  split; [done|]. split; [done|]. split; [done|]. split; [done|]. split.
  - intros t' Et. apply ui_went_nil; rewrite ?Et; (done || lia).
  - intros Hne. destruct (went_call (k g) c id es s o m R O) as (st & ip' & p' & c' & s' & o' & m' & es' & E & W & Hip).
    { destruct (Hk g) as [->|[-> | ->]]; by apply is_cstring_bytes. }
    exists st, ip', p', c', s', o', m', es'. split; [done|]. split; [apply W|]. split; [apply W|]. split; [done|].
    intros t' Et. apply (ui_went_one id true true (k g) st); [done|by apply (typed_group (k g) g)| | |].
    + by destruct (Hk g) as [->|[-> | ->]].
    + by rewrite Et.
    + rewrite Et. lia.
Qed.

Lemma join_spec (is_create : bool) c id es s o t m : cm_rep c id es -> conn_ok (PI := PI) s -> is_byte_list (input t) ->
  exists c' es' s' o' t' m',
    do_group_join peer garbage gport (Some c) (if is_create then 1 else 0) s o t m = Some ((Some c', s', o', t'), m') /\
    cm_rep c' id es' /\ conn_ok (PI := PI) s' /\ ui_went id true c es s o t m true c' es' s' o' t' m'.
Proof.
  intros R O B. unfold do_group_join.
  destruct (name_spec (fun g => if is_create then CCreate g else CJoin g) id true c es s o t m)
    as [[Ei ->]|(b & g & t1 & ch & -> & Eg & Ec & Ech & H0 & H1)]; [intros g; destruct is_create; tauto|done..| |]; mlift;
    cbn [Z.eqb negb].
  { exists c, es, s, o, (printf (chars "  group name: ") t), m. split; [done|]. split; [done|]. split; [done|]. by apply ui_went_nil. }
  rewrite Ec. mlift. rewrite Ech. case_bool_decide as D.
  { eexists c, es, s, o, _, m. split; [done|]. split; [done|]. split; [done|]. by apply H0. }
  rewrite Eg. mlift. destruct (H1 D) as (st & ip' & p' & c' & s' & o' & m' & es' & E & R' & O' & Hip & Hw).
  assert ((if negb ((if is_create then 1 else 0) =? 0)
    then client_mng_create_group peer (Some c) (Some g) (Some (garbage CHAT_MAX_IP_STR_LEN)) (Some gport) s o
    else client_mng_join_group peer (Some c) (Some g) (Some (garbage CHAT_MAX_IP_STR_LEN)) (Some gport) s o) m
    = Some ((st, Some ip', Some p', Some c', s', o'), m')) as E2 by by destruct is_create; apply login_of in E.
  cbv zeta. mrun E2. cbn [status_code]. exists c', es', s', o'. destruct (st =? 0) eqn:Est; bprop.
  - assert (is_Some (c_str ip')) as [ip Eip] by (destruct is_create; by apply Hip). cbn [mbind option_bind]. rewrite Eip. mlift. mlift.
    eexists _, m'. split; [done|]. split; [done|]. split; [done|]. by apply Hw.
  - eexists _, m'. split; [done|]. split; [done|]. split; [done|]. by apply Hw.
Qed.

Lemma leave_spec c id es s o t m : cm_rep c id es -> conn_ok (PI := PI) s -> is_byte_list (input t) ->
  exists c' es' s' o' t' m',
    do_group_leave peer garbage (Some c) s o t m = Some ((Some c', s', o', t'), m') /\
    cm_rep c' id es' /\ conn_ok (PI := PI) s' /\ ui_went id true c es s o t m true c' es' s' o' t' m'.
Proof.
  intros R O B. unfold do_group_leave.
  destruct (name_spec CLeave id true c es s o t m)
    as [[Ei ->]|(b & g & t1 & ch & -> & Eg & Ec & Ech & H0 & H1)]; [tauto|done..| |]; mlift; cbn [Z.eqb negb].
  { exists c, es, s, o, (printf (chars "  group name: ") t), m. split; [done|]. split; [done|]. split; [done|]. by apply ui_went_nil. }
  rewrite Ec. mlift. rewrite Ech. case_bool_decide as D.
  { eexists c, es, s, o, _, m. split; [done|]. split; [done|]. split; [done|]. by apply H0. }
  rewrite Eg. mlift. destruct (H1 D) as (st & ip' & p' & c' & s' & o' & m' & es' & E & R' & O' & _ & Hw).
  apply login_of in E. mrun E. exists c', es', s', o'.
  destruct (st =? status_code ST_OK); (eexists _, m'; split; [done|]; split; [done|]; split; [done|]; by apply Hw).
Qed.

(** ** The screens end *)

Lemma choice_spec t : is_byte_list (input t) ->
  (input t = [] /\ read_line (chars "> ") (garbage 8) 8 t = Some (-1, garbage 8, printf (chars "> ") t)) \/
  exists b s t', read_line (chars "> ") (garbage 8) 8 t = Some (0, b, t') /\ c_str b = Some s /\
    is_byte_list (input t') /\ (length (input t') < length (input t))%nat.
Proof.
  intros B. destruct (read_string (chars "> ") (garbage 8) 8 t) as [[E ->]|(b & s & t' & -> & Es & _ & _ & B' & L)];
    [by apply garbage_len|done|done|by left|right]. by exists b, s, t'.
Qed.

(** The second screen: left by a logout that succeeds, or with all input read. *)
Lemma screen2_spec fuel c id es s o t m : (length (input t) < fuel)%nat ->
  cm_rep c id es -> conn_ok (PI := PI) s -> is_byte_list (input t) ->
  exists i' c' es' s' o' t' m', screen2_loop peer garbage gport fuel (Some c) s o t m = Some ((Some c', s', o', t'), m') /\
    cm_rep c' id es' /\ conn_ok (PI := PI) s' /\ ui_went id true c es s o t m i' c' es' s' o' t' m' /\
    (i' = true -> input t' = []).
Proof.
  revert c es s o t m. induction fuel as [|fuel IH]; intros c es s o t m Hf R O B; [lia|]. cbn [screen2_loop].
  set (t0 := printf (menu2 (client_mng_username (Some c))) t). assert (input t0 = input t) as Et0 by done.
  destruct (choice_spec t0) as [[E ->]|(b & ch & t1 & -> & Ech & B1 & L1)]; [done| |]; mlift; cbn [Z.eqb negb].
  { exists true, c, es, s, o, (printf (chars "> ") t0), m. split; [done|]. split; [done|]. split; [done|].
    split; [by apply ui_went_nil|done]. }
  rewrite Ech, Et0 in *. mlift.
  assert (forall c1 es1 s1 o1 t2 m1, cm_rep c1 id es1 -> conn_ok (PI := PI) s1 ->
    ui_went id true c es s o t1 m true c1 es1 s1 o1 t2 m1 ->
    exists i' c' es' s' o' t' m', screen2_loop peer garbage gport fuel (Some c1) s1 o1 t2 m1 = Some ((Some c', s', o', t'), m') /\
      cm_rep c' id es' /\ conn_ok (PI := PI) s' /\ ui_went id true c es s o t m i' c' es' s' o' t' m' /\
      (i' = true -> input t' = [])) as Hnext.
  { intros c1 es1 s1 o1 t2 m1 R1 O1 W. pose proof W as (B2 & L2 & _).
    destruct (IH c1 es1 s1 o1 t2 m1) as (i' & c' & es' & s' & o' & t' & m' & E & R' & O' & W' & Hi); [lia|done..|].
    exists i', c', es', s', o', t', m'. split; [done|]. split; [done|]. split; [done|]. split; [|done].
    eapply ui_went_trans; [|exact W']. eapply ui_went_trans; [|exact W]. apply ui_went_nil; (done || lia). }
  destruct (str_eqb ch (chars "1")).
  { destruct (join_spec true c id es s o t1 m R O B1) as (c1 & es1 & s1 & o1 & t2 & m1 & E & R1 & O1 & W).
    mrun E. by apply (Hnext c1 es1). }
  destruct (str_eqb ch (chars "2")).
  { destruct (join_spec false c id es s o t1 m R O B1) as (c1 & es1 & s1 & o1 & t2 & m1 & E & R1 & O1 & W).
    mrun E. by apply (Hnext c1 es1). }
  destruct (str_eqb ch (chars "3")).
  { destruct (leave_spec c id es s o t1 m R O B1) as (c1 & es1 & s1 & o1 & t2 & m1 & E & R1 & O1 & W).
    mrun E. by apply (Hnext c1 es1). }
  destruct (str_eqb ch (chars "4")).
  2:{ apply (Hnext c es); [done|done|]. by apply ui_went_nil. }
  destruct (went_call CLogout c id es s o m R O I) as (st & ip' & p' & c1 & s1 & o1 & m1 & es1 & E & W & _).
  apply login_of in E. mrun E. cbn [status_code].
  assert (forall t', input t' = input t1 -> ui_went id true c es s o t1 m (negb (st =? 0)) c1 es1 s1 o1 t' m1) as Hw.
  { intros t' Et. apply (ui_went_one id true _ CLogout st); [done|by split|done|by rewrite Et|by rewrite Et]. }
  destruct (st =? 0) eqn:Est; cbn [negb] in Hw.
  - eexists false, c1, es1, s1, o1, _, m1. split; [done|]. split; [apply W|]. split; [apply W|]. split; [|done].
    eapply ui_went_trans; [apply (ui_went_nil id true c es s o t m t1); (done || lia)|]. by apply Hw.
  - apply (Hnext c1 es1); [apply W|apply W|]. by apply Hw.
Qed.

(** Without input the first screen returns. *)
Lemma ui_loop_eof fuel c s o t m : input t = [] ->
  ui_run_loop peer garbage gport (S fuel) c s o t m
  = Some ((c, s, o, printf ([10] ++ line (chars "input closed, exiting.")) (printf (chars "> ") (printf menu1 t))), m).
Proof. intros E. cbn [ui_run_loop]. unfold read_line. cbn [printf input]. by rewrite E. Qed.

(** The first screen: left by the choice to exit, or with all input read. *)
Lemma ui_loop_spec fuel c id es s o t m : (length (input t) < fuel)%nat ->
  cm_rep c id es -> conn_ok (PI := PI) s -> is_byte_list (input t) ->
  exists i' c' es' s' o' t' m', ui_run_loop peer garbage gport fuel (Some c) s o t m = Some ((Some c', s', o', t'), m') /\
    cm_rep c' id es' /\ conn_ok (PI := PI) s' /\ ui_went id false c es s o t m i' c' es' s' o' t' m' /\
    (i' = true -> input t' = []).
Proof.
  revert c es s o t m. induction fuel as [|fuel IH]; intros c es s o t m Hf R O B; [lia|]. cbn [ui_run_loop].
  set (t0 := printf menu1 t). assert (input t0 = input t) as Et0 by done.
  destruct (choice_spec t0) as [[E ->]|(b & ch & t1 & -> & Ech & B1 & L1)]; [done| |]; mlift; cbn [Z.eqb negb].
  { eexists false, c, es, s, o, _, m. split; [done|]. split; [done|]. split; [done|].
    split; [by apply ui_went_nil|done]. }
  rewrite Ech, Et0 in *. mlift.
  assert (forall c1 es1 s1 o1 t2 m1, cm_rep c1 id es1 -> conn_ok (PI := PI) s1 ->
    ui_went id false c es s o t1 m false c1 es1 s1 o1 t2 m1 ->
    exists i' c' es' s' o' t' m', ui_run_loop peer garbage gport fuel (Some c1) s1 o1 t2 m1 = Some ((Some c', s', o', t'), m') /\
      cm_rep c' id es' /\ conn_ok (PI := PI) s' /\ ui_went id false c es s o t m i' c' es' s' o' t' m' /\
      (i' = true -> input t' = [])) as Hnext.
  { intros c1 es1 s1 o1 t2 m1 R1 O1 W. pose proof W as (B2 & L2 & _).
    destruct (IH c1 es1 s1 o1 t2 m1) as (i' & c' & es' & s' & o' & t' & m' & E & R' & O' & W' & Hi); [lia|done..|].
    exists i', c', es', s', o', t', m'. split; [done|]. split; [done|]. split; [done|]. split; [|done].
    eapply ui_went_trans; [|exact W']. eapply ui_went_trans; [|exact W]. apply ui_went_nil; (done || lia). }
  destruct (str_eqb ch (chars "1")).
  { destruct (auth_spec false c id es s o t1 m R O B1) as (st & c1 & es1 & s1 & t2 & E & R1 & O1 & W).
    rewrite E. mlift. by apply (Hnext c1 es1). }
  destruct (str_eqb ch (chars "2")); cycle 1.
  { destruct (str_eqb ch (chars "3")); [|by apply (Hnext c es); [..|apply ui_went_nil]].
    eexists false, c, es, s, o, _, m. split; [done|]. split; [done|]. split; [done|].
    split; [apply ui_went_nil; (done || cbn [printf input]; lia)|done]. }
  destruct (auth_spec true c id es s o t1 m R O B1) as (st & c1 & es1 & s1 & t2 & E & R1 & O1 & W).
  rewrite E. mlift. cbn [status_code andb] in *. destruct (st =? 0); [|by apply (Hnext c1 es1)].
  pose proof W as (B2 & L2 & _).
  destruct (screen2_spec (S (length (input t2))) c1 id es1 s1 o t2 m) as (i2 & c2 & es2 & s2 & o2 & t3 & m2 & E2 & R2 & O2 & W2 & Hi);
    [lia|done..|].
  unfold screen2. mrun E2. assert (ui_went id false c es s o t1 m i2 c2 es2 s2 o2 t3 m2) as W3 by (eapply ui_went_trans; [exact W|exact W2]).
  destruct i2; [|by apply (Hnext c2 es2)].
  destruct fuel as [|fuel]; [lia|]. rewrite ui_loop_eof by auto.
  eexists true, c2, es2, s2, o2, _, m2. split; [done|]. split; [done|]. split; [done|]. split; [|by intros _; apply Hi].
  destruct W3 as (B3 & L3 & W3). split; [done|]. split; [cbn [printf input]; lia|]. exact W3.
Qed.

End proofs.

(** ** Properties *)

(** C39: What a line of input is read as.  At the end of the input [read_line]
    reports -1.  Otherwise it returns 0 with a string that fits into the
    caller's array: the characters of the next line, cut to the size of the
    array, up to the first NUL byte if there is one; the whole line is consumed,
    however long it is, so that nothing of it is read as the next answer.  A
    line with a NUL byte that fits into the array also loses the line after
    it. *)
Theorem read_line_exact prompt out cap t : blen out = cap -> 2 <= cap ->
  let '(l, r) := next_line (input t) in
  match input t with
  | [] => read_line prompt out cap t = Some (-1, out, MkTerm [] (printed t ++ prompt))
  | _ :: _ => exists out', read_line prompt out cap t
        = Some (0, out', MkTerm (if bool_decide (0 ∈ l /\ strlen l < cap - 1) then (next_line r).2 else r)
                          (printed t ++ prompt)) /\
      blen out' = cap /\ c_str out' = Some (c_prefix (take (Z.to_nat (cap - 1)) l)) /\
      (0 ∉ l -> strlen l < cap -> c_str out' = Some l)
  end.
Proof.
  intros Ho Hc. pose proof (read_line_spec prompt out cap t Ho Hc) as H.
  destruct (input t) as [|x inp] eqn:E.
  { unfold read_line, printf. cbn [input]. by rewrite E. }
  specialize (H ltac:(done)). destruct (next_line (x :: inp)) as [l r].
  destruct H as (out' & Er & Lo & Es). exists out'. rewrite <-drain_next. split; [done|]. split; [done|].
  split; [done|]. intros H0 Hl. rewrite Es. rewrite take_ge by (unfold strlen in Hl; lia). by rewrite c_prefix_id.
Qed.

(** A NUL byte in the first line: the second one is lost. *)
Lemma read_line_exact_witness :
  let t := MkTerm [97; 0; 98; 10; 99; 10; 100; 10] [] in
  let '(l, r) := next_line (input t) in
  match input t with
  | [] => read_line [62] (replicate 8 7) 8 t = Some (-1, replicate 8 7, MkTerm [] (printed t ++ [62]))
  | _ :: _ => exists out', read_line [62] (replicate 8 7) 8 t
        = Some (0, out', MkTerm (if bool_decide (0 ∈ l /\ strlen l < 8 - 1) then (next_line r).2 else r)
                          (printed t ++ [62])) /\
      blen out' = 8 /\ c_str out' = Some (c_prefix (take (Z.to_nat (8 - 1)) l)) /\
      (0 ∉ l -> strlen l < 8 -> c_str out' = Some l)
  end.
Proof.
  exact (read_line_exact [62] (replicate 8 7) 8 (MkTerm [97; 0; 98; 10; 99; 10; 100; 10] []) eq_refl ltac:(lia)).
Defined.

(** C22: All the interface does to the client is a sequence of requests of its two
    screens, on every input, with any other end of the connection and any windows.
    Every request is complete: a name that is not empty, without NUL and short
    enough to be sent, so none is refused for its length.  Only registrations and
    logins are made on the first screen, only group requests and logouts on the
    second, which is entered by a login that succeeded and left by a logout that
    succeeded: what the client holds as its login state is the screen it is on.
    Either all these requests come back; then the interface returns, on the first
    screen, or on the second if the input ended there.  Or one does not, because
    the other end or a window is silent for ever or [send] raises [SIGPIPE]; then
    all before it came back, and it is the last.  The interface itself never
    loops for ever. *)
Theorem ui_run_requests (P : Type) (peer : P -> bytes -> option (P * bytes)) (PI : P -> Prop) `{!Peer peer PI}
    garbage gport c id es s o t m : (forall n, 0 <= n -> blen (garbage n) = n) ->
  cm_rep c id es -> conn_ok (PI := PI) s -> is_byte_list (input t) -> logged_in c = 0 -> alive s o = true ->
  exists r m', ui_process peer garbage gport (Some c) s o t m = Some (r, m') /\
    match r with
    | Some (mc', s', o', t') => exists c' calls sts in2, mc' = Some c' /\
        ui_calls (peer := peer) (garbage := garbage) (gport := gport) calls (Some c) s o m
          = Some ((sts, Some c', s', o'), m') /\
        Forall typed calls /\ screens false calls sts = Some in2 /\
        client_mng_is_logged_in (Some c') = (if in2 then 1 else 0) /\
        (in2 = true -> input t' = [])
    | None => blocked (peer := peer) (garbage := garbage) (gport := gport) false (Some c) s o m
    end.
Proof.
  intros Hg R O B Hl Ha.
  destruct (ui_loop_spec (gport := gport) Hg (S (length (input t))) c id es s o t m)
    as (i' & c' & es' & s' & o' & t' & m' & E & _ & _ & (_ & _ & calls & sts & W & T & S) & Hi); [lia|done..|].
  unfold ui_process. mrun E. eexists _, m'. split; [done|]. destruct (alive s' o') eqn:Ea; cycle 1.
  { destruct (first_blocked calls false i' _ _ _ _ _ _ _ _ _ (w_run _ _ _ _ _ _ _ _ _ _ _ _ _ W) T S Ha); [congruence|done]. }
  exists c', calls, sts, i'. split; [done|]. split; [apply W|]. split; [done|]. split; [done|].
  split; [|done]. pose proof (screens_login false calls sts i' (logged_in c, username c) S Hl) as H.
  rewrite <-(w_login _ _ _ _ _ _ _ _ _ _ _ _ _ W) in H. exact H.
Qed.

Definition demo_garbage (n : Z) : bytes := replicate (Z.to_nat n) 7.

Lemma demo_garbage_length n : 0 <= n -> blen (demo_garbage n) = n.
Proof. intros H. unfold demo_garbage, blen. rewrite length_replicate. lia. Qed.

(** Register with a name that is too long, an unknown choice, exit. *)
Definition demo_term : term :=
  MkTerm (line (chars "1") ++ line (replicate 40 97) ++ line (chars "pw") ++ line (chars "x") ++ line (chars "3")) [].

Lemma demo_term_bytes : is_byte_list (input demo_term).
Proof. apply (bool_decide_eq_true_1 (Forall (fun z => 0 <= z < 256) (input demo_term))). by vm_compute. Qed.

(** With this end of the connection, which sends everything back, it returns. *)
Lemma ui_run_requests_witness :
  ((fun r => bool_decide (is_Some r.1)) <$> ui_process echo demo_garbage 0 (Some demo_client) demo_socket demo_os demo_term (Mem [] 3)
    = Some true) /\
  exists r m', ui_process echo demo_garbage 0 (Some demo_client) demo_socket demo_os demo_term (Mem [] 3) = Some (r, m') /\
    match r with
    | Some (mc', s', o', t') => exists c' calls sts in2, mc' = Some c' /\
        ui_calls (peer := echo) (garbage := demo_garbage) (gport := 0) calls (Some demo_client) demo_socket demo_os (Mem [] 3)
          = Some ((sts, Some c', s', o'), m') /\
        Forall typed calls /\ screens false calls sts = Some in2 /\
        client_mng_is_logged_in (Some c') = (if in2 then 1 else 0) /\
        (in2 = true -> input t' = [])
    | None => blocked (peer := echo) (garbage := demo_garbage) (gport := 0) false (Some demo_client) demo_socket demo_os (Mem [] 3)
    end.
Proof.
  split; [by vm_compute|].
  apply (ui_run_requests unit echo (fun _ => True) demo_garbage 0 demo_client 7 [] demo_socket demo_os demo_term (Mem [] 3)
    demo_garbage_length demo_client_ok demo_socket_ok demo_term_bytes); by vm_compute.
Defined.

(** C23: The client program, on any arguments, any input, any other end of the
    connection, any answers of the system and any failing allocations, has no
    undefined behaviour.  Either it ends, with the exit code 1 if the client could
    not be created and 0 otherwise; while memory lasts it is 0 exactly if the
    system lets it connect and create its queue.  In both cases everything
    allocated is freed and no descriptor is closed twice; a connection that was
    made is closed, and every process that was reported to the client is still
    waiting to be read in the queue or has been killed exactly once.  Or the
    client was created, and after some complete requests that came back a request
    does not, because the other end or a window is silent for ever or [send]
    raises [SIGPIPE]. *)
Theorem client_main_safe (P : Type) (peer : P -> bytes -> option (P * bytes)) (PI : P -> Prop) `{!Peer peer PI}
    garbage gport argv k ipc (s : socket) o t m : (forall n, 0 <= n -> blen (garbage n) = n) ->
  msgget_id ipc < 2 ^ 31 -> conn_ok (PI := PI) s -> is_byte_list (input t) -> alive s o = true ->
  exists res m', client_process peer garbage gport argv k ipc s o t m = Some (res, m') /\
    match res with
    | Some (r, closed, s', o', t') =>
        live m' = live m /\ (alloc_ok m -> (r = 0 <-> can_connect k ipc = true)) /\
        ((r = 1 /\ killed (events o') = killed (events o) /\ s' = s /\ input t' = input t /\
          (closed = [socket_fd k] \/ closed = [] /\ (socket_fd k < 0 \/ ~ alloc_ok m))) \/
         (r = 0 /\ closed = [socket_fd k] /\ (accounted o' [] ≡ₚ accounted o [])))
    | None => exists c m1, client_mng_create k ipc (Some (server_of argv)) CHAT_TCP_PORT o m = Some ((Some c, [], o), m1) /\
        blocked (peer := peer) (garbage := garbage) (gport := gport) false (Some c) s o m1
    end.
Proof.
  intros Hg Hid O B Ha. unfold client_process, client_main. change (match argv with _ :: ip :: _ => ip | _ => chars "127.0.0.1" end) with (server_of argv).
  cbv zeta. set (ip := server_of argv). rewrite M_bind_assoc.
  destruct (rep_mng_create k ipc ip CHAT_TCP_PORT o m) as (r & closed & o1 & m1 & E & C & _ & Hc1 & Hc2). mrun E.
  destruct r as [c|]; cycle 1.
  { destruct C as (L & [K Hs] & Hc). eexists _, m1. split; [done|]. unfold alive in *. rewrite Hs, Ha. split; [done|].
    split; [intros Hm; split; [done|intros Hk; by destruct (Hc1 Hm Hk)]|left].
    split; [done|]. split; [done|]. split; [done|]. split; [done|]. destruct Hc as [[-> ?]|[-> _]]; [by right|by left]. }
  destruct C as (Hfd & -> & Hl & Hu & -> & L & R). specialize (R Hid).
  set (t1 := printf (line (chars "connected.")) _).
  destruct (ui_loop_spec (gport := gport) Hg (S (length (input t1))) c (msgget_id ipc) [] s o t1 m1)
    as (i' & c' & es' & s' & o' & t' & m' & E2 & R' & _ & (_ & _ & calls & sts & W & T & S) & _); [lia|done..|].
  rewrite M_bind_assoc. unfold ui_run. mrun E2. rewrite M_bind_assoc. mrun (rep_mng_destroy c' (msgget_id ipc) es' [] o' m' R').
  eexists _, _. split; [done|]. assert (alive s' (log (spec_clear es' o') (RemoveQueue (msgget_id ipc))) = alive s' o') as ->
    by (unfold alive; by rewrite stuck_log, stuck_clear).
  destruct (alive s' o') eqn:Ea; cycle 1.
  { exists c, m1. split; [done|].
    destruct (first_blocked calls false i' _ _ _ _ _ _ _ _ _ (w_run _ _ _ _ _ _ _ _ _ _ _ _ _ W) T S Ha); [congruence|done]. }
  split; [|split; [intros _; split; [intros _; by apply Hc2|done]|right]].
  - pose proof (w_live _ _ _ _ _ _ _ _ _ _ _ _ _ W) as Lw. cbn [live]. lia.
  - split; [done|]. split; [by rewrite (w_fd _ _ _ _ _ _ _ _ _ _ _ _ _ W), Hfd|].
    rewrite <-(w_acc _ _ _ _ _ _ _ _ _ _ _ _ _ W), <-(accounted_clear es' o').
    unfold accounted, log. cbn [mailbox events]. by rewrite killed_app, !app_nil_r.
Qed.

Lemma client_main_safe_witness :
  ((fun r => bool_decide (is_Some r.1)) <$> client_process echo demo_garbage 0 [] demo_answers (MkIpc true 7) demo_socket demo_os
    demo_term (Mem [] 3) = Some true) /\
  exists res m', client_process echo demo_garbage 0 [] demo_answers (MkIpc true 7) demo_socket demo_os demo_term (Mem [] 3)
      = Some (res, m') /\
    match res with
    | Some (r, closed, s', o', t') =>
        live m' = 3 /\ (alloc_ok (Mem [] 3) -> (r = 0 <-> can_connect demo_answers (MkIpc true 7) = true)) /\
        ((r = 1 /\ killed (events o') = [] /\ s' = demo_socket /\ input t' = input demo_term /\
          (closed = [3] \/ closed = [] /\ (3 < 0 \/ ~ alloc_ok (Mem [] 3)))) \/
         (r = 0 /\ closed = [3] /\ (accounted o' [] ≡ₚ accounted demo_os [])))
    | None => exists c m1, client_mng_create demo_answers (MkIpc true 7) (Some (server_of [])) CHAT_TCP_PORT demo_os (Mem [] 3)
          = Some ((Some c, [], demo_os), m1) /\
        blocked (peer := echo) (garbage := demo_garbage) (gport := 0) false (Some c) demo_socket demo_os m1
    end.
Proof.
  split; [by vm_compute|].
  apply (client_main_safe unit echo (fun _ => True) demo_garbage 0 [] demo_answers (MkIpc true 7) demo_socket demo_os
    demo_term (Mem [] 3) demo_garbage_length); [done|apply demo_socket_ok|apply demo_term_bytes|done].
Defined.
