(* ===== verification/Script.v ===== *)
(** * Using the interface

    What a user has to type for a sequence of requests ([keys], [script]), and
    that the interface of [Ui] then makes exactly these requests, in this order
    and with these names: the text interface gives access to everything the
    client can ask, whatever the other end of the connection is. *)

From Stdlib Require String.
From S2P Require Import Prelude Text Protocol GenDlist ClientNet ClientGroups ClientMng Ui.
Import String.StringSyntax.

(** ** What to type *)

(** The lines that make a request: the choice on its screen and the names. *)
Definition keys (call : client_call) : list cstring :=
  match call with
  | CRegister u p => [chars "1"; u; p]
  | CLogin u p => [chars "2"; u; p]
  | CCreate g => [chars "1"; g]
  | CJoin g => [chars "2"; g]
  | CLeave g => [chars "3"; g]
  | CLogout => [chars "4"]
  end.

Definition type_lines (ls : list cstring) : bytes := concat (line <$> ls).
Definition script (calls : list client_call) : bytes := concat (type_lines ∘ keys <$> calls).

(** Requests that can be typed: names that are not empty (a password may be),
    fit, and hold neither a newline nor a NUL. *)
Definition typeable (call : client_call) : Prop :=
  typed call /\ Forall (fun l => 10 ∉ l) (keys call).

#[export] Instance typed_dec call : Decision (typed call).
Proof. unfold typed, is_cstring. destruct call; apply _. Defined.
#[export] Instance typeable_dec call : Decision (typeable call).
Proof. unfold typeable. apply _. Defined.

(** Where the input ends: everything read, or the choice to exit, which is
    offered on the first screen. *)
Definition finish (in2 : bool) (rest left : bytes) : Prop :=
  (rest = [] /\ left = []) \/ (in2 = false /\ rest = line (chars "3") ++ left).

Lemma next_line_typed l rest : 10 ∉ l -> next_line (line l ++ rest) = (l, rest).
Proof.
  unfold line. induction l as [|c l IH]; [done|]. intros [Hc Hl]%not_elem_of_cons. cbn [app next_line].
  rewrite (proj2 (Z.eqb_neq c 10)) by congruence. specialize (IH Hl). rewrite <-app_assoc in *. cbn [app] in *.
  by rewrite IH.
Qed.

(** A line that fits is read as it was typed. *)
Lemma read_typed prompt out cap l rest pr : blen out = cap -> 2 <= cap -> 10 ∉ l -> is_cstring l -> strlen l < cap ->
  exists out', read_line prompt out cap (MkTerm (line l ++ rest) pr) = Some (0, out', MkTerm rest (pr ++ prompt)) /\
    c_str out' = Some l.
Proof.
  intros Ho Hc Hl Hs Hlen.
  assert (line l ++ rest <> []) as Hne by (unfold line; by destruct l).
  pose proof (read_line_spec prompt out cap (MkTerm (line l ++ rest) pr) Ho Hc Hne) as H. cbn [input printed] in H.
  rewrite next_line_typed in H by done. destruct H as (out' & E & _ & Es). exists out'. rewrite E, Es.
  assert (0 ∉ l) as H0.
  { intros H. unfold is_cstring in Hs. rewrite Forall_forall in Hs. specialize (Hs 0 H). cbn in Hs. lia. }
  rewrite bool_decide_eq_false_2 by tauto. split; [done|]. f_equal.
  rewrite take_ge by (unfold strlen in Hlen; lia). by apply c_prefix_id.
Qed.

(** The names of a request fit into the arrays of the interface. *)
Lemma typeable_auth call u p : call = CRegister u p \/ call = CLogin u p -> typeable call ->
  (is_cstring u /\ (10 ∉ u) /\ strlen u < CHAT_MAX_USERNAME_LEN + 1) /\
  (is_cstring p /\ (10 ∉ p) /\ strlen p < CHAT_MAX_PASSWORD_LEN + 1) /\ u <> [].
Proof.
  intros Hc [[[fr Hf] Ht] Hl].
  assert (is_cstring u /\ is_cstring p /\ u <> []) as (Hu & Hp & Hne) by by destruct Hc as [-> | ->].
  assert (Forall (fun l => 10 ∉ l) [u; p]) as H.
  { destruct Hc as [-> | ->]; by apply Forall_cons_1 in Hl as [_ Hl]. }
  apply Forall_cons_1 in H as [Hlu [Hlp _]%Forall_cons_1].
  assert (strlen u <= CHAT_MAX_USERNAME_LEN /\ strlen p <= CHAT_MAX_PASSWORD_LEN) as [Lu Lp].
  { destruct Hc as [-> | ->]; cbn [call_frame] in Hf; destruct ((strlen u <=? _) && (strlen p <=? _)) eqn:E; bprop; done. }
  split; [|split; [|done]]; (split; [done|]); (split; [done|lia]).
Qed.

Lemma typeable_group call g : call = CCreate g \/ call = CJoin g \/ call = CLeave g -> typeable call ->
  is_cstring g /\ (10 ∉ g) /\ strlen g < CHAT_MAX_GROUPNAME_LEN + 1 /\ g <> [].
Proof.
  intros Hc [[[fr Hf] Ht] Hl].
  assert (is_cstring g /\ g <> []) as [Hg Hne] by by destruct Hc as [->|[-> | ->]].
  assert (10 ∉ g) as Hn.
  { destruct Hc as [->|[-> | ->]]; by apply Forall_cons_1 in Hl as [_ [? _]%Forall_cons_1]. }
  assert (strlen g <= CHAT_MAX_GROUPNAME_LEN) as Lg.
  { destruct Hc as [->|[-> | ->]]; cbn [call_frame] in Hf; destruct (strlen g <=? _) eqn:E; bprop; done. }
  split; [done|]. split; [done|]. split; [lia|done].
Qed.

Section script.
Context {P : Type} {peer : P -> bytes -> option (P * bytes)} {PI : P -> Prop} `{HP : !Peer peer PI}.
Context {garbage : Z -> bytes} {gport : Z}.
Hypothesis Hgarbage : forall n, 0 <= n -> blen (garbage n) = n.

Abbreviation call_of call := (client_do (peer := peer) call).
Abbreviation buf16 := (Some (garbage CHAT_MAX_IP_STR_LEN)).

(** ** The dialogues *)

Lemma auth_typed (is_login : bool) u p c s o m st ip' p' c' s' o' m' rest pr :
  let call := if is_login then CLogin u p else CRegister u p in
  typeable call -> call_of call (Some c) buf16 (Some gport) s o m = Some ((st, ip', p', Some c', s', o'), m') ->
  exists pr', prompt_and_auth peer garbage (Some c) (if is_login then 1 else 0) s
      (MkTerm (line u ++ line p ++ rest) pr) = Some (st, Some c', s', MkTerm rest pr') /\ o' = o /\ m' = m.
Proof.
  intros call Ht E. destruct (typeable_auth call u p) as ((Hu & Nu & Lu) & (Hp & Np & Lp) & Hne); [|done|].
  { unfold call. destruct is_login; tauto. }
  unfold prompt_and_auth.
  destruct (read_typed (chars "  username: ") (garbage (CHAT_MAX_USERNAME_LEN + 1)) (CHAT_MAX_USERNAME_LEN + 1) u
    (line p ++ rest) pr) as (bu & -> & Eu); [by apply Hgarbage|done..|]. cbn [mbind option_bind Z.eqb negb].
  destruct (read_typed (chars "  password: ") (garbage (CHAT_MAX_PASSWORD_LEN + 1)) (CHAT_MAX_PASSWORD_LEN + 1) p
    rest (pr ++ chars "  username: ")) as (bp & -> & Ep); [by apply Hgarbage|done..|]. cbn [mbind option_bind Z.eqb negb].
  destruct (first_char bu u Eu Hu) as (ch & -> & Ech). cbn [mbind option_bind]. rewrite Ech, bool_decide_eq_false_2 by done.
  rewrite Eu, Ep. cbn [mbind option_bind]. apply login_of in E. unfold call in E. destruct is_login; cbn [Z.eqb negb].
  - destruct E as (-> & -> & ->). cbn [mbind option_bind]. destruct (st =? _); by eexists.
  - destruct E as (-> & -> & -> & ->). cbn [mbind option_bind]. destruct (st =? _); by eexists.
Qed.

Lemma join_typed (is_create : bool) g c s o m st ip' p' c' s' o' m' rest pr :
  let call := if is_create then CCreate g else CJoin g in
  typeable call -> call_of call (Some c) buf16 (Some gport) s o m = Some ((st, Some ip', Some p', Some c', s', o'), m') ->
  (st = 0 -> is_Some (c_str ip')) ->
  exists pr', do_group_join peer garbage gport (Some c) (if is_create then 1 else 0) s o
      (MkTerm (line g ++ rest) pr) m = Some ((Some c', s', o', MkTerm rest pr'), m').
Proof.
  intros call Ht E Hip. destruct (typeable_group call g) as (Hg & Ng & Lg & Hne); [|done|].
  { unfold call. destruct is_create; tauto. }
  unfold do_group_join.
  destruct (read_typed (chars "  group name: ") (garbage (CHAT_MAX_GROUPNAME_LEN + 1)) (CHAT_MAX_GROUPNAME_LEN + 1) g
    rest pr) as (b & -> & Eg); [by apply Hgarbage|done..|]. mlift. cbn [Z.eqb negb].
  destruct (first_char b g Eg Hg) as (ch & -> & Ech). mlift. rewrite Ech, bool_decide_eq_false_2 by done.
  rewrite Eg. mlift. cbv zeta. apply login_of in E.
  assert ((if negb ((if is_create then 1 else 0) =? 0)
    then client_mng_create_group peer (Some c) (Some g) buf16 (Some gport) s o
    else client_mng_join_group peer (Some c) (Some g) buf16 (Some gport) s o) m
    = Some ((st, Some ip', Some p', Some c', s', o'), m')) as E2 by by unfold call in E; destruct is_create.
  mrun E2. cbn [status_code]. destruct (st =? 0) eqn:Est; bprop.
  - destruct (Hip Est) as [ip Eip]. cbn [mbind option_bind]. rewrite Eip. mlift. mlift. by eexists.
  - by eexists.
Qed.

Lemma leave_typed g c s o m st ip' p' c' s' o' m' rest pr :
  typeable (CLeave g) -> call_of (CLeave g) (Some c) buf16 (Some gport) s o m = Some ((st, ip', p', Some c', s', o'), m') ->
  exists pr', do_group_leave peer garbage (Some c) s o (MkTerm (line g ++ rest) pr) m
    = Some ((Some c', s', o', MkTerm rest pr'), m').
Proof.
  intros Ht E. destruct (typeable_group (CLeave g) g) as (Hg & Ng & Lg & Hne); [tauto|done|].
  unfold do_group_leave.
  destruct (read_typed (chars "  group name: ") (garbage (CHAT_MAX_GROUPNAME_LEN + 1)) (CHAT_MAX_GROUPNAME_LEN + 1) g
    rest pr) as (b & -> & Eg); [by apply Hgarbage|done..|]. mlift. cbn [Z.eqb negb].
  destruct (first_char b g Eg Hg) as (ch & -> & Ech). mlift. rewrite Ech, bool_decide_eq_false_2 by done.
  rewrite Eg. mlift. apply login_of in E. mrun E. destruct (st =? _); by eexists.
Qed.

(** ** The screens

    The interface on one of its screens; the first one is waiting below the
    second. *)
Definition at_screen (in2 : bool) (f2 f : nat) (m : ptr ClientMng) (s : socket (P := P)) (o : os) (t : term) :=
  if in2 then
    '(m, s, o, t) ← screen2_loop peer garbage gport f2 m s o t; ui_run_loop peer garbage gport f m s o t
  else ui_run_loop peer garbage gport f m s o t.

Definition enough (in2 : bool) (f2 f : nat) (inp : bytes) : Prop :=
  (length inp < f)%nat /\ (in2 = true -> (length inp < f2)%nat).

(** Reading the choice on either screen. *)
Lemma choice_typed l x rest pr : l = chars "1" \/ l = chars "2" \/ l = chars "3" \/ l = chars "4" ->
  exists b, read_line (chars "> ") (garbage 8) 8 (printf x (MkTerm (line l ++ rest) pr))
      = Some (0, b, MkTerm rest ((pr ++ x) ++ chars "> ")) /\ c_str b = Some l.
Proof.
  intros Hl. apply read_typed; [by apply Hgarbage|done|..]; destruct Hl as [->|[->|[-> | ->]]];
    solve [by vm_compute | apply (bool_decide_eq_true_1 _); by vm_compute | by repeat constructor].
Qed.

Lemma type_lines_cons l ls rest : type_lines (l :: ls) ++ rest = line l ++ type_lines ls ++ rest.
Proof. unfold type_lines. cbn [fmap list_fmap concat]. by rewrite <-app_assoc. Qed.

Lemma line_longer l (rest : bytes) : (length rest < length (line l ++ rest))%nat.
Proof. unfold line. rewrite !length_app. cbn [length]. lia. Qed.

Ltac choose l rest pr x :=
  let b := fresh "b" in let Er := fresh "Er" in let Eb := fresh "Eb" in
  destruct (choice_typed l x rest pr) as (b & Er & Eb); [tauto|]; rewrite Er, ?M_bind_assoc; mlift; cbn [Z.eqb negb];
  rewrite Eb, ?M_bind_assoc; mlift;
  repeat match goal with |- context [str_eqb (chars ?u) (chars ?v)] =>
    let r := eval vm_compute in (str_eqb (chars u) (chars v)) in
    change (str_eqb (chars u) (chars v)) with r end; cbv iota.

(** One request of the first screen. *)
Lemma ask_screen1 i' f2 f call c s o m st ip' p' c' s' o' m' rest pr :
  typeable call -> call_of call (Some c) buf16 (Some gport) s o m = Some ((st, Some ip', Some p', Some c', s', o'), m') ->
  screen_step false call st = Some i' -> enough false f2 f (type_lines (keys call) ++ rest) ->
  exists f2' f' pr', enough i' f2' f' rest /\
    at_screen false f2 f (Some c) s o (MkTerm (type_lines (keys call) ++ rest) pr) m
    = at_screen i' f2' f' (Some c') s' o' (MkTerm rest pr') m'.
Proof.
  intros Ht E Hst [Hf _]. destruct f as [|f]; [lia|]. unfold at_screen at 1. cbn [ui_run_loop].
  destruct call as [u p|u p| |g|g|g]; try done; cbn [keys] in *; rewrite !type_lines_cons in *;
    change (type_lines [] ++ rest) with rest in *; pose proof (line_longer p rest) as L1;
    pose proof (line_longer u (line p ++ rest)) as L2; injection Hst as <-.
  - pose proof (line_longer (chars "1") (line u ++ line p ++ rest)) as L3.
    choose (chars "1") (line u ++ line p ++ rest) pr menu1.
    destruct (auth_typed false u p c s o m _ _ _ _ _ _ _ rest ((pr ++ menu1) ++ chars "> ") Ht E) as (pr' & -> & -> & ->).
    mlift. exists O, f, pr'. split; [split; [lia|done]|done].
  - pose proof (line_longer (chars "2") (line u ++ line p ++ rest)) as L3.
    choose (chars "2") (line u ++ line p ++ rest) pr menu1.
    destruct (auth_typed true u p c s o m _ _ _ _ _ _ _ rest ((pr ++ menu1) ++ chars "> ") Ht E) as (pr' & -> & -> & ->).
    mlift. cbn [status_code]. exists (S (length rest)), f, pr'. split; [split; lia|]. by destruct (st =? 0).
Qed.

(** One request of the second screen. *)
Lemma ask_screen2 i' f2 f call c s o m st ip' p' c' s' o' m' rest pr :
  typeable call -> call_of call (Some c) buf16 (Some gport) s o m = Some ((st, Some ip', Some p', Some c', s', o'), m') ->
  (st = 0 -> match call with CCreate _ | CJoin _ => is_Some (c_str ip') | _ => True end) ->
  screen_step true call st = Some i' -> enough true f2 f (type_lines (keys call) ++ rest) ->
  exists f2' f' pr', enough i' f2' f' rest /\
    at_screen true f2 f (Some c) s o (MkTerm (type_lines (keys call) ++ rest) pr) m
    = at_screen i' f2' f' (Some c') s' o' (MkTerm rest pr') m'.
Proof.
  intros Ht E Hip Hst [Hf Hf2]. specialize (Hf2 eq_refl). destruct f2 as [|f2]; [lia|].
  unfold at_screen at 1. cbn [screen2_loop]. set (mn := menu2 _).
  destruct call as [u p|u p| |g|g|g]; try done; cbn [keys] in *; rewrite !type_lines_cons in *;
    change (type_lines [] ++ rest) with rest in *; injection Hst as <-.
  - pose proof (line_longer (chars "4") rest). choose (chars "4") rest pr mn.
    apply login_of in E. rewrite M_bind_assoc. mrun E. cbn [status_code].
    exists f2, f. destruct (st =? 0); cbn [negb]; eexists; (split; [split; [lia|by (done || lia)]|done]).
  - pose proof (line_longer (chars "1") (line g ++ rest)). pose proof (line_longer g rest).
    choose (chars "1") (line g ++ rest) pr mn.
    destruct (join_typed true g c s o m _ _ _ _ _ _ _ rest ((pr ++ mn) ++ chars "> ") Ht E Hip) as (pr' & Ej).
    rewrite M_bind_assoc. mrun Ej. exists f2, f, pr'. split; [split; lia|done].
  - pose proof (line_longer (chars "2") (line g ++ rest)). pose proof (line_longer g rest).
    choose (chars "2") (line g ++ rest) pr mn.
    destruct (join_typed false g c s o m _ _ _ _ _ _ _ rest ((pr ++ mn) ++ chars "> ") Ht E Hip) as (pr' & Ej).
    rewrite M_bind_assoc. mrun Ej. exists f2, f, pr'. split; [split; lia|done].
  - pose proof (line_longer (chars "3") (line g ++ rest)). pose proof (line_longer g rest).
    choose (chars "3") (line g ++ rest) pr mn.
    destruct (leave_typed g c s o m _ _ _ _ _ _ _ rest ((pr ++ mn) ++ chars "> ") Ht E) as (pr' & Ej).
    rewrite M_bind_assoc. mrun Ej. exists f2, f, pr'. split; [split; lia|done].
Qed.

(** A sequence of requests: they can all be made, and if the screens go with
    the statuses, typing them makes them. *)
Lemma script_spec calls c id es s o m : cm_rep c id es -> conn_ok (PI := PI) s -> Forall typeable calls ->
  exists sts c' es' s' o' m',
    went (peer := peer) (PI := PI) (garbage := garbage) (gport := gport) id calls sts c es s o m c' es' s' o' m' /\
    forall i i' f2 f rest pr, screens i calls sts = Some i' -> enough i f2 f (script calls ++ rest) ->
      exists f2' f' pr', enough i' f2' f' rest /\
        at_screen i f2 f (Some c) s o (MkTerm (script calls ++ rest) pr) m
        = at_screen i' f2' f' (Some c') s' o' (MkTerm rest pr') m'.
Proof.
  intros R O H. revert c es s o m R O. induction H as [|call calls Ht H IH]; intros c es s o m R O.
  { exists [], c, es, s, o, m. split; [by apply went_nil|]. intros i i' f2 f rest pr [= <-] Hf. by exists f2, f, pr. }
  destruct (went_call (peer := peer) (gport := gport) Hgarbage call c id es s o m R O)
    as (st & ip' & p' & c1 & s1 & o1 & m1 & es1 & E & W & Hip).
  { destruct Ht as [[_ Ht] _]. destruct call; [| |done|..]; cbn in *; intuition (by apply is_cstring_bytes). }
  destruct (IH c1 es1 s1 o1 m1 (w_rep _ _ _ _ _ _ _ _ _ _ _ _ _ W) (w_conn _ _ _ _ _ _ _ _ _ _ _ _ _ W))
    as (sts & c' & es' & s' & o' & m' & W' & Hs).
  exists (st :: sts), c', es', s', o', m'. split; [exact (went_app _ [call] [st] _ _ _ _ _ _ _ _ _ _ _ _ _ _ _ _ _ W W')|].
  intros i i' f2 f rest pr S Hf. cbn [screens] in S. destruct (screen_step i call st) as [i1|] eqn:Est; [|done].
  cbn [mbind option_bind] in S.
  assert (script (call :: calls) ++ rest = type_lines (keys call) ++ script calls ++ rest) as Es.
  { unfold script. cbn [fmap list_fmap concat compose]. by rewrite <-app_assoc. }
  rewrite Es in *.
  assert (exists f2' f' pr', enough i1 f2' f' (script calls ++ rest) /\
    at_screen i f2 f (Some c) s o (MkTerm (type_lines (keys call) ++ script calls ++ rest) pr) m
    = at_screen i1 f2' f' (Some c1) s1 o1 (MkTerm (script calls ++ rest) pr') m1) as (f2a & fa & pra & Ha & ->).
  { destruct i; [by eapply ask_screen2|by eapply ask_screen1]. }
  by apply (Hs i1).
Qed.

(** The end of the input. *)
Lemma finish_spec i f2 f c s o rest rem pr m : finish i rest rem -> enough i f2 f rest ->
  exists pr', at_screen i f2 f (Some c) s o (MkTerm rest pr) m = Some ((Some c, s, o, MkTerm rem pr'), m).
Proof.
  intros [[-> ->]|[-> ->]] [Hf Hf2].
  - destruct f as [|f]; [cbn in Hf; lia|]. destruct i; unfold at_screen.
    + specialize (Hf2 eq_refl). destruct f2 as [|f2]; [cbn in Hf2; lia|]. cbn [screen2_loop]. unfold read_line at 1.
      cbn [printf input fgets]. rewrite M_bind_assoc. mlift. cbn [Z.eqb negb]. mstep_ret. by eexists.
    + by eexists.
  - destruct f as [|f]; [lia|]. unfold at_screen. cbn [ui_run_loop]. choose (chars "3") rem pr menu1. by eexists.
Qed.

(** The whole interface. *)
Lemma rep_script calls c id es s o m : cm_rep c id es -> conn_ok (PI := PI) s -> Forall typeable calls ->
  exists sts c' es' s' o' m',
    went (peer := peer) (PI := PI) (garbage := garbage) (gport := gport) id calls sts c es s o m c' es' s' o' m' /\
    forall in2 rest rem pr, screens false calls sts = Some in2 -> finish in2 rest rem ->
      exists pr', ui_run peer garbage gport (Some c) s o (MkTerm (script calls ++ rest) pr) m
        = Some ((Some c', s', o', MkTerm rem pr'), m').
Proof.
  intros R O H. destruct (script_spec calls c id es s o m R O H) as (sts & c' & es' & s' & o' & m' & W & Hs).
  exists sts, c', es', s', o', m'. split; [done|]. intros in2 rest rem pr S F.
  destruct (Hs false in2 0%nat (Datatypes.S (length (script calls ++ rest))) rest pr S)
    as (f2 & f & pr1 & Hf & E); [split; [lia|done]|].
  unfold ui_run. cbn [input]. unfold at_screen at 1 in E. rewrite E. by apply finish_spec.
Qed.

End script.

(** ** Properties *)

(** What is typed is what is asked.  Take any sequence of requests that can
    be typed, with any other end of the connection: they can be made, every
    one returns a status, and if each request is one of the screen the statuses
    before it lead to, then a user who types the lines of these requests, and
    then lets the input end or chooses to exit, makes the interface ask exactly
    these requests in this order and return, having read no more than that. *)
Theorem ui_asks_what_is_typed (P : Type) (peer : P -> bytes -> option (P * bytes)) (PI : P -> Prop) `{!Peer peer PI}
    garbage gport calls c id es s o m : (forall n, 0 <= n -> blen (garbage n) = n) ->
  cm_rep c id es -> conn_ok (PI := PI) s -> Forall typeable calls ->
  exists sts c' s' o' m', length sts = length calls /\
    ui_calls (peer := peer) (garbage := garbage) (gport := gport) calls (Some c) s o m
      = Some ((sts, Some c', s', o'), m') /\
    forall in2 rest rem pr, screens false calls sts = Some in2 -> finish in2 rest rem ->
      exists pr', ui_run peer garbage gport (Some c) s o (MkTerm (script calls ++ rest) pr) m
        = Some ((Some c', s', o', MkTerm rem pr'), m').
Proof.
  intros Hg R O H.
  destruct (rep_script (gport := gport) Hg calls c id es s o m R O H) as (sts & c' & es' & s' & o' & m' & W & Hs).
  exists sts, c', s', o', m'. split; [apply W|]. split; [apply W|done].
Qed.

(** A registration, an attempt without a password, a login. *)
Definition demo_calls : list client_call :=
  [CRegister (chars "b") (chars "q"); CLogin (chars "b") []; CLogin (chars "b") (chars "q")].

Lemma ui_asks_what_is_typed_witness :
  exists sts c' s' o' m', length sts = 3%nat /\
    ui_calls (peer := echo) (garbage := demo_garbage) (gport := 0) demo_calls (Some demo_client) demo_socket demo_os (Mem [] 3)
      = Some ((sts, Some c', s', o'), m') /\
    forall in2 rest rem pr, screens false demo_calls sts = Some in2 -> finish in2 rest rem ->
      exists pr', ui_run echo demo_garbage 0 (Some demo_client) demo_socket demo_os (MkTerm (script demo_calls ++ rest) pr) (Mem [] 3)
        = Some ((Some c', s', o', MkTerm rem pr'), m').
Proof.
  apply (ui_asks_what_is_typed unit echo (fun _ => True) demo_garbage 0 demo_calls demo_client 7 [] demo_socket demo_os (Mem [] 3)
    demo_garbage_length demo_client_ok demo_socket_ok).
  apply (bool_decide_eq_true_1 (Forall typeable demo_calls)). by vm_compute.
Defined.
