(* ===== verification/Program.v ===== *)
(** * The client program against the server

    The client program ([client/client_main.c]: interface, client manager,
    windows) with the server of [System] at the other end of its connection.
    The file proves that everything typed into the program has at the server
    exactly the effect the server's specification gives to the requests it
    stands for, that none of these requests stays without an answer, that typing
    any sequence of requests of [Script] has exactly its specified effect, and
    that the server is left without a session of the client once the program
    has ended and the connection is closed.  The server always answers; only a
    window that never reports can keep the program from its end. *)

From Stdlib Require String.
From S2P Require Import Prelude Text Protocol GenDlist FreeMcQueue UserMng ServerNet ServerMng.
From S2P Require Import ClientNet ClientGroups ClientMng System Ui Script.
Import String.StringSyntax.

(** ** The end of the connection *)

(** [HandleClientData] when [recv] reports that the client has closed it. *)
Definition hang_up (p : remote_server) : option remote_server :=
  '(c, set, s, m) ← HandleClientData (Some ServerMng_HandleMessage) (Some ServerMng_OnDisconnect) server_close
    (sv_conn p) (sv_fds p) None (sv_state p) (sv_mem p);
  Some (MkRemote c set s m).

(** The descriptor is closed, the slot free and the session ended. *)
Definition hung_up (d : Z) (a : astate) (p p' : remote_server) : Prop :=
  sv_rep (sv_state p') (spec_disconnect a d) /\ aS (spec_disconnect a d) !! d = None /\
  fd (sv_conn p') = -1 /\ sv_fds p' = sv_fds p ∖ {[d]} /\
  out (sv_state p') = out (sv_state p) ++ [Closed d] /\ alloc_ok (sv_mem p').

Lemma rep_hang_up p a : remote_ok p a -> exists p', hang_up p = Some p' /\ hung_up (fd (sv_conn p)) a p p'.
Proof.
  intros [R C F Hm]. destruct (client_room _ C) as (_ & Hsp & Hpos). unfold hang_up, HandleClientData.
  rewrite Hsp, (proj2 (Z.eqb_neq _ _)) by lia. unfold FD_CLR. rewrite FD_ok by exact F. mlift.
  destruct (rep_OnDisconnect (server_close (fd (sv_conn p)) (sv_state p)) a (fd (sv_conn p)) (sv_mem p)
    (sv_rep_out _ _ _ R) F) as (s' & m' & a' & E & R' & _ & Ho & HS & _ & O). mrun E.
  destruct (O Hm) as [Hm' ->]. eexists. split; [done|]. split; [done|].
  split; [by rewrite HS, lookup_delete_eq|]. split; [done|]. split; [done|]. by split.
Qed.

(** ** The requests of the interface *)

Lemma typed_names call : typed call -> call_names call.
Proof. destruct call; intros [_ H]; cbn in *; tauto. Qed.

(** The server answers whatever is sent, and never with [ST_ERR_PROTOCOL],
    which stands for a request that was not answered. *)
Definition answered (st : Z) : Prop := st <> failure.

Lemma spec_answered d call a : is_Some (call_frame call) -> answered (answer_status (answer d call a).2).
Proof.
  intros [fr E]. unfold answer. rewrite E. clear E fr. unfold answered.
  destruct call as [u p|u p| |g|g|g]; cbn [request_of spec_request].
  - unfold spec_register. by destruct (aU a !! u).
  - unfold spec_login. destruct (aS a !! d); [done|]. destruct (aU a !! u) as [i|]; [|done].
    destruct (negb _); [done|]. by destruct (u_sock i).
  - by destruct (user_at _ _ _) as [[k i]|].
  - destruct (user_at _ _ _) as [[k i]|]; [|done]. destruct (aG a !! g); [done|]. by destruct (aP a).
  - destruct (user_at _ _ _) as [[k i]|]; [|done]. destruct (aG a !! g); [|done]. by destruct (bool_decide _).
  - destruct (user_at _ _ _) as [[k i]|]; [|done]. by destruct (bool_decide _).
Qed.

Lemma spec_session_answered d id calls x : Forall typed calls -> Forall answered (spec_session d id calls x).1.
Proof.
  intros H. revert x. induction H as [|call calls [Hf _] H IH]; intros x; cbn [spec_session]; [constructor|].
  pose proof (spec_answered d call x.1.1.1 Hf) as Ha. destruct x as [[[a lu] es] o]. cbn [fst] in Ha.
  assert ((spec_call d id call (a, lu, es, o)).1 = answer_status (answer d call a).2) as Es.
  { unfold spec_call. by destruct (answer d call a) as [a1 r]. }
  rewrite <-Es in Ha. destruct (spec_call d id call (a, lu, es, o)) as [st x]. cbn [fst] in *.
  specialize (IH x). destruct (spec_session d id calls x) as [sts x']. by constructor.
Qed.

(** The calls of the interface against the server. *)
Lemma rep_ui_session garbage gport d calls c id es s o m a : (forall n, 0 <= n -> blen (garbage n) = n) ->
  linked d s a -> cm_rep c id es -> alloc_ok m -> Forall call_names calls ->
  agree d a (logged_in c, username c) es ->
  exists sts c' s' o' m' es' a',
    ui_calls (peer := server_peer) (garbage := garbage) (gport := gport) calls (Some c) s o m
      = Some ((sts, Some c', s', o'), m') /\
    spec_session d id calls (a, (logged_in c, username c), es, o) = (sts, (a', (logged_in c', username c'), es', o')) /\
    linked d s' a' /\ cm_rep c' id es' /\ agree d a' (logged_in c', username c') es' /\ alloc_ok m'.
Proof.
  intros Hg L R Hm Hn. revert c es s o m a L R Hm. induction Hn as [|call calls Hcall Hn IH];
    intros c es s o m a L R Hm A.
  { by exists [], c, s, o, m, es, a. }
  destruct (rep_system_call d call c id es (garbage CHAT_MAX_IP_STR_LEN) gport s o m a L R Hm Hcall)
    as (st & ip' & p' & c1 & s1 & o1 & m1 & es1 & a1 & E & Es & L1 & R1 & Hm1 & _); [by rewrite Hg|].
  pose proof (agree_call d id call a (logged_in c, username c) es o
    (sv_has_user _ a d (ro_state _ _ (ln_server _ _ _ L))) A) as A1. rewrite Es in A1.
  destruct (IH c1 es1 s1 o1 m1 a1 L1 R1 Hm1 A1) as (sts & c' & s' & o' & m' & es' & a' & E' & Es' & H).
  exists (st :: sts), c', s', o', m', es', a'. cbn [ui_calls spec_session]. mrun E. mrun E'. by rewrite Es, Es'.
Qed.

(** A client owns one number of blocks. *)
Lemma cm_rep_blocks c id es es' (o : os) : cm_rep c id es -> cm_rep c id es' -> cg_blocks es = cg_blocks es'.
Proof.
  intros R R'. pose proof (rep_mng_destroy c id es [] o (Mem [] 0) R) as E.
  rewrite (rep_mng_destroy c id es' [] o _ R') in E.
  apply (f_equal (fun r => match r with Some (_, m) => live m | None => 0 end)) in E. cbn [live] in E. lia.
Qed.

(** The program between its start and its end: a client is created, its
    interface runs, and the client is destroyed. *)
Lemma rep_program garbage gport argv k ipc d s o t m a : linked d s a -> aS a !! d = None -> alloc_ok m ->
  can_connect k ipc = true -> msgget_id ipc < 2 ^ 31 ->
  exists c m1 pr, alloc_ok m1 /\ cm_rep c (msgget_id ipc) [] /\ live m1 = live m + 1 + cg_blocks [] /\
    (logged_in c, username c) = (0, []) /\ sockfd c = socket_fd k /\ agree d a (logged_in c, username c) [] /\
    client_mng_create k ipc (Some (server_of argv)) CHAT_TCP_PORT o m = Some ((Some c, [], o), m1) /\
    forall c' es' s' o' t' m', cm_rep c' (msgget_id ipc) es' -> sockfd c' = sockfd c ->
      live m' - cg_blocks es' = live m1 - cg_blocks [] ->
      ui_run server_peer garbage gport (Some c) s o (MkTerm (input t) pr) m1 = Some ((Some c', s', o', t'), m') ->
      exists m2, client_main server_peer garbage gport argv k ipc s o t m
        = Some ((0, [socket_fd k], s', log (spec_clear es' o') (RemoveQueue (msgget_id ipc)), t'), m2) /\
        live m2 = live m.
Proof.
  intros L Ha Hm Hk Hid. unfold client_main.
  change (match argv with _ :: ip :: _ => ip | _ => chars "127.0.0.1" end) with (server_of argv).
  cbv zeta. set (ip := server_of argv).
  destruct (rep_mng_create k ipc ip CHAT_TCP_PORT o m) as (r & closed & o1 & m1 & E & C & Om & Hc & _).
  destruct r as [c|]; [|by destruct (Hc Hm Hk)]. destruct C as (Hfd & -> & Hl & Hu & -> & L1 & R). specialize (R Hid).
  eexists c, m1, _. split; [auto|]. split; [done|]. split; [done|]. split; [congruence|]. split; [done|].
  split; [unfold agree, user_at; by rewrite Ha, Hl, Hu|]. split; [done|].
  intros c' es' s' o' t' m' R' Hf L' E'. mrun E. unfold printf. cbn [input printed]. mrun E'.
  mrun (rep_mng_destroy c' (msgget_id ipc) es' [] o' m' R'). rewrite Hf, Hfd.
  eexists. split; [done|]. cbn [live]. lia.
Qed.

(** What the program has done when it ends.  [calls] are its requests, [in2] is
    whether the input ended on the second screen, and [o1] is the system before
    the client is destroyed. *)
Definition program_ended (d id fd : Z) (o : os) (m : mem) (a : astate)
    (code : Z) (closed : list Z) (s' : socket (P := remote_server)) (o' : os) (t' : term) (m' : mem) : Prop :=
  exists calls sts in2 a' lu' es' o1 p,
    Forall typed calls /\ screens false calls sts = Some in2 /\ (in2 = true -> input t' = []) /\
    spec_session d id calls (a, (0, []), [], o) = (sts, (a', lu', es', o1)) /\ stuck o1 = false /\
    Forall answered sts /\ lu'.1 = (if in2 then 1 else 0) /\ linked d s' a' /\
    code = 0 /\ closed = [fd] /\ o' = log (spec_clear es' o1) (RemoveQueue id) /\ live m' = live m /\
    hang_up (remote s') = Some p /\ hung_up d a' (remote s') p.

(** Where the client, started in [c0], waits for ever: in the last of its
    requests, which the server has granted, for the processes of its windows. *)
Definition program_waits (garbage : Z -> bytes) (gport d id : Z) (c0 : ClientMng) (s : socket (P := remote_server)) (o : os) (m0 : mem)
    (a : astate) : Prop :=
  exists calls call sts in2 a1 lu1 es1 o1 a2 lu2 es2 o2 c2 s2 m2,
    Forall typed (calls ++ [call]) /\ screens false calls sts = Some in2 /\ is_Some (screen_step in2 call 0) /\
    spec_session d id calls (a, (0, []), [], o) = (sts, (a1, lu1, es1, o1)) /\ stuck o1 = false /\
    Forall answered sts /\
    spec_call d id call (a1, lu1, es1, o1) = (0, (a2, lu2, es2, o2)) /\ stuck o2 = true /\
    (exists g, call = CCreate g \/ call = CJoin g) /\
    ui_calls (peer := server_peer) (garbage := garbage) (gport := gport) (calls ++ [call]) (Some c0) s o m0
      = Some ((sts ++ [0], Some c2, s2, o2), m2) /\
    linked d s2 a2.

(** Only the windows of a group that is opened can keep a call waiting. *)
Lemma spec_call_waits d id call a lu es o st a' lu' es' o' :
  spec_call d id call (a, lu, es, o) = (st, (a', lu', es', o')) -> stuck o = false -> stuck o' = true ->
  st = 0 /\ exists g, call = CCreate g \/ call = CJoin g.
Proof.
  unfold spec_call. destruct (answer d call a) as [a1 r]. intros [= <- <- <- <- <-] Ho.
  unfold window_effect. destruct (negb _) eqn:E; [cbn [snd]; by rewrite Ho|]. bprop.
  destruct call as [u p|u p| |g|g|g]; cbn [snd]; try (by rewrite ?stuck_clear, Ho).
  - split; [done|]. exists g. by left.
  - split; [done|]. exists g. by right.
  - unfold spec_leave. cbn [snd]. by rewrite stuck_kills, Ho.
Qed.

Lemma rep_waits garbage gport d c id s o m a : (forall n, 0 <= n -> blen (garbage n) = n) ->
  linked d s a -> cm_rep c id [] -> alloc_ok m -> agree d a (0, []) [] -> (logged_in c, username c) = (0, []) ->
  blocked (peer := server_peer) (garbage := garbage) (gport := gport) false (Some c) s o m ->
  program_waits garbage gport d id c s o m a.
Proof.
  intros Hg L R Hm A Hlu (calls & sts & i1 & mc1 & s1 & o1 & m1 & call & x & s2 & o2 & m2 & E1 & A1 & T & S1 & N1 & E2 & A2).
  pose proof T as [T1 [Tc _]%Forall_cons_1]%Forall_app.
  assert (Forall call_names calls) as Hn by (eapply Forall_impl; [exact T1|apply typed_names]).
  rewrite <-Hlu in A.
  destruct (rep_ui_session garbage gport d calls c id [] s o m a Hg L R Hm Hn A)
    as (sts' & c1 & s1' & o1' & m1' & es1 & a1 & E1' & Es & L1 & R1 & _ & Hm1).
  rewrite E1 in E1'. injection E1' as <- -> <- <- <-.
  destruct (rep_system_call d call c1 id es1 (garbage CHAT_MAX_IP_STR_LEN) gport s1 o1 m1 a1 L1 R1 Hm1 (typed_names _ Tc))
    as (st & ip' & p' & c2 & s2' & o2' & m2' & es2 & a2 & E2' & Es2 & L2 & _); [by rewrite Hg|].
  rewrite E2 in E2'. injection E2' as -> <- <- <-.
  assert (stuck o1 = false) as Ho1 by (unfold alive in A1; by destruct (stuck o1); rewrite ?andb_false_r in A1).
  assert (stuck o2 = true) as Ho2.
  { unfold alive in A2. rewrite (ln_halted _ _ _ L2) in A2. by destruct (stuck o2). }
  destruct (spec_call_waits _ _ _ _ _ _ _ _ _ _ _ _ Es2 Ho1 Ho2) as [-> Hg2].
  rewrite Hlu in Es. exists calls, call, sts, i1, a1, (logged_in c1, username c1), es1, o1, a2.
  eexists _, es2, o2, c2, s2, m2. do 3 (split; [done|]). split; [exact Es|]. split; [done|]. split.
  { pose proof (spec_session_answered d id calls (a, (0, []), [], o) T1) as Hs. by rewrite Es in Hs. }
  split; [exact Es2|]. split; [done|]. split; [done|]. split; [|done].
  rewrite (ui_calls_app _ [call] _ _ _ _ _ _ _ _ _ ([0], Some c2, s2, o2, m2) E1); [done|].
  cbn [ui_calls]. by mrun E2.
Qed.

(** ** Properties *)

(** C16: The whole client program against the server, whatever is typed and
    whatever the windows report.  All the program asks the server is a sequence of
    complete requests of its two screens; every one of them is answered by the
    server, with the status its specification gives in its state at that time,
    and the server is in exactly the specified state after each, with nothing
    left in either buffer.  The program comes to its end unless a window is silent
    for ever: then it waits in the last of its requests, a creation or join of a
    group whose windows do not both report, which the server has answered.  If it
    ends, it has killed the processes of the windows it tracks, removed its
    message queue, closed the connection and freed its memory; the server, when
    it sees the connection closed, ends the client's session, if there still is
    one, and frees its slot. *)
Theorem program_meets_server garbage gport argv k ipc d s o t m a : (forall n, 0 <= n -> blen (garbage n) = n) ->
  linked d s a -> aS a !! d = None -> alloc_ok m -> can_connect k ipc = true -> msgget_id ipc < 2 ^ 31 ->
  is_byte_list (input t) -> stuck o = false ->
  exists res m', client_process server_peer garbage gport argv k ipc s o t m = Some (res, m') /\
    match res with
    | Some (code, closed, s', o', t') => program_ended d (msgget_id ipc) (socket_fd k) o m a code closed s' o' t' m'
    | None => exists c0 m0, client_mng_create k ipc (Some (server_of argv)) CHAT_TCP_PORT o m = Some ((Some c0, [], o), m0) /\
        program_waits garbage gport d (msgget_id ipc) c0 s o m0 a
    end.
Proof.
  intros Hg L Ha Hm Hk Hid B Ho.
  destruct (rep_program garbage gport argv k ipc d s o t m a L Ha Hm Hk Hid)
    as (c & m1 & pr & Hm1 & R & L1 & [= Hl Hu] & Hfd & A & Ec & Hend).
  assert (alive s o = true) as Hal by (unfold alive; by rewrite (ln_halted _ _ _ L), Ho).
  destruct (ui_loop_spec (gport := gport) Hg (S (length (input t))) c (msgget_id ipc) [] s o (MkTerm (input t) pr) m1)
    as (i' & c' & es & s' & o' & t' & m' & E2 & R' & _ & (_ & _ & calls & sts & W & T & Sc) & Hi);
    [cbn [input]; lia|done|by eapply linked_ok|done|].
  assert (Forall call_names calls) as Hn by (eapply Forall_impl; [exact T|apply typed_names]).
  destruct (rep_ui_session garbage gport d calls c (msgget_id ipc) [] s o m1 a Hg L R Hm1 Hn A)
    as (sts' & c2 & s2 & o2 & m3 & es' & a' & E3 & Es & L' & R2 & _).
  rewrite (w_run _ _ _ _ _ _ _ _ _ _ _ _ _ W) in E3. injection E3 as <- <- <- <- <-.
  pose proof (w_live _ _ _ _ _ _ _ _ _ _ _ _ _ W) as Lw. rewrite (cm_rep_blocks c' (msgget_id ipc) es es' o') in Lw by done.
  destruct (Hend c' es' s' o' t' m' R2 (w_fd _ _ _ _ _ _ _ _ _ _ _ _ _ W) Lw E2) as (m2 & E & L2).
  unfold client_process. mrun E. eexists _, m2. split; [done|].
  assert (alive s' (log (spec_clear es' o') (RemoveQueue (msgget_id ipc))) = negb (stuck o')) as ->
    by (unfold alive; by rewrite stuck_log, stuck_clear, (ln_halted _ _ _ L')).
  destruct (stuck o') eqn:Eo; cbn [negb].
  - destruct (first_blocked calls false i' _ _ _ _ _ _ _ _ _ (w_run _ _ _ _ _ _ _ _ _ _ _ _ _ W) T Sc Hal) as [Hbad|Hb].
    { unfold alive in Hbad. by rewrite Eo, andb_false_r in Hbad. }
    exists c, m1. split; [done|]. rewrite Hl, Hu in A. apply rep_waits; try done. congruence.
  - destruct (rep_hang_up (remote s') a' (ln_server _ _ _ L')) as (p & Ep & Hp). rewrite (ln_fd _ _ _ L') in Hp.
    rewrite Hl, Hu in Es. exists calls, sts, i', a', (logged_in c', username c'), es', o', p.
    do 3 (split; [done|]). split; [exact Es|]. split; [done|]. split.
    { pose proof (spec_session_answered d (msgget_id ipc) calls (a, (0, []), [], o) T) as Hs. by rewrite Es in Hs. }
    split; [|done]. pose proof (screens_login false calls sts i' (0, []) Sc eq_refl) as H.
    rewrite <-Hl, <-Hu, <-(w_login _ _ _ _ _ _ _ _ _ _ _ _ _ W) in H. exact H.
Qed.

(** Register, log in, create a group, log out, exit. *)
Definition demo_input : term :=
  MkTerm (concat (line <$> [chars "1"; chars "b"; chars "q"; chars "2"; chars "b"; chars "q"; chars "1"; chars "g"; chars "4"; chars "3"])) [].

Lemma program_meets_server_witness : exists s0 m0,
  let a := MkA demo_users demo_socks ∅ initial_pairs in
  linked 5 (demo_link s0 m0) a /\
  exists res m', client_process server_peer demo_garbage 0 [] demo_answers (MkIpc true 7) (demo_link s0 m0) demo_os demo_input (Mem [] 0)
      = Some (res, m') /\
    match res with
    | Some (code, closed, s', o', t') => program_ended 5 7 3 demo_os (Mem [] 0) a code closed s' o' t' m'
    | None => exists c0 m1, client_mng_create demo_answers (MkIpc true 7) (Some (server_of [])) CHAT_TCP_PORT demo_os (Mem [] 0)
          = Some ((Some c0, [], demo_os), m1) /\
        program_waits demo_garbage 0 5 7 c0 (demo_link s0 m0) demo_os m1 a
    end.
Proof.
  destruct demo_linked as (s0 & m0 & L). exists s0, m0. intros a. split; [exact L|].
  apply (program_meets_server demo_garbage 0 [] demo_answers (MkIpc true 7) 5 (demo_link s0 m0) demo_os demo_input
    (Mem [] 0) a demo_garbage_length L); [by vm_compute|constructor|done|done| |done].
  apply (bool_decide_eq_true_1 (Forall (fun z => 0 <= z < 256) (input demo_input))). by vm_compute.
Defined.

(** C17: Typing requests has their specified effect at the server.  Take any
    sequence of requests that can be typed, such that each is one of the screen
    that the statuses the server's specification gives lead to.  If the input of
    the client program is the lines of these requests, and then ends or chooses
    to exit, the program makes exactly these requests, gets exactly the
    specified statuses, opens and closes windows as specified, and leaves the
    server in exactly the state the specification gives for the sequence; it
    reads nothing more, ends with exit code 0, and gives everything back.  This is
    what the code computes, and what comes of the run if every window that is
    opened reports; otherwise the program waits in [msgrcv] for the first that
    does not ([program_meets_server]). *)
Theorem program_does_what_is_typed garbage gport argv k ipc d calls in2 rest rem s o t m a :
  (forall n, 0 <= n -> blen (garbage n) = n) ->
  linked d s a -> aS a !! d = None -> alloc_ok m -> can_connect k ipc = true -> msgget_id ipc < 2 ^ 31 ->
  Forall typeable calls -> input t = script calls ++ rest ->
  screens false calls (spec_session d (msgget_id ipc) calls (a, (0, []), [], o)).1 = Some in2 -> finish in2 rest rem ->
  let '(a', lu', es', o1) := (spec_session d (msgget_id ipc) calls (a, (0, []), [], o)).2 in
  exists s' t' m', client_main server_peer garbage gport argv k ipc s o t m
      = Some ((0, [socket_fd k], s', log (spec_clear es' o1) (RemoveQueue (msgget_id ipc)), t'), m') /\
    linked d s' a' /\ input t' = rem /\ live m' = live m /\
    client_process server_peer garbage gport argv k ipc s o t m
      = Some (if stuck o1 then None
              else Some (0, [socket_fd k], s', log (spec_clear es' o1) (RemoveQueue (msgget_id ipc)), t'), m').
Proof.
  intros Hg L Ha Hm Hk Hid T Et Sc F.
  destruct (rep_program garbage gport argv k ipc d s o t m a L Ha Hm Hk Hid)
    as (c & m1 & pr & Hm1 & R & L1 & [= Hl Hu] & Hfd & A & Ec & Hend).
  destruct (rep_script (gport := gport) Hg calls c (msgget_id ipc) [] s o m1 R (linked_ok d s a L) T)
    as (sts & c' & es & s' & o' & m' & W & Hs).
  assert (Forall call_names calls) as Hn by (eapply Forall_impl; [exact T|]; intros call [H _]; by apply typed_names).
  destruct (rep_ui_session garbage gport d calls c (msgget_id ipc) [] s o m1 a Hg L R Hm1 Hn A)
    as (sts' & c2 & s2 & o2 & m3 & es' & a' & E3 & Es & L' & R2 & _).
  rewrite (w_run _ _ _ _ _ _ _ _ _ _ _ _ _ W) in E3. injection E3 as <- <- <- <- <-.
  rewrite Hl, Hu in Es. rewrite Es in *. cbn [fst snd] in *.
  destruct (Hs in2 rest rem pr Sc F) as (pr' & E2). rewrite <-Et in E2.
  pose proof (w_live _ _ _ _ _ _ _ _ _ _ _ _ _ W) as Lw. rewrite (cm_rep_blocks c' (msgget_id ipc) es es' o') in Lw
    by (done || apply W).
  destruct (Hend c' es' s' o' _ m' R2 (w_fd _ _ _ _ _ _ _ _ _ _ _ _ _ W) Lw E2) as (m2 & E & L2).
  eexists s', _, m2. do 4 (split; [done|]). unfold client_process. mrun E. unfold alive.
  rewrite stuck_log, stuck_clear, (ln_halted _ _ _ L') by done. by destruct (stuck o').
Qed.

Definition demo_script : list client_call :=
  [CRegister (chars "b") (chars "q"); CLogin (chars "b") (chars "q"); CCreate (chars "g"); CLogout].

Lemma program_does_what_is_typed_witness : exists s0 m0,
  let a := MkA demo_users demo_socks ∅ initial_pairs in
  linked 5 (demo_link s0 m0) a /\
  let '(a', lu', es', o1) := (spec_session 5 7 demo_script (a, (0, []), [], demo_os)).2 in
  exists s' t' m', client_main server_peer demo_garbage 0 [] demo_answers (MkIpc true 7) (demo_link s0 m0) demo_os
      (MkTerm (script demo_script ++ line (chars "3")) []) (Mem [] 0)
      = Some ((0, [3], s', log (spec_clear es' o1) (RemoveQueue 7), t'), m') /\
    linked 5 s' a' /\ input t' = [] /\ live m' = 0 /\
    client_process server_peer demo_garbage 0 [] demo_answers (MkIpc true 7) (demo_link s0 m0) demo_os
      (MkTerm (script demo_script ++ line (chars "3")) []) (Mem [] 0)
      = Some (if stuck o1 then None else Some (0, [3], s', log (spec_clear es' o1) (RemoveQueue 7), t'), m').
Proof.
  destruct demo_linked as (s0 & m0 & L). exists s0, m0. intros a. split; [exact L|].
  apply (program_does_what_is_typed demo_garbage 0 [] demo_answers (MkIpc true 7) 5 demo_script false (line (chars "3")) []
    (demo_link s0 m0) demo_os (MkTerm (script demo_script ++ line (chars "3")) []) (Mem [] 0) a demo_garbage_length L);
    [by vm_compute|constructor|done|done| |done|by vm_compute|by right].
  apply (bool_decide_eq_true_1 (Forall typeable demo_script)). by vm_compute.
Defined.
