(* ===== verification/World.v ===== *)
(** * Many clients and one server

    Any number of client programs connected to one server, each with its own
    connection, windows and processes, making calls and ending in any order.
    The clients only interact through the server, and a call and its reply are
    one step here ([Interleave] shows that this is no restriction).  The file proves that
    after every run each client's idea of its session is still the server's,
    whatever the others have done, and what the program is for: two windows, of
    whatever clients, are on the same multicast address and port exactly if they
    belong to the same group. *)

From S2P Require Import Prelude Protocol GenDlist FreeMcQueue GroupMng UserMng ServerNet ServerMng.
From S2P Require Import ClientNet ClientGroups ClientMng System Program.

(** ** What a request of one connection leaves alone *)

(** The abstract state of a server: sessions are those of the users who are
    online, and who is in a group is in a group that exists. *)
Record coherent (a : astate) : Prop := {
  coh_online : forall d k, aS a !! d = Some k <-> exists i, aU a !! k = Some i /\ u_sock i = Some d;
  coh_groups : forall k i g, aU a !! k = Some i -> g ∈ u_groups i -> is_Some (aG a !! g)
}.

Lemma sv_coherent s a : sv_rep s a -> coherent a.
Proof.
  intros R. destruct (sv_um _ _ R) as (um & _ & Ru). split; [apply (um_online _ _ _ _ Ru)|].
  intros k i g Hk Hg. pose proof (members_pos _ _ _ _ Hk Hg) as Hp. rewrite <-(sv_members _ _ R) in Hp.
  unfold count in Hp. by destruct (aG a !! g); [|lia].
Qed.

Lemma user_at_Some U S d k i : user_at U S d = Some (k, i) <-> S !! d = Some k /\ U !! k = Some i.
Proof.
  unfold user_at. destruct (S !! d) as [k'|]; [|by split; [|intros []]]. split.
  - destruct (U !! k') eqn:E; [|done]. by intros [= <- <-].
  - by intros [[= ->] ->].
Qed.

(** A change of a user who is not the one of connection [d]. *)
Lemma user_at_change U S d k i' : (S !! d = Some k -> False) -> user_at (<[k := i']> U) S d = user_at U S d.
Proof.
  intros H. unfold user_at. destruct (S !! d) as [k'|]; [|done].
  destruct (decide (k = k')) as [->|]; [by destruct H|]. by rewrite lookup_insert_ne.
Qed.

Lemma coherent_other a d d' k i : coherent a -> user_at (aU a) (aS a) d = Some (k, i) -> d <> d' ->
  aS a !! d' = Some k -> False.
Proof.
  intros C [Hd Hk]%user_at_Some Hne Hd'. apply (coh_online _ C) in Hd as (j1 & H1 & E1).
  apply (coh_online _ C) in Hd' as (j2 & H2 & E2). congruence.
Qed.

(** The session of another connection stays as it is. *)
Lemma user_at_frame a d d' r : coherent a -> d <> d' ->
  user_at (aU (spec_request a d r).1) (aS (spec_request a d r).1) d' = user_at (aU a) (aS a) d'.
Proof.
  intros C Hne. destruct r as [u p|u p| |g|g|g|]; cbn [spec_request]; [| | | | | |done].
  - unfold spec_register. destruct (aU a !! u) eqn:E; [done|]. cbn [fst aU aS]. apply user_at_change.
    intros (i & Hi & _)%(coh_online _ C). congruence.
  - unfold spec_login. destruct (aS a !! d) eqn:Ed; [done|]. destruct (aU a !! u) as [i|] eqn:Eu; [|done].
    destruct (negb _); [done|]. destruct (u_sock i) eqn:Es; [done|]. cbn [fst aU aS].
    unfold user_at. rewrite lookup_insert_ne by done. apply user_at_change.
    intros (j & Hj & Hs)%(coh_online _ C). congruence.
  - destruct (user_at (aU a) (aS a) d) as [[k i]|] eqn:E; [|done]. cbn [fst aU aS].
    unfold user_at at 1. rewrite lookup_delete_ne by done. apply user_at_change. by eapply coherent_other.
  - destruct (user_at (aU a) (aS a) d) as [[k i]|] eqn:E; [|done]. destruct (aG a !! g); [done|].
    destruct (aP a); [done|]. apply user_at_change. by eapply coherent_other.
  - destruct (user_at (aU a) (aS a) d) as [[k i]|] eqn:E; [|done]. destruct (aG a !! g); [|done].
    destruct (bool_decide _); [done|]. apply user_at_change. by eapply coherent_other.
  - destruct (user_at (aU a) (aS a) d) as [[k i]|] eqn:E; [|done]. destruct (bool_decide _); [|done].
    apply user_at_change. by eapply coherent_other.
Qed.

Lemma agree_frame a d d' r lu es : coherent a -> d <> d' -> agree d' a lu es -> agree d' (spec_request a d r).1 lu es.
Proof. intros C Hne A. unfold agree in *. by rewrite user_at_frame. Qed.

(** ** A group keeps its address *)

Definition address_of (grp : Group) : cstring * Z := (mcast_ip grp, mcast_port grp).

Definition same_addresses (G G' : gmap cstring Group) : Prop :=
  forall g grp grp', G !! g = Some grp -> G' !! g = Some grp' -> address_of grp' = address_of grp.

Lemma same_refl G : same_addresses G G.
Proof. intros g grp grp' H H'. congruence. Qed.

Lemma same_insert G k grp : (forall old, G !! k = Some old -> address_of grp = address_of old) ->
  same_addresses G (<[k := grp]> G).
Proof.
  intros H g x x' Hx Hx'. destruct (decide (k = g)) as [<-|].
  - rewrite lookup_insert_eq in Hx'. injection Hx' as <-. by apply H.
  - rewrite lookup_insert_ne in Hx' by done. congruence.
Qed.

(** Members that leave change a group's count or take it away. *)
Lemma drop_member_origin gp g k grp' : (drop_member gp g).1 !! k = Some grp' ->
  exists grp, gp.1 !! k = Some grp /\ address_of grp' = address_of grp.
Proof.
  unfold drop_member. destruct (gp.1 !! g) as [grp|] eqn:E; [|by exists grp'].
  destruct (member_count grp =? 1); cbn [fst].
  - intros [_ H]%lookup_delete_Some. by exists grp'.
  - intros [[<- <-]|[_ H]]%lookup_insert_Some; [by exists grp|by exists grp'].
Qed.

Lemma drop_members_origin gs gp k grp' : (foldl drop_member gp gs).1 !! k = Some grp' ->
  exists grp, gp.1 !! k = Some grp /\ address_of grp' = address_of grp.
Proof.
  revert gp. induction gs as [|g gs IH]; intros gp; cbn [foldl]; [by exists grp'|].
  intros (x & Hx & E)%IH. destruct (drop_member_origin gp g k x Hx) as (y & Hy & Ey). exists y. by rewrite E.
Qed.

Lemma request_addresses a d r : same_addresses (aG a) (aG (spec_request a d r).1).
Proof.
  destruct r as [u p|u p| |g|g|g|]; cbn [spec_request]; [| | | | | |apply same_refl].
  - destruct (spec_register _ _ _). apply same_refl.
  - destruct (spec_login _ _ _ _ _) as [[??]?]. apply same_refl.
  - destruct (user_at _ _ _) as [[k i]|]; [|apply same_refl]. intros g x x' Hx Hx'.
    apply drop_members_origin in Hx' as (y & Hy & E). cbn [fst] in Hy. congruence.
  - destruct (user_at _ _ _) as [[k i]|]; [|apply same_refl]. destruct (aG a !! g) eqn:E; [apply same_refl|].
    destruct (aP a); [apply same_refl|]. apply same_insert. congruence.
  - destruct (user_at _ _ _) as [[k i]|]; [|apply same_refl]. destruct (aG a !! g) as [grp|] eqn:E; [|apply same_refl].
    destruct (bool_decide _); [apply same_refl|]. apply same_insert. intros old Ho. by simplify_eq.
  - destruct (user_at _ _ _) as [[k i]|]; [|apply same_refl]. destruct (bool_decide _); [|apply same_refl].
    intros h x x' Hx Hx'. apply drop_member_origin in Hx' as (y & Hy & E). cbn [fst] in Hy. congruence.
Qed.

(** ** The world *)

(** A client program: its manager, its end of the connection (with the server's
    buffer for it at the other end), the answers of its system, its heap. *)
Record part := MkPart {
  pt_client : ClientMng;
  pt_sock : socket (P := remote_server);
  pt_os : os;
  pt_mem : mem
}.

(** The clients that run, with the server they share. *)
Record world := MkWorld {
  w_server : server;
  w_fds : gset Z;
  w_mem : mem;
  w_parts : list (option part)
}.

(** The connection of a client, at the server as it is now. *)
Definition attach (w : world) (s : socket (P := remote_server)) : socket (P := remote_server) :=
  MkSocket (MkRemote (sv_conn (remote s)) (w_fds w) (w_server w) (w_mem w)) (incoming s) (send_plan s) (recv_plan s) (halted s).

(** A client makes a call, or ends. *)
Inductive world_step := WCall (i : nat) (call : client_call) | WQuit (i : nat).

Definition world_do (buf : bytes) (x : world_step) (w : world) : option (option Z * world) :=
  match x with
  | WCall i call =>
      match w_parts w !! i with
      | Some (Some p) =>
          '(st, _, _, c, s, o, m) ← client_do (peer := server_peer) call (Some (pt_client p)) (Some buf) (Some 0)
            (attach w (pt_sock p)) (pt_os p) (pt_mem p);
          c ← c;
          Some (Some st, MkWorld (sv_state (remote s)) (sv_fds (remote s)) (sv_mem (remote s))
                           (<[i := Some (MkPart c s o m)]> (w_parts w)))
      | _ => Some (None, w)
      end
  | WQuit i =>
      match w_parts w !! i with
      | Some (Some p) =>
          '(_, _, _, m) ← client_mng_destroy (Some (Some (pt_client p))) [] (pt_os p) (pt_mem p);
          r ← hang_up (remote (attach w (pt_sock p)));
          Some (None, MkWorld (sv_state r) (sv_fds r) (sv_mem r) (<[i := None]> (w_parts w)))
      | _ => Some (None, w)
      end
  end.

Fixpoint world_run (buf : bytes) (xs : list world_step) (w : world) : option (list (option Z) * world) :=
  match xs with
  | [] => Some ([], w)
  | x :: xs =>
      '(st, w) ← world_do buf x w;
      '(sts, w) ← world_run buf xs w;
      Some (st :: sts, w)
  end.

(** ** The specification *)

(** A client as the specification sees it: its descriptor at the server, the
    number of its message queue, who is logged in, its windows, its processes,
    and the address each window was opened on. *)
Record sclient := MkSclient {
  sc_fd : Z;
  sc_id : Z;
  sc_login : Z * cstring;
  sc_windows : list GroupEntry;
  sc_os : os;
  sc_channel : gmap cstring (cstring * Z)
}.

Definition sworld : Type := astate * list (option sclient).

(** A window that stays open keeps its address; a new one is opened on the
    address of the group the call is about. *)
Definition channels (es : list GroupEntry) (ad : cstring * Z) (ch : gmap cstring (cstring * Z)) : gmap cstring (cstring * Z) :=
  list_to_map ((fun e => (name e, default ad (ch !! name e))) <$> es).

Definition spec_world_do (x : world_step) (sw : sworld) : option Z * sworld :=
  let '(a, l) := sw in
  match x with
  | WCall i call =>
      match l !! i with
      | Some (Some c) =>
          let '(st, (a', lu, es, o)) := spec_call (sc_fd c) (sc_id c) call (a, sc_login c, sc_windows c, sc_os c) in
          (Some st, (a', <[i := Some (MkSclient (sc_fd c) (sc_id c) lu es o
                                        (channels es (address a' call) (sc_channel c)))]> l))
      | _ => (None, sw)
      end
  | WQuit i =>
      match l !! i with
      | Some (Some c) => (None, (spec_disconnect a (sc_fd c), <[i := None]> l))
      | _ => (None, sw)
      end
  end.

Fixpoint spec_world_run (xs : list world_step) (sw : sworld) : list (option Z) * sworld :=
  match xs with
  | [] => ([], sw)
  | x :: xs =>
      let '(st, sw) := spec_world_do x sw in
      let '(sts, sw) := spec_world_run xs sw in (st :: sts, sw)
  end.

(** ** The invariant *)

(** The command lines that start the two processes of a window are in the log,
    with this address and user. *)
Definition started (id : Z) (user : cstring) (o : os) (g : cstring) (ad : cstring * Z) : Prop :=
  System (receiver_command g ad.1 ad.2 id) ∈ events o /\ System (sender_command g ad.1 ad.2 id user) ∈ events o.

(** Every open window has a channel; it was started on it by the user who is
    logged in, and the group has it as its address now. *)
Definition channel_ok (a : astate) (c : sclient) : Prop :=
  dom (sc_channel c) = list_to_set (name <$> sc_windows c) /\
  forall g ad, sc_channel c !! g = Some ad ->
    started (sc_id c) (sc_login c).2 (sc_os c) g ad /\ exists grp, aG a !! g = Some grp /\ ad = address_of grp.

Record part_rep (w : world) (a : astate) (p : part) (c : sclient) : Prop := {
  pr_linked : linked (sc_fd c) (attach w (pt_sock p)) a;
  pr_client : cm_rep (pt_client p) (sc_id c) (sc_windows c);
  pr_login : (logged_in (pt_client p), username (pt_client p)) = sc_login c;
  pr_os : pt_os p = sc_os c;
  pr_mem : alloc_ok (pt_mem p);
  pr_agree : agree (sc_fd c) a (sc_login c) (sc_windows c);
  pr_channel : channel_ok a c
}.

Record world_rep (w : world) (sw : sworld) : Prop := {
  wr_server : sv_rep (w_server w) sw.1;
  wr_parts : Forall2 (option_Forall2 (part_rep w sw.1)) (w_parts w) sw.2;
  wr_distinct : forall i j c c', sw.2 !! i = Some (Some c) -> sw.2 !! j = Some (Some c') -> sc_fd c = sc_fd c' -> i = j
}.

(** Who has a window is a member of its group, so the group exists. *)
Lemma window_group d a lu es e : coherent a -> agree d a lu es -> e ∈ es -> is_Some (aG a !! name e).
Proof.
  intros C A He. unfold agree in A. destruct (user_at (aU a) (aS a) d) as [[k i]|] eqn:E.
  - destruct A as [_ A]. apply user_at_Some in E as [_ Hk]. exact (coh_groups _ C k i (name e) Hk (A e He)).
  - destruct A as [_ ->]. by apply elem_of_nil in He.
Qed.

(** What the other clients do leaves the channels of a client alone. *)
Lemma channel_frame a a' c : coherent a' -> same_addresses (aG a) (aG a') ->
  agree (sc_fd c) a' (sc_login c) (sc_windows c) -> channel_ok a c -> channel_ok a' c.
Proof.
  intros C S A [Hd Hch]. split; [done|]. intros g ad Hg.
  assert (g ∈ name <$> sc_windows c) as Hin by (apply (elem_of_list_to_set (C := gset cstring)); rewrite <-Hd; by apply elem_of_dom_2 in Hg).
  apply list_elem_of_fmap in Hin as (e & -> & He). destruct (Hch _ _ Hg) as (St & grp & Hgrp & ->). split; [done|].
  destruct (window_group _ _ _ _ e C A He) as [grp' Hgrp']. exists grp'. split; [done|]. symmetry. by eapply S.
Qed.

(** The log only grows. *)
Definition logged (o o' : os) : Prop := events o `prefix_of` events o'.

Lemma started_logged id u o o' g ad : logged o o' -> started id u o g ad -> started id u o' g ad.
Proof. intros [l E] [H Hu]. unfold started. rewrite E. split; by apply elem_of_app; left. Qed.

Lemma logged_all o l : logged o (log_all o l).
Proof. by exists l. Qed.

Lemma recv_child_pid_logged mtype o : logged o (recv_child_pid mtype o).2.
Proof.
  unfold recv_child_pid, logged. destruct (take_message _ _) as [[??]|]; cbn [snd events log]; [done|by eexists].
Qed.

(** A window that is opened is started with the address given. *)
Lemma join_logged id es gn ip port user o : let '(_, es', o') := spec_join id es gn ip port user o in
  logged o o' /\ (forall e, e ∈ es' -> e ∈ es \/ (name e = gn /\ started id user o' gn (ip, port))).
Proof.
  unfold spec_join. destruct (bool_decide _); [by split; [exists []; rewrite app_nil_r|auto]|].
  unfold sys_system at 1. destruct (negb _); [split; [by exists [System (sender_command gn ip port id user)]|auto]|].
  unfold sys_system. cbn [system_plan mailbox events]. destruct (negb _).
  { split; [|auto]. eexists. cbn [events]. by rewrite <-app_assoc. }
  destruct (recv_child_pid _ _) as [spid o1] eqn:E1. destruct (recv_child_pid _ o1) as [rpid o2] eqn:E2.
  assert (exists l, events o2 = events o ++ [System (sender_command gn ip port id user); System (receiver_command gn ip port id)] ++ l)
    as [l E].
  { pose proof (recv_child_pid_logged CHAT_CHILD_MTYPE_RECEIVER o1) as [l2 H2]. rewrite E2 in H2. cbn [snd] in H2. rewrite H2.
    change o1 with (spid, o1).2. rewrite <-E1.
    destruct (recv_child_pid_logged CHAT_CHILD_MTYPE_SENDER (MkOs (fun i => system_plan o (S (S i))) (mailbox o)
      ((events o ++ [System (sender_command gn ip port id user)]) ++ [System (receiver_command gn ip port id)]))) as [l1 ->].
    cbn [events]. exists (l1 ++ l2). by rewrite <-!app_assoc. }
  split; [by eexists|]. intros e [H|H]%elem_of_app; [by left|right]. apply list_elem_of_singleton in H as ->.
  split; [done|]. unfold started. cbn [fst snd]. rewrite E. split; set_solver.
Qed.

(** What a call does to the windows: the log grows, and a window that was not
    there before is of the group of the call, started on its address. *)
Lemma call_windows d id call a lu es o : let '(st, (a', lu', es', o')) := spec_call d id call (a, lu, es, o) in
  logged o o' /\
  forall e, e ∈ es' -> e ∈ es \/
    ((call = CCreate (name e) \/ call = CJoin (name e)) /\ started id lu.2 o' (name e) (address a' call)).
Proof.
  unfold spec_call. destruct (answer d call a) as [a' r]. unfold window_effect.
  assert (logged o o) as Hr by (exists []; by rewrite app_nil_r).
  destruct (negb _); [by auto|]. destruct call as [u p|u p| |g|g|g]; cbn [fst snd]; try by auto.
  - split; [apply logged_all|]. by intros e H%elem_of_nil.
  - pose proof (join_logged id es g (address a' (CCreate g)).1 (address a' (CCreate g)).2 lu.2 o) as H.
    destruct (spec_join _ _ _ _ _ _ _) as [[??]?]. destruct H as [H1 H2]. split; [done|].
    intros e [?|[<- ?]]%H2; [by left|right]. auto.
  - pose proof (join_logged id es g (address a' (CJoin g)).1 (address a' (CJoin g)).2 lu.2 o) as H.
    destruct (spec_join _ _ _ _ _ _ _) as [[??]?]. destruct H as [H1 H2]. split; [done|].
    intros e [?|[<- ?]]%H2; [by left|right]. auto.
  - split; [apply logged_all|]. unfold spec_leave. cbn [fst]. intros e [_ ?]%list_elem_of_filter. by left.
Qed.

(** A call that leaves a window open is one of the same login. *)
Lemma call_login d id call a lu es o : agree d a lu es -> let '(st, (a', lu', es', o')) := spec_call d id call (a, lu, es, o) in
  es <> [] -> es' <> [] -> lu' = lu.
Proof.
  intros A. unfold spec_call. destruct (answer d call a) as [a' r] eqn:Ea. intros Hes Hes'.
  destruct call as [u p|u p| |g|g|g]; unfold login_effect, window_effect in *; destruct (negb _) eqn:Est; try done.
  exfalso. bprop. unfold answer in Ea. destruct (call_frame _); [|injection Ea as <- <-; discriminate Est].
  cbn [request_of spec_request] in Ea. unfold spec_login in Ea.
  unfold agree, user_at in A. destruct (aS a !! d) as [k|]; [injection Ea as <- <-; discriminate Est|].
  by destruct A as [_ ->].
Qed.

(** The channels of the client that made the call. *)
Lemma channel_call d id call a lu es o ch st a' lu' es' o' : spec_call d id call (a, lu, es, o) = (st, (a', lu', es', o')) ->
  coherent a' -> same_addresses (aG a) (aG a') -> agree d a lu es -> agree d a' lu' es' ->
  channel_ok a (MkSclient d id lu es o ch) ->
  channel_ok a' (MkSclient d id lu' es' o' (channels es' (address a' call) ch)).
Proof.
  intros E C S A0 A [Hd Hch]. unfold channel_ok. cbn [sc_channel sc_windows sc_id sc_os sc_login] in *. split.
  - unfold channels. rewrite dom_list_to_map_L, <-list_fmap_compose. done.
  - intros g ad Hg. unfold channels in Hg. apply elem_of_list_to_map_2, list_elem_of_fmap in Hg as (e & [= -> ->] & He).
    destruct (window_group _ _ _ _ e C A He) as [grp Hgrp].
    pose proof (call_windows d id call a lu es o) as H. rewrite E in H. destruct H as [Hlog Hnew].
    pose proof (call_login d id call a lu es o A0) as Hlu. rewrite E in Hlu.
    destruct (ch !! name e) as [y|] eqn:Ey; cbn [default].
    + destruct (Hch _ _ Ey) as (St & old & Ho & ->).
      assert (name e ∈ name <$> es) as Hin by (apply (elem_of_list_to_set (C := gset cstring)); rewrite <-Hd; by apply elem_of_dom_2 in Ey).
      rewrite Hlu by (intros ->; (by apply elem_of_nil in He) || by apply elem_of_nil in Hin).
      split; [by eapply started_logged|].
      exists grp. split; [done|]. symmetry. by eapply S.
    + destruct (Hnew e He) as [Hin|[Hc St0]].
      { apply (list_elem_of_fmap_2 name), (elem_of_list_to_set (C := gset cstring)) in Hin. rewrite <-Hd in Hin.
        apply elem_of_dom in Hin as [y Hy]. congruence. }
      assert (lu' = lu) as ->.
      { unfold spec_call, login_effect in E. destruct (answer d call a). injection E as _ _ <- _ _.
        destruct Hc as [-> | ->]; by destruct (negb _). }
      split; [done|]. exists grp. split; [done|].
      destruct Hc as [-> | ->]; cbn [address]; by rewrite Hgrp.
Qed.

(** ** One step *)

Lemma attach_self w s : sv_state (remote s) = w_server w -> sv_fds (remote s) = w_fds w -> sv_mem (remote s) = w_mem w ->
  attach w s = s.
Proof. destruct s as [[c fds srv m] inc sp rp]. unfold attach. cbn. by intros -> -> ->. Qed.

(** A client that did nothing, when the server is in a new state. *)
Lemma part_frame w w' a a' p c d r : part_rep w a p c -> sv_rep (w_server w') a' -> alloc_ok (w_mem w') ->
  coherent a -> d <> sc_fd c -> a' = (spec_request a d r).1 -> part_rep w' a' p c.
Proof.
  intros [L R Hl Ho Hm A Ch] Rs Hmem C Hne ->. pose proof (sv_coherent _ _ Rs) as C'.
  pose proof (agree_frame a d (sc_fd c) r _ _ C Hne A) as A'. constructor; try done.
  - destruct L as [[Lr Lc Lf _] Lfd Lp Li Lrel]. by repeat (split; try done).
  - by apply (channel_frame a); [|apply request_addresses|..].
Qed.

(** All others, after what the [i]-th client did. *)
Lemma others_frame w w' a a' l i p c x r : world_rep w (a, l) ->
  w_parts w !! i = Some (Some p) -> l !! i = Some (Some c) -> a' = (spec_request a (sc_fd c) r).1 \/ a' = a ->
  sv_rep (w_server w') a' -> alloc_ok (w_mem w') ->
  option_Forall2 (part_rep w' a') x.1 x.2 -> (forall c', x.2 = Some c' -> sc_fd c' = sc_fd c) ->
  w_parts w' = <[i := x.1]> (w_parts w) -> world_rep w' (a', <[i := x.2]> l).
Proof.
  intros [Rs Rp Rd] Hp Hc Ha Rs' Hm Hx Hfd Ew. cbn [fst snd] in *. pose proof (sv_coherent _ _ Rs) as C.
  assert (a' = (spec_request a (sc_fd c) r).1 \/ a' = (spec_request a (sc_fd c) RIgnored).1) as Ha' by tauto. clear Ha.
  assert (i < length l)%nat as Hi by (by eapply lookup_lt_Some).
  constructor; cbn [fst snd].
  - done.
  - rewrite Ew. apply Forall2_same_length_lookup. split.
    { rewrite !length_insert. by eapply Forall2_length. }
    intros j y z Hy Hz. destruct (decide (i = j)) as [<-|Hne].
    + rewrite list_lookup_insert_eq in Hy by (erewrite Forall2_length; done). rewrite list_lookup_insert_eq in Hz by done.
      injection Hy as <-. by injection Hz as <-.
    + rewrite list_lookup_insert_ne in Hy by done. rewrite list_lookup_insert_ne in Hz by done. pose proof (Forall2_lookup_lr _ _ _ _ _ _ Rp Hy Hz) as H.
      destruct H as [q d H|]; constructor.
      assert (sc_fd c <> sc_fd d) as Hd by (intros E; apply Hne; by eapply Rd).
      destruct Ha' as [Ha'|Ha']; by eapply part_frame.
  - intros j1 j2 d1 d2 H1 H2 E.
    assert (forall j d, <[i := x.2]> l !! j = Some (Some d) -> exists d', l !! j = Some (Some d') /\ sc_fd d' = sc_fd d) as Hback.
    { intros j d Hj. destruct (decide (i = j)) as [<-|Hne].
      - rewrite list_lookup_insert_eq in Hj by done. injection Hj as Hj. exists c. split; [done|]. symmetry. by apply Hfd.
      - rewrite list_lookup_insert_ne in Hj by done. by exists d. }
    destruct (Hback _ _ H1) as (e1 & G1 & F1). destruct (Hback _ _ H2) as (e2 & G2 & F2). eapply Rd; [done..|congruence].
Qed.

Definition step_names (x : world_step) : Prop := match x with WCall _ call => call_names call | WQuit _ => True end.

#[export] Instance step_names_dec x : Decision (step_names x).
Proof. destruct x; cbn [step_names]; apply _. Defined.

Lemma answer_request d call a : (answer d call a).1 = (spec_request a d (request_of call)).1 \/ (answer d call a).1 = a.
Proof. unfold answer. destruct (call_frame call); [left|by right]. by destruct (spec_request _ _ _). Qed.

Lemma rep_world_do buf x w sw : CHAT_MAX_IP_STR_LEN <= blen buf -> world_rep w sw -> step_names x ->
  exists w', world_do buf x w = Some ((spec_world_do x sw).1, w') /\ world_rep w' (spec_world_do x sw).2.
Proof.
  intros Hb R Hn. destruct sw as [a l]. pose proof R as [Rs Rp Rd]. cbn [fst snd] in *.
  destruct x as [i call|i]; cbn [world_do spec_world_do].
  all: destruct (l !! i) as [[c|]|] eqn:Hl;
    [|destruct (Forall2_lookup_r _ _ _ _ _ Rp Hl) as (y & -> & H); inversion H; subst; by exists w
     |assert (w_parts w !! i = None) as -> by (apply lookup_ge_None; apply lookup_ge_None in Hl; by erewrite Forall2_length); by exists w].
  all: destruct (Forall2_lookup_r _ _ _ _ _ Rp Hl) as (y & Hy & H); inversion H as [p c' P|]; subst; rewrite Hy.
  - destruct P as [L Rc Hlog Hos Hm A Ch].
    destruct (rep_system_call (sc_fd c) call (pt_client p) (sc_id c) (sc_windows c) buf 0 (attach w (pt_sock p)) (pt_os p)
      (pt_mem p) a L Rc Hm Hn Hb) as (st & ip' & p' & c1 & s1 & o1 & m1 & es1 & a1 & E & Es & L1 & R1 & Hm1 & _ & _).
    rewrite E. cbn [mbind option_bind]. rewrite Hlog, Hos in Es. rewrite Es. cbn [fst snd].
    eexists. split; [done|].
    pose proof (agree_call (sc_fd c) (sc_id c) call a (sc_login c) (sc_windows c) (sc_os c)
      (sv_has_user _ a (sc_fd c) Rs) A) as A1. rewrite Es in A1.
    assert (a1 = (answer (sc_fd c) call a).1) as Ea.
    { unfold spec_call in Es. destruct (answer (sc_fd c) call a). by injection Es. }
    pose proof (sv_coherent _ _ (ro_state _ _ (ln_server _ _ _ L1))) as C1.
    assert (same_addresses (aG a) (aG a1)) as Sa.
    { rewrite Ea. destruct (answer_request (sc_fd c) call a) as [-> | ->]; [apply request_addresses|apply same_refl]. }
    eapply (others_frame w _ a a1 l i p c (Some _, Some _) (request_of call)); try done.
    + rewrite Ea. apply answer_request.
    + apply L1.
    + apply L1.
    + cbn [fst snd]. constructor. constructor; cbn [sc_fd sc_id sc_login sc_windows sc_os sc_channel pt_client pt_os pt_mem pt_sock];
        try done; [by rewrite attach_self|].
      by eapply channel_call.
    + cbn [snd]. by intros c' [= <-].
  - destruct P as [L Rc Hlog Hos Hm A Ch].
    rewrite (rep_mng_destroy _ _ _ _ _ _ Rc). cbn [mbind option_bind].
    destruct (rep_hang_up _ _ (ln_server _ _ _ L)) as (r & -> & (Rr & _ & _ & _ & _ & Hmr)). cbn [mbind option_bind fst snd].
    rewrite (ln_fd _ _ _ L) in Rr. eexists. split; [done|].
    eapply (others_frame w _ a _ l i p c (None, None) RLogout); try done; [by left|cbn; constructor].
Qed.

Lemma rep_world_run buf xs w sw : CHAT_MAX_IP_STR_LEN <= blen buf -> world_rep w sw -> Forall step_names xs ->
  exists w', world_run buf xs w = Some ((spec_world_run xs sw).1, w') /\ world_rep w' (spec_world_run xs sw).2.
Proof.
  intros Hb R Hn. revert w sw R. induction Hn as [|x xs Hx Hn IH]; intros w sw R; [by exists w|].
  destruct (rep_world_do buf x w sw Hb R Hx) as (w1 & E1 & R1). cbn [world_run spec_world_run]. rewrite E1.
  destruct (spec_world_do x sw) as [st sw1]. cbn [fst snd mbind option_bind] in *.
  destruct (IH w1 sw1 R1) as (w2 & E2 & R2). rewrite E2. exists w2. by destruct (spec_world_run xs sw1).
Qed.

(** The channel of an open window. *)
Lemma window_channel w a p c e : part_rep w a p c -> e ∈ sc_windows c -> exists grp, aG a !! name e = Some grp /\
  sc_channel c !! name e = Some (address_of grp) /\ started (sc_id c) (sc_login c).2 (pt_os p) (name e) (address_of grp).
Proof.
  intros [L Rc Hlog Hos Hm A [Hd Hch]] He.
  apply (list_elem_of_fmap_2 name), (elem_of_list_to_set (C := gset cstring)) in He. rewrite <-Hd in He.
  apply elem_of_dom in He as [x Hx]. destruct (Hch _ _ Hx) as (St & grp & Hg & ->). exists grp. by rewrite Hos.
Qed.

(** ** How a world begins *)

(** A client program that has connected on descriptor [d] and done nothing. *)
Definition newcomer (c : ClientMng) (d : Z) (sp rp : nat -> Z) (o : os) (m : mem) : part :=
  MkPart c (MkSocket (MkRemote (MkClient d (replicate (Z.to_nat RECV_BUFFER_SIZE) 0) 0) ∅ (stopped []) (Mem [] 0)) [] sp rp false) o m.

Lemma newcomer_rep w a c id d sp rp o m : sv_rep (w_server w) a -> alloc_ok (w_mem w) -> aS a !! d = None ->
  0 <= d < FD_SETSIZE -> reliable (pt_sock (newcomer c d sp rp o m)) -> cm_rep c id [] -> alloc_ok m ->
  logged_in c = 0 -> username c = [] ->
  part_rep w a (newcomer c d sp rp o m) (MkSclient d id (0, []) [] o ∅).
Proof.
  intros R Hm Hd Hfd Hr Rc Hmc Hl Hu. constructor; try done.
  - constructor; [constructor|..]; try done. apply client_ok_fresh; [done|]. by apply Forall_replicate.
  - cbn. by rewrite Hl, Hu.
  - unfold agree, user_at. cbn [sc_fd]. by rewrite Hd.
Qed.

(** ** Properties *)

(** C4: Any number of clients and one server.  Take clients connected to one
    consistent server on different descriptors, and any sequence of calls and
    exits of any of them, in any order.  The run has no undefined behaviour, every
    call returns the status that the specification of the server gives to it in
    the state the calls before it left, and afterwards everything is again in
    order: the server is in the specified state, and each client that still runs
    is logged in as the user the server has a session of for its connection, has
    the specified windows, all of them of groups that user is a member of, each
    opened on the address its group has, and the specified processes were started
    and killed.  A client whose windows do not report waits in [msgrcv] for ever:
    its log then has a [Waits] ([stuck]), and its later steps are not part of a
    real run; the other clients do not depend on them. *)
Theorem world_refines buf xs w sw : CHAT_MAX_IP_STR_LEN <= blen buf -> world_rep w sw -> Forall step_names xs ->
  exists w', world_run buf xs w = Some ((spec_world_run xs sw).1, w') /\ world_rep w' (spec_world_run xs sw).2.
Proof. apply rep_world_run. Qed.

(** C7: Whoever has a window of a group can talk to whoever else has, and to
    nobody else.  After any run of any clients of one server, take any window of
    any client and any window of any client, the same or another.  The log of
    each client's system has the command lines that opened its window; the
    address in them is the one the server has for the group at that time; and the
    two windows are on the same multicast address and port exactly if they are
    windows of the same group. *)
Theorem windows_share_address buf xs w sw w' sts i j p q : CHAT_MAX_IP_STR_LEN <= blen buf ->
  world_rep w sw -> Forall step_names xs -> world_run buf xs w = Some (sts, w') ->
  w_parts w' !! i = Some (Some p) -> w_parts w' !! j = Some (Some q) ->
  exists a c d, sv_rep (w_server w') a /\
    cm_rep (pt_client p) (sc_id c) (sc_windows c) /\ cm_rep (pt_client q) (sc_id d) (sc_windows d) /\
    forall e f, e ∈ sc_windows c -> f ∈ sc_windows d -> exists x y,
      sc_channel c !! name e = Some x /\ started (sc_id c) (sc_login c).2 (pt_os p) (name e) x /\ address_of <$> aG a !! name e = Some x /\
      sc_channel d !! name f = Some y /\ started (sc_id d) (sc_login d).2 (pt_os q) (name f) y /\ address_of <$> aG a !! name f = Some y /\
      (x = y <-> name e = name f).
Proof.
  intros Hb R Hn E Hi Hj. destruct (rep_world_run buf xs w sw Hb R Hn) as (w1 & E1 & R1). rewrite E1 in E. injection E as _ <-.
  destruct (spec_world_run xs sw).2 as [a l]. destruct R1 as [Rs Rp _]. cbn [fst snd] in *.
  destruct (Forall2_lookup_l _ _ _ _ _ Rp Hi) as (y1 & _ & P). destruct (Forall2_lookup_l _ _ _ _ _ Rp Hj) as (y2 & _ & Q).
  inversion P as [? c P1|]; subst. inversion Q as [? d Q1|]; subst. clear P Q. exists a, c, d.
  split; [done|]. split; [apply P1|]. split; [apply Q1|]. intros e f He Hf.
  destruct (window_channel _ _ _ _ e P1 He) as (grp & Hg & Hx & Sx). destruct (window_channel _ _ _ _ f Q1 Hf) as (grp' & Hg' & Hy & Sy).
  exists (address_of grp), (address_of grp'). rewrite Hg, Hg'. do 6 (split; [done|]). split.
  - intros Ea. destruct (group_address_own _ _ _ _ Rs Hg) as (_ & _ & H). apply (H _ _ Hg'). injection Ea as Eip Eport. unfold pair_of. by rewrite Eip, Eport.
  - intros En. congruence.
Qed.

(** Two clients, on descriptors 5 and 6, of the server of [demo_server]. *)
Definition demo_part (d : Z) : part := newcomer demo_client d (fun _ => 3) (fun _ => 2) demo_os (Mem [] 0).
Definition demo_world (s : server) (m : mem) : world := MkWorld s ∅ m [Some (demo_part 5); Some (demo_part 6)].

Definition demo_spec : sworld :=
  (MkA demo_users demo_socks ∅ initial_pairs,
   [Some (MkSclient 5 7 (0, []) [] demo_os ∅); Some (MkSclient 6 7 (0, []) [] demo_os ∅)]).

(** Both register and log in; the first opens group [g], the second its own
    group [h] and joins [g]; then the first ends. *)
Definition demo_steps : list world_step :=
  [WCall 0 (CRegister [98] [113]); WCall 1 (CRegister [99] [114]); WCall 0 (CLogin [98] [113]); WCall 1 (CLogin [98] [113]);
   WCall 1 (CLogin [99] [114]); WCall 0 (CCreate [103]); WCall 1 (CCreate [104]); WCall 1 (CJoin [103])].

Lemma demo_world_rep : exists s0 m0, world_rep (demo_world s0 m0) demo_spec.
Proof.
  destruct demo_server as (s00 & m00 & s0 & m0 & _ & _ & R & Hm). exists s0, m0. constructor; [done| |].
  - apply Forall2_cons_2; [|apply Forall2_cons_2; [|constructor]]; apply Some_Forall2.
    all: (eapply newcomer_rep; [exact R|exact Hm|done|done|done|exact demo_client_ok|constructor|done|done]).
  - intros i j c c' Hi Hj E. destruct i as [|[|i]], j as [|[|j]]; cbn in Hi, Hj; simplify_eq; done.
Qed.

Lemma demo_steps_ok : Forall step_names demo_steps.
Proof. apply (bool_decide_eq_true_1 (Forall step_names demo_steps)). by vm_compute. Qed.

Lemma world_refines_witness : exists s0 m0, world_rep (demo_world s0 m0) demo_spec /\
  (spec_world_run demo_steps demo_spec).1
    = [Some 0; Some 0; Some 0; Some 4; Some 0; Some 0; Some 0; Some 0] /\
  exists w', world_run (replicate 16 0) demo_steps (demo_world s0 m0) = Some ((spec_world_run demo_steps demo_spec).1, w') /\
    world_rep w' (spec_world_run demo_steps demo_spec).2.
Proof.
  destruct demo_world_rep as (s0 & m0 & R). exists s0, m0. split; [exact R|]. split; [by vm_compute|].
  apply (world_refines (replicate 16 0) demo_steps (demo_world s0 m0) demo_spec); [by vm_compute|exact R|exact demo_steps_ok].
Defined.

(** The groups each client then has a window of. *)
Definition windows_of (sw : sworld) : list (option (list cstring)) :=
  map (option_map (fun c => map name (sc_windows c))) sw.2.

Lemma demo_windows : windows_of (spec_world_run demo_steps demo_spec).2 = [Some [[103]]; Some [[104]; [103]]].
Proof. by vm_compute. Qed.

Lemma part_of_window w sw i gs : world_rep w sw -> windows_of sw !! i = Some (Some gs) ->
  exists p, w_parts w !! i = Some (Some p).
Proof.
  intros [_ Rp _] H. unfold windows_of in H. change (map ?f ?l) with (f <$> l) in H. rewrite list_lookup_fmap in H.
  destruct (sw.2 !! i) as [[c|]|] eqn:E; [|done..].
  destruct (Forall2_lookup_r _ _ _ _ _ Rp E) as (y & Hy & P). inversion P as [p|]; subst. by exists p.
Qed.

Lemma windows_share_address_witness : exists s0 m0 w' p q, world_rep (demo_world s0 m0) demo_spec /\
  windows_of (spec_world_run demo_steps demo_spec).2 = [Some [[103]]; Some [[104]; [103]]] /\
  world_run (replicate 16 0) demo_steps (demo_world s0 m0) = Some ((spec_world_run demo_steps demo_spec).1, w') /\
  exists a c d, sv_rep (w_server w') a /\
    cm_rep (pt_client p) (sc_id c) (sc_windows c) /\ cm_rep (pt_client q) (sc_id d) (sc_windows d) /\
    forall e f, e ∈ sc_windows c -> f ∈ sc_windows d -> exists x y,
      sc_channel c !! name e = Some x /\ started (sc_id c) (sc_login c).2 (pt_os p) (name e) x /\ address_of <$> aG a !! name e = Some x /\
      sc_channel d !! name f = Some y /\ started (sc_id d) (sc_login d).2 (pt_os q) (name f) y /\ address_of <$> aG a !! name f = Some y /\
      (x = y <-> name e = name f).
Proof.
  destruct demo_world_rep as (s0 & m0 & R).
  destruct (rep_world_run (replicate 16 0) demo_steps _ _ ltac:(by vm_compute) R demo_steps_ok) as (w' & E & R').
  destruct (part_of_window w' _ 0 [[103]] R') as (p & Hp); [by rewrite demo_windows|].
  destruct (part_of_window w' _ 1 [[104]; [103]] R') as (q & Hq); [by rewrite demo_windows|]. exists s0, m0, w', p, q.
  split; [exact R|]. split; [exact demo_windows|]. split; [exact E|].
  apply (windows_share_address (replicate 16 0) demo_steps (demo_world s0 m0) demo_spec w' (spec_world_run demo_steps demo_spec).1
    0 1 p q); [by vm_compute|exact R|exact demo_steps_ok|exact E|exact Hp|exact Hq].
Defined.
