(* ===== verification/Interleave.v ===== *)
(** * Calls of many clients in flight at once

    [World] lets the clients of one server make their calls one after the other.
    Here they overlap: a client puts the bytes of a request on its connection and
    waits; the bytes of all connections arrive at the server in pieces, in any
    order; the server's receive buffers put the messages together, its handlers
    answer them; and a client goes on when its reply is complete.  The file
    proves that this makes no difference: every call takes effect at one moment
    between its start and its return, when its last byte arrives, and the run is
    the run of [World] with the calls in that order.

    A client that has made a call is blocked on its own connection and touches
    nothing else until the reply is there.  What it sends is what the code of the
    call sends to an end that only records; what it does with the reply is what
    the code of the call does with an end that gives this reply to the request. *)

From S2P Require Import Prelude Protocol GenDlist FreeMcQueue GroupMng UserMng ServerNet ServerMng.
From S2P Require Import ClientNet ClientGroups ClientMng System Program World.

(** ** The network *)

(** What a client is doing: nothing, or a call, of whose request the first
    [arrived] bytes have reached the server and to which [answer] came back. *)
Inductive phase := Idle | Busy (call : client_call) (asked : bytes) (arrived : nat) (answer : bytes).

(** A client program, the behaviour of its transport, and the server's buffer
    for its connection. *)
Record node := MkNode {
  nd_client : ClientMng;
  nd_os : os;
  nd_mem : mem;
  nd_send : nat -> Z;
  nd_recv : nat -> Z;
  nd_conn : ClientState;
  nd_phase : phase
}.

Record net_world := MkNetWorld {
  nw_server : server;
  nw_fds : gset Z;
  nw_mem : mem;
  nw_nodes : list (option node)
}.

Definition set_node (w : net_world) (i : nat) (nd : option node) : net_world :=
  MkNetWorld (nw_server w) (nw_fds w) (nw_mem w) (<[i := nd]> (nw_nodes w)).
Definition set_server (w : net_world) (r : remote_server) : net_world :=
  MkNetWorld (sv_state r) (sv_fds r) (sv_mem r) (nw_nodes w).
Definition set_phase (nd : node) (ph : phase) : node :=
  MkNode (nd_client nd) (nd_os nd) (nd_mem nd) (nd_send nd) (nd_recv nd) (nd_conn nd) ph.
Definition set_conn (nd : node) (c : ClientState) (ph : phase) : node :=
  MkNode (nd_client nd) (nd_os nd) (nd_mem nd) (nd_send nd) (nd_recv nd) c ph.

(** An end that answers the first [n] bytes with [r]. *)
Definition canned (x : Z * bytes * bytes) (b : bytes) : option (Z * bytes * bytes * bytes) :=
  let '(n, p, r) := x in
  Some (n, p ++ b, r, if (blen p <? n) && (n <=? blen (p ++ b)) then r else []).

(** The code of a call, against some other end of the connection. *)
Definition run_call {P} (peer : P -> bytes -> option (P * bytes)) (p : P) (buf : bytes) (call : client_call) (nd : node)
  : option (Z * socket (P := P) * node) :=
  '(st, _, _, c, s, o, m) ← client_do (peer := peer) call (Some (nd_client nd)) (Some buf) (Some 0)
    (MkSocket p [] (nd_send nd) (nd_recv nd) false) (nd_os nd) (nd_mem nd);
  c ← c;
  Some (st, s, MkNode c o m (send_plan s) (recv_plan s) (nd_conn nd) Idle).

Definition remote_of (w : net_world) (nd : node) : remote_server :=
  MkRemote (nd_conn nd) (nw_fds w) (nw_server w) (nw_mem w).

Definition complete (answer : bytes) : bool :=
  match answer with _ :: l :: body => blen body =? l | _ => false end.

(** A client starts a call; the next [n] bytes of its request arrive; it has its
    reply and returns; it ends. *)
Inductive net_step := NCall (i : nat) (call : client_call) | NArrive (i n : nat) | NFinish (i : nat) | NQuit (i : nat).

(** The effect of a step, with the status of a call that returns.  A name that is
    too long is refused before anything is sent. *)
Definition net_do (buf : bytes) (x : net_step) (w : net_world) : option (option (nat * Z) * net_world) :=
  match x with
  | NCall i call =>
      match nw_nodes w !! i with
      | Some (Some nd) =>
          match nd_phase nd with
          | Idle =>
              '(st, s, nd') ← run_call recorder [] buf call nd;
              Some (match remote s with
                    | [] => (Some (i, st), set_node w i (Some nd'))
                    | sent => (None, set_node w i (Some (set_phase nd (Busy call sent 0 []))))
                    end)
          | Busy _ _ _ _ => Some (None, w)
          end
      | _ => Some (None, w)
      end
  | NArrive i n =>
      match nw_nodes w !! i with
      | Some (Some nd) =>
          match nd_phase nd with
          | Busy call sent k answer =>
              if (1 <=? n)%nat && (k + n <=? length sent)%nat then
                '(r, back) ← server_peer (remote_of w nd) (take n (drop k sent));
                Some (None, set_node (set_server w r) i
                              (Some (set_conn nd (sv_conn r) (Busy call sent (k + n) (answer ++ back)))))
              else Some (None, w)
          | Idle => Some (None, w)
          end
      | _ => Some (None, w)
      end
  | NFinish i =>
      match nw_nodes w !! i with
      | Some (Some nd) =>
          match nd_phase nd with
          | Busy call sent _ answer =>
              if complete answer then
                '(st, _, nd) ← run_call canned (blen sent, [], answer) buf call nd;
                Some (Some (i, st), set_node w i (Some nd))
              else Some (None, w)
          | Idle => Some (None, w)
          end
      | _ => Some (None, w)
      end
  | NQuit i =>
      match nw_nodes w !! i with
      | Some (Some nd) =>
          match nd_phase nd with
          | Idle =>
              '(_, _, _, m) ← client_mng_destroy (Some (Some (nd_client nd))) [] (nd_os nd) (nd_mem nd);
              r ← hang_up (remote_of w nd);
              Some (None, set_node (set_server w r) i None)
          | Busy _ _ _ _ => Some (None, w)
          end
      | _ => Some (None, w)
      end
  end.

Fixpoint net_run (buf : bytes) (xs : list net_step) (w : net_world) : option (list (option (nat * Z)) * net_world) :=
  match xs with
  | [] => Some ([], w)
  | x :: xs =>
      '(r, w) ← net_do buf x w;
      '(rs, w) ← net_run buf xs w;
      Some (r :: rs, w)
  end.

(** ** The specification

    The world of [World], and what each client is doing: nothing, a call that
    has not taken effect, of whose request [rest] bytes have not arrived, or a
    call that has taken effect and will return [st]. *)
Inductive sphase := SIdle | SBusy (call : client_call) (rest : nat) | SDone (call : client_call) (st : Z).

Definition snet : Type := astate * list (option (sclient * sphase)).

(** The world without what is going on. *)
Definition settled (x : snet) : sworld := (x.1, fmap (M := list) (fmap (M := option) fst) x.2).

(** A call takes effect. *)
Definition take_effect (call : client_call) (a : astate) (c : sclient) : Z * astate * sclient :=
  let '(st, (a', lu, es, o)) := spec_call (sc_fd c) (sc_id c) call (a, sc_login c, sc_windows c, sc_os c) in
  (st, a', MkSclient (sc_fd c) (sc_id c) lu es o (channels es (address a' call) (sc_channel c))).

(** A step: the status of a call that returns, the steps of [World] that take
    place, the new state. *)
Definition spec_net_do (x : net_step) (y : snet) : option (nat * Z) * list world_step * snet :=
  let '(a, l) := y in
  match x with
  | NCall i call =>
      match l !! i with
      | Some (Some (c, SIdle)) =>
          match call_frame call with
          | Some fr => (None, [], (a, <[i := Some (c, SBusy call (length fr))]> l))
          | None =>
              let '(st, a', c') := take_effect call a c in
              (Some (i, st), [WCall i call], (a', <[i := Some (c', SIdle)]> l))
          end
      | _ => (None, [], y)
      end
  | NArrive i n =>
      match l !! i with
      | Some (Some (c, SBusy call rest)) =>
          if (1 <=? n)%nat && (n <=? rest)%nat then
            if (n =? rest)%nat then
              let '(st, a', c') := take_effect call a c in
              (None, [WCall i call], (a', <[i := Some (c', SDone call st)]> l))
            else (None, [], (a, <[i := Some (c, SBusy call (rest - n))]> l))
          else (None, [], y)
      | _ => (None, [], y)
      end
  | NFinish i =>
      match l !! i with
      | Some (Some (c, SDone _ st)) => (Some (i, st), [], (a, <[i := Some (c, SIdle)]> l))
      | _ => (None, [], y)
      end
  | NQuit i =>
      match l !! i with
      | Some (Some (c, SIdle)) => (None, [WQuit i], (spec_disconnect a (sc_fd c), <[i := None]> l))
      | _ => (None, [], y)
      end
  end.

Fixpoint spec_net_run (xs : list net_step) (y : snet) : list (option (nat * Z)) * list world_step * snet :=
  match xs with
  | [] => ([], [], y)
  | x :: xs =>
      let '(r, ws, y) := spec_net_do x y in
      let '(rs, ws', y) := spec_net_run xs y in (r :: rs, ws ++ ws', y)
  end.

(** ** Ends of a connection that record and answer *)

#[export] Instance canned_Peer : Peer canned (fun x => is_byte_list x.2).
Proof.
  constructor. intros [[n p] r] b Hr _ _. eexists (n, p ++ b, r), _. split; [done|]. split; [done|].
  by destruct (_ && _); [|constructor].
Qed.

Lemma canned_feed n r chunks p : Forall (fun c => 0 < blen c) chunks -> blen p < n -> blen p + blen (concat chunks) = n ->
  feed canned (n, p, r) chunks = Some ((n, p ++ concat chunks, r), r).
Proof.
  intros Hc. revert p. induction Hc as [|c chunks Hc Hcs IH]; intros p Hp Hn; cbn [concat] in *;
    [unfold blen in Hn; cbn in Hn; unfold blen in Hp; lia|].
  rewrite blen_app in Hn. pose proof (blen_nonneg (concat chunks)). cbn [feed canned].
  rewrite (proj2 (Z.ltb_lt _ _)) by lia. rewrite blen_app. destruct (decide (blen p + blen c = n)) as [E|E].
  - rewrite (proj2 (Z.leb_le _ _)) by lia. cbn [andb mbind option_bind].
    destruct chunks as [|c' chunks]; [by rewrite app_nil_r; cbn; rewrite !app_nil_r|].
    apply Forall_cons_1 in Hcs as [Hc' _]. cbn [concat] in Hn. rewrite blen_app in Hn. pose proof (blen_nonneg (concat chunks)). lia.
  - rewrite (proj2 (Z.leb_gt _ _)) by lia. cbn [andb mbind option_bind]. rewrite IH by (rewrite ?blen_app; lia).
    cbn [mbind option_bind app]. by rewrite <-app_assoc.
Qed.

Lemma complete_one_frame r : one_frame r -> complete r = true.
Proof. destruct r as [|t [|l body]]; [done..|]. cbn. apply Z.eqb_eq. Qed.

Lemma unfinished_take fr k : one_frame fr -> (k < length fr)%nat -> unfinished (take k fr).
Proof.
  destruct fr as [|t [|l body]]; [done..|]. destruct k as [|[|k]]; [done..|]. cbn. unfold blen.
  intros <- Hk. rewrite length_take. lia.
Qed.

Lemma take_drop_app (b : bytes) k n : take k b ++ take n (drop k b) = take (k + n) b.
Proof. by rewrite take_take_drop. Qed.

(** ** The invariant *)

(** The program of a node is the client [c] of the specification. *)
Record idle_rep (nd : node) (c : sclient) : Prop := {
  id_client : cm_rep (nd_client nd) (sc_id c) (sc_windows c);
  id_login : (logged_in (nd_client nd), username (nd_client nd)) = sc_login c;
  id_os : nd_os nd = sc_os c
}.

(** What it will be when its call has returned [st]: [c]. *)
Definition done_rep (nd : node) (call : client_call) (answer : bytes) (st : Z) (c : sclient) : Prop :=
  exists es0 ad, cm_rep (nd_client nd) (sc_id c) es0 /\
    sc_login c = login_effect call st (logged_in (nd_client nd), username (nd_client nd)) /\
    (sc_windows c, sc_os c) = window_effect (sc_id c) call st ad.1 ad.2 (username (nd_client nd)) es0 (nd_os nd) /\
    forall oip p0, CHAT_MAX_IP_STR_LEN <= blen oip -> exists ip p,
      call_result call (Some answer) oip p0 = (st, ip, p) /\
      (st = 0 -> match call with CCreate _ | CJoin _ => True | _ => False end -> (default [] (c_str ip), p) = ad).

Definition phase_rep (nd : node) (c : sclient) (ph : sphase) : Prop :=
  match nd_phase nd, ph with
  | Idle, SIdle => pending (nd_conn nd) = [] /\ idle_rep nd c
  | Busy call sent k answer, SBusy call' rest =>
      call' = call /\ call_frame call = Some sent /\ call_names call /\ answer = [] /\
      (0 < rest)%nat /\ (k + rest = length sent)%nat /\ pending (nd_conn nd) = take k sent /\ idle_rep nd c
  | Busy call sent k answer, SDone call' st =>
      call' = call /\ call_frame call = Some sent /\ call_names call /\ k = length sent /\ reply_ok answer /\
      pending (nd_conn nd) = [] /\ done_rep nd call answer st c
  | _, _ => False
  end.

Record node_rep (a : astate) (nd : node) (x : sclient * sphase) : Prop := {
  nd_ok_conn : client_ok (nd_conn nd);
  nd_ok_fd : fd (nd_conn nd) = sc_fd x.1;
  nd_ok_range : 0 <= sc_fd x.1 < FD_SETSIZE;
  nd_ok_send : forall i, 0 < nd_send nd i;
  nd_ok_recv : forall i, 0 <= nd_recv nd i;
  nd_ok_mem : alloc_ok (nd_mem nd);
  nd_agree : agree (sc_fd x.1) a (sc_login x.1) (sc_windows x.1);
  nd_channel : channel_ok a x.1;
  nd_ok_phase : phase_rep nd x.1 x.2
}.

Record net_rep (w : net_world) (y : snet) : Prop := {
  nr_server : sv_rep (nw_server w) y.1;
  nr_mem : alloc_ok (nw_mem w);
  nr_nodes : Forall2 (option_Forall2 (node_rep y.1)) (nw_nodes w) y.2;
  nr_distinct : forall i j x z, y.2 !! i = Some (Some x) -> y.2 !! j = Some (Some z) -> sc_fd x.1 = sc_fd z.1 -> i = j
}.

(** A node is left alone by what the server does for another connection. *)
Lemma node_frame s' a d r nd x : node_rep a nd x -> coherent a -> sv_rep s' (spec_request a d r).1 -> d <> sc_fd x.1 ->
  node_rep (spec_request a d r).1 nd x.
Proof.
  intros [] C R Hne. pose proof (sv_coherent _ _ R) as C'.
  pose proof (agree_frame a d (sc_fd x.1) r _ _ C Hne nd_agree0) as A'. constructor; try done.
  by apply (channel_frame a); [|apply request_addresses|..].
Qed.

(** The [i]-th node does something. *)
Lemma net_update w w' a l i nd x y z r : net_rep w (a, l) -> nw_nodes w !! i = Some (Some nd) -> l !! i = Some (Some x) ->
  sv_rep (nw_server w') (spec_request a (sc_fd x.1) r).1 -> alloc_ok (nw_mem w') -> nw_nodes w' = <[i := y]> (nw_nodes w) ->
  option_Forall2 (node_rep (spec_request a (sc_fd x.1) r).1) y z -> (forall z', z = Some z' -> sc_fd z'.1 = sc_fd x.1) ->
  net_rep w' ((spec_request a (sc_fd x.1) r).1, <[i := z]> l).
Proof.
  intros [Rs Rm Rn Rd] Hnd Hx Rs' Rm' En Hyz Hfd. cbn [fst snd] in *. pose proof (sv_coherent _ _ Rs) as C.
  assert (i < length l)%nat as Hi by (by eapply lookup_lt_Some).
  constructor; cbn [fst snd]; [done|done| |].
  - rewrite En. apply Forall2_same_length_lookup. split; [rewrite !length_insert; by eapply Forall2_length|].
    intros j u v Hu Hv. destruct (decide (i = j)) as [<-|Hne].
    + rewrite list_lookup_insert_eq in Hu by (erewrite Forall2_length; done). rewrite list_lookup_insert_eq in Hv by done.
      injection Hu as <-. by injection Hv as <-.
    + rewrite list_lookup_insert_ne in Hu by done. rewrite list_lookup_insert_ne in Hv by done.
      pose proof (Forall2_lookup_lr _ _ _ _ _ _ Rn Hu Hv) as H. destruct H as [q e H|]; constructor.
      apply (node_frame (nw_server w')); [done..|]. intros E. apply Hne. by eapply Rd.
  - assert (forall j e, <[i := z]> l !! j = Some (Some e) -> exists e', l !! j = Some (Some e') /\ sc_fd e'.1 = sc_fd e.1) as Hback.
    { intros j e Hj. destruct (decide (i = j)) as [<-|Hne].
      - rewrite list_lookup_insert_eq in Hj by done. injection Hj as ->. exists x. split; [done|]. symmetry. by apply Hfd.
      - rewrite list_lookup_insert_ne in Hj by done. by exists e. }
    intros j1 j2 d1 d2 H1 H2 E. destruct (Hback _ _ H1) as (e1 & G1 & F1). destruct (Hback _ _ H2) as (e2 & G2 & F2).
    eapply Rd; [done..|congruence].
Qed.

(** Nothing at the server changes. *)
Lemma net_update_local w a l i nd nd' x x' : net_rep w (a, l) -> nw_nodes w !! i = Some (Some nd) -> l !! i = Some (Some x) ->
  node_rep a nd' x' -> sc_fd x'.1 = sc_fd x.1 -> net_rep (set_node w i (Some nd')) (a, <[i := Some x']> l).
Proof.
  intros R Hnd Hx Hn Hfd. apply (net_update w _ a l i nd x (Some nd') (Some x') RIgnored R Hnd Hx); try done.
  - apply R.
  - apply R.
  - by constructor.
  - by intros z [= <-].
Qed.

(** ** The effect of a call *)

Lemma take_effect_ok call a c st a' c' : take_effect call a c = (st, a', c') ->
  (forall s, sv_rep s a -> agree (sc_fd c) a (sc_login c) (sc_windows c) -> channel_ok a c -> coherent a' ->
     agree (sc_fd c') a' (sc_login c') (sc_windows c') /\ channel_ok a' c') /\
  sc_fd c' = sc_fd c /\ sc_id c' = sc_id c /\ a' = (answer (sc_fd c) call a).1 /\
  st = answer_status (answer (sc_fd c) call a).2 /\ sc_login c' = login_effect call st (sc_login c) /\
  (sc_windows c', sc_os c') = window_effect (sc_id c) call st (address a' call).1 (address a' call).2 (sc_login c).2
    (sc_windows c) (sc_os c).
Proof.
  unfold take_effect. destruct (spec_call _ _ _ _) as [st1 [[[a1 lu] es] o]] eqn:E. intros [= -> -> <-].
  cbn [sc_fd sc_id sc_login sc_windows sc_os]. split.
  - intros s R A Ch C. pose proof (agree_call (sc_fd c) (sc_id c) call a (sc_login c) (sc_windows c) (sc_os c)
      (sv_has_user s a (sc_fd c) R) A) as A1. rewrite E in A1. split; [done|].
    eapply channel_call; [exact E|done| |exact A|exact A1|by destruct c].
    assert (a' = (answer (sc_fd c) call a).1) as ->
      by (unfold spec_call in E; destruct (answer (sc_fd c) call a); by injection E).
    destruct (answer_request (sc_fd c) call a) as [-> | ->]; [apply request_addresses|apply same_refl].
  - unfold spec_call in E. destruct (answer (sc_fd c) call a) as [a2 r]. injection E as <- <- <- <- <-. cbn [fst snd].
    do 5 (split; [done|]). symmetry. apply surjective_pairing.
Qed.

(** The step of [World]. *)
Lemma settled_lookup (a : astate) (l : list (option (sclient * sphase))) i x :
  l !! i = Some x -> (settled (a, l)).2 !! i = Some (fst <$> x).
Proof. intros H. unfold settled. cbn [snd]. by rewrite list_lookup_fmap, H. Qed.

Lemma settled_insert (a a' : astate) (l : list (option (sclient * sphase))) i x :
  settled (a', <[i := x]> l) = (a', <[i := fst <$> x]> (settled (a, l)).2).
Proof. unfold settled. cbn [fst snd]. by rewrite list_fmap_insert. Qed.

Lemma settled_same (a : astate) l i c ph ph' : l !! i = Some (Some (c, ph)) ->
  settled (a, <[i := Some (c, ph')]> l) = settled (a, l).
Proof.
  intros H. rewrite (settled_insert a a). pose proof (settled_lookup a l i _ H) as Hs. cbn [fmap option_fmap option_map fst] in *.
  by rewrite list_insert_id.
Qed.

Lemma settled_call a l i c ph ph' call st a' c' : l !! i = Some (Some (c, ph)) -> take_effect call a c = (st, a', c') ->
  spec_world_do (WCall i call) (settled (a, l)) = (Some st, settled (a', <[i := Some (c', ph')]> l)).
Proof.
  intros H E. rewrite (settled_insert a a'). apply (settled_lookup a) in H. unfold spec_world_do.
  destruct (settled (a, l)) as [b m] eqn:Es. assert (b = a) as -> by (by injection Es). cbn [snd] in *. rewrite H.
  cbn [fmap option_fmap option_map fst]. unfold take_effect in E.
  destruct (spec_call _ _ _ _) as [st1 [[[a1 lu] es] o]]. by injection E as -> -> <-.
Qed.

(** ** One step *)

Lemma node_socket_ok {P} (peer : P -> bytes -> option (P * bytes)) PI `{!Peer peer PI} p a nd x : node_rep a nd x -> PI p ->
  conn_ok (PI := PI) (MkSocket p [] (nd_send nd) (nd_recv nd) false) /\ reliable (MkSocket p [] (nd_send nd) (nd_recv nd) false).
Proof. intros R Hp. split; [split; [done|constructor]|]. split; [apply (nd_ok_send _ _ _ R)|apply (nd_ok_recv _ _ _ R)]. Qed.

(** A call that is started sends its frame, if it has one. *)
Lemma start_call buf call a nd c : node_rep a nd (c, SIdle) -> idle_rep nd c -> call_names call ->
  CHAT_MAX_IP_STR_LEN <= blen buf ->
  exists st s nd', run_call recorder [] buf call nd = Some (st, s, nd') /\ remote s = default [] (call_frame call) /\
    (call_frame call = None -> exists c', take_effect call a c = (st, a, c') /\ idle_rep nd' c' /\
      nd_conn nd' = nd_conn nd /\ nd_phase nd' = Idle /\ nd_send nd' = nd_send nd /\ nd_recv nd' = nd_recv nd /\ alloc_ok (nd_mem nd')).
Proof.
  intros R [Rc Hlog Hos] Hn Hb. set (s0 := MkSocket ([] : bytes) [] (nd_send nd) (nd_recv nd) false).
  destruct (node_socket_ok recorder (fun _ => True) [] a nd _ R I) as [O Hrel].
  destruct (rep_call (peer := recorder) (PI := fun _ => True) call (nd_client nd) (sc_id c) (sc_windows c) buf 0 s0 (nd_os nd)
    (nd_mem nd) Rc O (call_names_ok call Hn) Hb)
    as (st & ip' & p' & c1 & s1 & o1 & m1 & es1 & reply & E & A & _ & Hres & R1 & _ & Hlu & _ & _ & Hal).
  destruct (Hal (nd_ok_mem _ _ _ R)) as [Hm1 Hw]. exists st, s1, (MkNode c1 o1 m1 (send_plan s1) (recv_plan s1) (nd_conn nd) Idle).
  unfold run_call. fold s0. rewrite E. cbn [mbind option_bind]. split; [done|].
  destruct (call_frame call) as [fr|] eqn:Ef; cbn [call_asked default] in *.
  - split; [|done]. destruct A as (chunks & ans & F & _ & _ & _ & _ & Hr & _). destruct (Hr Hrel) as (_ & Hc & _).
    rewrite recorder_feed, Hc in F. by injection F.
  - destruct A as [-> ->]. split; [done|]. intros _. assert (st = failure) as -> by (destruct call; by injection Hres).
    destruct (take_effect call a c) as [[st2 a2] c2] eqn:Et. destruct (take_effect_ok _ _ _ _ _ _ Et) as (_ & Hfd & Hid & Ha & Hst & Hl & Hwin).
    unfold answer in Ha, Hst. rewrite Ef in Ha, Hst. cbn [fst snd answer_status] in Ha, Hst. subst a2 st2.
    change (window_effect (sc_id c) call failure _ _ _ _ _) with (sc_windows c, sc_os c) in Hwin.
    change (login_effect call failure (sc_login c)) with (sc_login c) in Hl. injection Hwin as Hwin Hwos.
    change (window_effect (sc_id c) call failure _ _ _ _ _) with (sc_windows c, nd_os nd) in Hw. injection Hw as -> ->.
    exists c2. split; [done|]. split; [|done].
    constructor; cbn [nd_client nd_os]; [by rewrite Hid, Hwin|rewrite Hl, <-Hlog; exact Hlu|congruence].
Qed.

(** A call whose reply is there returns. *)
Lemma finish_call buf call sent ans a nd c st : node_rep a nd (c, SDone call st) -> call_frame call = Some sent -> call_names call ->
  reply_ok ans -> done_rep nd call ans st c -> CHAT_MAX_IP_STR_LEN <= blen buf ->
  exists s nd', run_call canned (blen sent, [], ans) buf call nd = Some (st, s, nd') /\ idle_rep nd' c /\
    nd_conn nd' = nd_conn nd /\ nd_phase nd' = Idle /\ (forall i, 0 < nd_send nd' i) /\ (forall i, 0 <= nd_recv nd' i) /\
    alloc_ok (nd_mem nd').
Proof.
  intros R Ef Hn [Hab Hone] (es0 & ad & Rc & Hl & Hw & Hcall) Hb.
  set (s0 := MkSocket (blen sent, [] : bytes, ans) [] (nd_send nd) (nd_recv nd) false).
  destruct (node_socket_ok canned (fun x => is_byte_list x.2) (blen sent, [], ans) a nd _ R Hab) as [O Hrel].
  destruct (rep_call (peer := canned) (PI := fun x => is_byte_list x.2) call (nd_client nd) (sc_id c) es0 buf 0 s0 (nd_os nd)
    (nd_mem nd) Rc O (call_names_ok call Hn) Hb)
    as (st1 & ip' & p' & c1 & s1 & o1 & m1 & es1 & reply & E & A & _ & Hres & R1 & _ & Hlu & _ & _ & Hal).
  rewrite Ef in A. cbn [call_asked] in A. destruct (request_frame call sent Hn Ef) as (Hone' & Hsb & Hsl & _).
  assert (0 < blen sent) as Hpos by (destruct sent as [|? [|? ?]]; [done..|unfold blen; cbn [length]; lia]).
  destruct (asked_one canned _ (fun _ r => r = ans) s0 sent s1 reply A Hrel eq_refl Hsb Hsl) as (r & -> & -> & _ & (Hs & Hr) & _).
  { intros chunks Hch Hc. eexists _, ans. split; [|done]. apply canned_feed; [|done|by rewrite Hc].
    eapply Forall_impl; [exact Hch|]. cbn beta. tauto. }
  destruct (Hcall buf 0 Hb) as (ip & p & Eres & Hadr). rewrite Eres in Hres. injection Hres as -> -> ->.
  destruct (Hal (nd_ok_mem _ _ _ R)) as [Hm1 Hw1].
  eexists s1, _. unfold run_call. fold s0. rewrite E. cbn [mbind option_bind]. split; [done|].
  assert ((sc_windows c, sc_os c) = (es1, o1)) as Ew.
  { rewrite Hw, Hw1. unfold window_effect. destruct (st =? 0) eqn:E0; [|done]. bprop.
    destruct call; try done; cbn [negb]; by rewrite <-(Hadr E0 I). }
  injection Ew as Ew Eo. split; [|done].
  constructor; cbn [nd_client nd_os]; [by rewrite Ew|by rewrite Hl|done].
Qed.

Lemma net_lookup w a l i : net_rep w (a, l) ->
  match l !! i with
  | Some (Some x) => exists nd, nw_nodes w !! i = Some (Some nd) /\ node_rep a nd x
  | Some None => nw_nodes w !! i = Some None
  | None => nw_nodes w !! i = None
  end.
Proof.
  intros [_ _ Rn _]. cbn [fst snd] in *. destruct (l !! i) as [[x|]|] eqn:E.
  - destruct (Forall2_lookup_r _ _ _ _ _ Rn E) as (y & Hy & H). inversion H as [nd ? R|]; subst. by exists nd.
  - destruct (Forall2_lookup_r _ _ _ _ _ Rn E) as (y & Hy & H). by inversion H; subst.
  - apply lookup_ge_None. apply lookup_ge_None in E. by erewrite Forall2_length.
Qed.

(** What a step has to do: what the specification says. *)
Definition steps (buf : bytes) (x : net_step) (w : net_world) (y : snet) : Prop :=
  let '(r, ws, y') := spec_net_do x y in
  exists w', net_do buf x w = Some (r, w') /\ net_rep w' y'.

(** A step that is not possible. *)
Lemma steps_not buf x w y : net_rep w y -> spec_net_do x y = (None, [], y) -> net_do buf x w = Some (None, w) -> steps buf x w y.
Proof. intros R Es E. unfold steps. rewrite Es. by exists w. Qed.

Lemma rep_ncall buf i call w a l : CHAT_MAX_IP_STR_LEN <= blen buf -> net_rep w (a, l) -> call_names call ->
  steps buf (NCall i call) w (a, l).
Proof.
  intros Hb R Hn. pose proof (net_lookup w a l i R) as H. destruct (l !! i) as [[[c ph]|]|] eqn:El;
    [|by apply steps_not; [|cbn [spec_net_do net_do]; rewrite ?El, ?H..]..].
  destruct H as (nd & Hnd & Rn). pose proof (nd_ok_phase _ _ _ Rn) as P. unfold phase_rep in P. cbn [fst snd] in P.
  destruct (nd_phase nd) as [|call0 sent k ans] eqn:Eph; destruct ph; try done;
    try (by apply steps_not; [|cbn [spec_net_do net_do]; rewrite ?El, ?Hnd, ?Eph..]).
  destruct P as [Hp Ri]. destruct (start_call buf call a nd c Rn Ri Hn Hb) as (st & s & nd' & E & Hs & Hnone).
  unfold steps. cbn [spec_net_do net_do]. rewrite El, Hnd, Eph, E. cbn [mbind option_bind]. rewrite Hs.
  destruct (call_frame call) as [fr|] eqn:Ef; cbn [default id].
  - destruct (request_frame call fr Hn Ef) as (Hone & _). destruct fr as [|b fr0] eqn:Efr; [done|]. rewrite <-Efr in *.
    eexists. split; [done|].
    eapply (net_update_local w a l i nd _ (c, SIdle)); [done|done|done| |done]. destruct Rn. constructor; try done.
    unfold phase_rep. cbn [set_phase nd_phase fst snd nd_conn]. do 4 (split; [done|]).
    split; [rewrite Efr; cbn; lia|]. split; [done|]. split; [done|]. by destruct Ri.
  - destruct (Hnone eq_refl) as (c' & Et & Ri' & Ec & Eph' & Esd & Erc & Hm). rewrite Et.
    destruct (take_effect_ok _ _ _ _ _ _ Et) as (Hok & Hfd & _).
    destruct (Hok _ (nr_server _ _ R) (nd_agree _ _ _ Rn) (nd_channel _ _ _ Rn) (sv_coherent _ _ (nr_server _ _ R))) as [A' Ch'].
    eexists. split; [done|].
    eapply (net_update_local w a l i nd _ (c, SIdle)); [done|done|done| |by cbn]. destruct Rn.
    constructor; cbn [fst snd] in *; rewrite ?Ec, ?Esd, ?Erc, ?Hfd; try done. by rewrite Hfd in A'.
    unfold phase_rep. by rewrite Eph', Ec.
Qed.

(** The bytes that arrive: part of the request, or its end. *)
Lemma rep_chunk a w nd c call sent k n : sv_rep (nw_server w) a -> alloc_ok (nw_mem w) -> node_rep a nd (c, SBusy call (length sent - k)) ->
  call_frame call = Some sent -> call_names call -> pending (nd_conn nd) = take k sent -> (0 < n)%nat -> (k + n <= length sent)%nat ->
  exists r, remote_ok r (if (k + n =? length sent)%nat then (spec_request a (sc_fd c) (request_of call)).1 else a) /\
    server_peer (remote_of w nd) (take n (drop k sent))
      = Some (r, if (k + n =? length sent)%nat then concat (spec_request a (sc_fd c) (request_of call)).2 else []) /\
    fd (sv_conn r) = sc_fd c /\ pending (sv_conn r) = (if (k + n =? length sent)%nat then [] else take (k + n) sent).
Proof.
  intros Rs Rm Rn Ef Hn Hp Hpos Hle. destruct (request_frame call sent Hn Ef) as (Hone & Hsb & Hsl & Hreq).
  assert (remote_ok (remote_of w nd) a) as Rr.
  { constructor; cbn; [done|apply (nd_ok_conn _ _ _ Rn)| |done]. rewrite (nd_ok_fd _ _ _ Rn). apply (nd_ok_range _ _ _ Rn). }
  assert (length (take n (drop k sent)) = n) as Hlen by (rewrite length_take, length_drop; lia).
  pose proof (rep_peer (remote_of w nd) a (take n (drop k sent)) Rr) as H. cbn [remote_of sv_conn] in H.
  rewrite Hp, take_drop_app, (nd_ok_fd _ _ _ Rn) in H. cbn [fst] in H.
  assert (is_byte_list (take n (drop k sent))) as Hcb by (by apply Forall_take, Forall_drop).
  specialize (H Hcb). unfold blen in H at 1 2. rewrite Hlen in H. unfold blen in Hsl.
  assert (0 < Z.of_nat n <= CHAT_MAX_MSG_SIZE) as Hsz by lia. specialize (H Hsz).
  destruct (Nat.eqb_spec (k + n) (length sent)) as [E|E].
  - rewrite E, firstn_all, (split_one_frame _ Hone) in H. cbn [spec_msgs] in H. rewrite Hreq in H.
    destruct (spec_request a (sc_fd c) (request_of call)) as [a' rs]. cbn [fst snd] in *. rewrite app_nil_r in H.
    destruct H as (r & E' & R' & F' & P'). by exists r.
  - rewrite split_unfinished in H by (apply unfinished_take; [done|lia]). cbn [spec_msgs fst snd concat] in H.
    destruct H as (r & E' & R' & F' & P'). by exists r.
Qed.

(** A call whose request has arrived will return what the server has answered. *)
Lemma answered_call s call a c sent st a' c' nd : take_effect call a c = (st, a', c') -> call_frame call = Some sent ->
  sv_rep s a -> (exists s', sv_rep s' (spec_request a (sc_fd c) (request_of call)).1) ->
  idle_rep nd c ->
  a' = (spec_request a (sc_fd c) (request_of call)).1 /\
  exists r, (spec_request a (sc_fd c) (request_of call)).2 = [r] /\ reply_ok r /\ done_rep nd call r st c'.
Proof.
  intros Et Ef Rs [s' R'] [Rc Hlog Hos].
  destruct (take_effect_ok _ _ _ _ _ _ Et) as (_ & Hfd & Hid & Ha & Hst & Hl & Hw). unfold answer in Ha, Hst. rewrite Ef in Ha, Hst.
  pose proof (spec_replies s a (sc_fd c) (request_of call) Rs) as Hok. destruct (spec_answer (sc_fd c) call a) as (r & Er & _).
  assert (a' = (spec_request a (sc_fd c) (request_of call)).1 /\ st = answer_status (Some r)) as [-> ->].
  { destruct (spec_request a (sc_fd c) (request_of call)) as [a1 rs]. cbn [fst snd] in *. by subst rs. }
  split; [done|]. exists r. split; [done|]. rewrite Er in Hok. apply Forall_cons_1 in Hok as [Hok _]. split; [done|].
  exists (sc_windows c), (address (spec_request a (sc_fd c) (request_of call)).1 call).
  rewrite Hid, Hos, Hl, <-Hlog in *. split; [done|]. split; [done|]. split; [exact Hw|].
  intros oip p0 Ho. destruct (answer_result s' (sc_fd c) call a oip p0 R' Ho) as (r1 & ip & p & Er1 & Hc & Had).
  rewrite Er in Er1. injection Er1 as <-. by exists ip, p.
Qed.

Lemma rep_narrive buf i n w a l : net_rep w (a, l) -> steps buf (NArrive i n) w (a, l).
Proof.
  intros R. pose proof (net_lookup w a l i R) as H. destruct (l !! i) as [[[c ph]|]|] eqn:El;
    [|by apply steps_not; [|cbn [spec_net_do net_do]; rewrite ?El, ?H..]..].
  destruct H as (nd & Hnd & Rn). pose proof (nd_ok_phase _ _ _ Rn) as P. unfold phase_rep in P. cbn [fst snd] in P.
  destruct (nd_phase nd) as [|call sent k ans] eqn:Eph; destruct ph as [|call' rest|call' st]; try done;
    try (by apply steps_not; [|cbn [spec_net_do net_do]; rewrite ?El, ?Hnd, ?Eph..]); cycle 1.
  { destruct P as (_ & _ & _ & -> & _). apply steps_not; [done|by cbn [spec_net_do]; rewrite El|].
    cbn [net_do]. rewrite Hnd, Eph. destruct (1 <=? n)%nat eqn:E1; [|done]. apply Nat.leb_le in E1.
    by rewrite (proj2 (Nat.leb_gt _ _)) by lia. }
  destruct P as (-> & Ef & Hn & -> & Hrest & Hk & Hp & Ri). unfold steps. cbn [spec_net_do net_do]. rewrite El, Hnd, Eph.
  destruct (1 <=? n)%nat eqn:E1; [apply Nat.leb_le in E1|by exists w]. cbn [andb].
  destruct (n <=? rest)%nat eqn:E2; cycle 1.
  { apply Nat.leb_gt in E2. rewrite (proj2 (Nat.leb_gt _ _)) by lia. by exists w. }
  apply Nat.leb_le in E2. rewrite (proj2 (Nat.leb_le _ _)) by lia.
  replace rest with (length sent - k)%nat in * by lia.
  destruct (rep_chunk a w nd c call sent k n (nr_server _ _ R) (nr_mem _ _ R) Rn Ef Hn Hp) as (r & Rr & E & Hfd & Hpend); [lia|lia|].
  rewrite E. cbn [mbind option_bind app]. replace (n =? length sent - k)%nat with (k + n =? length sent)%nat
    by (destruct (Nat.eqb_spec (k + n) (length sent)), (Nat.eqb_spec n (length sent - k)); (done || lia)).
  destruct (Nat.eqb_spec (k + n) (length sent)) as [Ek|Ek].
  - destruct (take_effect call a c) as [[st a'] c'] eqn:Et. pose proof (take_effect_ok _ _ _ _ _ _ Et) as (Hok & Hfd' & _).
    destruct (answered_call (nw_server w) call a c sent st a' c' nd Et Ef (nr_server _ _ R)) as (Ha & rep & Er & Hrep & Hd);
      [eexists; apply (ro_state _ _ Rr)|done|].
    destruct (Hok _ (nr_server _ _ R) (nd_agree _ _ _ Rn) (nd_channel _ _ _ Rn)) as [A' Ch'];
      [rewrite Ha; eapply sv_coherent; apply (ro_state _ _ Rr)|].
    eexists. split; [done|].
    rewrite Ha in A', Ch'. rewrite Ha, Er. cbn [concat]. rewrite app_nil_r.
    eapply (net_update w _ a l i nd (c, SBusy call _) _ _ (request_of call)); [done..|apply (ro_state _ _ Rr)|apply (ro_mem _ _ Rr)|done| |by intros z [= <-]].
    constructor. destruct Rn. constructor; cbn [fst snd set_conn nd_conn nd_send nd_recv nd_mem] in *; try done;
      [apply (ro_conn _ _ Rr)|by rewrite Hfd'|by rewrite Hfd'].
  - eexists. split; [done|].
    change a with (spec_request a (sc_fd c) RIgnored).1.
    eapply (net_update w _ a l i nd (c, SBusy call _) _ _ RIgnored); [done..|apply (ro_state _ _ Rr)|apply (ro_mem _ _ Rr)|done| |by intros z [= <-]].
    constructor. destruct Rn. constructor; cbn [fst snd set_conn nd_conn nd_send nd_recv nd_mem] in *; try done;
      [apply (ro_conn _ _ Rr)|].
    unfold phase_rep. cbn [set_conn nd_phase nd_conn]. do 4 (split; [done|]). split; [lia|]. split; [lia|]. split; [done|].
    by destruct Ri.
Qed.

Lemma rep_nfinish buf i w a l : CHAT_MAX_IP_STR_LEN <= blen buf -> net_rep w (a, l) -> steps buf (NFinish i) w (a, l).
Proof.
  intros Hb R. pose proof (net_lookup w a l i R) as H. destruct (l !! i) as [[[c ph]|]|] eqn:El;
    [|by apply steps_not; [|cbn [spec_net_do net_do]; rewrite ?El, ?H..]..].
  destruct H as (nd & Hnd & Rn). pose proof (nd_ok_phase _ _ _ Rn) as P. unfold phase_rep in P. cbn [fst snd] in P.
  destruct (nd_phase nd) as [|call sent k ans] eqn:Eph; destruct ph as [|call' rest|call' st]; try done;
    try (by apply steps_not; [|cbn [spec_net_do net_do]; rewrite ?El, ?Hnd, ?Eph..]).
  { destruct P as (_ & _ & _ & -> & _). by apply steps_not; [|cbn [spec_net_do net_do]; rewrite ?El, ?Hnd, ?Eph..]. }
  destruct P as (-> & Ef & Hn & _ & Hrep & Hp & Hd). unfold steps. cbn [spec_net_do net_do]. rewrite El, Hnd, Eph.
  rewrite (complete_one_frame _ (proj2 Hrep)).
  destruct (finish_call buf call sent ans a nd c st Rn Ef Hn Hrep Hd Hb) as (s & nd' & E & Ri & Ec & Eph' & Hsd & Hrc & Hm).
  rewrite E. cbn [mbind option_bind]. eexists. split; [done|].
  eapply (net_update_local w a l i nd _ (c, SDone call st)); [done|done|done| |done]. destruct Rn.
  constructor; cbn [fst snd] in *; rewrite ?Ec; try done. unfold phase_rep. by rewrite Eph', Ec.
Qed.

Lemma rep_nquit buf i w a l : net_rep w (a, l) -> steps buf (NQuit i) w (a, l).
Proof.
  intros R. pose proof (net_lookup w a l i R) as H. destruct (l !! i) as [[[c ph]|]|] eqn:El;
    [|by apply steps_not; [|cbn [spec_net_do net_do]; rewrite ?El, ?H..]..].
  destruct H as (nd & Hnd & Rn). pose proof (nd_ok_phase _ _ _ Rn) as P. unfold phase_rep in P. cbn [fst snd] in P.
  destruct (nd_phase nd) as [|call sent k ans] eqn:Eph; destruct ph as [|call' rest|call' st]; try done;
    try (by apply steps_not; [|cbn [spec_net_do net_do]; rewrite ?El, ?Hnd, ?Eph..]).
  destruct P as [Hp Ri]. unfold steps. cbn [spec_net_do net_do]. rewrite El, Hnd, Eph.
  rewrite (rep_mng_destroy _ _ _ _ _ _ (id_client _ _ Ri)). cbn [mbind option_bind].
  destruct (rep_hang_up (remote_of w nd) a) as (r & -> & (Rr & _ & _ & _ & _ & Hm)).
  { constructor; cbn; [apply R|apply (nd_ok_conn _ _ _ Rn)| |apply R]. rewrite (nd_ok_fd _ _ _ Rn). apply (nd_ok_range _ _ _ Rn). }
  cbn [mbind option_bind remote_of sv_conn] in *. rewrite (nd_ok_fd _ _ _ Rn) in Rr. cbn [fst] in Rr.
  eexists. split; [done|]. unfold spec_disconnect in *.
  eapply (net_update w _ a l i nd (c, SIdle) None None RLogout); try done. constructor.
Qed.

Definition net_names (x : net_step) : Prop := match x with NCall _ call => call_names call | _ => True end.

#[export] Instance net_names_dec x : Decision (net_names x).
Proof. destruct x; cbn [net_names]; apply _. Defined.

Lemma rep_net_do buf x w y : CHAT_MAX_IP_STR_LEN <= blen buf -> net_rep w y -> net_names x -> steps buf x w y.
Proof.
  intros Hb R Hn. destruct y as [a l]. destruct x as [i call|i n|i|i];
    [by apply rep_ncall|by apply rep_narrive|by apply rep_nfinish|by apply rep_nquit].
Qed.

Lemma rep_net_run buf xs w y : CHAT_MAX_IP_STR_LEN <= blen buf -> net_rep w y -> Forall net_names xs ->
  exists w', net_run buf xs w = Some ((spec_net_run xs y).1.1, w') /\ net_rep w' (spec_net_run xs y).2.
Proof.
  intros Hb R Hn. revert w y R. induction Hn as [|x xs Hx Hn IH]; intros w y R; [by exists w|].
  pose proof (rep_net_do buf x w y Hb R Hx) as H. unfold steps in H. cbn [spec_net_run net_run].
  destruct (spec_net_do x y) as [[r ws] y1]. destruct H as (w1 & E1 & R1). specialize (IH w1 y1 R1).
  destruct (spec_net_run xs y1) as [[rs ws'] y2]. destruct IH as (w2 & E2 & R2). exists w2.
  rewrite E1. cbn [mbind option_bind]. by rewrite E2.
Qed.

(** ** Every call takes effect once, between its start and its return *)

(** The statuses client [i] was returned, those its calls had when they took
    effect, and that of a call that has taken effect and not returned. *)
Definition returned_to (i : nat) (rs : list (option (nat * Z))) : list Z :=
  omap (fun r => match r with Some (j, st) => if (j =? i)%nat then Some st else None | None => None end) rs.

Definition effects_of (i : nat) (ws : list world_step) (sts : list (option Z)) : list Z :=
  omap (fun x => match x with (WCall j _, Some st) => if (j =? i)%nat then Some st else None | _ => None end) (zip ws sts).

Definition under_way (i : nat) (y : snet) : list Z :=
  match y.2 !! i with Some (Some (_, SDone _ st)) => [st] | _ => [] end.

Lemma under_way_insert a l i j z ph : l !! j = Some ph ->
  under_way i (a, <[j := z]> l)
  = if decide (i = j) then match z with Some (_, SDone _ st) => [st] | _ => [] end else under_way i (a, l).
Proof.
  intros H. unfold under_way. cbn [snd]. case_decide as D.
  - subst. rewrite list_lookup_insert_eq by (by eapply lookup_lt_Some). by destruct z as [[? []]|].
  - by rewrite list_lookup_insert_ne.
Qed.

(** A step of the specification is the steps of [World] it stands for. *)
Lemma step_world x y : let '(r, ws, y') := spec_net_do x y in
  exists sts, spec_world_run ws (settled y) = (sts, settled y') /\ length sts = length ws /\
    forall i, under_way i y ++ effects_of i ws sts = returned_to i [r] ++ under_way i y'.
Proof.
  destruct y as [a l]. assert (forall x, (exists sts, spec_world_run [] (settled (a, l)) = (sts, settled x) /\ length sts = 0%nat /\
    forall i, under_way i (a, l) ++ effects_of i [] sts = returned_to i [None] ++ under_way i x) <->
    settled (a, l) = settled x /\ forall i, under_way i (a, l) = under_way i x) as Hnone.
  { intros z. cbn [spec_world_run]. split.
    - intros (sts & E & _ & H). pose proof (f_equal fst E) as E1. cbn [fst] in E1. subst sts. split; [exact (f_equal snd E)|]. intros i.
      specialize (H i). cbn in H. by rewrite app_nil_r in H.
    - intros [-> H]. exists []. split; [done|]. split; [done|]. intros i. rewrite <-H. cbn. apply app_nil_r. }
  destruct x as [j call|j n|j|j]; cbn [spec_net_do].
  all: destruct (l !! j) as [[[c ph]|]|] eqn:El; [|by apply Hnone..].
  all: destruct ph as [|call' rest|call' st]; try (by apply Hnone).
  - destruct (call_frame call) as [fr|].
    + apply Hnone. split; [by erewrite settled_same|]. intros i. rewrite (under_way_insert _ _ _ _ _ _ El).
      case_decide; [subst; unfold under_way; cbn; by rewrite El|done].
    + destruct (take_effect call a c) as [[st a'] c'] eqn:Et. exists [Some st]. cbn [spec_world_run].
      rewrite (settled_call a l j c SIdle SIdle call st a' c' El Et). split; [done|]. split; [done|]. intros i.
      rewrite (under_way_insert _ _ _ _ _ _ El). unfold under_way, effects_of, returned_to. cbn.
      destruct (Nat.eqb_spec j i) as [->|]; [rewrite El, decide_True by done; done|].
      by rewrite decide_False, app_nil_r by congruence.
  - destruct (_ && _); [|by apply Hnone]. destruct (n =? rest)%nat; cycle 1.
    { apply Hnone. split; [by erewrite settled_same|]. intros i. rewrite (under_way_insert _ _ _ _ _ _ El).
      case_decide; [subst; unfold under_way; cbn; by rewrite El|done]. }
    destruct (take_effect call' a c) as [[st a'] c'] eqn:Et. exists [Some st]. cbn [spec_world_run].
    rewrite (settled_call a l j c _ (SDone call' st) call' st a' c' El Et). split; [done|]. split; [done|]. intros i.
    rewrite (under_way_insert _ _ _ _ _ _ El). unfold under_way, effects_of, returned_to. cbn.
    destruct (Nat.eqb_spec j i) as [->|]; [rewrite El, decide_True by done; done|].
    by rewrite decide_False, app_nil_r by congruence.
  - exists []. cbn [spec_world_run]. split; [by erewrite settled_same|]. split; [done|]. intros i.
    rewrite (under_way_insert _ _ _ _ _ _ El). unfold under_way, effects_of, returned_to. cbn.
    destruct (Nat.eqb_spec j i) as [->|]; [rewrite El, decide_True by done; done|].
    by rewrite decide_False, app_nil_r by congruence.
  - exists [None]. cbn [spec_world_run]. unfold spec_world_do. destruct (settled (a, l)) as [b m] eqn:Es.
    assert (b = a) as -> by (by injection Es). pose proof (settled_lookup a l j _ El) as Hs. rewrite Es in Hs.
    cbn [snd fmap option_fmap option_map fst] in Hs. rewrite Hs, (settled_insert a), Es. split; [done|]. split; [done|]. intros i.
    rewrite (under_way_insert _ _ _ _ _ _ El). unfold under_way, effects_of, returned_to. cbn.
    case_decide as D; [subst; by rewrite El|by rewrite app_nil_r].
Qed.

Lemma spec_world_run_app xs1 xs2 z : spec_world_run (xs1 ++ xs2) z
  = let '(s1, z1) := spec_world_run xs1 z in let '(s2, z2) := spec_world_run xs2 z1 in (s1 ++ s2, z2).
Proof.
  revert z. induction xs1 as [|x xs1 IH]; intros z; cbn [app spec_world_run]; [by destruct (spec_world_run xs2 z)|].
  destruct (spec_world_do x z) as [st z1]. rewrite IH. destruct (spec_world_run xs1 z1) as [s1 z2].
  by destruct (spec_world_run xs2 z2).
Qed.

Lemma run_world xs y : let '(rs, ws, y') := spec_net_run xs y in
  exists sts, spec_world_run ws (settled y) = (sts, settled y') /\ length sts = length ws /\
    forall i, under_way i y ++ effects_of i ws sts = returned_to i rs ++ under_way i y'.
Proof.
  revert y. induction xs as [|x xs IH]; intros y; cbn [spec_net_run].
  { exists []. split; [done|]. split; [done|]. intros i. apply app_nil_r. }
  pose proof (step_world x y) as H. destruct (spec_net_do x y) as [[r ws] y1]. destruct H as (s1 & E1 & L1 & U1).
  specialize (IH y1). destruct (spec_net_run xs y1) as [[rs ws'] y2]. destruct IH as (s2 & E2 & L2 & U2).
  exists (s1 ++ s2). rewrite spec_world_run_app, E1, E2. split; [done|]. split; [rewrite !length_app; lia|]. intros i.
  assert (effects_of i (ws ++ ws') (s1 ++ s2) = effects_of i ws s1 ++ effects_of i ws' s2) as ->
    by (unfold effects_of; by rewrite zip_with_app, omap_app).
  rewrite app_assoc, U1, <-app_assoc, U2. change (r :: rs) with ([r] ++ rs). unfold returned_to.
  by rewrite omap_app, <-app_assoc.
Qed.

(** A call that is under way has bytes to send or its reply to read. *)
Lemma net_progress w y i nd call sent k ans : net_rep w y -> nw_nodes w !! i = Some (Some nd) ->
  nd_phase nd = Busy call sent k ans -> (k < length sent)%nat \/ complete ans = true.
Proof.
  intros [_ _ Rn _] Hnd Eph. destruct (Forall2_lookup_l _ _ _ _ _ Rn Hnd) as (z & _ & H). inversion H as [? [c ph] R|]; subst.
  pose proof (nd_ok_phase _ _ _ R) as P. unfold phase_rep in P. rewrite Eph in P. cbn [fst snd] in P.
  destruct ph as [|call' rest|call' st]; [done| |].
  - destruct P as (_ & _ & _ & _ & ? & ? & _). left. lia.
  - destruct P as (_ & _ & _ & _ & [_ Hone] & _). right. by apply complete_one_frame.
Qed.

(** When no call is under way, the network is a world of [World]. *)
Definition world_of (w : net_world) : world :=
  MkWorld (nw_server w) (nw_fds w) (nw_mem w)
    (fmap (M := list) (fmap (M := option) (fun nd => MkPart (nd_client nd)
       (MkSocket (MkRemote (nd_conn nd) (nw_fds w) (nw_server w) (nw_mem w)) [] (nd_send nd) (nd_recv nd) false) (nd_os nd) (nd_mem nd)))
     (nw_nodes w)).

Definition at_rest (w : net_world) : Prop := Forall (fun nd => forall x, nd = Some x -> nd_phase x = Idle) (nw_nodes w).

Lemma net_world_rep w y : net_rep w y -> at_rest w -> world_rep (world_of w) (settled y).
Proof.
  destruct y as [a l]. intros [Rs Rm Rn Rd] Hrest. cbn [fst snd] in *. constructor; [done| |].
  - unfold world_of, settled. cbn [w_parts snd fst]. apply Forall2_fmap_2. apply Forall2_same_length_lookup.
    split; [by eapply Forall2_length|]. intros i x z Hx Hz. pose proof (Forall2_lookup_lr _ _ _ _ _ _ Rn Hx Hz) as H.
    destruct H as [nd [c ph] H|]; constructor. cbn [fst].
    assert (nd_phase nd = Idle) as Eph by (unfold at_rest in Hrest; rewrite Forall_forall in Hrest; by apply (Hrest _ (list_elem_of_lookup_2 _ _ _ Hx))).
    pose proof (nd_ok_phase _ _ _ H) as P. unfold phase_rep in P. rewrite Eph in P. destruct ph; [|done..].
    destruct P as [Hp [Rc Hl Ho]], H. cbn [fst snd] in *. constructor; try done.
    constructor; try done. constructor; [done|done| |done]. cbn. by rewrite nd_ok_fd0.
  - intros i j c c' Hi Hj E. unfold settled in Hi, Hj. cbn [snd] in Hi, Hj. rewrite list_lookup_fmap in Hi, Hj.
    destruct (l !! i) as [[x|]|] eqn:Ei; [|done..]. destruct (l !! j) as [[z|]|] eqn:Ej; [|done..]. cbn in Hi, Hj.
    injection Hi as <-. injection Hj as <-. by eapply Rd.
Qed.

(** A client program that has connected on descriptor [d] and done nothing. *)
Definition new_node (c : ClientMng) (d : Z) (sp rp : nat -> Z) (o : os) (m : mem) : node :=
  MkNode c o m sp rp (MkClient d (replicate (Z.to_nat RECV_BUFFER_SIZE) 0) 0) Idle.

Lemma new_node_rep a c id d sp rp o m : aS a !! d = None -> 0 <= d < FD_SETSIZE ->
  (forall i, 0 < sp i) -> (forall i, 0 <= rp i) -> cm_rep c id [] -> alloc_ok m -> logged_in c = 0 -> username c = [] ->
  node_rep a (new_node c d sp rp o m) (MkSclient d id (0, []) [] o ∅, SIdle).
Proof.
  intros Hd Hfd Hs Hr Rc Hm Hl Hu. constructor; try done.
  - apply client_ok_fresh; [done|]. by apply Forall_replicate.
  - unfold agree, user_at. cbn [fst sc_fd]. by rewrite Hd.
  - split; [done|]. constructor; [done| |done]. cbn. by rewrite Hl, Hu.
Qed.

(** ** Properties *)

(** C5: Calls in flight at the same time do not disturb each other.  Take any
    number of clients of one server, and let them start calls, let the bytes of
    all connections arrive in pieces of any size and in any order, let calls
    return when their reply is there, and clients end.  The run has no undefined
    behaviour, and is a run of [World]: there is an order of all calls and exits
    in which, done one after the other, they lead to the same state of the
    server and of every client.  In this order each call has its place when the
    last byte of its request arrives, so between its start and its return, and it
    returns the status it has there: what a client is returned, in order, are the
    statuses of its calls, up to the one under way.  No call waits for the server
    in vain: it has bytes on the way or its reply to read; only the windows of a
    group that was opened can keep its client waiting, which its log then says
    ([stuck]).  When nothing is under way the network
    is a world in order, to which everything proved of [World] applies. *)
Theorem calls_linearize buf xs w y : CHAT_MAX_IP_STR_LEN <= blen buf -> net_rep w y -> Forall net_names xs ->
  let '(rs, ws, y') := spec_net_run xs y in
  exists w' sts, net_run buf xs w = Some (rs, w') /\ net_rep w' y' /\
    spec_world_run ws (settled y) = (sts, settled y') /\ length sts = length ws /\
    (forall i, under_way i y ++ effects_of i ws sts = returned_to i rs ++ under_way i y') /\
    (forall i nd call sent k answer, nw_nodes w' !! i = Some (Some nd) -> nd_phase nd = Busy call sent k answer ->
       (k < length sent)%nat \/ complete answer = true) /\
    (at_rest w' -> world_rep (world_of w') (settled y')).
Proof.
  intros Hb R Hn. destruct (rep_net_run buf xs w y Hb R Hn) as (w' & E & R'). pose proof (run_world xs y) as H.
  destruct (spec_net_run xs y) as [[rs ws] y']. cbn [fst snd] in *. destruct H as (sts & Es & L & U).
  exists w', sts. do 5 (split; [done|]). split; [|by apply net_world_rep].
  intros i nd call sent k answer Hnd. by eapply net_progress.
Qed.

(** Two clients of the server of [demo_server], on descriptors 5 and 6.  The
    first starts to register a name, then the second the same name; the request
    of the second arrives first, in the middle of the other, so it is the one
    that has the name. *)
Definition demo_node (d : Z) : node := new_node demo_client d (fun _ => 3) (fun _ => 2) demo_os (Mem [] 0).
Definition demo_net (s : server) (m : mem) : net_world := MkNetWorld s ∅ m [Some (demo_node 5); Some (demo_node 6)].
Definition demo_snet : snet :=
  (MkA demo_users demo_socks ∅ initial_pairs,
   [Some (MkSclient 5 7 (0, []) [] demo_os ∅, SIdle); Some (MkSclient 6 7 (0, []) [] demo_os ∅, SIdle)]).

Definition demo_flight : list net_step :=
  [NCall 0 (CRegister [98] [113]); NArrive 0 3; NCall 1 (CRegister [98] [114]); NArrive 1 6; NArrive 0 3;
   NFinish 0; NFinish 1; NCall 1 (CLogin [98] [114]); NArrive 1 6; NQuit 0].

Lemma demo_net_rep : exists s0 m0, net_rep (demo_net s0 m0) demo_snet.
Proof.
  destruct demo_server as (s00 & m00 & s0 & m0 & _ & _ & R & Hm). exists s0, m0. constructor; [done|done| |].
  - apply Forall2_cons_2; [|apply Forall2_cons_2; [|constructor]]; apply Some_Forall2.
    all: apply new_node_rep; (done || exact demo_client_ok || constructor).
  - intros i j x z Hi Hj E. destruct i as [|[|i]], j as [|[|j]]; cbn in Hi, Hj; simplify_eq; done.
Qed.

Lemma calls_linearize_witness : exists s0 m0, net_rep (demo_net s0 m0) demo_snet /\
  (spec_net_run demo_flight demo_snet).1 =
    ([None; None; None; None; None; Some (0%nat, status_code ST_ERR_USER_EXISTS); Some (1%nat, 0); None; None; None],
     [WCall 1 (CRegister [98] [114]); WCall 0 (CRegister [98] [113]); WCall 1 (CLogin [98] [114]); WQuit 0]) /\
  under_way 1 (spec_net_run demo_flight demo_snet).2 = [0] /\
  let '(rs, ws, y') := spec_net_run demo_flight demo_snet in
  exists w' sts, net_run (replicate 16 0) demo_flight (demo_net s0 m0) = Some (rs, w') /\ net_rep w' y' /\
    spec_world_run ws (settled demo_snet) = (sts, settled y') /\ length sts = length ws /\
    (forall i, under_way i demo_snet ++ effects_of i ws sts = returned_to i rs ++ under_way i y') /\
    (forall i nd call sent k answer, nw_nodes w' !! i = Some (Some nd) -> nd_phase nd = Busy call sent k answer ->
       (k < length sent)%nat \/ complete answer = true) /\
    (at_rest w' -> world_rep (world_of w') (settled y')).
Proof.
  destruct demo_net_rep as (s0 & m0 & R). exists s0, m0. split; [exact R|]. split; [by vm_compute|]. split; [by vm_compute|].
  apply (calls_linearize (replicate 16 0) demo_flight (demo_net s0 m0) demo_snet); [by vm_compute|exact R|].
  apply (bool_decide_eq_true_1 _). by vm_compute.
Defined.
