(* ===== verification/ChatTools.v ===== *)
(** * The chat windows: [client/chat_sender.c], [client/chat_receiver.c]

    The two programs that run in the windows of a group.  What the kernel
    answers is an argument, what the programs do with their sockets and the
    message queue is a log.  The file proves that the windows the client opens
    read their arguments as the client meant them, report their process, and
    give back what they opened, and that what is typed in a sender is, piece by
    piece and under the user's name, what a receiver prints. *)

From Stdlib Require String.
From S2P Require Import Prelude Text Protocol GenDlist ClientGroups.
Import String.StringSyntax.

(** ** What the programs do *)

Inductive tool_event :=
| SetTtl (ttl : Z)
| SetInterface (addr : Z)
| Bind (ip : cstring) (port : Z)
| AddMembership (ip : cstring)
| DropMembership (ip : cstring)
| Announce (msqid mtype pid : Z)
| SendTo (ip : cstring) (port : Z) (payload : bytes)
| CloseFd (fd : Z).

(** [argv[i]] with [i < argc], and the arguments both programs share: the
    address, the port, the queue and the optional name. *)
Definition arg_name (argv : list cstring) : option (ptr cstring) :=
  if (length argv =? 5)%nat then
    a ← argv !! 4%nat;
    Some (match a with [] => NULL | _ => Some a end)
  else Some NULL.

Definition arg_msqid (argv : list cstring) : option Z :=
  if (4 <=? length argv)%nat then argv !! 3%nat ≫= atoi else Some (-1).

Definition wrong_count (argv : list cstring) : bool := ((length argv <? 3) || (5 <? length argv))%nat.

(** ** The sender *)

Definition MAX_LINE : Z := 1024.
Definition MAX_NAME : Z := 33.

(** What the kernel answers: descriptors or -1, whether a call succeeds, the
    address [getsockname] finds, the process id. *)
Record sender_answers := MkSenderAnswers {
  probe_fd : Z;
  probe_connect : bool;
  probe_name : bool;
  local_addr : Z;
  sender_fd : Z;
  ttl_ok : bool;
  interface_ok : bool;
  sender_getpid : Z;
  sendto_ok : nat -> bool
}.

(** [INADDR_ANY] is 0. *)
Definition lan_ip (k : sender_answers) : Z * list tool_event :=
  if probe_fd k <? 0 then (0, []) else
  if negb (probe_connect k) || negb (probe_name k) then (0, [CloseFd (probe_fd k)]) else
  (local_addr k, [CloseFd (probe_fd k)]).

(** What is sent for the string in [line]. *)
Definition payload_of (username : ptr cstring) (line : cstring) : cstring :=
  match username with
  | Some u =>
      let text := u ++ chars ": " ++ line in
      if strlen text >? 0 then snprintf (MAX_NAME + 2 + MAX_LINE) text else line
  | None => line
  end.

(** Every turn reads at least a character: the fuel is the length of the
    input. *)
Fixpoint send_lines (fuel : nat) (username : ptr cstring) (ip : cstring) (port : Z) (ok : nat -> bool) (input : bytes)
  : option (list tool_event) :=
  match fgets MAX_LINE input with
  | None => Some []
  | Some (l, rest) =>
      match fuel with
      | O => None
      | S fuel =>
          let payload := payload_of username (c_prefix l) in
          if negb (ok 0%nat) then Some [] else
          evs ← send_lines fuel username ip port (fun i => ok (S i)) rest;
          Some (SendTo ip port payload :: evs)
      end
  end.

(** [main] of [chat_sender.c]: the exit code and the log; [inet_pton] is an
    argument. *)
Definition sender_main (inet_pton : cstring -> bool) (argv : list cstring) (k : sender_answers) (input : bytes)
  : option (Z * list tool_event) :=
  if wrong_count argv then Some (1, []) else
  mcast_ip ← argv !! 1%nat;
  port ← argv !! 2%nat ≫= atoi;
  if (port <=? 0) || (port >? 65535) then Some (1, []) else
  msqid ← arg_msqid argv;
  username ← arg_name argv;
  let fd := sender_fd k in
  if fd <? 0 then Some (1, []) else
  if negb (ttl_ok k) then Some (1, [CloseFd fd]) else
  let '(iface, probe) := lan_ip k in
  let evs := SetTtl 1 :: probe in
  if negb (interface_ok k) then Some (1, evs ++ [CloseFd fd]) else
  let evs := evs ++ [SetInterface iface] in
  if negb (inet_pton mcast_ip) then Some (1, evs ++ [CloseFd fd]) else
  let evs := evs ++ (if msqid >=? 0 then [Announce msqid CHAT_CHILD_MTYPE_SENDER (sender_getpid k)] else []) in
  sent ← send_lines (length input) username mcast_ip (u16 port) (sendto_ok k) input;
  Some (0, evs ++ sent ++ [CloseFd fd]).

(** ** The receiver *)

Definition MAX_DGRAM : Z := 1500.

(** [datagrams]: what [recvfrom] finds, [None] for a failing call; when the
    list ends no more datagrams arrive and the program waits. *)
Record receiver_answers := MkReceiverAnswers {
  receiver_fd : Z;
  reuse_ok : bool;
  bind_ok : bool;
  membership_ok : bool;
  receiver_getpid : Z;
  datagrams : list (option bytes)
}.

(** The loop on the buffer of [MAX_DGRAM] + 1 bytes: whether [recvfrom] failed,
    and what was printed. *)
Fixpoint receive_loop (buf : bytes) (arriving : list (option bytes)) : option (bool * bytes) :=
  match arriving with
  | [] => Some (false, [])
  | None :: _ => Some (true, [])
  | Some d :: arriving =>
      let data := take (Z.to_nat MAX_DGRAM) d in
      buf ← buf_write buf 0 data;
      buf ← buf_set buf (blen data) 0;
      s ← c_str buf;
      '(failed, out) ← receive_loop buf arriving;
      Some (failed, s ++ out)
  end.

(** [main] of [chat_receiver.c]: the exit code, [None] while it waits, the log
    and what was printed. *)
Definition receiver_main (inet_pton : cstring -> bool) (buf : bytes) (argv : list cstring) (k : receiver_answers)
  : option (option Z * list tool_event * bytes) :=
  if wrong_count argv then Some (Some 1, [], []) else
  mcast_ip ← argv !! 1%nat;
  port ← argv !! 2%nat ≫= atoi;
  if (port <=? 0) || (port >? 65535) then Some (Some 1, [], []) else
  msqid ← arg_msqid argv;
  group_name ← arg_name argv;
  let fd := receiver_fd k in
  if fd <? 0 then Some (Some 1, [], []) else
  if negb (reuse_ok k) then Some (Some 1, [CloseFd fd], []) else
  if negb (inet_pton mcast_ip) then Some (Some 1, [CloseFd fd], []) else
  if negb (bind_ok k) then Some (Some 1, [CloseFd fd], []) else
  let evs := [Bind mcast_ip (u16 port)] in
  if negb (inet_pton mcast_ip) then Some (Some 1, evs ++ [CloseFd fd], []) else
  if negb (membership_ok k) then Some (Some 1, evs ++ [CloseFd fd], []) else
  let evs := evs ++ [AddMembership mcast_ip] in
  let evs := evs ++ (if msqid >=? 0 then [Announce msqid CHAT_CHILD_MTYPE_RECEIVER (receiver_getpid k)] else []) in
  '(failed, out) ← receive_loop buf (datagrams k);
  if failed : bool then Some (Some 0, evs ++ [DropMembership mcast_ip; CloseFd fd], out)
  else Some (None, evs, out).

(** ** What a window sends and prints *)

(** The datagrams and the closed descriptors of a log. *)
Definition payloads (evs : list tool_event) : list bytes := omap (fun e => match e with SendTo _ _ p => Some p | _ => None end) evs.
Definition closes (evs : list tool_event) : list Z := omap (fun e => match e with CloseFd fd => Some fd | _ => None end) evs.

Lemma payloads_app e1 e2 : payloads (e1 ++ e2) = payloads e1 ++ payloads e2.
Proof. apply omap_app. Qed.

Lemma closes_app e1 e2 : closes (e1 ++ e2) = closes e1 ++ closes e2.
Proof. apply omap_app. Qed.

(** The pieces [fgets] makes of a text: its lines, long ones cut. *)
Fixpoint pieces (fuel : nat) (input : bytes) : list bytes :=
  match fgets MAX_LINE input, fuel with
  | Some (l, rest), S fuel => l :: pieces fuel rest
  | _, _ => []
  end.

(** A piece is a line with its newline, or a part of a line that is as long as
    the buffer, or the end of the text. *)
Definition piece_ok (last : bool) (l : bytes) : Prop :=
  l <> [] /\ blen l < MAX_LINE /\
  ((exists l', l = l' ++ [10] /\ 10 ∉ l') \/ (10 ∉ l) /\ (blen l = MAX_LINE - 1 \/ last = true)).

Lemma fgets_piece input l rest : fgets MAX_LINE input = Some (l, rest) ->
  input = l ++ rest /\ piece_ok (bool_decide (rest = [])) l.
Proof.
  intros E. destruct (fgets_inv MAX_LINE input l rest ltac:(done) E) as (Ei & _ & Hne & Hl & H).
  split; [done|]. split; [done|]. split; [done|]. destruct H as [H|[H1 [H2|H2]]]; [by left|right; tauto|right].
  split; [done|right]. by apply bool_decide_eq_true.
Qed.

(** The pieces are the text, whole and in order. *)
Lemma pieces_spec fuel input : (length input <= fuel)%nat ->
  concat (pieces fuel input) = input /\
  (forall a l b, pieces fuel input = a ++ l :: b -> piece_ok (bool_decide (b = [])) l).
Proof.
  revert input. induction fuel as [|fuel IH]; intros input Hf.
  { destruct input; [|cbn in Hf; lia]. split; [done|]. by intros [|??]. }
  cbn [pieces]. destruct (fgets MAX_LINE input) as [[l rest]|] eqn:E; cycle 1.
  { destruct input; [|done]. split; [done|]. by intros [|??]. }
  destruct (fgets_shorter MAX_LINE input l rest ltac:(done) E) as [Hs _].
  destruct (fgets_piece input l rest E) as [-> Hp]. destruct (IH rest) as [Hc Hr]; [lia|].
  split; [cbn [concat]; by rewrite Hc|]. intros a l1 b Ea. destruct a as [|x a]; cbn [app] in Ea.
  - injection Ea as -> <-. destruct Hp as (H1 & H2 & H3). split; [done|]. split; [done|].
    destruct H3 as [H3|[H3 H4]]; [by left|right]. split; [done|]. destruct H4 as [H4|H4]; [by left|right].
    apply bool_decide_eq_true in H4 as ->. by destruct fuel.
  - injection Ea as -> Ea. by apply (Hr a l1 b).
Qed.

(** ** Delivery *)

Lemma payload_fits u l : strlen u <= CHAT_MAX_USERNAME_LEN -> blen l < MAX_LINE ->
  payload_of (Some u) l = u ++ chars ": " ++ l /\ blen (u ++ chars ": " ++ l) < MAX_DGRAM.
Proof.
  unfold payload_of, MAX_LINE, MAX_DGRAM, MAX_NAME. chat_consts. intros Hu Hl.
  assert (strlen (chars ": ") = 2) as L2 by done.
  assert (strlen (u ++ chars ": " ++ l) = strlen u + 2 + blen l) as L by (rewrite !strlen_app, L2; unfold strlen, blen; lia).
  pose proof (blen_nonneg l). assert (0 <= strlen u) by (unfold strlen; lia). rewrite L.
  rewrite Z.gtb_ltb, (proj2 (Z.ltb_lt _ _)) by lia. rewrite snprintf_fits by lia. split; [done|].
  change (blen (u ++ chars ": " ++ l)) with (strlen (u ++ chars ": " ++ l)). lia.
Qed.

(** The loop of the sender ends, having sent an initial part of the text: all
    of it if every [sendto] succeeds. *)
Lemma send_lines_spec fuel user ip port ok input : (length input <= fuel)%nat ->
  exists n, send_lines fuel user ip port ok input
  = Some ((fun l => SendTo ip port (payload_of user (c_prefix l))) <$> take n (pieces fuel input)) /\
  ((forall i, ok i = true) -> take n (pieces fuel input) = pieces fuel input).
Proof.
  revert ok input. induction fuel as [|fuel IH]; intros ok input Hf; cbn [send_lines pieces].
  { destruct input; [by exists 0%nat|cbn in Hf; lia]. }
  destruct (fgets MAX_LINE input) as [[l rest]|] eqn:E; [|by exists 0%nat].
  destruct (fgets_shorter MAX_LINE input l rest ltac:(done) E) as [Hs _].
  destruct (ok 0%nat) eqn:Eok; cbn [negb]; [|exists 0%nat; split; [done|]; intros Hok; by rewrite Hok in Eok].
  destruct (IH (fun i => ok (S i)) rest) as (n & -> & Hall); [lia|]. exists (S n). split; [done|].
  intros Hok. cbn [take]. by rewrite Hall.
Qed.

(** One datagram in the buffer of the receiver. *)
Lemma receive_step buf d ds : blen buf = MAX_DGRAM + 1 ->
  exists buf', blen buf' = MAX_DGRAM + 1 /\
  receive_loop buf (Some d :: ds)
  = '(failed, out) ← receive_loop buf' ds; Some (failed, c_prefix (take (Z.to_nat MAX_DGRAM) d) ++ out).
Proof.
  intros Hb. cbn [receive_loop]. set (data := take (Z.to_nat MAX_DGRAM) d).
  assert (blen data <= MAX_DGRAM) as Hd by (unfold data, blen, MAX_DGRAM; rewrite length_take; lia).
  pose proof (blen_nonneg data). unfold buf_write. rewrite !(proj2 (Z.leb_le _ _)) by lia.
  cbn [andb mbind option_bind]. change (Z.to_nat 0) with 0%nat. rewrite take_0. cbn [app Nat.add].
  destruct (drop (length data) buf) as [|x r] eqn:E; apply (f_equal length) in E; rewrite length_drop in E.
  { unfold blen, MAX_DGRAM in *. cbn in E. lia. }
  unfold buf_set. rewrite (proj2 (Z.leb_le _ _)), (proj2 (Z.ltb_lt _ _))
    by (unfold blen; rewrite ?length_app; cbn [length]; lia).
  cbn [andb mbind option_bind]. unfold blen. rewrite Nat2Z.id, insert_app_r_alt, Nat.sub_diag by lia.
  cbn [insert list_insert]. change (u8 0) with 0. rewrite c_str_zero. cbn [mbind option_bind].
  exists (data ++ 0 :: r). split; [|done]. unfold blen in *. rewrite length_app. cbn [length] in *. lia.
Qed.

(** The datagrams before a failing call. *)
Fixpoint arrived (ds : list (option bytes)) : list bytes :=
  match ds with Some d :: ds => d :: arrived ds | _ => [] end.

(** The buffer is never left, whatever arrives, and every datagram is printed
    up to the first NUL. *)
Lemma receive_loop_spec buf ds : blen buf = MAX_DGRAM + 1 ->
  receive_loop buf ds = Some (bool_decide (None ∈ ds),
    concat ((fun d => c_prefix (take (Z.to_nat MAX_DGRAM) d)) <$> arrived ds)).
Proof.
  revert buf. induction ds as [|[d|] ds IH]; intros buf Hb.
  - cbn [receive_loop]. by rewrite bool_decide_eq_false_2 by apply not_elem_of_nil.
  - destruct (receive_step buf d ds Hb) as (buf' & Hb' & ->). rewrite IH by done. cbn [mbind option_bind arrived fmap list_fmap concat].
    do 2 f_equal. apply bool_decide_ext. rewrite elem_of_cons. naive_solver.
  - cbn [receive_loop]. rewrite bool_decide_eq_true_2; [done|]. apply elem_of_cons. by left.
Qed.

(** Datagrams that are short strings are printed whole. *)
Lemma receive_strings buf ds : blen buf = MAX_DGRAM + 1 -> Forall (fun d => is_cstring d /\ blen d <= MAX_DGRAM) ds ->
  receive_loop buf (Some <$> ds) = Some (false, concat ds).
Proof.
  intros Hb Hs. rewrite receive_loop_spec by done. do 2 f_equal.
  - apply bool_decide_eq_false_2. by intros (x & ? & _)%list_elem_of_fmap.
  - f_equal. induction Hs as [|d ds [Hc Hd] Hs IH]; [done|]. cbn [fmap list_fmap arrived].
    rewrite take_ge by (unfold blen in Hd; lia). by rewrite c_prefix_cstring, IH.
Qed.

(** ** Arguments *)

(** The words of the command the client starts a window with. *)
Definition window_argv (prog ip : cstring) (port id : Z) (nm : cstring) : list cstring :=
  [prog; ip; print_nat 10 port; print_int id; nm].

Definition name_of (nm : cstring) : ptr cstring := match nm with [] => NULL | _ => Some nm end.

(** They are read as they were printed. *)
Lemma window_args prog ip port id nm : is_u16 port -> 0 <= id < 2 ^ 31 ->
  let argv := window_argv prog ip port id nm in
  wrong_count argv = false /\ argv !! 1%nat = Some ip /\ argv !! 2%nat ≫= atoi = Some port /\
  arg_msqid argv = Some id /\ arg_name argv = Some (name_of nm).
Proof.
  intros Hp Hid argv. unfold is_u16 in Hp. split; [done|]. split; [done|]. split; [|split; [|done]].
  - unfold argv, window_argv. cbn [lookup list_lookup]. cbn [mbind option_bind]. apply atoi_print_nat. lia.
  - unfold argv, window_argv, arg_msqid. cbn [length Nat.leb lookup list_lookup mbind option_bind].
    by apply atoi_print_int.
Qed.

Lemma port_in_range port : 0 < port -> is_u16 port -> (port <=? 0) || (port >? 65535) = false /\ u16 port = port.
Proof.
  unfold is_u16. intros H0 Hp. rewrite Z.gtb_ltb, (proj2 (Z.leb_gt _ _)), (proj2 (Z.ltb_ge _ _)) by lia.
  split; [done|]. apply Z.mod_small. lia.
Qed.

(** What both programs have done when they are set up. *)
Definition sender_setup (pton : cstring -> bool) (ip : cstring) (k : sender_answers) : bool :=
  (0 <=? sender_fd k) && ttl_ok k && interface_ok k && pton ip.
Definition receiver_setup (pton : cstring -> bool) (ip : cstring) (k : receiver_answers) : bool :=
  (0 <=? receiver_fd k) && reuse_ok k && pton ip && bind_ok k && membership_ok k.

Lemma closes_probe k : closes (lan_ip k).2 = if 0 <=? probe_fd k then [probe_fd k] else [].
Proof.
  unfold lan_ip. destruct (0 <=? probe_fd k) eqn:E; bprop.
  - rewrite (proj2 (Z.ltb_ge _ _)) by done. by destruct (negb (probe_connect k) || negb (probe_name k)).
  - by rewrite (proj2 (Z.ltb_lt _ _)).
Qed.

Lemma payloads_probe k : payloads (lan_ip k).2 = [].
Proof. unfold lan_ip. destruct (probe_fd k <? 0); [done|]. by destruct (_ || _). Qed.

Lemma closes_sent ip port (f : bytes -> cstring) ls : closes ((fun l => SendTo ip port (f l)) <$> ls) = [].
Proof. by induction ls. Qed.

Lemma payloads_sent ip port (f : bytes -> cstring) ls : payloads ((fun l => SendTo ip port (f l)) <$> ls) = f <$> ls.
Proof. induction ls as [|l ls IH]; [done|]. unfold payloads in *. cbn. by rewrite IH. Qed.

(** The sender on these arguments. *)
Lemma sender_spec pton prog ip port id nm k input : is_u16 port -> 0 < port -> 0 <= id < 2 ^ 31 ->
  exists n, sender_main pton (window_argv prog ip port id nm) k input
  = Some (if sender_fd k <? 0 then (1, [])
          else if negb (ttl_ok k) then (1, [CloseFd (sender_fd k)])
          else if negb (interface_ok k) then (1, SetTtl 1 :: (lan_ip k).2 ++ [CloseFd (sender_fd k)])
          else if negb (pton ip) then (1, SetTtl 1 :: (lan_ip k).2 ++ [SetInterface (lan_ip k).1; CloseFd (sender_fd k)])
          else (0, SetTtl 1 :: (lan_ip k).2 ++ [SetInterface (lan_ip k).1; Announce id CHAT_CHILD_MTYPE_SENDER (sender_getpid k)]
                   ++ ((fun l => SendTo ip port (payload_of (name_of nm) (c_prefix l))) <$> take n (pieces (length input) input))
                   ++ [CloseFd (sender_fd k)])) /\
  ((forall i, sendto_ok k i = true) -> take n (pieces (length input) input) = pieces (length input) input).
Proof.
  intros Hp H0 Hid. destruct (window_args prog ip port id nm Hp Hid) as (E0 & E1 & E2 & E3 & E4).
  destruct (port_in_range port H0 Hp) as [Er Eu].
  destruct (send_lines_spec (length input) (name_of nm) ip port (sendto_ok k) input (le_n _)) as (n & Es & Hall).
  exists n. split; [|done]. unfold sender_main. rewrite E0, E1. cbn [mbind option_bind] in *. rewrite E2.
  cbn [mbind option_bind]. rewrite Er, E3. cbn [mbind option_bind]. rewrite E4. cbn [mbind option_bind].
  destruct (sender_fd k <? 0); [done|]. destruct (ttl_ok k); [|done]. cbn [negb].
  destruct (lan_ip k) as [addr probe]. cbn [fst snd]. destruct (interface_ok k); [|done]. cbn [negb].
  assert ((id >=? 0) = true) as -> by (apply Z.geb_le; lia).
  destruct (pton ip); cbn [negb app]; rewrite <-!app_assoc; [|done]. rewrite Eu, Es. cbn [mbind option_bind app].
  by rewrite <-?app_assoc.
Qed.

(** The receiver on these arguments. *)
Lemma receiver_spec pton buf prog ip port id nm k : is_u16 port -> 0 < port -> 0 <= id < 2 ^ 31 ->
  receiver_main pton buf (window_argv prog ip port id nm) k
  = let evs := [Bind ip port; AddMembership ip; Announce id CHAT_CHILD_MTYPE_RECEIVER (receiver_getpid k)] in
    if receiver_fd k <? 0 then Some (Some 1, [], [])
    else if negb (reuse_ok k) || negb (pton ip) || negb (bind_ok k) then Some (Some 1, [CloseFd (receiver_fd k)], [])
    else if negb (membership_ok k) then Some (Some 1, [Bind ip port; CloseFd (receiver_fd k)], [])
    else '(failed, out) ← receive_loop buf (datagrams k);
         if failed : bool then Some (Some 0, evs ++ [DropMembership ip; CloseFd (receiver_fd k)], out)
         else Some (None, evs, out).
Proof.
  intros Hp H0 Hid. destruct (window_args prog ip port id nm Hp Hid) as (E0 & E1 & E2 & E3 & E4).
  destruct (port_in_range port H0 Hp) as [Er Eu].
  unfold receiver_main. rewrite E0, E1. cbn [mbind option_bind] in *. rewrite E2.
  cbn [mbind option_bind]. rewrite Er, E3. cbn [mbind option_bind]. rewrite E4. cbn [mbind option_bind].
  destruct (receiver_fd k <? 0); [done|]. destruct (reuse_ok k); [|done]. destruct (pton ip); [|done].
  cbn [negb orb]. destruct (bind_ok k); [|done]. cbn [negb]. rewrite Eu. destruct (membership_ok k); [|done]. cbn [negb].
  assert ((id >=? 0) = true) as -> by (apply Z.geb_le; lia). done.
Qed.

(** The datagrams for a text without NUL. *)
Lemma typed_pieces u input : is_cstring u -> u <> [] -> strlen u <= CHAT_MAX_USERNAME_LEN -> is_cstring input ->
  forall l, l ∈ pieces (length input) input ->
  payload_of (name_of u) (c_prefix l) = u ++ chars ": " ++ l /\
  is_cstring (u ++ chars ": " ++ l) /\ blen (u ++ chars ": " ++ l) < MAX_DGRAM.
Proof.
  intros Hcu Hne Hu Hin l Hl. destruct (pieces_spec (length input) input (le_n _)) as [Hc Hps].
  apply list_elem_of_split in Hl as (a & b & El). destruct (Hps a l b El) as (_ & Hll & _).
  assert (is_cstring l) as Hlc.
  { rewrite <-Hc, El, concat_app in Hin. by apply Forall_app in Hin as [_ [? _]%Forall_app]. }
  rewrite c_prefix_cstring by done. destruct u as [|x u]; [done|]. cbn [name_of].
  destruct (payload_fits (x :: u) l Hu Hll) as [? ?]. split; [done|]. split; [|done].
  apply Forall_app. split; [done|]. apply Forall_app. split; [by repeat constructor|done].
Qed.

(** How a sender and a receiver start. *)
Definition sender_started (pton : cstring -> bool) (ip : cstring) (id : Z) (k : sender_answers) (rc : Z) (evs : list tool_event) : Prop :=
  closes evs = (if sender_fd k <? 0 then [] else
                (if ttl_ok k && (0 <=? probe_fd k) then [probe_fd k] else []) ++ [sender_fd k]) /\
  if sender_setup pton ip k then rc = 0 /\ exists sends,
    evs = SetTtl 1 :: (lan_ip k).2 ++ [SetInterface (lan_ip k).1; Announce id CHAT_CHILD_MTYPE_SENDER (sender_getpid k)]
          ++ sends ++ [CloseFd (sender_fd k)] /\ Forall (fun e => match e with SendTo _ _ _ => True | _ => False end) sends
  else rc = 1 /\ Forall (fun e => match e with SendTo _ _ _ | Announce _ _ _ => False | _ => True end) evs.

Definition receiver_started (pton : cstring -> bool) (ip : cstring) (port id : Z) (r : receiver_answers)
    (rc : option Z) (evs : list tool_event) (out : bytes) : Prop :=
  if receiver_setup pton ip r then
    let started := [Bind ip port; AddMembership ip; Announce id CHAT_CHILD_MTYPE_RECEIVER (receiver_getpid r)] in
    (if bool_decide (None ∈ datagrams r) then rc = Some 0 /\ evs = started ++ [DropMembership ip; CloseFd (receiver_fd r)]
     else rc = None /\ evs = started) /\
    out = concat ((fun d => c_prefix (take (Z.to_nat MAX_DGRAM) d)) <$> arrived (datagrams r))
  else rc = Some 1 /\ out = [] /\ closes evs = (if receiver_fd r <? 0 then [] else [receiver_fd r]) /\
    Forall (fun e => match e with Announce _ _ _ => False | _ => True end) evs.

(** Logs that start with what every sender does first. *)
Lemma closes_started k rest : closes (SetTtl 1 :: (lan_ip k).2 ++ rest) = (if 0 <=? probe_fd k then [probe_fd k] else []) ++ closes rest.
Proof. change (SetTtl 1 :: ?x) with ([SetTtl 1] ++ x). by rewrite !closes_app, closes_probe. Qed.

Lemma Forall_started (Q : tool_event -> Prop) k rest : (forall fd, Q (CloseFd fd)) -> Q (SetTtl 1) -> Forall Q rest ->
  Forall Q (SetTtl 1 :: (lan_ip k).2 ++ rest).
Proof.
  intros HQ HT Hrest. apply Forall_cons_2; [done|]. apply Forall_app. split; [|done]. unfold lan_ip.
  destruct (probe_fd k <? 0); [apply Forall_nil_2|]. destruct (_ || _); (apply Forall_cons_2; [apply HQ|apply Forall_nil_2]).
Qed.

Lemma rep_sender_started pton prog ip port id nm k input : is_u16 port -> 0 < port -> 0 <= id < 2 ^ 31 ->
  exists rc evs, sender_main pton (window_argv prog ip port id nm) k input = Some (rc, evs) /\ sender_started pton ip id k rc evs.
Proof.
  intros Hp H0 Hid. destruct (sender_spec pton prog ip port id nm k input Hp H0 Hid) as (n & E & _).
  unfold sender_started, sender_setup. rewrite E. destruct (sender_fd k <? 0) eqn:Ef; bprop.
  { eexists 1, []. split; [done|]. split; [done|]. by rewrite (proj2 (Z.leb_gt 0 (sender_fd k))). }
  rewrite (proj2 (Z.leb_le 0 (sender_fd k))) by done. destruct (ttl_ok k); cbn [negb andb].
  2:{ eexists 1, _. split; [done|]. split; [done|]. split; [done|]. by repeat constructor. }
  destruct (interface_ok k); cbn [negb andb].
  2:{ eexists 1, _. split; [done|]. split; [by rewrite closes_started|]. split; [done|].
      apply Forall_started; [done|done|by repeat constructor]. }
  destruct (pton ip); cbn [negb].
  2:{ eexists 1, _. split; [done|]. split; [by rewrite closes_started|]. split; [done|].
      apply Forall_started; [done|done|by repeat constructor]. }
  eexists 0, _. split; [done|]. split.
  { rewrite closes_started, !closes_app. by rewrite (closes_sent ip port (fun l => payload_of (name_of nm) (c_prefix l))). }
  split; [done|]. eexists. split; [done|]. apply Forall_fmap, Forall_forall. done.
Qed.

Lemma rep_receiver_started pton buf prog ip port id nm r : is_u16 port -> 0 < port -> 0 <= id < 2 ^ 31 ->
  blen buf = MAX_DGRAM + 1 ->
  exists rc evs out, receiver_main pton buf (window_argv prog ip port id nm) r = Some (rc, evs, out) /\
    receiver_started pton ip port id r rc evs out.
Proof.
  intros Hp H0 Hid Hb. rewrite (receiver_spec pton buf prog ip port id nm r Hp H0 Hid). cbv zeta.
  unfold receiver_started, receiver_setup. destruct (receiver_fd r <? 0) eqn:Ef; bprop.
  { rewrite (proj2 (Z.leb_gt 0 (receiver_fd r))) by done. by eexists _, [], []. }
  rewrite (proj2 (Z.leb_le 0 (receiver_fd r))) by done.
  destruct (reuse_ok r), (pton ip), (bind_ok r); cbn [negb orb andb];
    try (eexists _, _, []; split; [done|]; do 3 (split; [done|]); by repeat constructor).
  destruct (membership_ok r); cbn [negb];
    [|eexists _, _, []; split; [done|]; do 3 (split; [done|]); by repeat constructor].
  rewrite receive_loop_spec by done. cbn [mbind option_bind]. case_bool_decide; by eexists _, _, _.
Qed.

(** ** Properties *)

(** C24: What is typed in a sender window is what a receiver window prints.  Let
    both be started with the words of the client's commands, and let no call of
    the kernel fail.  Whatever text without NUL is typed, the sender sends it
    whole and in order, one datagram per piece, to the address and port of the
    group: a piece is a line with its newline, or 1023 characters of a longer
    line, or the end of the text.  Every datagram is the user's name, a colon, a
    space and the piece, nothing is cut off, and it fits into the receiver's
    buffer; a receiver that gets these datagrams prints exactly their bytes. *)
Theorem chat_lines_delivered pton gn ip port id u k input prog buf prog' r :
  join_args id gn ip port u -> 0 < port -> is_cstring u -> u <> [] -> is_cstring input ->
  sender_setup pton ip k = true -> (forall i, sendto_ok k i = true) ->
  receiver_setup pton ip r = true -> blen buf = MAX_DGRAM + 1 ->
  exists evs ps, sender_main pton (window_argv prog ip port id u) k input = Some (0, evs) /\
    concat ps = input /\ (forall a l b, ps = a ++ l :: b -> piece_ok (bool_decide (b = [])) l) /\
    payloads evs = (fun l => u ++ chars ": " ++ l) <$> ps /\
    Forall (fun e => match e with SendTo ip' port' d => ip' = ip /\ port' = port /\ blen d < MAX_DGRAM | _ => True end) evs /\
    (datagrams r = Some <$> payloads evs -> exists evs',
       receiver_main pton buf (window_argv prog' ip port id gn) r = Some (None, evs', concat (payloads evs))).
Proof.
  intros (Hid & Hg & Hi & Hp & Hu) H0 Hcu Hne Hin Hs Hok Hr Hb.
  destruct (sender_spec pton prog ip port id u k input Hp H0 Hid) as (n & E & Hall). specialize (Hall Hok).
  destruct (pieces_spec (length input) input (le_n _)) as [Hc Hps]. set (ps := pieces (length input) input) in *.
  unfold sender_setup in Hs. bprop. destruct (sender_fd k <? 0) eqn:Ef; bprop; [lia|].
  rewrite Hall in E. match goal with H1 : ttl_ok k = true, H2 : interface_ok k = true, H3 : pton ip = true |- _ =>
    rewrite H1, H2, H3 in E; rename H3 into Hpton end. cbn [negb] in E.
  assert (forall l, l ∈ ps -> payload_of (name_of u) (c_prefix l) = u ++ chars ": " ++ l /\
    is_cstring (u ++ chars ": " ++ l) /\ blen (u ++ chars ": " ++ l) < MAX_DGRAM) as Hl by by apply typed_pieces.
  assert ((fun l => payload_of (name_of u) (c_prefix l)) <$> ps = (fun l => u ++ chars ": " ++ l) <$> ps) as Eps.
  { apply list_fmap_ext. intros i l Hil. apply Hl. by eapply list_elem_of_lookup_2. }
  eexists _, ps. split; [exact E|]. split; [done|]. split; [done|].
  assert (forall evs, payloads (SetTtl 1 :: (lan_ip k).2 ++ [SetInterface (lan_ip k).1; Announce id CHAT_CHILD_MTYPE_SENDER (sender_getpid k)]
    ++ evs ++ [CloseFd (sender_fd k)]) = payloads evs) as Epay.
  { intros evs. change (SetTtl 1 :: ?x) with ([SetTtl 1] ++ x). rewrite !payloads_app, payloads_probe. apply app_nil_r. }
  rewrite Epay, (payloads_sent ip port (fun l => payload_of (name_of u) (c_prefix l))), Eps. split; [done|]. split.
  - constructor; [done|]. apply Forall_app. split; [unfold lan_ip; destruct (probe_fd k <? 0); [constructor|];
      destruct (_ || _); by repeat constructor|]. apply Forall_app. split; [by repeat constructor|].
    apply Forall_app. split; [|by repeat constructor]. apply Forall_fmap, Forall_forall. intros l Hlp. cbn.
    destruct (Hl l Hlp) as (-> & _ & ?). done.
  - intros Hd. rewrite (receiver_spec pton buf prog' ip port id gn r Hp H0 Hid), Hd. cbv zeta.
    unfold receiver_setup in Hr. bprop. destruct (receiver_fd r <? 0) eqn:Efr; bprop; [lia|].
    repeat match goal with H : _ = true |- _ => rewrite H end. cbn [negb orb].
    rewrite receive_strings; [by eexists|done|]. apply Forall_fmap, Forall_forall. intros l Hlp.
    destruct (Hl l Hlp) as (_ & ? & ?). split; [done|]. apply Z.lt_le_incl. done.
Qed.

(** For the witnesses: kernels that refuse nothing. *)
Definition demo_sender := MkSenderAnswers 5 true true 42 6 true true 101 (fun _ => true).
Definition demo_receiver := MkReceiverAnswers 7 true true true 102 [Some [97; 58; 32; 104; 10]].

Lemma demo_args : join_args 7 [103] [49; 46; 50] 6000 [97].
Proof. unfold join_args, is_u16. repeat split; by vm_compute. Qed.

Lemma chat_lines_delivered_witness :
  exists evs ps, sender_main (fun _ => true) (window_argv [99] [49; 46; 50] 6000 7 [97]) demo_sender [104; 10] = Some (0, evs) /\
    concat ps = [104; 10] /\ (forall a l b, ps = a ++ l :: b -> piece_ok (bool_decide (b = [])) l) /\
    payloads evs = (fun l => [97] ++ chars ": " ++ l) <$> ps /\
    Forall (fun e => match e with SendTo ip' port' d => ip' = [49; 46; 50] /\ port' = 6000 /\ blen d < MAX_DGRAM | _ => True end) evs /\
    (datagrams demo_receiver = Some <$> payloads evs -> exists evs',
       receiver_main (fun _ => true) (replicate 1501 7) (window_argv [99] [49; 46; 50] 6000 7 [103]) demo_receiver
       = Some (None, evs', concat (payloads evs))).
Proof.
  apply (chat_lines_delivered (fun _ => true) [103] [49; 46; 50] 6000 7 [97] demo_sender [104; 10] [99]
    (replicate 1501 7) [99] demo_receiver demo_args);
    [by vm_compute|by repeat constructor|done|by repeat constructor|done|done|done|by vm_compute].
Defined.

(** C40: The windows the client opens start as it meant them, or give up
    cleanly, whatever the kernel answers.  On the words of the client's command
    both programs read the address, the port and the queue as they were
    printed.  If everything can be set up, a sender has set the time to live to
    1 and its interface, a receiver has bound the group's address and port and
    joined the group, and each has called [msgsnd] with its process id exactly
    once, under its own type, before anything is sent or printed.  Otherwise the
    exit code is 1 and nothing was reported, sent or printed.  Every descriptor
    that was opened is closed exactly once, except that of a receiver that is
    still waiting; a receiver ends only when [recvfrom] fails, and leaves the
    group before it closes its socket. *)
Theorem chat_windows_start pton gn ip port id u prog k input prog' buf r : join_args id gn ip port u -> 0 < port ->
  blen buf = MAX_DGRAM + 1 ->
  (exists rc evs, sender_main pton (window_argv prog ip port id u) k input = Some (rc, evs) /\
     sender_started pton ip id k rc evs) /\
  (exists rc evs out, receiver_main pton buf (window_argv prog' ip port id gn) r = Some (rc, evs, out) /\
     receiver_started pton ip port id r rc evs out).
Proof.
  intros (Hid & _ & _ & Hp & _) H0 Hb. split; [by apply (rep_sender_started _ _ _ port)|by apply rep_receiver_started].
Qed.

(** A sender whose interface cannot be set, a receiver that waits. *)
Lemma chat_windows_start_witness :
  let k := MkSenderAnswers 5 true false 42 6 true false 101 (fun _ => true) in
  (exists rc evs, sender_main (fun _ => true) (window_argv [99] [49; 46; 50] 6000 7 [97]) k [104; 10] = Some (rc, evs) /\
     sender_started (fun _ => true) [49; 46; 50] 7 k rc evs) /\
  (exists rc evs out, receiver_main (fun _ => true) (replicate 1501 7) (window_argv [99] [49; 46; 50] 6000 7 [103]) demo_receiver
       = Some (rc, evs, out) /\
     receiver_started (fun _ => true) [49; 46; 50] 6000 7 demo_receiver rc evs out).
Proof.
  exact (chat_windows_start (fun _ => true) [103] [49; 46; 50] 6000 7 [97] [99]
    (MkSenderAnswers 5 true false 42 6 true false 101 (fun _ => true)) [104; 10] [99] (replicate 1501 7) demo_receiver
    demo_args eq_refl eq_refl).
Defined.
