(* ===== verification/Chat.v ===== *)
(** * A chat between many windows

    The clients of [World] and the windows of [ChatTools] together: what is typed
    in the sender windows of a group, by whoever, is what the receiver windows of
    that group print, and nothing else is.  Between client and window is the
    shell, of which only what is documented for plain words and for names without
    a single quote is used ([Opens]).  Between the windows is the network, which
    may lose, repeat and reorder datagrams: all that is used is that a receiver
    gets no datagram that was not sent to the multicast address it has joined and
    the port it is bound to. *)

From Stdlib Require String.
From S2P Require Import Prelude Text Protocol FreeMcQueue GroupMng ServerNet ServerMng.
From S2P Require Import ClientNet ClientGroups ClientMng System World ChatTools.
Import String.StringSyntax.

(** ** Commands *)

(** The command line with these words, the last one between quotes, in a
    terminal window with this title. *)
Definition in_terminal (title : cstring) (argv : list cstring) : cstring :=
  match argv with
  | [prog; a1; a2; a3; a4] =>
      chars "gnome-terminal --title='" ++ title ++ chars "' -- " ++ prog ++ chars " " ++ a1 ++ chars " " ++ a2 ++
      chars " " ++ a3 ++ chars " '" ++ a4 ++ chars "' &"
  | _ => []
  end.

Definition sender_prog : cstring := chars "./bin/chat_sender".
Definition receiver_prog : cstring := chars "./bin/chat_receiver".

(** The commands of the client start the windows with the words of
    [window_argv]. *)
Lemma sender_words g ip port id u :
  sender_command g ip port id u = in_terminal (g ++ chars " (sender)") (window_argv sender_prog ip port id u).
Proof. unfold sender_command, in_terminal, window_argv. by rewrite <-app_assoc. Qed.

Lemma receiver_words g ip port id :
  receiver_command g ip port id = in_terminal (g ++ chars " (receiver)") (window_argv receiver_prog ip port id g).
Proof. unfold receiver_command, in_terminal, window_argv. by rewrite <-app_assoc. Qed.

(** Words that the shell leaves as they are without quotes. *)
Definition plain_char (c : Z) : bool :=
  is_digit c || ((97 <=? c) && (c <=? 122)) || (c =? 95) || (c =? 46) || (c =? 47) || (c =? 45).
Definition plain (w : cstring) : Prop := w <> [] /\ forallb plain_char w = true.

(** Strings that single quotes protect. *)
Definition quotable (w : cstring) : Prop := is_cstring w /\ 39 ∉ w.

(** The shell and the terminal: [opens cmd] are the words of the program that
    runs in the window the command line [cmd] opens.  Between single quotes every
    character but a quote stands for itself, plain words are separated by blanks,
    and the terminal runs what follows [--].  Nothing is known about a command
    line with a quote in a name. *)
Class Opens (opens : cstring -> list cstring) : Prop :=
  opens_words title prog a1 a2 a3 a4 : quotable title -> plain prog -> plain a1 -> plain a2 -> plain a3 -> quotable a4 ->
    opens (in_terminal title [prog; a1; a2; a3; a4]) = [prog; a1; a2; a3; a4].

(** A program was started with these words. *)
Definition ran (opens : cstring -> list cstring) (o : os) (argv : list cstring) : Prop :=
  exists cmd, System cmd ∈ events o /\ opens cmd = argv.

(** The words of a window are plain, but for the name. *)
Lemma plain_digits s : s <> [] -> forallb is_digit s = true -> plain s.
Proof.
  intros Hne H. split; [done|]. clear Hne. induction s as [|c s IH]; [done|]. cbn [forallb] in *.
  apply andb_true_iff in H as [Hc H]. rewrite IH, andb_true_r by done. unfold plain_char. by rewrite Hc.
Qed.

Lemma plain_print n : 0 <= n -> plain (print_nat 10 n).
Proof.
  intros H. destruct (print_nat_first 10 n ltac:(lia) H) as (c & s & E & _).
  apply plain_digits; [by rewrite E|by apply print_nat_all].
Qed.

Lemma plain_print_int n : 0 <= n -> plain (print_int n).
Proof. intros H. unfold print_int. rewrite (proj2 (Z.ltb_ge _ _)) by done. by apply plain_print. Qed.

Lemma plain_address p : p ∈ initial_pairs -> plain (FreeMcQueue.ip p).
Proof.
  assert (forallb (fun p => negb (bool_decide (FreeMcQueue.ip p = [])) && forallb plain_char (FreeMcQueue.ip p)) initial_pairs = true) as H
    by by vm_compute.
  rewrite forallb_forall in H. intros Hp. specialize (H p (proj1 (list_elem_of_In _ _) Hp)). by bprop.
Qed.

Lemma quotable_title g w : quotable g -> forallb (fun c => (0 <? c) && (c <? 256) && negb (c =? 39)) w = true -> quotable (g ++ w).
Proof.
  intros [Hc Hq] H. rewrite forallb_forall in H. split.
  - apply Forall_app. split; [done|]. apply Forall_forall. intros c Hin.
    specialize (H c (proj1 (list_elem_of_In _ _) Hin)). bprop. lia.
  - rewrite not_elem_of_app. split; [done|]. intros Hin. specialize (H 39 (proj1 (list_elem_of_In _ _) Hin)). by bprop.
Qed.

(** ** The network *)

#[export] Instance tool_event_eq_dec : EqDecision tool_event.
Proof. solve_decision. Defined.

(** The datagrams that are for a program that has done [evs], out of all that are
    sent: what it gets if none is lost, in the order in which they are sent.  What
    it really gets is any list of such datagrams. *)
Definition hears (evs sent : list tool_event) : list bytes :=
  omap (fun e => match e with
                 | SendTo ip port d => if bool_decide (Bind ip port ∈ evs /\ AddMembership ip ∈ evs) then Some d else None
                 | _ => None
                 end) sent.

Definition sends (evs : list tool_event) : list tool_event :=
  omap (fun e => match e with SendTo _ _ _ => Some e | _ => None end) evs.

(** ** What is said *)

(** Something said: the client, the group of the window, the line. *)
Definition saying : Type := nat * cstring * bytes.

Definition line_of (user : cstring) (l : bytes) : bytes := user ++ chars ": " ++ l.

(** A name a user can be known by to others. *)
Definition user_ok (u : cstring) : Prop := quotable u /\ u <> [].

(** It is said in a window that is open, and is a piece of a text; neither the
    user's nor the group's name has a quote. *)
Definition can_say (sw : sworld) (x : saying) : Prop :=
  exists c, sw.2 !! x.1.1 = Some (Some c) /\ x.1.2 ∈ name <$> sc_windows c /\ user_ok (sc_login c).2 /\
    quotable x.1.2 /\ is_cstring x.2 /\ blen x.2 < MAX_LINE.

(** The datagram it is sent as. *)
Definition datagram (sw : sworld) (x : saying) : option tool_event :=
  match sw.2 !! x.1.1 with
  | Some (Some c) => (fun ad => SendTo ad.1 ad.2 (line_of (sc_login c).2 x.2)) <$> sc_channel c !! x.1.2
  | _ => None
  end.

(** What it reads as in the windows of group [g]. *)
Definition shown (sw : sworld) (g : cstring) (x : saying) : option bytes :=
  if decide (x.1.2 = g) then
    match sw.2 !! x.1.1 with Some (Some c) => Some (line_of (sc_login c).2 x.2) | _ => None end
  else None.

(** ** Windows of a world *)

Lemma address_port s a g grp : sv_rep s a -> aG a !! g = Some grp -> is_u16 (mcast_port grp) /\ 0 < mcast_port grp.
Proof.
  intros R Hg. destruct (group_address_own s a g grp R Hg) as (Hin & _). unfold initial_pairs in Hin.
  apply list_elem_of_fmap in Hin as (i & E & _). injection E as _ ->. by split.
Qed.

(** The windows of a client were started with the words that name the address
    their group has. *)
Lemma window_ran opens `{!Opens opens} s w a p c e : sv_rep s a -> part_rep w a p c -> e ∈ sc_windows c -> quotable (name e) ->
  exists ip port, sc_channel c !! name e = Some (ip, port) /\ is_u16 port /\ 0 < port /\
    (quotable (sc_login c).2 -> ran opens (pt_os p) (window_argv sender_prog ip port (sc_id c) (sc_login c).2)) /\
    ran opens (pt_os p) (window_argv receiver_prog ip port (sc_id c) (name e)) /\
    0 <= sc_id c < 2 ^ 31 /\ strlen (sc_login c).2 <= CHAT_MAX_USERNAME_LEN.
Proof.
  intros Rs P He Hq. destruct (window_channel w a p c e P He) as (grp & Hg & Hx & [Hr Hsd]).
  destruct (address_port s a _ grp Rs Hg) as [Hp H0]. exists (mcast_ip grp), (mcast_port grp).
  assert (plain (mcast_ip grp)) as Hip by (destruct (group_address_own s a _ grp Rs Hg) as (Hin & _); apply (plain_address _ Hin)).
  assert (0 <= sc_id c < 2 ^ 31) as Hid by apply (pr_client _ _ _ _ P).
  assert (plain (print_nat 10 (mcast_port grp)) /\ plain (print_int (sc_id c))) as [Hpp Hpi]
    by (split; [apply plain_print|apply plain_print_int]; lia).
  split; [done|]. split; [done|]. split; [done|]. cbn [address_of fst snd] in *.
  rewrite sender_words in Hsd. rewrite receiver_words in Hr. split; [|split; [|split; [done|]]].
  { intros Hu. eexists. split; [exact Hsd|]. apply opens_words; try done. by apply quotable_title. }
  { eexists. split; [exact Hr|]. apply opens_words; try done. by apply quotable_title. }
   rewrite <-(pr_login _ _ _ _ P). apply (pr_client _ _ _ _ P).
Qed.

(** Two open windows have the same channel exactly if they are of one group. *)
Lemma channel_group s w a p q c d g g' x y : sv_rep s a -> part_rep w a p c -> part_rep w a q d ->
  sc_channel c !! g = Some x -> sc_channel d !! g' = Some y -> x = y <-> g = g'.
Proof.
  intros Rs P Q Hx Hy. destruct (pr_channel _ _ _ _ P) as [_ Hc]. destruct (pr_channel _ _ _ _ Q) as [_ Hd].
  destruct (Hc _ _ Hx) as (_ & grp & Hg & ->). destruct (Hd _ _ Hy) as (_ & grp' & Hg' & ->). split; [|congruence].
  intros [= Eip Ep]. destruct (group_address_own _ _ _ _ Rs Hg) as (_ & _ & H). apply (H _ _ Hg').
  unfold pair_of. by rewrite Eip, Ep.
Qed.

(** ** A sender window *)

Lemma sends_app e1 e2 : sends (e1 ++ e2) = sends e1 ++ sends e2.
Proof. apply omap_app. Qed.

Lemma sends_probe k : sends (lan_ip k).2 = [].
Proof. unfold lan_ip. destruct (probe_fd k <? 0); [done|]. by destruct (_ || _). Qed.

Lemma sends_all ip port (f : bytes -> bytes) ls :
  sends ((fun l => SendTo ip port (f l)) <$> ls) = (fun l => SendTo ip port (f l)) <$> ls.
Proof. induction ls as [|l ls IH]; [done|]. unfold sends in *. cbn. by rewrite IH. Qed.

Lemma sender_window pton prog ip port id u k input : is_u16 port -> 0 < port -> 0 <= id < 2 ^ 31 ->
  user_ok u -> strlen u <= CHAT_MAX_USERNAME_LEN -> is_cstring input ->
  sender_setup pton ip k = true -> (forall i, sendto_ok k i = true) ->
  exists evs ls, sender_main pton (window_argv prog ip port id u) k input = Some (0, evs) /\ concat ls = input /\
    (forall a l b, ls = a ++ l :: b -> piece_ok (bool_decide (b = [])) l) /\
    sends evs = (fun l => SendTo ip port (line_of u l)) <$> ls.
Proof.
  intros Hp H0 Hid [[Hcu _] Hne] Hu Hin Hs Hok.
  destruct (sender_spec pton prog ip port id u k input Hp H0 Hid) as (n & E & Hall). rewrite (Hall Hok) in E.
  destruct (pieces_spec (length input) input (le_n _)) as [Hc Hps]. set (ls := pieces (length input) input) in *.
  unfold sender_setup in Hs. bprop. destruct (sender_fd k <? 0) eqn:Ef; bprop; [lia|].
  match goal with H1 : ttl_ok k = true, H2 : interface_ok k = true, H3 : pton ip = true |- _ =>
    rewrite H1, H2, H3 in E end. cbn [negb] in E.
  eexists _, ls. split; [exact E|]. split; [done|]. split; [done|].
  change (SetTtl 1 :: ?x) with ([SetTtl 1] ++ x). rewrite !sends_app, sends_probe.
  rewrite (sends_all ip port (fun l => payload_of (name_of u) (c_prefix l))). cbn [sends omap list_omap app].
  rewrite app_nil_r. apply list_fmap_ext. intros i l Hl. f_equal.
  apply (typed_pieces u input Hcu Hne Hu Hin). by eapply list_elem_of_lookup_2.
Qed.

(** ** A receiver window *)

Lemma receiver_window pton prog ip port id nm buf r ds : is_u16 port -> 0 < port -> 0 <= id < 2 ^ 31 ->
  receiver_setup pton ip r = true -> blen buf = MAX_DGRAM + 1 -> datagrams r = Some <$> ds ->
  exists evs out, receiver_main pton buf (window_argv prog ip port id nm) r = Some (None, evs, out) /\
    (forall sent, hears evs sent = omap (fun e => match e with
       | SendTo ip' port' d => if decide ((ip', port') = (ip, port)) then Some d else None | _ => None end) sent) /\
    (Forall (fun d => is_cstring d /\ blen d <= MAX_DGRAM) ds -> out = concat ds).
Proof.
  intros Hp H0 Hid Hr Hb Hd. rewrite (receiver_spec pton buf prog ip port id nm r Hp H0 Hid). cbv zeta.
  unfold receiver_setup in Hr. bprop. destruct (receiver_fd r <? 0) eqn:Efr; bprop; [lia|].
  repeat match goal with H : _ = true |- _ => rewrite H end. cbn [negb orb].
  pose proof (receive_loop_spec buf (datagrams r) Hb) as E. rewrite bool_decide_eq_false_2 in E.
  2:{ rewrite Hd. by intros (x & ? & _)%list_elem_of_fmap. }
  rewrite E. cbn [mbind option_bind]. eexists _, _. split; [done|]. split.
  - intros sent. unfold hears. induction sent as [|e sent IH]; [done|]. cbn [omap list_omap]. rewrite IH.
    destruct e as [| | | | | |ip' port' d|]; try done. case_bool_decide as D; case_decide as D'; try done.
    + exfalso. apply D'. destruct D as [D1 D2]. apply elem_of_cons in D1 as [[= -> ->]|D1]; [done|].
      exfalso. set_solver.
    + exfalso. injection D' as -> ->. apply D. set_solver.
  - intros Hs. pose proof (receive_strings buf ds Hb Hs) as E'. rewrite <-Hd, E in E'. by injection E'.
Qed.

(** ** A group *)

(** The sender window client [i] has of group [g]: whatever is typed in it is
    sent whole and in order, as what this client says in this group. *)
Definition speaks (opens : cstring -> list cstring) (sw : sworld) (i : nat) (g : cstring) (o : os) : Prop :=
  exists argv ip, ran opens o argv /\ argv !! 0%nat = Some sender_prog /\ argv !! 1%nat = Some ip /\
    forall pton k input, is_cstring input -> sender_setup pton ip k = true -> (forall j, sendto_ok k j = true) ->
    exists evs ls, sender_main pton argv k input = Some (0, evs) /\ concat ls = input /\
      (forall a l b, ls = a ++ l :: b -> piece_ok (bool_decide (b = [])) l) /\
      Forall (fun l => can_say sw (i, g, l)) ls /\
      Some <$> sends evs = (fun l => datagram sw (i, g, l)) <$> ls.

(** The receiver window a client has of group [g].  Let [said] be all that is said
    by anyone.  Of the datagrams [ds] it gets, any list of datagrams that were sent
    to it, it prints each whole, and each is something that was said in this
    group.  If it gets all of them in the order they were sent, it prints exactly
    what was said in this group. *)
Definition hears_group (opens : cstring -> list cstring) (sw : sworld) (g : cstring) (o : os) : Prop :=
  exists argv ip, ran opens o argv /\ argv !! 0%nat = Some receiver_prog /\ argv !! 1%nat = Some ip /\
    forall pton buf r ds, receiver_setup pton ip r = true -> blen buf = MAX_DGRAM + 1 -> datagrams r = Some <$> ds ->
    exists evs out, receiver_main pton buf argv r = Some (None, evs, out) /\
      forall said, Forall (can_say sw) said ->
        (Forall (fun d => d ∈ hears evs (omap (datagram sw) said)) ds ->
          out = concat ds /\
          exists heard, Forall (fun x => x ∈ said) heard /\ shown sw g <$> heard = Some <$> ds) /\
        (ds = hears evs (omap (datagram sw) said) -> out = concat (omap (shown sw g) said)).

Section world.
Context (opens : cstring -> list cstring) `{HO : !Opens opens} (w : world) (sw : sworld) (R : world_rep w sw).

Lemma part_of i c : sw.2 !! i = Some (Some c) -> exists p, w_parts w !! i = Some (Some p) /\ part_rep w sw.1 p c.
Proof.
  intros Hi. destruct (Forall2_lookup_r _ _ _ _ _ (wr_parts _ _ R) Hi) as (y & Hy & P). inversion P as [p|]; subst. by exists p.
Qed.

Lemma rep_speaks i p c e : w_parts w !! i = Some (Some p) -> sw.2 !! i = Some (Some c) -> e ∈ sc_windows c ->
  quotable (name e) -> user_ok (sc_login c).2 -> speaks opens sw i (name e) (pt_os p).
Proof.
  intros Hp Hi He Hq Hu. destruct (part_of i c Hi) as (p' & Hp' & P). rewrite Hp in Hp'. injection Hp' as <-.
  destruct (window_ran opens _ _ _ _ _ e (wr_server _ _ R) P He Hq) as (ip & port & Hx & Hpo & H0 & Hs & _ & Hid & Hlu).
  eexists _, ip. split; [apply Hs, Hu|]. split; [done|]. split; [done|]. intros pton k input Hin Hset Hok.
  destruct (sender_window pton sender_prog ip port (sc_id c) _ k input Hpo H0 Hid Hu Hlu Hin Hset Hok)
    as (evs & ls & E & Hc & Hps & Hsend). exists evs, ls. do 3 (split; [done|]). split.
  - apply Forall_forall. intros l Hl. apply list_elem_of_split in Hl as (a & b & El). exists c. cbn [fst snd].
    destruct (Hps a l b El) as (_ & Hll & _). split; [done|]. split; [by apply list_elem_of_fmap_2|]. split; [done|]. split; [done|].
    split; [|done]. rewrite <-Hc, El, concat_app in Hin. by apply Forall_app in Hin as [_ [? _]%Forall_app].
  - rewrite Hsend, <-list_fmap_compose. apply list_fmap_ext. intros j l _. unfold datagram. cbn [fst snd compose]. by rewrite Hi, Hx.
Qed.

(** Of what is said, the datagrams to the channel of a group are what is said in
    that group. *)
Lemma heard i c g ip port said : sw.2 !! i = Some (Some c) -> sc_channel c !! g = Some (ip, port) -> Forall (can_say sw) said ->
  omap (fun e => match e with
       | SendTo ip' port' d => if decide ((ip', port') = (ip, port)) then Some d else None | _ => None end)
    (omap (datagram sw) said) = omap (shown sw g) said /\
  Forall (fun d => is_cstring d /\ blen d <= MAX_DGRAM) (omap (shown sw g) said).
Proof.
  intros Hi Hg. destruct (part_of i c Hi) as (p & _ & P). induction 1 as [|x said Hx _ [IH1 IH2]]; [by split|].
  destruct Hx as (d & Hd & (e & En & He)%list_elem_of_fmap & [[Hcu _] Hne] & _ & Hcl & Hll).
  destruct (part_of _ d Hd) as (q & _ & Q). destruct (window_channel _ _ _ _ e Q He) as (grp & _ & Hy & _).
  pose proof (channel_group _ _ _ _ _ _ _ _ _ _ _ (wr_server _ _ R) P Q Hg Hy) as Hch. rewrite <-En in Hy, Hch.
  assert (datagram sw x = Some (SendTo (mcast_ip grp) (mcast_port grp) (line_of (sc_login d).2 x.2))) as Ex
    by (unfold datagram; by rewrite Hd, Hy).
  assert (shown sw g x = if decide (x.1.2 = g) then Some (line_of (sc_login d).2 x.2) else None) as Es
    by (unfold shown; by rewrite Hd).
  cbn [omap list_omap]. rewrite Ex, Es. cbn [omap list_omap]. rewrite IH1. unfold address_of in *.
  destruct (decide (x.1.2 = g)) as [Eg|Eg]; case_decide as D;
    [|destruct D; symmetry; by apply Hch|destruct Eg; symmetry; by apply Hch|by split].
  split; [done|]. apply Forall_cons_2; [|done]. destruct (payload_fits (sc_login d).2 x.2) as [_ Hfit]; [|done|].
  { rewrite <-(pr_login _ _ _ _ Q). apply (pr_client _ _ _ _ Q). }
  split; [|by apply Z.lt_le_incl]. apply Forall_app. split; [done|]. apply Forall_app. split; [by repeat constructor|done].
Qed.

(** Each datagram of what was said in a group is something that was said. *)
Lemma all_shown g (said : list saying) (ds : list bytes) : Forall (fun d => d ∈ omap (shown sw g) said) ds ->
  exists heard, Forall (fun x => x ∈ said) heard /\ shown sw g <$> heard = Some <$> ds.
Proof.
  induction 1 as [|d ds (x & Hx & Hd)%list_elem_of_omap _ (h & Hh & E)]; [by exists []|].
  exists (x :: h). split; [by constructor|]. cbn. by rewrite Hd, E.
Qed.

Lemma rep_hears i p c e : w_parts w !! i = Some (Some p) -> sw.2 !! i = Some (Some c) -> e ∈ sc_windows c ->
  quotable (name e) -> hears_group opens sw (name e) (pt_os p).
Proof.
  intros Hp Hi He Hq. destruct (part_of i c Hi) as (p' & Hp' & P). rewrite Hp in Hp'. injection Hp' as <-.
  destruct (window_ran opens _ _ _ _ _ e (wr_server _ _ R) P He Hq) as (ip & port & Hx & Hpo & H0 & _ & Hr & Hid & _).
  eexists _, ip. split; [exact Hr|]. split; [done|]. split; [done|]. intros pton buf r ds Hset Hb Hds.
  destruct (receiver_window pton receiver_prog ip port (sc_id c) (name e) buf r ds Hpo H0 Hid Hset Hb Hds)
    as (evs & out & E & Hh & Ho). exists evs, out. split; [done|]. intros said Hsaid. rewrite Hh.
  destruct (heard i c (name e) ip port said Hi Hx Hsaid) as [E1 E2]. rewrite E1. split; [|intros ->; by apply Ho].
  intros Hin. split; [|by apply all_shown]. apply Ho. eapply Forall_impl; [exact Hin|]. intros d. apply (proj1 (Forall_forall _ _) E2).
Qed.

End world.

(** ** Properties *)

(** C6: The chat works.  After any run of any number of clients of one server
    each client that still runs has, for every group it has joined whose name has
    no single quote, two windows, whose programs run with the words that the
    command lines in its system's log give them.  What is typed in the sender
    window, by a user with a name that is not empty and has no single quote, is
    sent whole and in order, as what this client says in this group, if no call of
    the kernel fails.  The network may lose, repeat and reorder what clients so
    say: every datagram that the receiver window gets is something that was said
    in its group, by whatever client, and is printed whole, under the name of the
    user who is logged in at the client that said it; nothing that was said in
    another group is printed.  If every datagram arrives once and in order, exactly
    what was said in its group is printed, in that order. *)
Theorem group_chat opens `{!Opens opens} buf xs w sw : CHAT_MAX_IP_STR_LEN <= blen buf -> world_rep w sw ->
  Forall step_names xs ->
  exists w', world_run buf xs w = Some ((spec_world_run xs sw).1, w') /\
    forall i c e, (spec_world_run xs sw).2.2 !! i = Some (Some c) -> e ∈ sc_windows c -> quotable (name e) ->
      exists p, w_parts w' !! i = Some (Some p) /\ cm_rep (pt_client p) (sc_id c) (sc_windows c) /\
        (user_ok (sc_login c).2 -> speaks opens (spec_world_run xs sw).2 i (name e) (pt_os p)) /\
        hears_group opens (spec_world_run xs sw).2 (name e) (pt_os p).
Proof.
  intros Hb R Hn. destruct (rep_world_run buf xs w sw Hb R Hn) as (w' & E & R'). exists w'. split; [done|].
  intros i c e Hi He Hq. destruct (part_of _ _ R' i c Hi) as (p & Hp & P). exists p. split; [done|]. split; [apply P|].
  split; [intros Hu; by eapply rep_speaks|by eapply rep_hears].
Qed.

(** A shell that knows blanks, single quotes and [&], and the terminal behind it. *)
Fixpoint sh_words (quoted : bool) (word : option cstring) (s : cstring) : list cstring :=
  match s with
  | [] => option_list word
  | c :: s =>
      if c =? 39 then sh_words (negb quoted) (Some (default [] word)) s else
      if quoted then sh_words quoted (Some (default [] word ++ [c])) s else
      if c =? 32 then option_list word ++ sh_words quoted None s else
      if c =? 38 then option_list word else
      sh_words quoted (Some (default [] word ++ [c])) s
  end.

Definition sh_opens (cmd : cstring) : list cstring := drop 3 (sh_words false None cmd).

Lemma sh_quoted w x s : 39 ∉ x -> sh_words true (Some w) (x ++ s) = sh_words true (Some (w ++ x)) s.
Proof.
  revert w. induction x as [|c x IH]; intros w Hx; [by rewrite app_nil_r|]. apply not_elem_of_cons in Hx as [Hc Hx].
  cbn [app sh_words default]. rewrite (proj2 (Z.eqb_neq _ _)), IH by done. cbn [default]. by rewrite <-app_assoc.
Qed.

Lemma plain_char_other c : plain_char c = true -> (c =? 39) = false /\ (c =? 32) = false /\ (c =? 38) = false.
Proof. intros Hc. rewrite !Z.eqb_neq. repeat split; intros ->; by vm_compute in Hc. Qed.

Lemma sh_plain w x s : forallb plain_char x = true ->
  sh_words false (Some w) (x ++ s) = sh_words false (Some (w ++ x)) s.
Proof.
  revert w. induction x as [|c x IH]; intros w Hx; [by rewrite app_nil_r|]. cbn [forallb] in Hx.
  apply andb_true_iff in Hx as [Hc Hx]. cbn [app sh_words default].
  destruct (plain_char_other c Hc) as (-> & -> & ->). rewrite IH by done. cbn [default]. by rewrite <-app_assoc.
Qed.

Lemma sh_word x s : plain x -> sh_words false None (x ++ 32 :: s) = x :: sh_words false None s.
Proof.
  intros [Hne Hx]. transitivity (sh_words false (Some []) (x ++ 32 :: s)); [|by rewrite sh_plain].
  destruct x as [|c x]; [done|]. cbn [forallb] in Hx. apply andb_true_iff in Hx as [Hc _].
  cbn [app sh_words]. by destruct (plain_char_other c Hc) as (-> & -> & ->).
Qed.

#[local] Instance sh_Opens : Opens sh_opens.
Proof.
  intros title prog a1 a2 a3 a4 [_ Ht] Hp H1 H2 H3 [_ H4]. unfold sh_opens, in_terminal.
  change (chars "gnome-terminal --title='") with (chars "gnome-terminal" ++ 32 :: chars "--title=" ++ [39]).
  change (chars "' -- ") with (39 :: 32 :: chars "--" ++ [32]). change (chars " '") with [32; 39].
  change (chars "' &") with [39; 32; 38]. change (chars " ") with [32]. rewrite <-!app_assoc. cbn [app].
  rewrite sh_word by (by split). rewrite <-app_assoc.
  assert (forall x s, sh_words false None (chars "--title=" ++ [39] ++ x ++ s) = sh_words true (Some (chars "--title=")) (x ++ s)) as Et by done.
  rewrite Et, sh_quoted by done. cbn [sh_words negb Z.eqb Pos.eqb default option_list app].
  rewrite <-app_assoc. cbn [app]. rewrite (sh_word (chars "--")) by (by split).
  rewrite !sh_word by done. cbn [sh_words negb Z.eqb Pos.eqb default option_list app].
  rewrite sh_quoted by done. done.
Qed.

Lemma short_name c : 0 < c < 256 -> c <> 39 -> quotable [c].
Proof. intros H Hc. split; [apply Forall_singleton; lia|]. rewrite list_elem_of_singleton. congruence. Qed.

(** A quote in the name of a user: the window says [abc] for [a'b'c]. *)
Example quote_breaks_name :
  sh_opens (sender_command [103] [49] 6000 7 (chars "a'b'c")) = window_argv sender_prog [49] 6000 7 (chars "abc").
Proof. by vm_compute. Qed.

Lemma group_chat_witness : exists s0 m0, world_rep (demo_world s0 m0) demo_spec /\
  quotable [103] /\ user_ok [98] /\ user_ok [99] /\
  windows_of (spec_world_run demo_steps demo_spec).2 = [Some [[103]]; Some [[104]; [103]]] /\
  omap (shown (spec_world_run demo_steps demo_spec).2 [103]) [(0%nat, [103], [104; 105; 10]); (1%nat, [104], [120; 10]); (1%nat, [103], [10])]
    = [line_of [98] [104; 105; 10]; line_of [99] [10]] /\
  exists w', world_run (replicate 16 0) demo_steps (demo_world s0 m0) = Some ((spec_world_run demo_steps demo_spec).1, w') /\
    forall i c e, (spec_world_run demo_steps demo_spec).2.2 !! i = Some (Some c) -> e ∈ sc_windows c -> quotable (name e) ->
      exists p, w_parts w' !! i = Some (Some p) /\ cm_rep (pt_client p) (sc_id c) (sc_windows c) /\
        (user_ok (sc_login c).2 -> speaks sh_opens (spec_world_run demo_steps demo_spec).2 i (name e) (pt_os p)) /\
        hears_group sh_opens (spec_world_run demo_steps demo_spec).2 (name e) (pt_os p).
Proof.
  destruct demo_world_rep as (s0 & m0 & R). exists s0, m0. split; [exact R|].
  split; [by apply short_name|]. split; [by split; [apply short_name|]|]. split; [by split; [apply short_name|]|].
  split; [exact demo_windows|].
  split; [by vm_compute|].
  apply (group_chat sh_opens (replicate 16 0) demo_steps (demo_world s0 m0) demo_spec); [by vm_compute|exact R|exact demo_steps_ok].
Defined.
