(* ===== verification/MockServer.v ===== *)
(** * The mock server: [tests/mock_server.c]

    The server the client was tested with before the real one existed: it
    registers users and checks logins, for one connection at a time, and its
    header says that its replies are the specification of the real server.  The
    file models it, with the kernel of [ClientNet.v] at its side of the
    connection, and proves that it serves a stream of requests exactly.  Then it
    puts the code of [serve_client] at the other end of a client ([mock_peer]) and
    proves that a client which only registers and logs in cannot tell the two
    servers apart before its login has succeeded. *)

From S2P Require Import Prelude Protocol FreeMcQueue ServerNet UserMng ServerMng.
From S2P Require Import ClientNet ClientGroups ClientMng System World.

(** ** Users *)

Definition MAX_USERS : Z := 64.

Record MockUser := MkMockUser { name : cstring; pass : cstring }.

(** [g_users], up to [g_user_count]. *)
Definition mock_users : Type := list MockUser.

Fixpoint find_user (us : mock_users) (nm : cstring) : option MockUser :=
  match us with
  | [] => None
  | u :: us => if str_eqb (name u) nm then Some u else find_user us nm
  end.

Definition handle_register (us : mock_users) (user password : cstring) : ChatStatus * mock_users :=
  match find_user us user with
  | Some _ => (ST_ERR_USER_EXISTS, us)
  | None =>
      if Z.of_nat (length us) >=? MAX_USERS then (ST_ERR_SERVER_FULL, us) else
      (ST_OK, us ++ [MkMockUser (strncpy CHAT_MAX_USERNAME_LEN user) (strncpy CHAT_MAX_PASSWORD_LEN password)])
  end.

Definition handle_login (us : mock_users) (user password : cstring) : ChatStatus :=
  match find_user us user with
  | None => ST_ERR_USER_NOT_FOUND
  | Some u => if negb (str_eqb (pass u) password) then ST_ERR_BAD_PASSWORD else ST_OK
  end.

(** ** Transport *)

Section net.
Context {P : Type} (peer : P -> bytes -> option (P * bytes)).

(** Every turn reads a byte or ends: the fuel is the number of bytes. *)
Fixpoint recv_exact_loop (fuel : nat) (buf : bytes) (off need got : Z) (s : socket (P := P))
  : option (Z * bytes * socket) :=
  if got <? need then
    match fuel with
    | O => None
    | S fuel =>
        let '(n, data, s) := sys_recv (need - got) s in
        if n <=? 0 then Some (-1, buf, s) else
        buf ← buf_write buf (off + got) data;
        recv_exact_loop fuel buf off need (size_t (got + n)) s
    end
  else Some (0, buf, s).

Definition recv_exact (buf : bytes) (off need : Z) (s : socket) : option (Z * bytes * socket) :=
  recv_exact_loop (Z.to_nat need) buf off need 0 s.

Fixpoint send_all_loop (fuel : nat) (buf : bytes) (len sent : Z) (s : socket (P := P)) : option (Z * socket) :=
  if sent <? len then
    match fuel with
    | O => None
    | S fuel =>
        data ← buf_slice buf sent (len - sent);
        '(n, s) ← sys_send peer data s;
        if n <=? 0 then Some (-1, s) else
        send_all_loop fuel buf len (size_t (sent + n)) s
    end
  else Some (0, s).

Definition send_all (buf : bytes) (len : Z) (s : socket) : option (Z * socket) :=
  send_all_loop (Z.to_nat len) buf len 0 s.

(** ** Serving

    [stk_user] and [stk_pass] are what the local arrays [user] and [pass] hold
    before they are written. *)
Context (stk_user stk_pass : bytes).

(** The status of a request and the opcode of the reply. *)
Definition handle_frame (buf : bytes) (type len : Z) (us : mock_users) : option (ChatStatus * ChatOpcode * mock_users) :=
  if (type =? opcode OP_REG_REQ) || (type =? opcode OP_LOGIN_REQ) then
    '(r, user, pass) ← chat_decode_user_pass (Some buf) (2 + len) (Some stk_user) (Some stk_pass);
    '(status, us) ←
      (if negb (r =? 0) then Some (ST_ERR_PROTOCOL, us) else
       user ← read_str user;
       pass ← read_str pass;
       if type =? opcode OP_REG_REQ then Some (handle_register us user pass)
       else Some (handle_login us user pass, us));
    Some (status, if type =? opcode OP_REG_REQ then OP_REG_REP else OP_LOGIN_REP, us)
  else Some (ST_ERR_PROTOCOL, OP_REG_REP, us).

(** One turn of the loop: whether it goes on. *)
Definition serve_turn (buf : bytes) (us : mock_users) (s : socket) : option (bool * bytes * mock_users * socket) :=
  '(r, buf, s) ← recv_exact buf 0 2 s;
  if negb (r =? 0) then Some (false, buf, us, s) else
  '(r, type, len) ← chat_peek_header (Some buf) 2 (Some 0) (Some 0);
  if negb (r =? 0) then Some (false, buf, us, s) else
  type ← type;
  len ← len;
  '(r, buf, s) ← (if len >? 0 then recv_exact buf 2 len s else Some (0, buf, s));
  if negb (r =? 0) then Some (false, buf, us, s) else
  '(status, rep_op, us) ← handle_frame buf type len us;
  '(n, buf) ← chat_encode_status_rep (Some buf) rep_op status;
  buf ← buf;
  if n <? 0 then Some (false, buf, us, s) else
  '(r, s) ← send_all buf n s;
  if negb (r =? 0) then Some (false, buf, us, s) else
  Some (true, buf, us, s).

(** Every turn takes a frame off the stream: the fuel bounds their number. *)
Fixpoint serve_loop (fuel : nat) (buf : bytes) (us : mock_users) (s : socket) : option (mock_users * socket) :=
  match fuel with
  | O => None
  | S fuel =>
      '(go, buf, us, s) ← serve_turn buf us s;
      if (go : bool) then serve_loop fuel buf us s else Some (us, s)
  end.

(** [stk_buf] is what the local array [buf] holds at first. *)
Definition serve_client (fuel : nat) (stk_buf : bytes) (us : mock_users) (s : socket) : option (mock_users * socket) :=
  serve_loop fuel stk_buf us s.

End net.

(** The accept loop of [main] on the connections that come, each a failing
    [accept] or a descriptor with its connection; [stk_buf] and the other two are
    what the local arrays of [serve_client] hold.  The connections afterwards, and
    the descriptors closed.  A connection that is [halted] is the last: the
    server waits for its client for ever, or was killed by [SIGPIPE]. *)
Fixpoint accept_loop {P} (peer : P -> bytes -> option (P * bytes)) (stk_buf stk_user stk_pass : bytes)
    (fuel : socket (P := P) -> nat) (conns : list (option (Z * socket (P := P)))) (us : mock_users) (closed : list Z)
  : option (mock_users * list (socket (P := P)) * list Z) :=
  match conns with
  | [] => Some (us, [], closed)
  | None :: conns => accept_loop peer stk_buf stk_user stk_pass fuel conns us closed
  | Some (cfd, s) :: conns =>
      '(us, s) ← serve_client peer stk_user stk_pass (fuel s) stk_buf us s;
      if halted s then Some (us, [s], closed) else
      '(us, ss, closed) ← accept_loop peer stk_buf stk_user stk_pass fuel conns us (closed ++ [cfd]);
      Some (us, s :: ss, closed)
  end.

(** What the kernel answers to [socket], [bind] and [listen]. *)
Record mock_listen := MkListen { lfd : Z; bind_ok : bool; listen_ok : bool }.

(** [main]: the exit code, or [None] while it goes on accepting. *)
Definition main {P} (peer : P -> bytes -> option (P * bytes)) (stk_buf stk_user stk_pass : bytes)
    (fuel : socket (P := P) -> nat) (k : mock_listen) (conns : list (option (Z * socket (P := P))))
  : option (option Z * mock_users * list (socket (P := P)) * list Z) :=
  if lfd k <? 0 then Some (Some 1, [], [], []) else
  if negb (bind_ok k) then Some (Some 1, [], [], [lfd k]) else
  if negb (listen_ok k) then Some (Some 1, [], [], [lfd k]) else
  '(us, ss, closed) ← accept_loop peer stk_buf stk_user stk_pass fuel conns [] [];
  Some (None, us, ss, closed).

(** ** Specification *)

Definition mock_answer (us : mock_users) (f : bytes) : ChatStatus * ChatOpcode * mock_users :=
  match f with
  | t :: _ =>
      if (t =? opcode OP_REG_REQ) || (t =? opcode OP_LOGIN_REQ) then
        let op := if t =? opcode OP_REG_REQ then OP_REG_REP else OP_LOGIN_REP in
        match parse_user_pass f with
        | None => (ST_ERR_PROTOCOL, op, us)
        | Some (u, p) =>
            if t =? opcode OP_REG_REQ then let '(st, us) := handle_register us u p in (st, op, us)
            else (handle_login us u p, op, us)
        end
      else (ST_ERR_PROTOCOL, OP_REG_REP, us)
  | [] => (ST_ERR_PROTOCOL, OP_REG_REP, us)
  end.

(** The replies to a sequence of frames. *)
Fixpoint mock_run (us : mock_users) (fs : list bytes) : mock_users * list bytes :=
  match fs with
  | [] => (us, [])
  | f :: fs =>
      let '(st, op, us) := mock_answer us f in
      let '(us, rs) := mock_run us fs in (us, status_frame op st :: rs)
  end.

(** ** The transport is the client's *)

Lemma recv_exact_same {P} (buf : bytes) off need (s : socket (P := P)) :
  recv_exact buf off need s = ClientNet.recv_exact buf off need s.
Proof.
  unfold recv_exact, ClientNet.recv_exact. generalize 0 at 1 2. generalize (Z.to_nat need). intros fuel.
  revert buf s. induction fuel as [|fuel IH]; intros buf s got; cbn [recv_exact_loop recv_loop]; [done|].
  destruct (got <? need); [|done]. destruct (sys_recv (need - got) s) as [[n data] s1].
  destruct (n <=? 0) eqn:E, (n <? 0) eqn:E1, (n =? 0) eqn:E2; bprop; try lia; try done.
  destruct (buf_write _ _ _); [apply IH|done].
Qed.

Lemma send_all_same {P} (peer : P -> bytes -> option (P * bytes)) fd (buf : bytes) len (s : socket (P := P)) : 0 <= fd ->
  send_all peer buf len s = client_net_send_all peer fd (Some buf) len s.
Proof.
  intros Hfd. unfold send_all, client_net_send_all. rewrite (proj2 (Z.ltb_ge _ _)) by done.
  generalize 0 at 1 2. generalize (Z.to_nat len). intros fuel.
  revert s. induction fuel as [|fuel IH]; intros s sent; cbn [send_all_loop send_loop]; [done|].
  destruct (sent <? len); [|done]. destruct (buf_slice buf sent (len - sent)) as [data|]; [|done].
  cbn [mbind option_bind]. destruct (sys_send peer data s) as [[n s1]|]; [|done]. cbn [mbind option_bind].
  destruct (n <=? 0) eqn:E, (n <? 0) eqn:E1, (n =? 0) eqn:E2; bprop; (lia || done || apply IH).
Qed.

(** ** One frame *)

Lemma handle_frame_spec ou op us t l body rest : is_byte_list (t :: l :: body ++ rest) ->
  one_frame (t :: l :: body) -> 33 <= blen ou -> 33 <= blen op ->
  handle_frame ou op (t :: l :: body ++ rest) t l us = Some (mock_answer us (t :: l :: body)).
Proof.
  intros Hb Hone Hou Hop. cbn [one_frame] in Hone. unfold handle_frame, mock_answer.
  destruct (_ || _) eqn:Ht; [|done].
  pose proof (decode_user_pass_any (t :: l :: body ++ rest) (2 + l) ou op Hb) as H.
  assert (take (Z.to_nat (2 + l)) (t :: l :: body ++ rest) = t :: l :: body) as Et.
  { replace (Z.to_nat (2 + l)) with (length (t :: l :: body)) by (unfold blen in Hone; cbn [length]; lia).
    exact (take_app_length (t :: l :: body) rest). }
  rewrite Et in H. specialize (H ltac:(pose proof (blen_nonneg body); rewrite !blen_cons, blen_app;
    pose proof (blen_nonneg rest); lia) Hou Hop).
  destruct (parse_user_pass (t :: l :: body)) as [[u p]|].
  - destruct H as (bu & bp & -> & Eu & Ep & _). cbn [mbind option_bind Z.eqb negb read_str]. rewrite Eu, Ep.
    cbn [mbind option_bind]. destruct (t =? opcode OP_REG_REQ); [|done]. by destruct (handle_register us u p).
  - destruct H as (bu & bp & ->). cbn [mbind option_bind Z.eqb negb]. done.
Qed.

Section serve.
Context {P : Type} {peer : P -> bytes -> option (P * bytes)} {PI : P -> Prop} `{HP : !Peer peer PI}.
Context (ou op : bytes) (Hou : 33 <= blen ou) (Hop : 33 <= blen op).

(** What one turn does: the stream ends or fails within a frame, or a frame is
    taken off it and answered. *)
Definition turn_done (buf : bytes) (us : mock_users) (s : socket) (res : option (bool * bytes * mock_users * socket)) : Prop :=
  exists data s1, read_off s data s1 /\
    ((exists buf', res = Some (false, buf', us, s1) /\ unfinished data /\ (reliable s -> incoming s1 = [])) \/
     (one_frame data /\ exists (go : bool) buf' s2 chunks, let '(st, rop, us') := mock_answer us data in
       res = Some (go, buf', us', s2) /\ is_byte_list buf' /\ blen buf' = blen buf /\ sent (peer := peer) (PI := PI) s1 chunks s2 /\
       concat chunks `prefix_of` status_frame rop st /\
       (go = true -> concat chunks = status_frame rop st) /\ (reliable s -> go = true))).

(** The second half of a turn, on a frame at the start of the buffer. *)
Lemma answer_frame us s t l body rest : conn_ok (PI := PI) s -> is_byte_list (t :: l :: body ++ rest) ->
  blen (t :: l :: body ++ rest) = CHAT_MAX_MSG_SIZE -> one_frame (t :: l :: body) ->
  exists (go : bool) buf' s2 chunks, let '(st, rop, us') := mock_answer us (t :: l :: body) in
    ('(status, rep_op, us) ← handle_frame ou op (t :: l :: body ++ rest) t l us;
     '(n, buf) ← chat_encode_status_rep (Some (t :: l :: body ++ rest)) rep_op status;
     buf ← buf;
     if n <? 0 then Some (false, buf, us, s) else
     '(r, s) ← send_all peer buf n s;
     if negb (r =? 0) then Some (false, buf, us, s) else
     Some (true, buf, us, s)) = Some (go, buf', us', s2) /\
    is_byte_list buf' /\ blen buf' = CHAT_MAX_MSG_SIZE /\ sent (peer := peer) (PI := PI) s chunks s2 /\
    concat chunks `prefix_of` status_frame rop st /\
    (go = true -> concat chunks = status_frame rop st) /\ (reliable s -> go = true).
Proof.
  intros O Hb Hl Hone. rewrite handle_frame_spec by done. destruct (mock_answer us (t :: l :: body)) as [[st rop] us'].
  cbn [mbind option_bind]. set (buf := t :: l :: body ++ rest) in *.
  assert (3 <= blen buf) as H3 by (rewrite Hl; by vm_compute).
  rewrite (encode_status_spec buf rop st) by done. cbn [mbind option_bind].
  set (buf' := status_frame rop st ++ drop (length (status_frame rop st)) buf).
  assert (blen (status_frame rop st) = 3) as -> by done. cbn [Z.ltb Z.compare].
  assert (is_byte_list buf') as Hb' by (apply Forall_app; split; [apply (status_frame_ok rop st)|by apply Forall_drop]).
  assert (blen buf' = CHAT_MAX_MSG_SIZE) as Hl'.
  { unfold buf'. rewrite blen_app, <-Hl. unfold blen in *. rewrite length_drop. cbn [length status_frame frame] in *. lia. }
  destruct (send_all_spec 0 buf' 3 s O Hb') as (r & s2 & chunks & E & S & Hr); [done|done|by rewrite Hl'|by vm_compute|].
  rewrite (send_all_same peer 0) by lia. rewrite E. cbn [mbind option_bind].
  assert (take (Z.to_nat 3) buf' = status_frame rop st) as Et by done. rewrite Et in Hr.
  destruct Hr as [(-> & Hc & _)|(-> & Hp & _ & Hn)].
  - exists true, buf', s2, chunks. cbn [Z.eqb negb]. rewrite Hc. done.
  - exists false, buf', s2, chunks. done.
Qed.

Lemma serve_turn_spec buf us s : conn_ok (PI := PI) s -> is_byte_list buf -> blen buf = CHAT_MAX_MSG_SIZE ->
  turn_done buf us s (serve_turn peer ou op buf us s).
Proof.
  intros O Hbuf Hb. unfold serve_turn. rewrite recv_exact_same.
  destruct (recv_exact_spec buf 0 2 s O) as (r & s1 & d1 & E1 & R1 & Hr); [lia|chat_consts; lia|revert Hb; chat_consts; lia|].
  rewrite E1. cbn [mbind option_bind]. destruct Hr as [(-> & Ld & _)|(-> & Ld & Hin)]; cbn [Z.eqb negb]; cycle 1.
  { exists d1, s1. split; [done|]. left. eexists. split; [done|]. split; [|done].
    destruct d1 as [|t [|l body]]; [done..|]. unfold blen in Ld. cbn [length] in Ld. lia. }
  destruct d1 as [|t [|l [|? ?]]]; try (unfold blen in Ld; cbn [length] in Ld; lia).
  assert (chat_peek_header (Some (stored_at buf 0 [t; l])) 2 (Some 0) (Some 0) = Some (0, Some t, Some l)) as ->
    by by rewrite stored_at_0.
  cbn [mbind option_bind Z.eqb negb]. destruct (read_off_ok s [t; l] s1 O R1) as [O1 Hd].
  assert (is_u8 l) as Hl by (unfold is_byte_list in Hd; rewrite !Forall_cons_iff in Hd; tauto). unfold is_u8 in Hl.
  assert (forall body, stored_at (stored_at buf 0 [t; l]) 2 body = stored_at buf 0 (t :: l :: body)) as Happ.
  { intros body. apply (stored_at_app buf 0 [t; l] body); [lia|]. revert Hb. unfold blen. cbn [length]. chat_consts. lia. }
  assert (blen (stored_at buf 0 [t; l]) = CHAT_MAX_MSG_SIZE) as L2.
  { rewrite stored_at_length; [done|lia|]. revert Hb. unfold blen. cbn [length]. chat_consts. lia. }
  assert (exists r s2 body, (if l >? 0 then recv_exact (stored_at buf 0 [t; l]) 2 l s1 else Some (0, stored_at buf 0 [t; l], s1))
      = Some (r, stored_at buf 0 (t :: l :: body), s2) /\ read_off s1 body s2 /\
      ((r = 0 /\ blen body = l) \/ (r = -1 /\ blen body < l /\ (reliable s1 -> incoming s2 = [])))) as (r & s2 & body & -> & R2 & Hr).
  { destruct (l >? 0) eqn:El; rewrite Z.gtb_ltb in El; bprop.
    - rewrite recv_exact_same. destruct (recv_exact_spec (stored_at buf 0 [t; l]) 2 l s1 O1) as (r & s2 & body & E2 & R2 & Hr);
        [lia|chat_consts; lia|rewrite L2; chat_consts; lia|]. exists r, s2, body. rewrite E2, Happ. split; [done|]. split; [done|]. destruct Hr as [(? & ? & _)|?]; auto.
    - assert (l = 0) as -> by lia. exists 0, s1, []. split; [done|]. split; [apply read_off_nil|by left]. }
  cbn [mbind option_bind]. pose proof (read_off_app s [t; l] s1 body s2 R1 R2) as R. cbn [app] in R.
  destruct Hr as [(-> & Lb)|(-> & Lb & Hin)]; cbn [Z.eqb negb]; cycle 1.
  { exists (t :: l :: body), s2. split; [done|]. left. eexists. split; [done|]. split; [done|]. intros Hrel. apply Hin. by apply R1. }
  destruct (read_off_ok s _ s2 O R) as [O2 Hd2]. exists (t :: l :: body), s2. split; [done|]. right. split; [done|].
  rewrite stored_at_0. destruct (answer_frame us s2 t l body (drop (length (t :: l :: body)) buf) O2)
    as (go & buf' & s3 & chunks & H).
  - rewrite !app_comm_cons. apply Forall_app. split; [done|by apply Forall_drop].
  - rewrite !app_comm_cons, <-stored_at_0, stored_at_length; [done|lia|]. rewrite Hb. rewrite !blen_cons. chat_consts. lia.
  - done.
  - exists go, buf', s3, chunks. rewrite !app_comm_cons in H. destruct (mock_answer us (t :: l :: body)) as [[st rop] us'].
    destruct H as (E & H1 & H2 & H3 & H4 & H5 & H6). split; [exact E|]. do 4 (split; [congruence || done|]). split; [done|].
    intros Hrel. apply H6. by apply R.
Qed.

End serve.

(** ** A whole connection *)

Lemma mock_run_cons us f fs : mock_run us (f :: fs) =
  let '(st, op, us1) := mock_answer us f in
  ((mock_run us1 fs).1, status_frame op st :: (mock_run us1 fs).2).
Proof. cbn [mock_run]. destruct (mock_answer us f) as [[st op] us1]. by destruct (mock_run us1 fs). Qed.

Lemma split_frame_app f rest : one_frame f -> split_frames (f ++ rest) =
  let '(fs, r) := split_frames rest in (f :: fs, r).
Proof.
  intros H. rewrite split_frames_app, (split_one_frame f H). cbn [app]. by destruct (split_frames rest).
Qed.

(** The connection [s] with the stream that is left is served: [k] frames are
    answered, whole but for the last of the replies, which may be cut off.  If no
    call fails these are all frames there are. *)
Definition served (us : mock_users) (s : socket (P := bytes)) (res : option (mock_users * socket)) : Prop :=
  exists k us' s' sent_back, res = Some (us', s') /\ remote s' = remote s ++ sent_back /\
    let fs := (split_frames (incoming s)).1 in
    (k <= length fs)%nat /\ us' = (mock_run us (take k fs)).1 /\
    concat (mock_run us (take (pred k) fs)).2 `prefix_of` sent_back /\
    sent_back `prefix_of` concat (mock_run us (take k fs)).2 /\
    (reliable s -> k = length fs /\ sent_back = concat (mock_run us fs).2 /\ incoming s' = []).

Lemma serve_loop_spec ou op fuel buf us s : 33 <= blen ou -> 33 <= blen op -> is_byte_list (incoming s) ->
  is_byte_list buf -> blen buf = CHAT_MAX_MSG_SIZE -> (length (incoming s) < fuel)%nat ->
  served us s (serve_loop recorder ou op fuel buf us s).
Proof.
  intros Hou Hop. revert buf us s. induction fuel as [|fuel IH]; intros buf us s Hi Hbuf Hl Hf; [lia|].
  cbn [serve_loop].
  destruct (serve_turn_spec ou op Hou Hop buf us s (conj I Hi) Hbuf Hl)
    as (data & s1 & [Es Er Hr _] & [(buf' & -> & Hu & Hin)|(Hone & go & buf' & s2 & chunks & H)]).
  - cbn [mbind option_bind]. exists 0%nat, us, s1, []. cbn [take mock_run fst snd]. rewrite Er, app_nil_r.
    do 4 (split; [done || lia|]). split; [apply prefix_nil|]. split; [apply prefix_nil|]. intros Hrel. specialize (Hin Hrel).
    rewrite Es, Hin, app_nil_r, (split_unfinished data Hu). done.
  - destruct (mock_answer us data) as [[st rop] us1] eqn:Ea.
    destruct H as (-> & Hb' & Hl' & [(r & F & Ei) _ [_ O2] R2 _] & Hp & Hgo & Hrel). cbn [mbind option_bind].
    rewrite recorder_feed in F. injection F as E2 <-. rewrite app_nil_r in Ei.
    assert (length (incoming s1) < length (incoming s))%nat as Hlt.
    { rewrite Es, length_app. destruct data; [done|]. cbn [length]. lia. }
    assert ((split_frames (incoming s)).1 = data :: (split_frames (incoming s1)).1) as Ef.
    { rewrite Es, split_frame_app by done. by destruct (split_frames (incoming s1)). }
    destruct go.
    + destruct (IH buf' us1 s2) as (k & us' & s' & out & -> & Eo & Hk & -> & Hlow & Hpre & Hok); [done|done|congruence|rewrite Ei; lia|].
      rewrite Ei in *. exists (S k), (mock_run us1 (take k (split_frames (incoming s1)).1)).1, s', (concat chunks ++ out).
      split; [done|]. split; [by rewrite Eo, <-E2, Er, app_assoc|]. cbv zeta. rewrite Ef. cbn [take length].
      rewrite !mock_run_cons, Ea. cbn [fst snd concat]. rewrite (Hgo eq_refl).
      split; [lia|]. split; [done|]. split.
      { cbn [pred]. destruct k as [|k]; [apply prefix_nil|]. cbn [take pred] in *. rewrite mock_run_cons, Ea.
        by apply prefix_app. }
      split; [by apply prefix_app|]. intros Hs.
      destruct (Hok (R2 (Hr Hs))) as (-> & -> & ->). done.
    + exists 1%nat, us1, s2, (concat chunks). split; [done|]. split; [congruence|]. cbv zeta. rewrite Ef. cbn [take length].
      rewrite !mock_run_cons, Ea. cbn [take fst snd concat mock_run]. rewrite app_nil_r.
      split; [lia|]. split; [done|]. split; [apply prefix_nil|]. split; [done|]. intros Hs. by specialize (Hrel Hs).
Qed.

(** One connection after the other: those closed, with the last one perhaps not
    coming to its end. *)
Inductive served_all : mock_users -> list (Z * socket (P := bytes)) -> list (socket (P := bytes)) -> list Z -> mock_users -> Prop :=
| served_none us : served_all us [] [] [] us
| served_next us d s us1 s1 l l' ds us' : served us s (Some (us1, s1)) -> halted s1 = false ->
    served_all us1 l l' ds us' -> served_all us ((d, s) :: l) (s1 :: l') (d :: ds) us'
| served_stops us d s us1 s1 l : served us s (Some (us1, s1)) -> halted s1 = true ->
    served_all us ((d, s) :: l) [s1] [] us1.

Lemma accept_loop_spec stk_buf ou op conns us closed : 33 <= blen ou -> 33 <= blen op ->
  is_byte_list stk_buf -> blen stk_buf = CHAT_MAX_MSG_SIZE ->
  Forall (fun c => is_byte_list (incoming c.2)) (omap id conns) ->
  exists us' ss ds, accept_loop recorder stk_buf ou op (fun s => S (length (incoming s))) conns us closed
      = Some (us', ss, closed ++ ds) /\ served_all us (omap id conns) ss ds us'.
Proof.
  intros Hu Hp Hb Hl. revert us closed. induction conns as [|[[cfd s]|] conns IH]; intros us closed Hc.
  - exists us, [], []. rewrite app_nil_r. split; [done|constructor].
  - cbn in Hc. apply Forall_cons in Hc as [Hs Hc]. cbn [accept_loop].
    pose proof (serve_loop_spec ou op (S (length (incoming s))) stk_buf us s Hu Hp Hs Hb Hl ltac:(lia)) as H.
    unfold serve_client. pose proof H as (k & us1 & s1 & out & E & _). rewrite E in *. cbn [mbind option_bind].
    destruct (halted s1) eqn:Eh.
    + exists us1, [s1], []. rewrite app_nil_r. split; [done|]. by apply served_stops.
    + destruct (IH us1 (closed ++ [cfd]) Hc) as (us' & ss & ds & -> & S). exists us', (s1 :: ss), (cfd :: ds). cbn.
      rewrite <-app_assoc. split; [done|]. by econstructor.
  - by apply IH.
Qed.

(** ** The mock server at the other end of a client

    The client waits for its reply, and [serve_client] waits for the next bytes
    of the client.  Where it is then is what its code does on all bytes that it
    has received so far, on a connection that stays open: [p] is the table it
    started with and these bytes, and its answer to further bytes is what it
    sends beyond what it has sent before.  [sp] and [rp] are the numbers of bytes
    the kernel transfers in its calls. *)
Section mock.
Context (stk_buf stk_user stk_pass : bytes) (sp rp : nat -> Z).

Definition mock_serves (p : mock_users * bytes) : option (mock_users * socket (P := bytes)) :=
  serve_client recorder stk_user stk_pass (S (length p.2)) stk_buf p.1 (MkSocket [] p.2 sp rp false).

Definition mock_peer (p : mock_users * bytes) (b : bytes) : option (mock_users * bytes * bytes) :=
  '(_, s) ← mock_serves p;
  '(_, s') ← mock_serves (p.1, p.2 ++ b);
  Some ((p.1, p.2 ++ b), drop (length (remote s)) (remote s')).

(** What the mock server is given to work with. *)
Definition mock_ready : Prop :=
  33 <= blen stk_user /\ 33 <= blen stk_pass /\ is_byte_list stk_buf /\ blen stk_buf = CHAT_MAX_MSG_SIZE /\
  (forall i, 0 < sp i) /\ (forall i, 0 < rp i).

Context (HR : mock_ready).

Lemma mock_serves_spec us b : is_byte_list b -> exists s', mock_serves (us, b) = Some ((mock_run us (split_frames b).1).1, s') /\
  remote s' = concat (mock_run us (split_frames b).1).2.
Proof using HR.
  destruct HR as (Hu & Hp & Hb & Hl & Hs & Hr). intros Hbytes. unfold mock_serves, serve_client. cbn [fst snd].
  destruct (serve_loop_spec stk_user stk_pass (S (length b)) stk_buf us (MkSocket [] b sp rp false) Hu Hp Hbytes Hb Hl)
    as (k & us' & s' & back & -> & E & _ & -> & _ & _ & Hrel); [cbn; lia|]. cbn [incoming remote app] in *.
  destruct Hrel as (-> & -> & _); [split; [done|intros i; cbn; specialize (Hr i); lia]|].
  exists s'. by rewrite take_ge by lia.
Qed.

Lemma mock_replies us fs : Forall reply_ok (mock_run us fs).2.
Proof.
  revert us. induction fs as [|f fs IH]; intros us; [constructor|]. rewrite mock_run_cons.
  destruct (mock_answer us f) as [[st op] us1]. cbn [snd]. constructor; [apply status_frame_ok|apply IH].
Qed.

Lemma mock_run_app us fs1 fs2 : mock_run us (fs1 ++ fs2)
  = ((mock_run (mock_run us fs1).1 fs2).1, (mock_run us fs1).2 ++ (mock_run (mock_run us fs1).1 fs2).2).
Proof.
  revert us. induction fs1 as [|f fs1 IH]; intros us; [cbn; by destruct (mock_run us fs2)|].
  cbn [app]. rewrite !mock_run_cons. destruct (mock_answer us f) as [[st op] us1]. by rewrite IH.
Qed.

(** The code of the loop answers the frames that become complete. *)
Lemma mock_peer_spec us rcv b : is_byte_list rcv -> is_byte_list b ->
  mock_peer (us, rcv) b = Some ((us, rcv ++ b),
    concat (mock_run (mock_run us (split_frames rcv).1).1 (split_frames ((split_frames rcv).2 ++ b)).1).2).
Proof using HR.
  intros Hr Hb. unfold mock_peer. destruct (mock_serves_spec us rcv Hr) as (s & -> & Es).
  destruct (mock_serves_spec us (rcv ++ b)) as (s' & E' & Es'); [by apply Forall_app|]. cbn [fst snd mbind option_bind].
  rewrite E'. cbn [mbind option_bind]. rewrite Es, Es', split_frames_app. destruct (split_frames rcv) as [fs1 r1]. cbn [fst snd].
  destruct (split_frames (r1 ++ b)) as [fs2 r2]. cbn [fst snd]. rewrite mock_run_app. cbn [snd]. rewrite concat_app.
  by rewrite drop_app_length.
Qed.

#[local] Instance mock_Peer : Peer mock_peer (fun p => is_byte_list p.2).
Proof using HR.
  constructor. intros [us rcv] b Hp Hb _. rewrite mock_peer_spec by done. eexists _, _. split; [done|].
  split; [by apply Forall_app|]. apply Forall_concat. eapply Forall_impl; [apply mock_replies|]. by intros r [? _].
Qed.

Lemma mock_feed chunks us rcv : is_byte_list rcv -> Forall is_byte_list chunks ->
  feed mock_peer (us, rcv) chunks = Some ((us, rcv ++ concat chunks),
    concat (mock_run (mock_run us (split_frames rcv).1).1 (split_frames ((split_frames rcv).2 ++ concat chunks)).1).2).
Proof using HR.
  revert rcv. induction chunks as [|c chunks IH]; intros rcv Hr Hc; cbn [concat feed].
  - rewrite !app_nil_r. pose proof (split_frames_rest rcv) as E. destruct (split_frames rcv) as [fs rest]. cbn [fst snd] in *.
    by rewrite E.
  - apply Forall_cons_1 in Hc as [Hc Hcs]. rewrite mock_peer_spec by done. cbn [mbind option_bind].
    rewrite IH by (done || by apply Forall_app). cbn [mbind option_bind]. rewrite <-app_assoc.
    rewrite (split_frames_app rcv c). destruct (split_frames rcv) as [fs1 r1]. cbn [fst snd].
    rewrite (app_assoc r1), (split_frames_app (r1 ++ c)). destruct (split_frames (r1 ++ c)) as [fs2 r2]. cbn [fst snd].
    destruct (split_frames (r2 ++ concat chunks)) as [fs3 r3]. cbn [fst snd].
    by rewrite !mock_run_app, <-concat_app.
Qed.

(** Between two calls: the table, nothing on the way. *)
Definition mock_linked (s : socket (P := mock_users * bytes)) (us : mock_users) : Prop :=
  fst <$> mock_serves (remote s) = Some us /\ is_byte_list (remote s).2 /\ (split_frames (remote s).2).2 = [] /\
  incoming s = [] /\ reliable s /\ halted s = false.

(** The calls the mock server is for. *)
Definition auth_call (call : client_call) : Prop :=
  match call with CRegister _ _ | CLogin _ _ => True | _ => False end.

(** The status of a call and the users after it. *)
Definition mock_call (call : client_call) (us : mock_users) : Z * mock_users :=
  match call_frame call with
  | Some fr => let '(st, _, us) := mock_answer us fr in (status_code st, us)
  | None => (failure, us)
  end.

Fixpoint mock_session (calls : list client_call) (us : mock_users) : list Z * mock_users :=
  match calls with
  | [] => ([], us)
  | call :: calls =>
      let '(st, us) := mock_call call us in
      let '(sts, us) := mock_session calls us in (st :: sts, us)
  end.

Lemma mock_asked s us call fr s' reply : mock_linked s us -> call_names call -> call_frame call = Some fr ->
  asked (peer := mock_peer) (PI := fun p => is_byte_list p.2) s fr s' reply ->
  reply_status reply = (mock_call call us).1 /\ mock_linked s' (mock_call call us).2.
Proof using HR.
  intros (Er & Hb0 & Hp0 & Hi & Hr & Hh) Hn Ef A. destruct (request_frame call fr Hn Ef) as (H1 & Hb & Hl & _).
  unfold mock_call. rewrite Ef. destruct (remote s) as [us0 rcv] eqn:Ers. cbn [snd] in *.
  destruct (mock_serves_spec us0 rcv Hb0) as (x & Ex & _). rewrite Ex in Er. cbn in Er. injection Er as Er.
  destruct (mock_answer us fr) as [[st op] us1] eqn:Ea.
  destruct (asked_one mock_peer _ (fun p r => p = (us0, rcv ++ fr) /\ r = status_frame op st) s fr s' reply A Hr Hi Hb Hl)
    as (r & (Ep & ->) & -> & Hi' & Hr' & Hh').
  - intros chunks Hch Hc. pose proof (mock_feed chunks us0 rcv Hb0) as H. rewrite Hc, Hp0, Er in H. cbn [app] in H.
    rewrite (split_one_frame fr H1) in H. cbn [fst] in H. rewrite mock_run_cons, Ea in H.
    cbn [mock_run fst snd concat] in H. rewrite app_nil_r in H. rewrite Ers. eexists _, _. split; [apply H|by split].
    eapply Forall_impl; [exact Hch|]. by intros c [? _].
  - split; [done|]. cbn [snd]. unfold mock_linked. rewrite Ep. cbn [snd].
    assert (is_byte_list (rcv ++ fr)) as Hb' by by apply Forall_app.
    destruct (mock_serves_spec us0 (rcv ++ fr) Hb') as (y & -> & _).
    rewrite split_frames_app. destruct (split_frames rcv) as [fs1 r1]. cbn [fst snd] in *. subst r1. cbn [app].
    rewrite (split_one_frame fr H1). cbn [fst snd fmap option_fmap option_map]. rewrite mock_run_app. cbn [fst].
    rewrite Er, mock_run_cons, Ea. cbn [fst mock_run]. do 5 (split; [done|]). by rewrite Hh', Hh.
Qed.

Lemma rep_mock_call call c id es oip p0 s us o m : mock_linked s us -> cm_rep c id es -> auth_call call ->
  call_names call -> alloc_ok m -> CHAT_MAX_IP_STR_LEN <= blen oip ->
  exists ip' p' c' s' m', client_do (peer := mock_peer) call (Some c) (Some oip) (Some p0) s o m
      = Some (((mock_call call us).1, Some ip', Some p', Some c', s', o), m') /\
    mock_linked s' (mock_call call us).2 /\ cm_rep c' id es /\ alloc_ok m' /\ blen ip' = blen oip /\
    (logged_in c', username c') = login_effect call (mock_call call us).1 (logged_in c, username c).
Proof.
  intros L R Ha Hn Hm Ho. assert (conn_ok (PI := fun p => is_byte_list p.2) s) as O.
  { split; [apply L|]. destruct L as (_ & _ & _ & -> & _). constructor. }
  destruct (rep_call call c id es oip p0 s o m R O (call_names_ok call Hn) Ho)
    as (st & ip' & p' & c' & s' & o' & m' & es' & reply & E & A & _ & Hres & R' & _ & Hlu & _ & _ & Hal).
  destruct (Hal Hm) as [Hm' Hw].
  assert (st = (mock_call call us).1 /\ mock_linked s' (mock_call call us).2) as [-> L'].
  { assert (st = reply_status reply) as -> by (destruct call; try done; by injection Hres).
    unfold call_asked in A. destruct (call_frame call) as [fr|] eqn:Ef; [by eapply mock_asked|].
    destruct A as [-> ->]. unfold mock_call. by rewrite Ef. }
  assert (es' = es /\ o' = o) as [-> ->].
  { unfold window_effect in Hw. destruct (negb _); [by injection Hw|]. destruct call; try done; by injection Hw. }
  assert (ip' = oip) as -> by (destruct call; try done; by injection Hres).
  by exists oip, p', c', s', m'.
Qed.

(** ** The two servers *)

(** Both know the same users with the same passwords. *)
Definition same_users (us : mock_users) (a : astate) : Prop :=
  forall k, pass <$> find_user us k = u_pass <$> aU a !! k.

(** Nobody is logged in. *)
Definition all_offline (a : astate) : Prop := aS a = ∅ /\ forall k i, aU a !! k = Some i -> u_sock i = None.

Lemma coherent_offline a : coherent a -> aS a = ∅ -> all_offline a.
Proof.
  intros C HS. split; [done|]. intros k i Hi. destruct (u_sock i) as [x|] eqn:Es; [|done]. exfalso.
  assert (aS a !! x = Some k) as H by (apply (coh_online _ C); by exists i). by rewrite HS in H.
Qed.

Lemma find_user_app us u k : find_user (us ++ [u]) k =
  match find_user us k with Some x => Some x | None => if str_eqb (name u) k then Some u else None end.
Proof. induction us as [|x us IH]; cbn [app find_user]; [done|]. by destruct (str_eqb (name x) k). Qed.

Lemma mock_call_frame call us : call_names call -> auth_call call ->
  mock_call call us =
    match call with
    | CRegister u p => if bool_decide (is_Some (call_frame call))
        then (status_code (handle_register us u p).1, (handle_register us u p).2) else (failure, us)
    | CLogin u p => if bool_decide (is_Some (call_frame call))
        then (status_code (handle_login us u p), us) else (failure, us)
    | _ => (failure, us)
    end.
Proof.
  intros Hn Ha. unfold mock_call. destruct call as [v q|v q| | | |]; try done; destruct Hn as [Hv Hq]; cbn [call_frame];
    (destruct ((strlen v <=? _) && (strlen q <=? _)) eqn:E; [|done]); bprop; rewrite bool_decide_true by done;
    unfold mock_answer; cbn [user_pass_frame frame].
  - assert (parse_user_pass (user_pass_frame OP_REG_REQ v q) = Some (v, q)) as Ep by by apply parse_user_pass_frame.
    unfold user_pass_frame, frame in *. rewrite Ep. cbn. by destruct (handle_register us v q).
  - assert (parse_user_pass (user_pass_frame OP_LOGIN_REQ v q) = Some (v, q)) as Ep by by apply parse_user_pass_frame.
    unfold user_pass_frame, frame in *. by rewrite Ep.
Qed.

Lemma same_register us a d u p : same_users us a -> all_offline a -> Z.of_nat (length us) < MAX_USERS ->
  strlen u <= CHAT_MAX_USERNAME_LEN -> strlen p <= CHAT_MAX_PASSWORD_LEN ->
  (spec_request a d (RRegister u p)).2 = [status_frame OP_REG_REP (handle_register us u p).1] /\
  same_users (handle_register us u p).2 (spec_request a d (RRegister u p)).1 /\
  all_offline (spec_request a d (RRegister u p)).1 /\ (length (handle_register us u p).2 <= S (length us))%nat.
Proof.
  intros R [HS Hoff] Hl Hu Hp. pose proof (R u) as Ru. cbn [spec_request]. unfold handle_register, spec_register.
  destruct (find_user us u) as [x|] eqn:Ef, (aU a !! u) as [i|] eqn:Ei; try done.
  - split; [done|]. split; [by destruct a|]. split; [by destruct a|]. cbn [snd]. lia.
  - rewrite Z.geb_leb, (proj2 (Z.leb_gt _ _)), !strncpy_fits by done. split; [done|]. cbn [fst snd aU aS].
    split; [|split; [split; [done|]|rewrite length_app; cbn [length]; lia]]; cycle 1.
    { intros k i. cbn [aU]. intros [[_ <-]|[_ H]]%lookup_insert_Some; [done|by eapply Hoff]. }
    intros k. cbn [aU]. rewrite find_user_app. cbn [name]. unfold str_eqb.
    destruct (decide (u = k)) as [<-|Hne].
    + by rewrite lookup_insert_eq, Ef, bool_decide_true.
    + rewrite lookup_insert_ne, bool_decide_false by done. rewrite <-R. by destruct (find_user us k).
Qed.

(** Nobody is logged in, or exactly the user of connection [d]. *)
Definition only_online (a : astate) (d : Z) : Prop :=
  exists u i, aU a !! u = Some i /\ aS a = {[d := u]} /\
    forall k j, aU a !! k = Some j -> k <> u -> u_sock j = None.

Lemma same_login us a d u p : same_users us a -> all_offline a ->
  (spec_request a d (RLogin u p)).2 = [status_frame OP_LOGIN_REP (handle_login us u p)] /\
  same_users us (spec_request a d (RLogin u p)).1 /\
  (all_offline (spec_request a d (RLogin u p)).1 \/
   (handle_login us u p = ST_OK /\ only_online (spec_request a d (RLogin u p)).1 d)).
Proof.
  intros R [HS Hoff]. pose proof (R u) as Ru. cbn [spec_request]. unfold handle_login, spec_login.
  rewrite HS, lookup_empty. destruct (find_user us u) as [x|] eqn:Ef, (aU a !! u) as [i|] eqn:Ei; try done.
  - injection Ru as Eq. rewrite Eq. destruct (negb _) eqn:En.
    + split; [done|]. split; [by destruct a|by left].
    + rewrite (Hoff u i Ei). split; [done|]. split.
      * intros k. cbn [fst snd aU]. destruct (decide (u = k)) as [<-|Hne]; [rewrite lookup_insert_eq|rewrite lookup_insert_ne by done; apply R].
        rewrite Ef. cbn. by rewrite Eq.
      * right. split; [done|]. exists u, (with_sock i (Some d)). cbn [fst aU aS]. rewrite lookup_insert_eq.
        split; [done|]. split; [done|]. intros k j Hj Hk. rewrite lookup_insert_ne in Hj by done. by eapply Hoff.
  - split; [done|]. split; [by destruct a|by left].
Qed.

(** The connection ends: nobody is left online. *)
Lemma same_disconnect us a d : same_users us a -> all_offline a \/ only_online a d ->
  same_users us (spec_disconnect a d) /\ all_offline (spec_disconnect a d).
Proof.
  intros R [[HS Hoff]|(u & i & Hu & HS & Hoff)]; unfold spec_disconnect, spec_request, user_at; rewrite HS.
  { by rewrite lookup_empty. }
  rewrite lookup_singleton_eq, Hu. cbn [fst]. split; [|split; cbn [aU aS]].
  - intros k. cbn [aU]. destruct (decide (u = k)) as [<-|Hne]; [rewrite lookup_insert_eq|rewrite lookup_insert_ne by done; apply R].
    by rewrite R, Hu.
  - by rewrite delete_singleton_eq.
  - intros k j [[_ <-]|[Hne H]]%lookup_insert_Some; [done|]. by eapply Hoff.
Qed.

(** A login that succeeds is the last call of its connection. *)
Fixpoint login_last (calls : list client_call) (sts : list Z) : Prop :=
  match calls, sts with
  | CLogin _ _ :: calls, st :: sts => (st = 0 -> calls = []) /\ login_last calls sts
  | _ :: calls, _ :: sts => login_last calls sts
  | _, _ => True
  end.

(** One call: the same status at both, and the same users after it. *)
Lemma same_call d id call us a lu es o : same_users us a -> all_offline a -> auth_call call -> call_names call ->
  Z.of_nat (length us) < MAX_USERS ->
  let '(st, (a', _, _, _)) := spec_call d id call (a, lu, es, o) in
  st = (mock_call call us).1 /\ same_users (mock_call call us).2 a' /\
  (length (mock_call call us).2 <= S (length us))%nat /\
  (all_offline a' \/ ((exists u p, call = CLogin u p) /\ st = 0 /\ only_online a' d)).
Proof.
  intros R Hoff Ha Hn Hl. unfold spec_call, answer. rewrite (mock_call_frame call us Hn Ha).
  destruct call as [u p|u p| | | |]; try done; cbn [request_of]; destruct (call_frame _) as [fr|] eqn:Ef; cbn [call_frame] in Ef.
  all: destruct ((strlen u <=? _) && (strlen p <=? _)) eqn:El; try done; bprop.
  2, 4: rewrite bool_decide_false by (intros [? ?]; done); cbn [fst snd]; split; [done|]; split; [done|]; split; [lia|by left].
  all: rewrite bool_decide_true by done; cbn [fst snd].
  - destruct (same_register us a d u p R Hoff Hl) as (E & R' & Hoff' & Hlen); [done..|].
    destruct (spec_request a d (RRegister u p)) as [a' rs]. cbn [fst snd] in *. subst rs. cbn [head answer_status status_frame frame].
    split; [done|]. split; [done|]. split; [done|by left].
  - destruct (same_login us a d u p R Hoff) as (E & R' & Hoff').
    destruct (spec_request a d (RLogin u p)) as [a' rs]. cbn [fst snd] in *. subst rs. cbn [head answer_status status_frame frame].
    split; [done|]. split; [done|]. split; [lia|]. destruct Hoff' as [?|[-> ?]]; [by left|right]. split; [by eexists _, _|done].
Qed.

Lemma same_session d id calls us a lu es o : same_users us a -> all_offline a ->
  Forall auth_call calls -> Forall call_names calls -> Z.of_nat (length us + length calls) <= MAX_USERS ->
  login_last calls (mock_session calls us).1 ->
  let '(sts, (a', _, _, _)) := spec_session d id calls (a, lu, es, o) in
  sts = (mock_session calls us).1 /\ same_users (mock_session calls us).2 a' /\ (all_offline a' \/ only_online a' d).
Proof.
  intros R Hoff Ha Hn. revert us a lu es o R Hoff. induction calls as [|call calls IH]; intros us a lu es o R Hoff Hl Hlast.
  { split; [done|]. split; [done|by left]. }
  apply Forall_cons in Ha as [Hc Ha], Hn as [Hn1 Hn]. cbn [length] in Hl.
  pose proof (same_call d id call us a lu es o R Hoff Hc Hn1) as H. cbn [spec_session mock_session] in *.
  destruct (spec_call d id call (a, lu, es, o)) as [st [[[a1 lu1] es1] o1]].
  destruct (mock_call call us) as [mst us1]. cbn [fst snd] in *. destruct H as (-> & R1 & Hlen & Hon); [unfold MAX_USERS in *; lia|].
  specialize (IH Ha Hn us1 a1 lu1 es1 o1 R1). destruct (mock_session calls us1) as [msts us2] eqn:Em. cbn [fst snd] in *.
  destruct Hon as [Hoff1|((u & p & ->) & -> & Hon)].
  - specialize (IH Hoff1). destruct (spec_session d id calls (a1, lu1, es1, o1)) as [sts [[[a2 lu2] es2] o2]].
    destruct IH as (-> & R2 & Hend); [unfold MAX_USERS in *; lia| |done].
    destruct call; try done; by destruct Hlast.
  - destruct Hlast as [Hnil _]. specialize (Hnil eq_refl). subst calls. cbn [spec_session].
    injection Em as <- <-. split; [done|]. split; [done|by right].
Qed.

Lemma rep_mock_run calls c id es oip p0 s us o m : mock_linked s us -> cm_rep c id es -> Forall auth_call calls ->
  Forall call_names calls -> alloc_ok m -> CHAT_MAX_IP_STR_LEN <= blen oip ->
  exists c' s' m', client_run mock_peer calls (Some c) (Some oip) (Some p0) s o m
      = Some (((mock_session calls us).1, Some c', s', o), m') /\
    mock_linked s' (mock_session calls us).2 /\ cm_rep c' id es /\
    (logged_in c', username c') = login_run calls (mock_session calls us).1 (logged_in c, username c).
Proof.
  intros L R Ha Hn. revert c oip p0 s us m L R. induction calls as [|call calls IH]; intros c oip p0 s us m L R Hm Ho.
  { by exists c, s, m. }
  apply Forall_cons in Ha as [Hc Ha], Hn as [Hn1 Hn].
  destruct (rep_mock_call call c id es oip p0 s us o m L R Hc Hn1 Hm Ho) as (ip' & p' & c1 & s1 & m1 & E1 & L1 & R1 & Hm1 & Lip & Hlu).
  destruct (IH Ha Hn c1 ip' p' s1 _ m1 L1 R1 Hm1) as (c' & s' & m' & E & L' & R' & Hlu'); [by rewrite Lip|].
  exists c', s', m'. cbn [client_run mock_session]. mrun E1. mrun E. destruct (mock_call call us) as [st us1]. cbn [fst snd] in *.
  destruct (mock_session calls us1) as [sts us2]. cbn [fst snd login_run] in *. by rewrite <-Hlu.
Qed.

End mock.

(** ** Properties *)

(** C26: The mock server does what its header says.  Whatever bytes its clients
    send and whatever the kernel's [recv] and [send] answer, no undefined
    behaviour occurs and the connections are served one after the other, each
    closed before the next is accepted.  On each, the first [k] complete frames of
    the stream, for some [k], are answered, in order, each once: registrations
    and logins by the table of users the connections before it left, anything
    else and what is malformed with [ST_ERR_PROTOCOL]; the table afterwards is
    the one these frames lead to, and every reply but the last of the [k] is sent
    whole.  On a connection on which no call fails, [k] is the number of complete
    frames, and all replies are sent whole.  The first connection that does not
    come to its end (its client stays silent for ever, or [send] on it raises
    [SIGPIPE]) is not closed, and no connection after it is served.  If the port
    cannot be opened the program ends with 1 and no descriptor is left open. *)
Theorem mock_main_exact stk_buf stk_user stk_pass k (conns : list (option (Z * socket))) :
  33 <= blen stk_user -> 33 <= blen stk_pass -> is_byte_list stk_buf -> blen stk_buf = CHAT_MAX_MSG_SIZE ->
  Forall (fun c => is_byte_list (incoming c.2)) (omap id conns) ->
  if (lfd k <? 0) || negb (bind_ok k) || negb (listen_ok k)
  then main recorder stk_buf stk_user stk_pass (fun s => S (length (incoming s))) k conns
    = Some (Some 1, [], [], if lfd k <? 0 then [] else [lfd k])
  else exists us ss ds, main recorder stk_buf stk_user stk_pass (fun s => S (length (incoming s))) k conns
      = Some (None, us, ss, ds) /\
    served_all [] (omap id conns) ss ds us.
Proof.
  intros Hu Hp Hb Hl Hc. unfold main. destruct (lfd k <? 0); [done|]. destruct (bind_ok k), (listen_ok k); try done.
  cbn [orb negb]. destruct (accept_loop_spec stk_buf stk_user stk_pass conns [] [] Hu Hp Hb Hl Hc) as (us & ss & ds & -> & S).
  by exists us, ss, ds.
Qed.

(** C25: The mock server is the specification of the real one, for what the
    client was tested with.  Let the real server and the mock server know the
    same users, nobody be logged in at the real one, and the calls not exceed the
    mock server's table of 64 users.  On two connections that do not fail, each
    transferring the bytes in pieces of any size, at the one end the client's
    code, at the other the code of the one or the other server, a client that
    registers and logs in, and ends its connection after a login that succeeds,
    gets the same statuses from both and has the same login state at the end;
    when the connection to the real server is gone, both again know the same
    users and nobody is logged in, so the next connection starts alike. *)
Theorem mock_agrees_with_server stk_buf stk_user stk_pass sp rp d calls c id es oip p0 s t o m a us :
  mock_ready stk_buf stk_user stk_pass sp rp ->
  linked d s a -> mock_linked stk_buf stk_user stk_pass sp rp t us -> same_users us a -> aS a = ∅ ->
  cm_rep c id es -> alloc_ok m -> agree d a (logged_in c, username c) es ->
  Forall auth_call calls -> Forall call_names calls -> CHAT_MAX_IP_STR_LEN <= blen oip ->
  Z.of_nat (length us + length calls) <= MAX_USERS -> login_last calls (mock_session calls us).1 ->
  exists sts c1 s1 o1 m1 c2 t2 m2 a' us',
    client_run server_peer calls (Some c) (Some oip) (Some p0) s o m = Some ((sts, Some c1, s1, o1), m1) /\
    client_run (mock_peer stk_buf stk_user stk_pass sp rp) calls (Some c) (Some oip) (Some p0) t o m
      = Some ((sts, Some c2, t2, o), m2) /\
    logged_in c1 = logged_in c2 /\ username c1 = username c2 /\
    linked d s1 a' /\ mock_linked stk_buf stk_user stk_pass sp rp t2 us' /\
    same_users us' (spec_disconnect a' d) /\ aS (spec_disconnect a' d) = ∅.
Proof.
  intros HR L Lm R HS Rc Hm A Ha Hn Ho Hl Hlast.
  assert (all_offline a) as Hoff by (apply coherent_offline; [eapply sv_coherent, L|done]).
  destruct (rep_system d calls c id es oip p0 s o m a L Rc Hm Hn Ho A)
    as (sts & c1 & s1 & o1 & m1 & es1 & a' & E1 & Es & L1 & R1 & A1).
  destruct (rep_mock_run stk_buf stk_user stk_pass sp rp HR calls c id es oip p0 t us o m Lm Rc Ha Hn Hm Ho) as (c2 & t2 & m2 & E2 & L2 & R2 & Hlu2).
  pose proof (same_session d id calls us a (logged_in c, username c) es o R Hoff Ha Hn Hl Hlast) as H. rewrite Es in H.
  destruct H as (-> & R' & Hend). destruct (same_disconnect _ a' d R' Hend) as [R'' [HS' _]].
  assert (Forall call_ok calls) as Hok by (eapply Forall_impl; [exact Hn|apply call_names_ok]).
  destruct (rep_client_run server_peer _ calls c id es oip p0 s o m Rc (linked_ok d s a L) Hok Ho)
    as (sts' & c1' & s1' & o1' & m1' & es1' & E1' & _ & _ & _ & _ & Hlu1 & _).
  rewrite E1 in E1'. injection E1' as <- <- <- <- <-. rewrite <-Hlu2 in Hlu1. injection Hlu1 as H1 H2.
  by eexists _, c1, s1, o1, m1, c2, t2, m2, a', _.
Qed.

(** A registration of [b], a logout the mock server does not know, half a request
    and the end of the connection; then, after a failing [accept], a login of [b]
    and no more on a connection that stays open. *)
Definition demo_conns : list (option (Z * socket (P := bytes))) :=
  [Some (4, MkSocket [] ([1; 4; 1; 98; 1; 113] ++ [5; 0] ++ [1; 4; 1]) (fun _ => 2) (fun i => if Nat.ltb i 11 then 1 else 0) false); None;
   Some (5, MkSocket [] [3; 4; 1; 98; 1; 113] (fun _ => 3) (fun _ => 100) false)].

Definition stack_bytes (n : Z) : bytes := replicate (Z.to_nat n) 170.

Lemma mock_main_exact_witness :
  let run := main recorder (stack_bytes CHAT_MAX_MSG_SIZE) (stack_bytes 33) (stack_bytes 33) (fun s => S (length (incoming s)))
    (MkListen 3 true true) demo_conns in
  (fun x => map remote x.1.2) <$> run = Some [[2; 1; 0; 2; 1; 255]; [4; 1; 0]] /\
  snd <$> run = Some [4] /\
  exists us ss ds, run = Some (None, us, ss, ds) /\ served_all [] (omap id demo_conns) ss ds us.
Proof.
  split; [by vm_compute|]. split; [by vm_compute|].
  apply (mock_main_exact (stack_bytes CHAT_MAX_MSG_SIZE) (stack_bytes 33) (stack_bytes 33) (MkListen 3 true true) demo_conns);
    [done|done|by apply Forall_replicate|done|].
  unfold demo_conns. cbn. repeat (apply Forall_cons_2; [unfold is_byte_list, is_u8; cbn; by repeat constructor|]). constructor.
Defined.

(** A server just started, and a client that has connected to it. *)
Lemma fresh_linked : exists s0 m0, linked 5 (demo_link s0 m0) (fresh initial_pairs).
Proof.
  destruct (rep_Init [] (Mem [] 0)) as (r & s0 & m0 & _ & C0 & O0). assert (alloc_ok (Mem [] 0)) as Hm by constructor.
  destruct C0 as [(-> & _ & ps & _ & R0 & _ & Hps)|(_ & _ & _ & Hbad)]; [|by destruct Hbad].
  rewrite (Hps Hm) in R0. exists s0, m0. constructor; [constructor|..]; try done; [|by apply O0].
  apply client_ok_fresh; [done|]. by apply Forall_replicate.
Qed.

Definition demo_mock_link : socket := MkSocket (([], []) : mock_users * bytes) [] (fun _ => 1) (fun _ => 1) false.
Definition demo_auth : list client_call :=
  [CLogin [98] [113]; CRegister [98] [113]; CRegister [98] [112]; CLogin [98] [112]; CLogin [98] [113]].

Lemma mock_agrees_with_server_witness : exists s0 m0, linked 5 (demo_link s0 m0) (fresh initial_pairs) /\
  (mock_session demo_auth []).1 = [2; 0; 1; 3; 0] /\
  exists sts c1 s1 o1 m1 c2 t2 m2 a' us',
    client_run server_peer demo_auth (Some demo_client) (Some (replicate 16 0)) (Some 0) (demo_link s0 m0) demo_os (Mem [] 0)
      = Some ((sts, Some c1, s1, o1), m1) /\
    client_run (mock_peer (stack_bytes CHAT_MAX_MSG_SIZE) (stack_bytes 33) (stack_bytes 33) (fun _ => 2) (fun _ => 3)) demo_auth (Some demo_client) (Some (replicate 16 0)) (Some 0) demo_mock_link demo_os (Mem [] 0)
      = Some ((sts, Some c2, t2, demo_os), m2) /\
    logged_in c1 = logged_in c2 /\ username c1 = username c2 /\
    linked 5 s1 a' /\
    mock_linked (stack_bytes CHAT_MAX_MSG_SIZE) (stack_bytes 33) (stack_bytes 33) (fun _ => 2) (fun _ => 3) t2 us' /\
    same_users us' (spec_disconnect a' 5) /\ aS (spec_disconnect a' 5) = ∅.
Proof.
  destruct fresh_linked as (s0 & m0 & L). exists s0, m0. split; [exact L|]. split; [by vm_compute|].
  assert (mock_ready (stack_bytes CHAT_MAX_MSG_SIZE) (stack_bytes 33) (stack_bytes 33) (fun _ => 2) (fun _ => 3)) as HR.
  { repeat split; try done. by apply Forall_replicate. }
  apply (mock_agrees_with_server (stack_bytes CHAT_MAX_MSG_SIZE) (stack_bytes 33) (stack_bytes 33) (fun _ => 2) (fun _ => 3)
    5 demo_auth demo_client 7 [] (replicate 16 0) 0 (demo_link s0 m0) demo_mock_link demo_os
    (Mem [] 0) (fresh initial_pairs) [] HR L).
  - by vm_compute.
  - done.
  - done.
  - exact demo_client_ok.
  - constructor.
  - done.
  - unfold demo_auth. by repeat constructor.
  - apply (bool_decide_eq_true_1 (Forall call_names demo_auth)). by vm_compute.
  - by vm_compute.
  - by vm_compute.
  - vm_compute. done.
Defined.
