(* ===== verification/ServerTypes.v ===== *)
(** * Types and sizes in the server's state

    Every value the server keeps fits the C type and the array it is kept in, in
    every state that can be reached: names and passwords are strings of at most
    32 characters, descriptors index the socket table, ports are 16-bit numbers,
    addresses fit 16 bytes, and the member count of a group stays between 1 and
    the number of descriptors, so its increments and decrements never wrap
    around. *)

From S2P Require Import Prelude Protocol GenDlist HashMap Index FreeMcQueue GroupMng UserMng ServerNet ServerMng.

(** A string in a [char] array of [n + 1] bytes. *)
Definition fits (n : Z) (s : cstring) : Prop := is_cstring s /\ strlen s <= n.

(** ** Requests *)

Definition request_typed (r : request) : Prop :=
  match r with
  | RRegister u p | RLogin u p => fits CHAT_MAX_USERNAME_LEN u /\ fits CHAT_MAX_PASSWORD_LEN p
  | RCreate g | RJoin g | RLeave g => fits CHAT_MAX_GROUPNAME_LEN g
  | RLogout | RIgnored => True
  end.

Lemma c_prefix_fits n b : is_byte_list b -> blen b <= n -> fits n (c_prefix b).
Proof.
  intros Hb Hl. destruct (c_str_stored_prefix b []) as [_ Hs]. split; [|lia]. clear Hl Hs.
  induction Hb as [|c b Hc Hb IH]; [constructor|]. cbn [c_prefix]. destruct (c =? 0) eqn:E; [constructor|].
  bprop. constructor; [unfold is_u8 in Hc; lia|done].
Qed.

Lemma parse_field_fits max b v r : is_byte_list b -> parse_field max b = Some (v, r) ->
  is_byte_list v /\ blen v <= max /\ is_byte_list r.
Proof.
  intros Hb E. pose proof (parse_field_spec max b Hb) as H. rewrite E in H. destruct H as [-> Hl].
  apply Forall_cons_1 in Hb as [_ Hb]. apply Forall_app in Hb as [? ?]. done.
Qed.

Lemma parse_frame_body fr t l body : is_byte_list fr -> parse_frame fr = Some (t, l, body) -> is_byte_list body.
Proof.
  intros Hb. destruct fr as [|t' [|l' b]]; try done. cbn. destruct (_ <=? _); [|done]. intros [= _ _ <-].
  by do 2 apply Forall_cons_1 in Hb as [_ Hb].
Qed.

Lemma parse_request_typed fr : is_byte_list fr -> request_typed (parse_request fr).
Proof.
  intros Hb. assert (forall g, parse_group fr = Some g -> fits CHAT_MAX_GROUPNAME_LEN g) as Hg.
  { intros g. unfold parse_group, parse_groupname. destruct (parse_frame fr) as [[[t l] body]|] eqn:E; [|done].
    apply parse_frame_body in E; [|done]. cbn [mbind option_bind]. destruct (l <? 1); [done|].
    destruct (parse_field _ body) as [[v r]|] eqn:Ef; [|done]. apply parse_field_fits in Ef as (? & ? & _); [|done].
    intros [= <-]. by apply c_prefix_fits. }
  assert (forall u p, parse_user_pass fr = Some (u, p) -> fits CHAT_MAX_USERNAME_LEN u /\ fits CHAT_MAX_PASSWORD_LEN p) as Hu.
  { intros u p. unfold parse_user_pass. destruct (parse_frame fr) as [[[t l] body]|] eqn:E; [|done].
    apply parse_frame_body in E; [|done].
    destruct (parse_field _ body) as [[v r]|] eqn:Ef; [|done]. apply parse_field_fits in Ef as (? & ? & Hr); [|done].
    destruct (parse_field _ r) as [[w r']|] eqn:Ef'; [|done]. apply parse_field_fits in Ef' as (? & ? & _); [|done].
    intros [= <- <-]. split; by apply c_prefix_fits. }
  unfold parse_request. destruct fr as [|t [|l body]]; try done. set (fr := t :: l :: body) in *.
  repeat case_match; simplify_eq; cbn [request_typed]; auto.
Qed.

(** ** The abstract state *)

Record user_typed (k : cstring) (i : UInfo) : Prop := {
  ut_name : fits CHAT_MAX_USERNAME_LEN k;
  ut_pass : fits CHAT_MAX_PASSWORD_LEN (u_pass i);
  ut_groups : Forall (fits CHAT_MAX_GROUPNAME_LEN) (u_groups i)
}.

Record state_typed (a : astate) : Prop := {
  st_users : map_Forall user_typed (aU a);
  st_groups : map_Forall (fun g _ => fits CHAT_MAX_GROUPNAME_LEN g) (aG a)
}.

Lemma fresh_typed ps : state_typed (fresh ps).
Proof. constructor; by intros ? ?. Qed.

Lemma user_at_typed a d k i : state_typed a -> user_at (aU a) (aS a) d = Some (k, i) -> user_typed k i.
Proof.
  intros T. unfold user_at. destruct (aS a !! d) as [k'|]; [|done]. destruct (aU a !! k') as [i'|] eqn:E; [|done].
  intros [= <- <-]. by apply (st_users _ T).
Qed.

(** Members leave: no new group. *)
Lemma drop_member_typed gp g : map_Forall (fun g _ => fits CHAT_MAX_GROUPNAME_LEN g) gp.1 ->
  map_Forall (fun g _ => fits CHAT_MAX_GROUPNAME_LEN g) (drop_member gp g).1.
Proof.
  intros H. unfold drop_member. destruct (gp.1 !! g) as [grp|] eqn:E; [|done].
  destruct (member_count grp =? 1); cbn [fst]; [by apply map_Forall_delete|]. apply map_Forall_insert_2; [by apply (H g grp)|done].
Qed.

Lemma drop_members_typed gs gp : map_Forall (fun g _ => fits CHAT_MAX_GROUPNAME_LEN g) gp.1 ->
  map_Forall (fun g _ => fits CHAT_MAX_GROUPNAME_LEN g) (foldl drop_member gp gs).1.
Proof. revert gp. induction gs as [|g gs IH]; intros gp H; [done|]. by apply IH, drop_member_typed. Qed.

Lemma request_state_typed a d r : state_typed a -> request_typed r -> state_typed (spec_request a d r).1.
Proof.
  intros T Hr. pose proof T as [TU TG]. destruct r as [u p|u p| |g|g|g|]; cbn [spec_request request_typed] in *; [| | | | | |done].
  - unfold spec_register. destruct (aU a !! u); [done|]. constructor; [|done]. apply map_Forall_insert_2; [|done].
    destruct Hr. by constructor.
  - unfold spec_login. destruct (aS a !! d); [done|]. destruct (aU a !! u) as [i|] eqn:E; [|done].
    destruct (negb _); [done|]. destruct (u_sock i); [done|]. constructor; [|done]. apply map_Forall_insert_2; [|done].
    destruct (TU u i E). by constructor.
  - destruct (user_at _ _ _) as [[k i]|] eqn:E; [|done]. destruct (user_at_typed a d k i T E) as [? ? ?].
    constructor; cbn [fst aU aG]; [|by apply drop_members_typed]. apply map_Forall_insert_2; [|done]. by constructor.
  - destruct (user_at _ _ _) as [[k i]|] eqn:E; [|done]. destruct (user_at_typed a d k i T E) as [? ? Hg].
    destruct (aG a !! g); [done|]. destruct (aP a); [done|]. constructor; cbn; (apply map_Forall_insert_2; [|done]); [|done].
    constructor; [done|done|]. apply Forall_app_2; [done|by apply Forall_cons_2].
  - destruct (user_at _ _ _) as [[k i]|] eqn:E; [|done]. destruct (user_at_typed a d k i T E) as [? ? Hg].
    destruct (aG a !! g); [|done]. destruct (bool_decide _); [done|]. constructor; cbn; (apply map_Forall_insert_2; [|done]); [|done].
    constructor; [done|done|]. apply Forall_app_2; [done|by apply Forall_cons_2].
  - destruct (user_at _ _ _) as [[k i]|] eqn:E; [|done]. destruct (user_at_typed a d k i T E) as [? ? Hg].
    destruct (bool_decide _); [|done]. constructor; cbn [fst set_member aU aG]; [|by apply drop_member_typed].
    apply map_Forall_insert_2; [|done]. constructor; [done|done|]. cbn. rewrite Forall_forall in *.
    intros x [_ Hx]%list_elem_of_filter. by apply Hg.
Qed.

(** The types do not depend on the pool. *)
Lemma state_typed_pool a a' : aU a' = aU a -> aG a' = aG a -> state_typed a -> state_typed a'.
Proof. intros EU EG [TU TG]. constructor; [by rewrite EU|by rewrite EG]. Qed.

Lemma event_typed P a e a' o : state_typed a -> event_ok e -> event_effect P a e a' o -> state_typed a'.
Proof.
  intros T He. destruct e as [d msg|d]; cbn [event_effect].
  - destruct He as (_ & Hb & _). intros (reps & _ & [(EU & _ & EG & _)|(_ & EU & _ & EG & _)]);
      apply (state_typed_pool _ _ EU EG); [|done]. by apply request_state_typed, parse_request_typed.
  - intros (_ & EU & _ & EG & _). apply (state_typed_pool _ _ EU EG). by apply request_state_typed.
Qed.

Lemma run_typed P es a a' o : run_effect P es a a' o -> state_typed a -> Forall event_ok es -> state_typed a'.
Proof.
  induction 1 as [|e es a a1 a2 o1 o2 He _ IH]; [done|]. intros T [Hok Hes]%Forall_cons_1.
  apply IH; [|done]. by eapply event_typed.
Qed.

(** ** The objects on the heap *)

(** A user object: strings that fit their arrays, a descriptor exactly if the
    user is online, which indexes the socket table, and a list of group names. *)
Record user_object_typed (u : User) : Prop := {
  uo_name : fits CHAT_MAX_USERNAME_LEN (username u);
  uo_pass : fits CHAT_MAX_PASSWORD_LEN (password u);
  uo_socket : match state u with
              | USER_ONLINE => 0 <= socketFd u < FD_SETSIZE
              | USER_OFFLINE => socketFd u = -1
              end;
  uo_groups : exists gs, groups_rep (joinedGroups u) gs /\ NoDup gs /\ Forall (fits CHAT_MAX_GROUPNAME_LEN) gs
}.

(** A group object. *)
Record group_object_typed (grp : Group) : Prop := {
  go_name : fits CHAT_MAX_GROUPNAME_LEN (g_name grp);
  go_ip : fits (CHAT_MAX_IP_STR_LEN - 1) (mcast_ip grp);
  go_port : is_u16 (mcast_port grp);
  go_count : 1 <= member_count grp <= FD_SETSIZE
}.

Record server_typed (s : server) : Prop := {
  se_users : map_Forall (fun _ => user_object_typed) (users s);
  se_groups : map_Forall (fun _ => group_object_typed) (groups (gh s));
  se_sockets : exists um, g_userMng s = Some um /\ Z.of_nat (length (activeSockets um)) = FD_SETSIZE
}.

Lemma rep_typed s a : sv_rep s a -> state_typed a -> server_typed s.
Proof.
  intros R [TU TG]. destruct (sv_um _ _ R) as (um & Hum & Ru). destruct (sv_gm _ _ R) as (gm & _ & Rg). constructor.
  - intros l u Hu. destruct (um_index _ _ _ _ Ru) as (h & g & G & _ & _ & I & HG).
    destruct (ix_live _ _ _ _ I l u Hu) as [Hk _]. specialize (HG (username u)). rewrite Hk in HG.
    inversion HG as [? i Hr Ei Hi|]; subst. symmetry in Hi. destruct (TU _ _ Hi) as [Hn Hp Hg]. destruct Hr as [Ep Est Hgr].
    destruct (um_groups _ _ _ _ Ru _ _ Hi) as [Hnd _]. constructor; [done|by rewrite Ep| |by exists (u_groups i)].
    destruct (u_sock i) as [d|] eqn:Es; destruct Est as [-> ->]; [|done]. apply (um_range _ _ _ _ Ru d (username u)).
    apply (um_online _ _ _ _ Ru). by exists i.
  - intros l grp Hl. destruct (gm_index _ _ _ _ Rg) as (h & g & _ & _ & I).
    destruct (ix_live _ _ _ _ I l grp Hl) as [Hk _]. destruct (group_address_own s a _ grp R Hk) as (Hin & _).
    destruct (initial_good _ Hin) as (Hlen & Hc & Hport). pose proof (gm_members _ _ _ _ Rg _ _ Hk) as Hm.
    constructor; [by apply (TG _ _ Hk)|split; [done|]|done|split; [lia|]].
    + unfold pair_ok in Hlen. cbn [ip pair_of] in Hlen. lia.
    + pose proof (members_bound um (users s) (aU a) (aS a) (g_name grp) Ru) as Hb. rewrite <-(sv_members _ _ R) in Hb.
      unfold count in Hb. by rewrite Hk in Hb.
  - exists um. split; [done|]. apply (um_slots _ _ _ _ Ru).
Qed.

(** C10: Every value the server keeps has its C type and fits its array.  After
    any run of the server, on any messages of any connections
    and any disconnects: the name and the password of every user object and the
    name of every group object are strings of at most 32 characters; a user
    object has a descriptor below [FD_SETSIZE] exactly if its state says the user
    is online, and -1 otherwise; its list has names of at most 32 characters, none
    twice; the address of a group fits its 16 bytes, its port 16 bits, and its
    member count is between 1 and [FD_SETSIZE], so counting never wraps around. *)
Theorem server_values_fit es m s m1 s' m2 : Forall event_ok es ->
  ServerMng_Init (stopped []) m = Some ((0, s), m1) -> run_events es s m1 = Some (s', m2) -> server_typed s'.
Proof.
  intros Hes E1 E2. destruct (rep_Init [] m) as (r & s0 & m0 & E & C & O1).
  rewrite E1 in E. injection E as <- <- <-.
  destruct C as [(_ & _ & ps & _ & R & _ & _)|(? & _)]; [|done].
  destruct (rep_events es s _ m1 R Hes) as (s2 & m3 & a & E & R' & _ & (o & _ & F) & _). rewrite E2 in E. injection E as <- <-.
  eapply rep_typed; [exact R'|]. by eapply run_typed; [exact F|apply fresh_typed|].
Qed.

Lemma server_values_fit_witness : exists s0 m0 s m, ServerMng_Init (stopped []) (Mem [] 0) = Some ((0, s0), m0) /\
  run_events demo_group_events s0 m0 = Some (s, m) /\ server_typed s.
Proof.
  destruct (demo_run demo_group_events demo_group_events_ok) as (s0 & m0 & s & m & E0 & E & _).
  exists s0, m0, s, m. split; [exact E0|]. split; [exact E|].
  exact (server_values_fit demo_group_events (Mem [] 0) s0 m0 s m demo_group_events_ok E0 E).
Defined.
