(* ===== verification/TestProtocol.v ===== *)
(** * The tests of the codec: [tests/test_protocol.c]

    The repository's test program, check by check, against the model of the
    codec.  What the uninitialised local variables of a test hold is an
    argument; the file proves that the program reports success whatever that is,
    so the model gives every result the tests expect of the code. *)

From Stdlib Require Import String Ascii.
From S2P Require Import Prelude Protocol Text.
Import String.StringSyntax.

(** [CHECK(cond)]: what it adds to [g_failures]. *)
Definition CHECK (cond : bool) : Z := if cond then 0 else 1.

(** [strcmp(buf, s) == 0]; undefined on an array without a NUL. *)
Definition streq (buf : ptr bytes) (s : cstring) : option bool := str ← buf ≫= c_str; Some (str_eqb str s).

(** The local variables before they are assigned. *)
Record stack := MkStack {
  k_buf : bytes;
  k_user : bytes;
  k_pass : bytes;
  k_group : bytes;
  k_ip : bytes;
  k_t : Z;
  k_l : Z;
  k_st : Z;
  k_port : Z
}.

Section tests.
Context (k : stack).

Definition test_user_pass_roundtrip (op : ChatOpcode) : option Z :=
  '(n, buf) ← chat_encode_user_pass_req (Some (k_buf k)) op (Some (chars "alice")) (Some (chars "s3cret"));
  let f1 := CHECK (n >? 0) in
  '(r, t, l) ← chat_peek_header buf n (Some (k_t k)) (Some (k_l k));
  let f2 := CHECK (r =? 0) in
  t ← t;
  let f3 := CHECK (t =? opcode op) in
  l ← l;
  let f4 := CHECK (l + 2 =? n) in
  '(r, user, pass) ← chat_decode_user_pass buf n (Some (k_user k)) (Some (k_pass k));
  let f5 := CHECK (r =? 0) in
  e ← streq user (chars "alice");
  let f6 := CHECK e in
  e ← streq pass (chars "s3cret");
  let f7 := CHECK e in
  Some (f1 + f2 + f3 + f4 + f5 + f6 + f7).

Definition test_status_roundtrip (op : ChatOpcode) (st : ChatStatus) : option Z :=
  '(n, buf) ← chat_encode_status_rep (Some (k_buf k)) op st;
  let f1 := CHECK (n =? 3) in
  '(r, t, l) ← chat_peek_header buf n (Some (k_t k)) (Some (k_l k));
  let f2 := CHECK (r =? 0) in
  t ← t;
  l ← l;
  let f3 := CHECK ((t =? opcode op) && (l =? 1)) in
  '(r, out) ← chat_decode_status_rep buf n (Some (k_st k));
  let f4 := CHECK (r =? 0) in
  out ← out;
  let f5 := CHECK (out =? status_code st) in
  Some (f1 + f2 + f3 + f4 + f5).

(** Here [buf] is initialised with zeros. *)
Definition test_malformed : option Z :=
  let buf := Some (replicate (Z.to_nat CHAT_MAX_MSG_SIZE) 0) in
  '(r, _, _) ← chat_peek_header buf 1 (Some 0) (Some 0);
  let f1 := CHECK (r =? -1) in
  '(n, buf) ← chat_encode_user_pass_req buf OP_REG_REQ (Some (chars "bob")) (Some (chars "pw"));
  let f2 := CHECK (n >? 0) in
  '(r, user, pass) ← chat_decode_user_pass buf (n - 1) (Some (k_user k)) (Some (k_pass k));
  let f3 := CHECK (r =? -1) in
  b ← buf;
  b ← buf_set b 0 (opcode OP_REG_REQ);
  b ← buf_set b 1 8;
  b ← buf_set b 2 200;
  '(r, user, pass) ← chat_decode_user_pass (Some b) 10 user pass;
  let f4 := CHECK (r =? -1) in
  b ← buf_set b 0 (opcode OP_LOGIN_REP);
  b ← buf_set b 1 2;
  b ← buf_set b 2 (status_code ST_OK);
  '(r, _) ← chat_decode_status_rep (Some b) 3 (Some (k_st k));
  let f5 := CHECK (r =? -1) in
  let big := replicate (Z.to_nat (CHAT_MAX_USERNAME_LEN + 4)) (char "x") in
  '(r, _) ← chat_encode_user_pass_req (Some b) OP_REG_REQ (Some big) (Some (chars "pw"));
  let f6 := CHECK (r =? -1) in
  Some (f1 + f2 + f3 + f4 + f5 + f6).

Definition test_groupname_roundtrip (op : ChatOpcode) : option Z :=
  '(n, buf) ← chat_encode_groupname_req (Some (k_buf k)) op (Some (chars "general"));
  let f1 := CHECK (n >? 0) in
  '(r, t, l) ← chat_peek_header buf n (Some (k_t k)) (Some (k_l k));
  let f2 := CHECK (r =? 0) in
  t ← t;
  let f3 := CHECK (t =? opcode op) in
  '(r, group) ← chat_decode_groupname buf n (Some (k_group k));
  let f4 := CHECK (r =? 0) in
  e ← streq group (chars "general");
  let f5 := CHECK e in
  Some (f1 + f2 + f3 + f4 + f5).

Definition test_group_rep_ok_roundtrip : option Z :=
  '(n, buf) ← chat_encode_group_rep_ok (Some (k_buf k)) OP_JOIN_GROUP_REP (Some (chars "239.1.1.7")) 6007;
  let f1 := CHECK (n >? 0) in
  '(r, st, ip, port) ← chat_decode_group_rep_ok buf n (Some (k_st k)) (Some (k_ip k)) (Some (k_port k));
  let f2 := CHECK (r =? 0) in
  st ← st;
  let f3 := CHECK (st =? status_code ST_OK) in
  e ← streq ip (chars "239.1.1.7");
  let f4 := CHECK e in
  port ← port;
  let f5 := CHECK (port =? 6007) in
  Some (f1 + f2 + f3 + f4 + f5).

Definition test_group_rep_failure_form : option Z :=
  '(n, buf) ← chat_encode_status_rep (Some (k_buf k)) OP_JOIN_GROUP_REP ST_ERR_GROUP_NOT_FOUND;
  let f1 := CHECK (n =? 3) in
  '(r, st, ip, port) ← chat_decode_group_rep_ok buf n (Some (k_st k)) (Some (k_ip k)) (Some (k_port k));
  let f2 := CHECK (r =? 0) in
  st ← st;
  let f3 := CHECK (st =? status_code ST_ERR_GROUP_NOT_FOUND) in
  ip ← ip;
  c ← buf_get ip 0;
  let f4 := CHECK (c =? 0) in
  port ← port;
  let f5 := CHECK (port =? 0) in
  Some (f1 + f2 + f3 + f4 + f5).

Definition test_logout_req : option Z :=
  '(n, buf) ← chat_encode_logout_req (Some (k_buf k));
  let f1 := CHECK (n =? 2) in
  '(r, t, l) ← chat_peek_header buf n (Some (k_t k)) (Some (k_l k));
  let f2 := CHECK (r =? 0) in
  t ← t;
  l ← l;
  let f3 := CHECK ((t =? opcode OP_LOGOUT_REQ) && (l =? 0)) in
  Some (f1 + f2 + f3).

Definition test_group_malformed : option Z :=
  '(n, buf) ← chat_encode_groupname_req (Some (k_buf k)) OP_CREATE_GROUP_REQ (Some (chars "team"));
  let f1 := CHECK (n >? 0) in
  '(r, group) ← chat_decode_groupname buf (n - 1) (Some (k_group k));
  let f2 := CHECK (r =? -1) in
  '(n, buf) ← chat_encode_group_rep_ok buf OP_JOIN_GROUP_REP (Some (chars "239.1.1.7")) 6007;
  let f3 := CHECK (n >? 0) in
  '(r, _, _, _) ← chat_decode_group_rep_ok buf (n - 1) (Some (k_st k)) (Some (k_ip k)) (Some (k_port k));
  let f4 := CHECK (r =? -1) in
  let big := replicate (Z.to_nat (CHAT_MAX_GROUPNAME_LEN + 4)) (char "g") in
  '(r, _) ← chat_encode_groupname_req buf OP_CREATE_GROUP_REQ (Some big);
  let f5 := CHECK (r =? -1) in
  Some (f1 + f2 + f3 + f4 + f5).

End tests.

(** [main]: the exit code.  Each call of a test has locals of its own. *)
Definition run_tests (stk : nat -> stack) : option Z :=
  f ← mapM (fun '(i, test) => test (stk i)) (imap pair
    [(fun k => test_user_pass_roundtrip k OP_REG_REQ); (fun k => test_user_pass_roundtrip k OP_LOGIN_REQ);
     (fun k => test_status_roundtrip k OP_REG_REP ST_OK); (fun k => test_status_roundtrip k OP_REG_REP ST_ERR_USER_EXISTS);
     (fun k => test_status_roundtrip k OP_LOGIN_REP ST_ERR_BAD_PASSWORD);
     (fun k => test_status_roundtrip k OP_LOGIN_REP ST_ERR_USER_NOT_FOUND);
     (fun k => test_groupname_roundtrip k OP_CREATE_GROUP_REQ); (fun k => test_groupname_roundtrip k OP_JOIN_GROUP_REQ);
     (fun k => test_groupname_roundtrip k OP_LEAVE_GROUP_REQ);
     test_group_rep_ok_roundtrip; test_group_rep_failure_form; test_logout_req; test_malformed; test_group_malformed]);
  let g_failures := foldr Z.add 0 f in
  Some (if g_failures =? 0 then 0 else 1).

(** ** The tests pass *)

(** Arrays of the declared sizes. *)
Record stack_ok (k : stack) : Prop := {
  so_buf : is_byte_list (k_buf k) /\ blen (k_buf k) = CHAT_MAX_MSG_SIZE;
  so_user : blen (k_user k) = CHAT_MAX_USERNAME_LEN + 1;
  so_pass : blen (k_pass k) = CHAT_MAX_PASSWORD_LEN + 1;
  so_group : blen (k_group k) = CHAT_MAX_GROUPNAME_LEN + 1;
  so_ip : blen (k_ip k) = CHAT_MAX_IP_STR_LEN
}.

Section pass.
Context (k : stack) (Hk : stack_ok k).

(** The buffer after a frame was encoded into it. *)
Lemma encoded_buf b f : is_byte_list b -> blen b = CHAT_MAX_MSG_SIZE -> is_byte_list f -> blen f <= CHAT_MAX_MSG_SIZE ->
  is_byte_list (f ++ drop (length f) b) /\ blen (f ++ drop (length f) b) = CHAT_MAX_MSG_SIZE.
Proof.
  intros Hb Hl Hf Hlf. split; [apply Forall_app; split; [done|by apply Forall_drop]|].
  rewrite <-Hl in *. unfold blen in *. rewrite length_app, length_drop. lia.
Qed.

(** Compute a fact about concrete bytes. *)
Ltac compute_fact := match goal with |- ?P => apply (bool_decide_eq_true_1 P); by vm_compute end.

(** The test up to the buffer with the frame [f] in it. *)
Ltac encode_frame Hb Hl f :=
  rewrite ?encode_user_pass_spec, ?encode_groupname_spec, ?encode_status_spec, ?encode_logout_spec, ?encode_group_ok_spec
    by (rewrite ?Hl; done || by vm_compute); cbn [mbind option_bind];
  let Hb' := fresh "Hb'" in let Hl' := fresh "Hl'" in
  destruct (encoded_buf (k_buf k) f Hb Hl) as [Hb' Hl']; [compute_fact|done|].

(** The test after its decoder. *)
Ltac decode_frame :=
  rewrite ?decode_user_pass_spec, ?decode_groupname_spec, ?decode_group_rep_spec
    by (repeat match goal with H : blen _ = _ |- _ => rewrite ?H; clear H end; done || by vm_compute).

Lemma pass_user_pass op : op = OP_REG_REQ \/ op = OP_LOGIN_REQ -> test_user_pass_roundtrip k op = Some 0.
Proof.
  destruct Hk as [[Hb Hl] Hu Hp Hg Hi]. unfold test_user_pass_roundtrip. intros [-> | ->].
  - encode_frame Hb Hl (user_pass_frame OP_REG_REQ (chars "alice") (chars "s3cret")). by decode_frame.
  - encode_frame Hb Hl (user_pass_frame OP_LOGIN_REQ (chars "alice") (chars "s3cret")). by decode_frame.
Qed.

Lemma pass_status op st : test_status_roundtrip k op st = Some 0.
Proof.
  destruct Hk as [[Hb Hl] Hu Hp Hg Hi]. unfold test_status_roundtrip.
  rewrite encode_status_spec by (rewrite Hl; by vm_compute). by destruct op, st.
Qed.

Lemma pass_groupname op : op = OP_CREATE_GROUP_REQ \/ op = OP_JOIN_GROUP_REQ \/ op = OP_LEAVE_GROUP_REQ ->
  test_groupname_roundtrip k op = Some 0.
Proof.
  destruct Hk as [[Hb Hl] Hu Hp Hg Hi]. unfold test_groupname_roundtrip. intros [-> |[-> | ->]].
  - encode_frame Hb Hl (groupname_frame OP_CREATE_GROUP_REQ (chars "general")). by decode_frame.
  - encode_frame Hb Hl (groupname_frame OP_JOIN_GROUP_REQ (chars "general")). by decode_frame.
  - encode_frame Hb Hl (groupname_frame OP_LEAVE_GROUP_REQ (chars "general")). by decode_frame.
Qed.

Lemma pass_group_rep : test_group_rep_ok_roundtrip k = Some 0 /\ test_group_rep_failure_form k = Some 0.
Proof.
  destruct Hk as [[Hb Hl] Hu Hp Hg Hi]. unfold test_group_rep_ok_roundtrip, test_group_rep_failure_form. split.
  - encode_frame Hb Hl (group_ok_frame OP_JOIN_GROUP_REP (chars "239.1.1.7") 6007). by decode_frame.
  - encode_frame Hb Hl (status_frame OP_JOIN_GROUP_REP ST_ERR_GROUP_NOT_FOUND). by decode_frame.
Qed.

Lemma pass_logout : test_logout_req k = Some 0.
Proof.
  destruct Hk as [[Hb Hl] Hu Hp Hg Hi]. unfold test_logout_req.
  rewrite encode_logout_spec by (rewrite Hl; by vm_compute). done.
Qed.

Lemma pass_malformed : test_malformed k = Some 0.
Proof. by vm_compute. Qed.

Lemma pass_group_malformed : test_group_malformed k = Some 0.
Proof.
  destruct Hk as [[Hb Hl] Hu Hp Hg Hi]. unfold test_group_malformed.
  encode_frame Hb Hl (groupname_frame OP_CREATE_GROUP_REQ (chars "team")).
  rewrite decode_groupname_spec by (rewrite ?Hl', ?Hg; done || by vm_compute).
  set (b := groupname_frame OP_CREATE_GROUP_REQ (chars "team") ++ _) in *. cbn [mbind option_bind].
  rewrite (encode_group_ok_spec b) by (rewrite ?Hl'; done || by vm_compute). cbn [mbind option_bind].
  destruct (encoded_buf b (group_ok_frame OP_JOIN_GROUP_REP (chars "239.1.1.7") 6007) Hb' Hl') as [Hb2 Hl2]; [compute_fact|done|].
  rewrite decode_group_rep_spec by (rewrite ?Hl2, ?Hi; done || by vm_compute). done.
Qed.

End pass.

(** The repository's own tests pass on the model: whatever the local
    variables of the tests hold at first, no test has undefined behaviour, every
    check holds, and the program ends with 0. *)
Theorem protocol_tests_pass stk : (forall i, stack_ok (stk i)) -> run_tests stk = Some 0.
Proof.
  intros Hk. unfold run_tests. cbn [imap mapM mbind option_bind mret option_ret compose].
  rewrite !pass_user_pass, !pass_status, !pass_groupname by (auto || apply Hk).
  rewrite !(proj1 (pass_group_rep _ (Hk _))), !(proj2 (pass_group_rep _ (Hk _))), !pass_logout, !pass_malformed,
    !pass_group_malformed by apply Hk. done.
Qed.

Definition demo_stack : stack :=
  MkStack (replicate 257 170) (replicate 33 170) (replicate 33 170) (replicate 33 170) (replicate 16 170) 170 170 170 170.

Lemma protocol_tests_pass_witness : stack_ok demo_stack /\ run_tests (fun _ => demo_stack) = Some 0.
Proof.
  assert (stack_ok demo_stack) as H by (constructor; try split; try done; by apply Forall_replicate).
  split; [exact H|]. apply (protocol_tests_pass (fun _ => demo_stack)). intros _. exact H.
Defined.
